(** * Sugoroku game engine: property economy, card resolver, Bombee debuff

    A shallow embedding of the pure state-transforming core of the game
    ([PropertyManager], [CardManager], [BombeeManager]) and the properties
    of it that the specification states.

    Conventions of the embedding.
    - JavaScript numbers holding money, prices and incomes are integers
      ([Z]); counters that index arrays ([upgradeLevel]) are naturals.
    - Percentages ([Math.floor (price * 0.7)] and the like) are computed
      over exact rationals ([Q]) and floored.  The code takes the product in
      double precision first: with the rate 1/2 and with whole-numbered
      factors the two agree; with a rate such as 0.7 the floor of the code
      can be 1 below the exact one where the exact product is an integer
      (489 against 490 for 700 * 0.7).
    - The income multiplier of a player is a rational; the values of the
      cards of the catalog are integers.
    - A nullable field is an [option]; an optional field likewise.
    - [Math.random] and [randomPick] are made explicit: every function that
      draws takes its draws as arguments.
    - Result messages are presentation only and are not modelled. *)

From Stdlib Require Import String ZArith List Bool Lia QArith Qround.
From Stdlib Require Import Permutation Lqa.
Import ListNotations.
Open Scope string_scope.
Open Scope list_scope.
Open Scope Z_scope.

(** ** Data model ([types/game.ts], [types/event.ts], [types/card.ts]) *)

Inductive PlayerType := human | cpu.
Inductive Difficulty := easy | normal_difficulty | hard.
Inductive BombeeType := none | mini | normal | king.

Inductive GamePhase :=
| card_use | dice_roll | moving | junction
| square_action | bombee_action | year_end | game_over.

Module Position.
Record t := mk {
  cityId : string;
  routeId : option string;
  squareIndex : Z;
  previousCityId : option string
}.
Definition with_cityId (c : string) (x : t) : t :=
  mk c (routeId x) (squareIndex x) (previousCityId x).
End Position.

Module Player.
Record t := mk {
  id : string;
  name : string;
  type : PlayerType;
  difficulty : Difficulty;
  money : Z;
  totalAssets : Z;
  position : Position.t;
  hand : list string;
  bombeeType : BombeeType;
  bombeeElapsedTurns : Z;
  color : Z;
  pawIndex : Z;
  incomeMultiplier : option Q;
  diceMultiplier : option Z;
  bombeeImmuneYears : option Z
}.

(** Object spread with some fields replaced: [{ ...p, money: m }]. *)
Definition with_money (m : Z) (p : t) : t :=
  mk (id p) (name p) (type p) (difficulty p) m (totalAssets p)
     (position p) (hand p) (bombeeType p) (bombeeElapsedTurns p) (color p)
     (pawIndex p) (incomeMultiplier p) (diceMultiplier p)
     (bombeeImmuneYears p).
Definition with_totalAssets (a : Z) (p : t) : t :=
  mk (id p) (name p) (type p) (difficulty p) (money p) a
     (position p) (hand p) (bombeeType p) (bombeeElapsedTurns p) (color p)
     (pawIndex p) (incomeMultiplier p) (diceMultiplier p)
     (bombeeImmuneYears p).
Definition with_position (x : Position.t) (p : t) : t :=
  mk (id p) (name p) (type p) (difficulty p) (money p) (totalAssets p)
     x (hand p) (bombeeType p) (bombeeElapsedTurns p) (color p)
     (pawIndex p) (incomeMultiplier p) (diceMultiplier p)
     (bombeeImmuneYears p).
Definition with_hand (h : list string) (p : t) : t :=
  mk (id p) (name p) (type p) (difficulty p) (money p) (totalAssets p)
     (position p) h (bombeeType p) (bombeeElapsedTurns p) (color p)
     (pawIndex p) (incomeMultiplier p) (diceMultiplier p)
     (bombeeImmuneYears p).
Definition with_bombee (b : BombeeType) (e : Z) (p : t) : t :=
  mk (id p) (name p) (type p) (difficulty p) (money p) (totalAssets p)
     (position p) (hand p) b e (color p)
     (pawIndex p) (incomeMultiplier p) (diceMultiplier p)
     (bombeeImmuneYears p).
Definition with_incomeMultiplier (m : option Q) (p : t) : t :=
  mk (id p) (name p) (type p) (difficulty p) (money p) (totalAssets p)
     (position p) (hand p) (bombeeType p) (bombeeElapsedTurns p) (color p)
     (pawIndex p) m (diceMultiplier p) (bombeeImmuneYears p).
Definition with_diceMultiplier (m : option Z) (p : t) : t :=
  mk (id p) (name p) (type p) (difficulty p) (money p) (totalAssets p)
     (position p) (hand p) (bombeeType p) (bombeeElapsedTurns p) (color p)
     (pawIndex p) (incomeMultiplier p) m (bombeeImmuneYears p).
Definition with_bombeeImmuneYears (y : option Z) (p : t) : t :=
  mk (id p) (name p) (type p) (difficulty p) (money p) (totalAssets p)
     (position p) (hand p) (bombeeType p) (bombeeElapsedTurns p) (color p)
     (pawIndex p) (incomeMultiplier p) (diceMultiplier p) y.

(** [{ ...p, money: p.money + d, totalAssets: p.totalAssets + d }] *)
Definition credit (d : Z) (p : t) : t :=
  with_totalAssets (totalAssets p + d) (with_money (money p + d) p).
End Player.

Module Property.
Record t := mk {
  id : string;
  cityId : string;
  name : string;
  theme : string;
  price : Z;
  income : Z;
  upgradePrices : list Z;
  upgradeIncomes : list Z;
  upgradeLevel : nat;
  ownerId : option string
}.
Definition with_ownerId (o : option string) (p : t) : t :=
  mk (id p) (cityId p) (name p) (theme p) (price p) (income p)
     (upgradePrices p) (upgradeIncomes p) (upgradeLevel p) o.
Definition with_upgradeLevel (l : nat) (p : t) : t :=
  mk (id p) (cityId p) (name p) (theme p) (price p) (income p)
     (upgradePrices p) (upgradeIncomes p) l (ownerId p).
(** [{ ...p, ownerId: null, upgradeLevel: 0 }] *)
Definition toMarket (p : t) : t := with_upgradeLevel 0%nat (with_ownerId None p).
End Property.

Module GameState.
Record t := mk {
  id : string;
  currentYear : Z;
  currentMonth : Z;
  totalYears : Z;
  currentPlayerIndex : Z;
  phase : GamePhase;
  players : list Player.t;
  properties : list Property.t;
  destinationCityId : string;
  turnCount : Z
}.
Definition with_players (ps : list Player.t) (s : t) : t :=
  mk (id s) (currentYear s) (currentMonth s) (totalYears s)
     (currentPlayerIndex s) (phase s) ps (properties s)
     (destinationCityId s) (turnCount s).
Definition with_properties (qs : list Property.t) (s : t) : t :=
  mk (id s) (currentYear s) (currentMonth s) (totalYears s)
     (currentPlayerIndex s) (phase s) (players s) qs
     (destinationCityId s) (turnCount s).
End GameState.

Inductive CardType :=
| move_to_destination | move_steps | move_to_city | buy_property
| steal_property | sell_property | get_money | pay_money | bombee_away
| bombee_transfer | monopoly_break | card_steal | plus_dice | double_income.

Definition CardType_eq_dec (a b : CardType) : {a = b} + {a <> b}.
Proof. decide equality. Defined.

Inductive CardRarity := common | uncommon | rare.

Module CardEffect.
Record t := mk {
  type : string;
  value : option Z;
  targetType : option string
}.
End CardEffect.

Module Card.
Record t := mk {
  id : string;
  type : CardType;
  name : string;
  description : string;
  effect : CardEffect.t;
  rarity : CardRarity
}.
End Card.

(** *** The board ([types/board.ts]) *)

Inductive RouteType := shinkansen | local_line | ferry.

Inductive SquareType :=
| property_square | card_square | shop_square
| destination_square | event_square | normal_square.

Inductive RegionType :=
| hokkaido | tohoku | kanto | chubu | kinki | chugoku | shikoku | kyushu_okinawa.

Module City.
Record t := mk {
  id : string;
  name : string;
  prefecture : string;
  region : RegionType;
  lat : Q;
  lng : Q
}.
End City.

Module Route.
Record t := mk {
  id : string;
  fromCityId : string;
  toCityId : string;
  routeType : RouteType;
  squares : list SquareType
}.
End Route.

Module Board.
Record t := mk {
  cities : list City.t;
  routes : list Route.t
}.
End Board.

(** ** JavaScript idioms used by the managers *)

(** [o === s] for a nullable string [o]. *)
Definition isId (o : option string) (s : string) : bool :=
  match o with Some x => String.eqb x s | None => false end.

(** Truthiness of a nullable string: [null] and the empty string are falsy. *)
Definition truthy (o : option string) : bool :=
  match o with Some x => negb (String.eqb x "") | None => false end.

(** [o === null] *)
Definition isNull {A : Type} (o : option A) : bool :=
  match o with Some _ => false | None => true end.

(** [x ?? d] *)
Definition orElse {A : Type} (o : option A) (d : A) : A :=
  match o with Some x => x | None => d end.

(** [Math.floor (x * q)] for an integer [x] and a rate [q]. *)
Definition floorMul (x : Z) (q : Q) : Z := Qfloor (inject_Z x * q)%Q.

(** [a < b] on rationals. *)
Definition Qltb (a b : Q) : bool := negb (Qle_bool b a).

(** [players.find (p => p.id === i)] and [properties.find (p => p.id === i)] *)
Definition findPlayer (ps : list Player.t) (i : string) : option Player.t :=
  find (fun p => String.eqb (Player.id p) i) ps.
Definition findProperty (qs : list Property.t) (i : string) : option Property.t :=
  find (fun p => String.eqb (Property.id p) i) qs.

(** [properties.filter (p => p.ownerId === i).reduce ((sum, p) => sum + p.price, 0)] *)
Definition ownedValue (qs : list Property.t) (i : string) : Z :=
  fold_left (fun sum p => sum + Property.price p)
            (filter (fun p => isId (Property.ownerId p) i) qs) 0.

(** [arr.reduce ((m, p) => better p m ? p : m)] without an initial value:
    [None] stands for the empty array, on which the callers never reduce. *)
Definition reduce1 {A : Type} (better : A -> A -> bool) (arr : list A) : option A :=
  match arr with
  | [] => None
  | x :: rest => Some (fold_left (fun m p => if better p m then p else m) rest x)
  end.

(** [arr.sort ((a, b) => key a - key b)]: stable, ascending. *)
Fixpoint insertBy {A : Type} (key : A -> Z) (x : A) (l : list A) : list A :=
  match l with
  | [] => [x]
  | y :: r => if key x <=? key y then x :: l else y :: insertBy key x r
  end.
Definition sortBy {A : Type} (key : A -> Z) (l : list A) : list A :=
  fold_right (insertBy key) [] l.

(** [[...new Set (arr)]]: the distinct strings, in order of first occurrence. *)
Fixpoint uniq (seen l : list string) : list string :=
  match l with
  | [] => []
  | x :: r =>
      if existsb (String.eqb x) seen then uniq seen r
      else x :: uniq (x :: seen) r
  end.

(** [arr.sort (cmp)] for a comparator, [before x y] standing for
    [cmp (x, y) <= 0]: stable. *)
Fixpoint insertWith {A : Type} (before : A -> A -> bool) (x : A) (l : list A) : list A :=
  match l with
  | [] => [x]
  | y :: r => if before x y then x :: l else y :: insertWith before x r
  end.
Definition sortWith {A : Type} (before : A -> A -> bool) (l : list A) : list A :=
  fold_right (insertWith before) [] l.

(** [arr.map (f).filter (x => x !== undefined)] *)
Definition mapDefined {A B : Type} (f : A -> option B) (l : list A) : list B :=
  fold_right (fun x acc => match f x with Some y => y :: acc | None => acc end) [] l.

(** ** Random utilities ([utils/random.ts]) *)

(** [arr[arr.length - 1]] *)
Definition lastItem {T : Type} (arr : list T) : option T :=
  nth_error arr (length arr - 1).

(** The loop of [weightedRandom]: [None] when it falls through. A missing
    weight makes the threshold [NaN], which no later comparison accepts. *)
Fixpoint weightedLoop {T : Type} (items : list T) (weights : list Z) (threshold : Q)
  : option T :=
  match items, weights with
  | x :: rest, w :: ws =>
      let threshold := (threshold - inject_Z w)%Q in
      if Qle_bool threshold 0 then Some x else weightedLoop rest ws threshold
  | _, _ => None
  end.

(** [roll] is the value of [Math.random ()]. The result is [undefined]
    ([None]) only for an empty array of items. *)
Definition weightedRandom {T : Type} (items : list T) (weights : list Z) (roll : Q)
  : option T :=
  let total := fold_left (fun sum w => sum + w) weights 0 in
  match weightedLoop items weights (roll * inject_Z total)%Q with
  | Some x => Some x
  | None => lastItem items
  end.

(** The loop of [randomPickN] over the shrinking [copy]; the head of [draws]
    is the index drawn by [randomInt (0, copy.length - 1)] at each round. *)
Fixpoint pickLoop {T : Type} (count : nat) (copy : list T) (draws : list nat) : list T :=
  match count, copy with
  | S k, first :: _ =>
      let idx := (hd 0%nat draws mod length copy)%nat in
      nth idx copy first
      :: pickLoop k (firstn idx copy ++ skipn (S idx) copy) (tl draws)
  | _, _ => []
  end.

Definition randomPickN {T : Type} (arr : list T) (n : nat) (draws : list nat) : list T :=
  pickLoop (Nat.min n (length arr)) arr draws.

(** A call either returns a value or throws (a [TypeError] on
    [undefined.field], or [reduce] of an empty array with no initial value). *)
Inductive Outcome (A : Type) : Type :=
| Returned (a : A)
| Thrown.
Arguments Returned {A} a.
Arguments Thrown {A}.

(** ** PropertyManager *)

Inductive PurchaseReason := pr_not_enough_money | pr_already_owned.

Module PurchaseResult.
Record t := mk {
  success : bool;
  reason : option PurchaseReason;
  newState : option GameState.t
}.
End PurchaseResult.

Module IncomeResult.
Record t := mk {
  playerId : string;
  propertyIncome : Z;
  monopolyBonus : Z;
  totalIncome : Z
}.
End IncomeResult.

Module PropertyManager.

Definition getPropertiesByCity (properties : list Property.t) (cityId : string)
  : list Property.t :=
  filter (fun p => String.eqb (Property.cityId p) cityId) properties.

Definition getOwnedProperties (properties : list Property.t) (playerId : string)
  : list Property.t :=
  filter (fun p => isId (Property.ownerId p) playerId) properties.

Definition hasMonopoly (properties : list Property.t) (cityId playerId : string)
  : bool :=
  let cityProps := filter (fun p => String.eqb (Property.cityId p) cityId) properties in
  (0 <? length cityProps)%nat
  && forallb (fun p => isId (Property.ownerId p) playerId) cityProps.

Definition getCurrentPrice (property : Property.t) : Z := Property.price property.

Definition getCurrentIncome (property : Property.t) : Z :=
  match Property.upgradeLevel property with
  | O => Property.income property
  | S k => orElse (nth_error (Property.upgradeIncomes property) k)
                  (Property.income property)
  end.

Definition getLandFee (property : Property.t) : Z :=
  floorMul (getCurrentIncome property) (1 # 2).

Definition recalcTotalAssets (state : GameState.t) : GameState.t :=
  let newPlayers :=
    map (fun player =>
           let propertyValue := ownedValue (GameState.properties state) (Player.id player) in
           Player.with_totalAssets (Player.money player + propertyValue) player)
        (GameState.players state) in
  GameState.with_players newPlayers state.

Definition buyProperty (state : GameState.t) (playerId propertyId : string)
  : PurchaseResult.t :=
  match findPlayer (GameState.players state) playerId,
        findProperty (GameState.properties state) propertyId with
  | Some player, Some property =>
      if negb (isNull (Property.ownerId property)) then
        PurchaseResult.mk false (Some pr_already_owned) None
      else
        let currentPrice := getCurrentPrice property in
        if Player.money player <? currentPrice then
          PurchaseResult.mk false (Some pr_not_enough_money) None
        else
          let newPlayers :=
            map (fun p => if String.eqb (Player.id p) playerId
                          then Player.with_money (Player.money p - currentPrice) p
                          else p)
                (GameState.players state) in
          let newProperties :=
            map (fun p => if String.eqb (Property.id p) propertyId
                          then Property.with_ownerId (Some playerId) p
                          else p)
                (GameState.properties state) in
          let newState :=
            GameState.with_properties newProperties
              (GameState.with_players newPlayers state) in
          PurchaseResult.mk true None (Some (recalcTotalAssets newState))
  | _, _ => PurchaseResult.mk false (Some pr_not_enough_money) None
  end.

Definition upgradeProperty (state : GameState.t) (playerId propertyId : string)
  : PurchaseResult.t :=
  match findPlayer (GameState.players state) playerId,
        findProperty (GameState.properties state) propertyId with
  | Some player, Some property =>
      if negb (isId (Property.ownerId property) playerId) then
        PurchaseResult.mk false None None
      else if (length (Property.upgradePrices property) <=? Property.upgradeLevel property)%nat then
        PurchaseResult.mk false None None
      else
        let upgradeCost :=
          nth (Property.upgradeLevel property) (Property.upgradePrices property) 0 in
        if Player.money player <? upgradeCost then
          PurchaseResult.mk false (Some pr_not_enough_money) None
        else
          let newPlayers :=
            map (fun p => if String.eqb (Player.id p) playerId
                          then Player.with_money (Player.money p - upgradeCost) p
                          else p)
                (GameState.players state) in
          let newProperties :=
            map (fun p => if String.eqb (Property.id p) propertyId
                          then Property.with_upgradeLevel (S (Property.upgradeLevel p)) p
                          else p)
                (GameState.properties state) in
          let newState :=
            GameState.with_properties newProperties
              (GameState.with_players newPlayers state) in
          PurchaseResult.mk true None (Some (recalcTotalAssets newState))
  | _, _ => PurchaseResult.mk false None None
  end.

Definition payLandFee (state : GameState.t) (payerId propertyId : string)
  : GameState.t :=
  match findPlayer (GameState.players state) payerId,
        findProperty (GameState.properties state) propertyId with
  | Some payer, Some property =>
      if negb (truthy (Property.ownerId property))
         || isId (Property.ownerId property) payerId
      then state
      else
        let fee := getLandFee property in
        let actualFee := Z.min fee (Player.money payer) in
        let newPlayers :=
          map (fun p =>
                 if String.eqb (Player.id p) payerId
                 then Player.with_money (Player.money p - actualFee) p
                 else if isId (Property.ownerId property) (Player.id p)
                 then Player.with_money (Player.money p + actualFee) p
                 else p)
              (GameState.players state) in
        recalcTotalAssets (GameState.with_players newPlayers state)
  | _, _ => state
  end.

(** The [Map] from city id to the owned properties there, in insertion
    order, as [calcPlayerAnnualIncome] builds it. *)
Fixpoint mapPush (byCityId : list (string * list Property.t)) (p : Property.t)
  : list (string * list Property.t) :=
  match byCityId with
  | [] => [(Property.cityId p, [p])]
  | (c, l) :: rest =>
      if String.eqb c (Property.cityId p) then (c, l ++ [p]) :: rest
      else (c, l) :: mapPush rest p
  end.

Definition groupByCity (owned : list Property.t) : list (string * list Property.t) :=
  fold_left mapPush owned [].

(** The body of the loop over the cities of [byCityId]: [acc] holds
  [propertyIncome] and [monopolyBonus]. *)
Definition addCity (properties : list Property.t) (playerId : string)
         (acc : Z * Z) (entry : string * list Property.t) : Z * Z :=
  let '(propertyIncome, monopolyBonus) := acc in
  let '(cityId, cityProps) := entry in
  let cityIncome :=
    fold_left (fun sum p => sum + getCurrentIncome p) cityProps 0 in
  let allCityProps :=
    filter (fun p => String.eqb (Property.cityId p) cityId) properties in
  let isMonopoly :=
    (0 <? length allCityProps)%nat
    && forallb (fun p => isId (Property.ownerId p) playerId) allCityProps in
  (propertyIncome + cityIncome,
   if isMonopoly then monopolyBonus + cityIncome else monopolyBonus).

Definition calcPlayerAnnualIncome (properties : list Property.t) (playerId : string)
  : IncomeResult.t :=
  let owned := getOwnedProperties properties playerId in
  if (length owned =? 0)%nat then IncomeResult.mk playerId 0 0 0
  else
    let byCityId := groupByCity owned in
    let '(propertyIncome, monopolyBonus) :=
      fold_left (addCity properties playerId) byCityId (0, 0) in
    IncomeResult.mk playerId propertyIncome monopolyBonus
                    (propertyIncome + monopolyBonus).

Definition sellPropertyForcibly (state : GameState.t) (playerId propertyId : string)
  : GameState.t :=
  match findPlayer (GameState.players state) playerId,
        findProperty (GameState.properties state) propertyId with
  | Some player, Some property =>
      if negb (isId (Property.ownerId property) playerId) then state
      else
        let sellValue := floorMul (Property.price property) (1 # 2) in
        let newPlayers :=
          map (fun p => if String.eqb (Player.id p) playerId
                        then Player.with_money (Player.money p + sellValue) p
                        else p)
              (GameState.players state) in
        let newProperties :=
          map (fun p => if String.eqb (Property.id p) propertyId
                        then Property.toMarket p
                        else p)
              (GameState.properties state) in
        recalcTotalAssets
          (GameState.with_properties newProperties
             (GameState.with_players newPlayers state))
  | _, _ => state
  end.

(** The year-end settlement: the new state and the income results, one per
    player in the order of the players. *)
Definition calcYearEndIncome (state : GameState.t)
  : GameState.t * list IncomeResult.t :=
  let '(results, newPlayers) :=
    fold_left
      (fun (acc : list IncomeResult.t * list Player.t) (player : Player.t) =>
         let '(results, newPlayers) := acc in
         let income :=
           calcPlayerAnnualIncome (GameState.properties state) (Player.id player) in
         let multiplier := orElse (Player.incomeMultiplier player) 1%Q in
         let boostedIncome :=
           IncomeResult.mk (IncomeResult.playerId income)
                           (IncomeResult.propertyIncome income)
                           (IncomeResult.monopolyBonus income)
                           (floorMul (IncomeResult.totalIncome income) multiplier) in
         (results ++ [boostedIncome],
          map (fun p =>
                 if String.eqb (Player.id p) (Player.id player)
                 then Player.with_incomeMultiplier (Some 1%Q)
                        (Player.with_money
                           (Player.money p + IncomeResult.totalIncome boostedIncome) p)
                 else p)
              newPlayers))
      (GameState.players state) ([], GameState.players state) in
  (recalcTotalAssets (GameState.with_players newPlayers state), results).

(** [reduce] without an initial value throws on the empty array. *)
Definition getLastPlacePlayerId (players : list Player.t) : Outcome string :=
  match reduce1 (fun p worst => Player.totalAssets p <? Player.totalAssets worst)
                players with
  | Some worst => Returned (Player.id worst)
  | None => Thrown
  end.

End PropertyManager.

(** ** CardManager *)

Inductive UseCardReason := not_found | not_owner | no_target | hand_full.

Module UseCardResult.
Record t := mk {
  success : bool;
  reason : option UseCardReason;
  newState : option GameState.t
}.
Definition fail (r : UseCardReason) : t := mk false (Some r) None.
Definition ok (s : GameState.t) : t := mk true None (Some s).
End UseCardResult.

Module UseCardOptions.
Record t := mk {
  targetPlayerId : option string;
  targetPropertyId : option string;
  targetCityId : option string;
  targetCardId : option string
}.
(** The default argument [{}]. *)
Definition empty : t := mk None None None None.
End UseCardOptions.

Module BuyCardResult.
Record t := mk {
  newState : GameState.t;
  success : bool;
  reason : option string
}.
End BuyCardResult.

(** The running best candidate of the monopoly-break search. *)
Module BestTarget.
Record t := mk {
  oppId : string;
  prop : option Property.t;
  ratio : Q
}.
End BestTarget.

Module CardManager.
Section WithCatalog.

(** The catalog installed by [loadCards]. *)
Variable allCards : list Card.t.

Definition MAX_CARD_COUNT : nat := 8.

Definition getCardById (id : string) : option Card.t :=
  find (fun c => String.eqb (Card.id c) id) allCards.

Definition canDrawCard (state : GameState.t) (playerId : string) : bool :=
  match findPlayer (GameState.players state) playerId with
  | None => false
  | Some player => (length (Player.hand player) <? MAX_CARD_COUNT)%nat
  end.

Definition getAllCards : list Card.t := allCards.

Definition getCardsByType (type : CardType) : list Card.t :=
  filter (fun c => if CardType_eq_dec (Card.type c) type then true else false) allCards.

Definition RARITY_WEIGHTS (r : CardRarity) : Z :=
  match r with
  | common => 60
  | uncommon => 30
  | rare => 10
  end.

(** [roll] is the value of [Math.random ()] inside [weightedRandom]. *)
Definition drawRandomCard (roll : Q) : option Card.t :=
  if (length allCards =? 0)%nat then None
  else
    let weights := map (fun c => RARITY_WEIGHTS (Card.rarity c)) allCards in
    weightedRandom allCards weights roll.

(** The new state and the card gained, if any. *)
Definition gainCard (state : GameState.t) (playerId : string) (roll : Q)
  : GameState.t * option Card.t :=
  if negb (canDrawCard state playerId) then (state, None)
  else
    match drawRandomCard roll with
    | None => (state, None)
    | Some card =>
        let newPlayers :=
          map (fun p =>
                 if String.eqb (Player.id p) playerId
                 then Player.with_hand (Player.hand p ++ [Card.id card]) p
                 else p)
              (GameState.players state) in
        (GameState.with_players newPlayers state, Some card)
    end.

Definition getCardShopPrice (card : Card.t) : Z :=
  match Card.rarity card with
  | common => 500
  | uncommon => 1500
  | rare => 5000
  end.

Definition buyCard (state : GameState.t) (playerId cardId : string)
  : BuyCardResult.t :=
  match findPlayer (GameState.players state) playerId, getCardById cardId with
  | Some player, Some card =>
      if negb (canDrawCard state playerId) then
        BuyCardResult.mk state false (Some "hand_full")
      else
        let price := getCardShopPrice card in
        if Player.money player <? price then
          BuyCardResult.mk state false (Some "not_enough_money")
        else
          let newPlayers :=
            map (fun p =>
                   if String.eqb (Player.id p) playerId
                   then Player.with_hand (Player.hand p ++ [Card.id card])
                          (Player.with_money (Player.money p - price) p)
                   else p)
                (GameState.players state) in
          BuyCardResult.mk (GameState.with_players newPlayers state) true None
  | _, _ => BuyCardResult.mk state false (Some "not_found")
  end.

Definition recalcTotalAssetsLocal (state : GameState.t) : GameState.t :=
  let newPlayers :=
    map (fun player =>
           let propertyValue := ownedValue (GameState.properties state) (Player.id player) in
           Player.with_totalAssets (Player.money player + propertyValue) player)
        (GameState.players state) in
  GameState.with_players newPlayers state.

(** [players.map (p => p.id === i ? f p : p)] *)
Definition updPlayer (i : string) (f : Player.t -> Player.t)
           (ps : list Player.t) : list Player.t :=
  map (fun p => if String.eqb (Player.id p) i then f p else p) ps.

(** [properties.map (p => p.id === i ? f p : p)] *)
Definition updProperty (i : string) (f : Property.t -> Property.t)
           (qs : list Property.t) : list Property.t :=
  map (fun p => if String.eqb (Property.id p) i then f p else p) qs.

Definition removeFromHand (playerId cardId : string) (s : GameState.t)
  : GameState.t :=
  GameState.with_players
    (updPlayer playerId
       (fun p => Player.with_hand
                   (filter (fun id => negb (String.eqb id cardId)) (Player.hand p)) p)
       (GameState.players s))
    s.

Definition useMoveToDest (state : GameState.t) (playerId : string) (card : Card.t)
  : UseCardResult.t :=
  if isId (CardEffect.targetType (Card.effect card)) "double_move_next_turn" then
    let multiplier := orElse (CardEffect.value (Card.effect card)) 2 in
    UseCardResult.ok
      (GameState.with_players
         (updPlayer playerId (Player.with_diceMultiplier (Some multiplier))
            (GameState.players state))
         state)
  else
    UseCardResult.ok
      (GameState.with_players
         (updPlayer playerId
            (fun p => Player.with_position
                        (Position.with_cityId (GameState.destinationCityId state)
                           (Player.position p)) p)
            (GameState.players state))
         state).

Definition useGetMoney (state : GameState.t) (playerId : string) (card : Card.t)
  : UseCardResult.t :=
  let value := orElse (CardEffect.value (Card.effect card)) 1000 in
  let targetType := CardEffect.targetType (Card.effect card) in
  if isId targetType "property_value_percent" then
    let propTotal := ownedValue (GameState.properties state) playerId in
    let gain := (propTotal * value) / 100 in
    UseCardResult.ok
      (GameState.with_players
         (updPlayer playerId (Player.credit gain) (GameState.players state)) state)
  else if isId targetType "all_players_each" then
    let '(totalReceived, newPlayers) :=
      fold_left
        (fun (acc : Z * list Player.t) (opp : Player.t) =>
           let '(totalReceived, newPlayers) := acc in
           let actual := Z.min value (Player.money opp) in
           (totalReceived + actual,
            updPlayer (Player.id opp) (Player.credit (- actual)) newPlayers))
        (filter (fun p => negb (String.eqb (Player.id p) playerId))
                (GameState.players state))
        (0, GameState.players state) in
    UseCardResult.ok
      (GameState.with_players
         (updPlayer playerId (Player.credit totalReceived) newPlayers) state)
  else
    UseCardResult.ok
      (GameState.with_players
         (updPlayer playerId (Player.credit value) (GameState.players state)) state).

(** The loop of the [all_players_each] payment, with its [break]. *)
Fixpoint payEach (value : Z) (opponents : list Player.t)
         (totalPaid remaining : Z) (newPlayers : list Player.t)
  : Z * list Player.t :=
  match opponents with
  | [] => (totalPaid, newPlayers)
  | opp :: rest =>
      if remaining <=? 0 then (totalPaid, newPlayers)
      else
        let actual := Z.min value remaining in
        payEach value rest (totalPaid + actual) (remaining - actual)
                (updPlayer (Player.id opp) (Player.credit actual) newPlayers)
  end.

Definition usePayMoney (state : GameState.t) (playerId : string) (card : Card.t)
  : Outcome UseCardResult.t :=
  let value := orElse (CardEffect.value (Card.effect card)) 1000 in
  match findPlayer (GameState.players state) playerId with
  | None => Thrown
  | Some player =>
      let targetType := CardEffect.targetType (Card.effect card) in
      if isId targetType "property_value_percent" then
        let propTotal := ownedValue (GameState.properties state) playerId in
        let actual := Z.min ((propTotal * value) / 100) (Player.money player) in
        Returned (UseCardResult.ok
          (GameState.with_players
             (updPlayer playerId (Player.credit (- actual)) (GameState.players state))
             state))
      else if isId targetType "total_assets_percent" then
        let actual :=
          Z.min ((Player.totalAssets player * value) / 100) (Player.money player) in
        Returned (UseCardResult.ok
          (GameState.with_players
             (updPlayer playerId (Player.credit (- actual)) (GameState.players state))
             state))
      else if isId targetType "all_players_each" then
        let opponents :=
          filter (fun p => negb (String.eqb (Player.id p) playerId))
                 (GameState.players state) in
        let '(totalPaid, newPlayers) :=
          payEach value opponents 0 (Player.money player) (GameState.players state) in
        Returned (UseCardResult.ok
          (GameState.with_players
             (updPlayer playerId (Player.credit (- totalPaid)) newPlayers) state))
      else
        let actual := Z.min value (Player.money player) in
        Returned (UseCardResult.ok
          (GameState.with_players
             (updPlayer playerId (Player.credit (- actual)) (GameState.players state))
             state))
  end.

Definition useBombeeTransfer (state : GameState.t) (fromId toId : string)
  : UseCardResult.t :=
  match findPlayer (GameState.players state) fromId,
        findPlayer (GameState.players state) toId with
  | Some from, Some to =>
      match Player.bombeeType from with
      | none => UseCardResult.fail no_target
      | _ =>
          UseCardResult.ok
            (GameState.with_players
               (map (fun p =>
                       if String.eqb (Player.id p) fromId
                       then Player.with_bombee none 0 p
                       else if String.eqb (Player.id p) toId
                       then Player.with_bombee (Player.bombeeType from) 0 p
                       else p)
                    (GameState.players state))
               state)
      end
  | _, _ => UseCardResult.fail no_target
  end.

Definition useCardSteal (state : GameState.t) (stealerId targetId : string)
           (targetCardId : option string) (rnd : nat) : UseCardResult.t :=
  let stealer := findPlayer (GameState.players state) stealerId in
  match findPlayer (GameState.players state) targetId with
  | None => UseCardResult.fail no_target
  | Some target =>
      match Player.hand target with
      | [] => UseCardResult.fail no_target
      | first :: _ =>
          if match stealer with
             | Some s => (MAX_CARD_COUNT <=? length (Player.hand s))%nat
             | None => false
             end
          then UseCardResult.fail hand_full
          else
            let stolen :=
              match targetCardId with
              | Some c =>
                  if negb (String.eqb c "")
                     && existsb (String.eqb c) (Player.hand target)
                  then c
                  else nth (rnd mod length (Player.hand target))
                           (Player.hand target) first
              | None => nth (rnd mod length (Player.hand target))
                            (Player.hand target) first
              end in
            UseCardResult.ok
              (GameState.with_players
                 (map (fun p =>
                         if String.eqb (Player.id p) stealerId
                         then Player.with_hand (Player.hand p ++ [stolen]) p
                         else if String.eqb (Player.id p) targetId
                         then Player.with_hand
                                (filter (fun id => negb (String.eqb id stolen))
                                        (Player.hand p)) p
                         else p)
                      (GameState.players state))
                 state)
      end
  end.

Definition useMoveToCity (state : GameState.t) (playerId : string) (card : Card.t)
  : UseCardResult.t :=
  let targetCityId := orElse (CardEffect.targetType (Card.effect card)) "tokyo" in
  UseCardResult.ok
    (GameState.with_players
       (updPlayer playerId
          (fun p => Player.with_position
                      (Position.with_cityId targetCityId (Player.position p)) p)
          (GameState.players state))
       state).

Definition useBombeeAway (state : GameState.t) (playerId : string) (card : Card.t)
  : UseCardResult.t :=
  match findPlayer (GameState.players state) playerId with
  | None => UseCardResult.ok state
  | Some player =>
      match Player.bombeeType player with
      | none => UseCardResult.ok state
      | _ =>
          let isPermanent :=
            isId (CardEffect.targetType (Card.effect card)) "self_permanent" in
          let immuneYears :=
            if isPermanent then orElse (CardEffect.value (Card.effect card)) 1 else 0 in
          UseCardResult.ok
            (GameState.with_players
               (updPlayer playerId
                  (fun p => Player.with_bombeeImmuneYears (Some immuneYears)
                              (Player.with_bombee none 0 p))
                  (GameState.players state))
               state)
      end
  end.

Definition useBombeeTransferLastToSecond (state : GameState.t) : UseCardResult.t :=
  match sortBy Player.totalAssets (GameState.players state) with
  | last :: second :: _ =>
      match Player.bombeeType last with
      | none => UseCardResult.fail no_target
      | _ =>
          UseCardResult.ok
            (GameState.with_players
               (map (fun p =>
                       if String.eqb (Player.id p) (Player.id last)
                       then Player.with_bombee none 0 p
                       else if String.eqb (Player.id p) (Player.id second)
                       then Player.with_bombee (Player.bombeeType last) 0 p
                       else p)
                    (GameState.players state))
               state)
      end
  | _ => UseCardResult.fail no_target
  end.

(** A truthy optional string argument, if any. *)
Definition given (o : option string) : option string :=
  match o with
  | Some x => if String.eqb x "" then None else Some x
  | None => None
  end.

Definition cheaper (p min : Property.t) : bool :=
  Property.price p <? Property.price min.

Definition useSellProperty (state : GameState.t) (playerId : string) (card : Card.t)
           (targetPropertyId targetPlayerId currentCityId : option string)
  : Outcome UseCardResult.t :=
  let sellRate := (inject_Z (orElse (CardEffect.value (Card.effect card)) 100%Z) / 100)%Q in
  let targetType := CardEffect.targetType (Card.effect card) in
  let selfChoice :=
    let owned :=
      filter (fun p => isId (Property.ownerId p) playerId) (GameState.properties state) in
    match owned with
    | [] => Returned (UseCardResult.fail no_target)
    | first :: _ =>
        let target :=
          orElse
            (match given targetPropertyId with
             | Some t => find (fun p => String.eqb (Property.id p) t) owned
             | None => None
             end)
            first in
        let sellPrice := floorMul (Property.price target) sellRate in
        let newPlayers :=
          updPlayer playerId (fun p => Player.with_money (Player.money p + sellPrice) p)
                    (GameState.players state) in
        let newProperties :=
          updProperty (Property.id target) Property.toMarket (GameState.properties state) in
        Returned (UseCardResult.ok
          (recalcTotalAssetsLocal
             (GameState.with_properties newProperties
                (GameState.with_players newPlayers state))))
    end in
  let opponentForced :=
    match (if isId targetType "opponent_forced" then given targetPlayerId else None) with
    | Some targetPlayerId =>
        let oppProps :=
          filter (fun p => isId (Property.ownerId p) targetPlayerId)
                 (GameState.properties state) in
        if (length oppProps =? 0)%nat then Returned (UseCardResult.fail no_target)
        else
          match reduce1 cheaper oppProps with
          | None => Thrown
          | Some cheapest =>
              let sellPrice := floorMul (Property.price cheapest) sellRate in
              let newPlayers :=
                updPlayer targetPlayerId
                  (fun p => Player.with_money (Player.money p + sellPrice) p)
                  (GameState.players state) in
              let newProperties :=
                updProperty (Property.id cheapest) Property.toMarket
                            (GameState.properties state) in
              Returned (UseCardResult.ok
                (recalcTotalAssetsLocal
                   (GameState.with_properties newProperties
                      (GameState.with_players newPlayers state))))
          end
    | None => selfChoice
    end in
  match (if isId targetType "current_city_all" then given currentCityId else None) with
  | Some currentCityId =>
      let cityOwned :=
        filter (fun p => String.eqb (Property.cityId p) currentCityId
                         && isId (Property.ownerId p) playerId)
               (GameState.properties state) in
      if (length cityOwned =? 0)%nat then Returned (UseCardResult.fail no_target)
      else
        let '(totalReceived, newProperties) :=
          fold_left
            (fun (acc : Z * list Property.t) (prop : Property.t) =>
               let '(totalReceived, newProperties) := acc in
               (totalReceived + floorMul (Property.price prop) sellRate,
                updProperty (Property.id prop) Property.toMarket newProperties))
            cityOwned (0, GameState.properties state) in
        let newPlayers :=
          updPlayer playerId
            (fun p => Player.with_money (Player.money p + totalReceived) p)
            (GameState.players state) in
        Returned (UseCardResult.ok
          (recalcTotalAssetsLocal
             (GameState.with_properties newProperties
                (GameState.with_players newPlayers state))))
  | None => opponentForced
  end.

Definition useStealProperty (state : GameState.t) (playerId : string) (card : Card.t)
           (currentCityId : option string) : Outcome UseCardResult.t :=
  match (if isId (CardEffect.targetType (Card.effect card)) "current_city_all"
         then given currentCityId else None) with
  | Some currentCityId =>
      let cityOppProps :=
        filter (fun p => String.eqb (Property.cityId p) currentCityId
                         && negb (isNull (Property.ownerId p))
                         && negb (isId (Property.ownerId p) playerId))
               (GameState.properties state) in
      if (length cityOppProps =? 0)%nat then Returned (UseCardResult.fail no_target)
      else
        let newProperties :=
          map (fun p =>
                 match find (fun op => String.eqb (Property.id op) (Property.id p))
                            cityOppProps with
                 | Some _ => Property.with_ownerId (Some playerId) p
                 | None => p
                 end)
              (GameState.properties state) in
        Returned (UseCardResult.ok
          (recalcTotalAssetsLocal (GameState.with_properties newProperties state)))
  | None =>
      let opponents :=
        filter (fun p => negb (String.eqb (Player.id p) playerId))
               (GameState.players state) in
      if (length opponents =? 0)%nat then Returned (UseCardResult.fail no_target)
      else
        match reduce1 (fun p best => Player.totalAssets best <? Player.totalAssets p)
                      opponents with
        | None => Thrown
        | Some richest =>
            let oppProps :=
              filter (fun p => isId (Property.ownerId p) (Player.id richest))
                     (GameState.properties state) in
            if (length oppProps =? 0)%nat then Returned (UseCardResult.fail no_target)
            else
              match reduce1 cheaper oppProps with
              | None => Thrown
              | Some cheapest =>
                  let newProperties :=
                    updProperty (Property.id cheapest)
                                (Property.with_ownerId (Some playerId))
                                (GameState.properties state) in
                  Returned (UseCardResult.ok
                    (recalcTotalAssetsLocal
                       (GameState.with_properties newProperties state)))
              end
        end
  end.

(** [for (x of l) { ... return ...; }]: the first iteration that returns. *)
Fixpoint firstReturn {A B : Type} (body : A -> option B) (l : list A) : option B :=
  match l with
  | [] => None
  | x :: r => match body x with Some b => Some b | None => firstReturn body r end
  end.

(** Returning one property of [oppId] to the market with an 80% refund. *)
Definition breakAt (state : GameState.t) (oppId : string) (target : Property.t)
  : UseCardResult.t :=
  let refund := floorMul (Property.price target) (8 # 10) in
  let newPlayers :=
    updPlayer oppId (fun p => Player.with_money (Player.money p + refund) p)
              (GameState.players state) in
  let newProperties :=
    updProperty (Property.id target) Property.toMarket (GameState.properties state) in
  UseCardResult.ok
    (recalcTotalAssetsLocal
       (GameState.with_properties newProperties
          (GameState.with_players newPlayers state))).

Definition useMonopolyBreak (state : GameState.t) (playerId : string) (_card : Card.t)
  : Outcome UseCardResult.t :=
  let opponentIds :=
    map Player.id
        (filter (fun p => negb (String.eqb (Player.id p) playerId))
                (GameState.players state)) in
  let cityIds := uniq [] (map Property.cityId (GameState.properties state)) in
  let monopolized :=
    firstReturn
      (fun cityId =>
         let cityProps :=
           filter (fun p => String.eqb (Property.cityId p) cityId)
                  (GameState.properties state) in
         if (length cityProps =? 0)%nat then None
         else
           firstReturn
             (fun oppId =>
                if forallb (fun p => isId (Property.ownerId p) oppId) cityProps then
                  Some (match reduce1 cheaper cityProps with
                        | None => Thrown
                        | Some cheapest => Returned (breakAt state oppId cheapest)
                        end)
                else None)
             opponentIds)
      cityIds in
  match monopolized with
  | Some r => r
  | None =>
      let bestTarget :=
        fold_left
          (fun (bestTarget : option BestTarget.t) (cityId : string) =>
             let cityProps :=
               filter (fun p => String.eqb (Property.cityId p) cityId)
                      (GameState.properties state) in
             if (length cityProps <=? 1)%nat then bestTarget
             else
               fold_left
                 (fun (bestTarget : option BestTarget.t) (oppId : string) =>
                    let count :=
                      length (filter (fun p => isId (Property.ownerId p) oppId) cityProps) in
                    let ratio :=
                      (inject_Z (Z.of_nat count) / inject_Z (Z.of_nat (length cityProps)))%Q in
                    if Qltb 0%Q ratio && Qltb ratio 1%Q
                       && match bestTarget with
                          | None => true
                          | Some b => Qltb (BestTarget.ratio b) ratio
                          end
                    then
                      let prop :=
                        find (fun p => isId (Property.ownerId p) oppId) cityProps in
                      Some (BestTarget.mk oppId prop ratio)
                    else bestTarget)
                 opponentIds bestTarget)
          cityIds None in
      match bestTarget with
      | Some b =>
          match BestTarget.prop b with
          | None => Thrown
          | Some target => Returned (breakAt state (BestTarget.oppId b) target)
          end
      | None => Returned (UseCardResult.fail no_target)
      end
  end.

Definition useBuyProperty (state : GameState.t) (playerId : string) (card : Card.t)
           (currentCityId : option string) : UseCardResult.t :=
  match findPlayer (GameState.players state) playerId with
  | None => UseCardResult.fail not_found
  | Some player =>
      let targetType := CardEffect.targetType (Card.effect card) in
      let discount :=
        match given currentCityId with
        | Some currentCityId =>
            let discountPct := orElse (CardEffect.value (Card.effect card)) 0 in
            let discountRate := (inject_Z discountPct / 100)%Q in
            match sortBy Property.price
                    (filter (fun p => String.eqb (Property.cityId p) currentCityId
                                      && isNull (Property.ownerId p))
                            (GameState.properties state)) with
            | [] => UseCardResult.fail no_target
            | unowned :: _ =>
                let discountedPrice := floorMul (Property.price unowned) (1 - discountRate)%Q in
                if Player.money player <? discountedPrice then UseCardResult.fail no_target
                else
                  let newPlayers :=
                    updPlayer playerId
                      (fun p => Player.with_money (Player.money p - discountedPrice) p)
                      (GameState.players state) in
                  let newProperties :=
                    updProperty (Property.id unowned)
                                (Property.with_ownerId (Some playerId))
                                (GameState.properties state) in
                  UseCardResult.ok
                    (recalcTotalAssetsLocal
                       (GameState.with_properties newProperties
                          (GameState.with_players newPlayers state)))
            end
        | None => UseCardResult.fail no_target
        end in
      let anyLocation :=
        if isId targetType "any_location" then
          match sortBy Property.price
                  (filter (fun p => isNull (Property.ownerId p)
                                    && (Property.price p <=? Player.money player))
                          (GameState.properties state)) with
          | [] => UseCardResult.fail no_target
          | unowned :: _ =>
              let newPlayers :=
                updPlayer playerId
                  (fun p => Player.with_money (Player.money p - Property.price unowned) p)
                  (GameState.players state) in
              let newProperties :=
                updProperty (Property.id unowned)
                            (Property.with_ownerId (Some playerId))
                            (GameState.properties state) in
              UseCardResult.ok
                (recalcTotalAssetsLocal
                   (GameState.with_properties newProperties
                      (GameState.with_players newPlayers state)))
          end
        else discount in
      match (if isId targetType "current_city_free_one"
             then given currentCityId else None) with
      | Some currentCityId =>
          match find (fun p => String.eqb (Property.cityId p) currentCityId
                               && isNull (Property.ownerId p))
                     (GameState.properties state) with
          | None => UseCardResult.fail no_target
          | Some unowned =>
              let newProperties :=
                updProperty (Property.id unowned)
                            (Property.with_ownerId (Some playerId))
                            (GameState.properties state) in
              UseCardResult.ok
                (recalcTotalAssetsLocal (GameState.with_properties newProperties state))
          end
      | None => anyLocation
      end
  end.

Definition useDoubleIncome (state : GameState.t) (playerId : string) (card : Card.t)
  : UseCardResult.t :=
  let multiplier := orElse (CardEffect.value (Card.effect card)) 2 in
  if isId (CardEffect.targetType (Card.effect card)) "one_month" then
    let owned :=
      filter (fun p => isId (Property.ownerId p) playerId) (GameState.properties state) in
    let monthlyIncome :=
      fold_left
        (fun sum p =>
           let income :=
             match Property.upgradeLevel p with
             | O => Property.income p
             | S k => orElse (nth_error (Property.upgradeIncomes p) k) (Property.income p)
             end in
           sum + income / 12)
        owned 0 in
    let gain := floorMul monthlyIncome (inject_Z multiplier) in
    UseCardResult.ok
      (GameState.with_players
         (updPlayer playerId (Player.credit gain) (GameState.players state)) state)
  else
    UseCardResult.ok
      (GameState.with_players
         (updPlayer playerId (Player.with_incomeMultiplier (Some (inject_Z multiplier)))
            (GameState.players state))
         state).

(** [rnd] is the index drawn by [randomPick] when a card is stolen at random. *)
Definition useCard (state : GameState.t) (playerId cardId : string)
           (options : UseCardOptions.t) (rnd : nat) : Outcome UseCardResult.t :=
  match findPlayer (GameState.players state) playerId, getCardById cardId with
  | Some player, Some card =>
      if negb (existsb (String.eqb cardId) (Player.hand player)) then
        Returned (UseCardResult.fail not_owner)
      else
        let removed := removeFromHand playerId cardId state in
        match Card.type card with
        | move_to_destination => Returned (useMoveToDest removed playerId card)
        | get_money => Returned (useGetMoney removed playerId card)
        | pay_money => usePayMoney removed playerId card
        | bombee_transfer =>
            if isId (CardEffect.targetType (Card.effect card)) "last_to_second" then
              Returned (useBombeeTransferLastToSecond removed)
            else
              match given (UseCardOptions.targetPlayerId options) with
              | None => Returned (UseCardResult.fail no_target)
              | Some targetPlayerId =>
                  Returned (useBombeeTransfer removed playerId targetPlayerId)
              end
        | card_steal =>
            match given (UseCardOptions.targetPlayerId options) with
            | None => Returned (UseCardResult.fail no_target)
            | Some targetPlayerId =>
                Returned (useCardSteal removed playerId targetPlayerId
                            (UseCardOptions.targetCardId options) rnd)
            end
        | move_to_city => Returned (useMoveToCity removed playerId card)
        | bombee_away => Returned (useBombeeAway removed playerId card)
        | sell_property =>
            useSellProperty removed playerId card
              (UseCardOptions.targetPropertyId options)
              (UseCardOptions.targetPlayerId options)
              (UseCardOptions.targetCityId options)
        | steal_property =>
            useStealProperty removed playerId card (UseCardOptions.targetCityId options)
        | monopoly_break => useMonopolyBreak removed playerId card
        | buy_property =>
            Returned (useBuyProperty removed playerId card
                        (UseCardOptions.targetCityId options))
        | double_income => Returned (useDoubleIncome removed playerId card)
        | move_steps | plus_dice => Returned (UseCardResult.ok removed)
        end
  | _, _ => Returned (UseCardResult.fail not_found)
  end.

(** [draws] are the indices drawn by [randomPickN]. *)
Definition getShopLineup (count : nat) (draws : list nat) : list Card.t :=
  if (length allCards <=? count)%nat then allCards
  else randomPickN allCards count draws.

Definition getPlayerHand (state : GameState.t) (playerId : string) : list Card.t :=
  match findPlayer (GameState.players state) playerId with
  | None => []
  | Some player =>
      fold_right
        (fun c acc => match c with Some card => card :: acc | None => acc end)
        [] (map getCardById (Player.hand player))
  end.

Definition discardCard (state : GameState.t) (playerId cardId : string)
  : GameState.t :=
  GameState.with_players
    (map (fun p =>
            if String.eqb (Player.id p) playerId
            then Player.with_hand
                   (filter (fun id => negb (String.eqb id cardId)) (Player.hand p)) p
            else p)
         (GameState.players state))
    state.

End WithCatalog.
End CardManager.

(** ** BombeeManager *)

Inductive KingChoice := sell_all | steal_big | affect_all.

(** The random draws of one Bombee turn. [rateRoll], [sellRoll] and
    [moveRoll] are values of [Math.random ()]: the first scales the stolen
    share of the money, the second decides the forced sale of the normal
    tier, the third the migration. [pick] and [actionPick] are the indices
    drawn by [randomPick] among the owned properties and among the king's
    three actions. *)
Module Draws.
Record t := mk {
  rateRoll : Q;
  sellRoll : Q;
  pick : nat;
  actionPick : nat;
  moveRoll : Q
}.
End Draws.

Module BombeeManager.

Definition MINI_TO_NORMAL_TURNS : Z := 5.
Definition NORMAL_TO_KING_TURNS : Z := 10.

Definition hasBombee (p : Player.t) : bool :=
  match Player.bombeeType p with none => false | _ => true end.

(** [p.bombeeImmuneYears && p.bombeeImmuneYears > 0] *)
Definition isImmune (p : Player.t) : bool :=
  match Player.bombeeImmuneYears p with
  | Some y => 0 <? y
  | None => false
  end.

Definition getLastPlacePlayer (players : list Player.t) : option Player.t :=
  reduce1 (fun p worst => Player.totalAssets p <? Player.totalAssets worst) players.

Definition attachBombeeToLastPlace (state : GameState.t) : GameState.t :=
  if existsb hasBombee (GameState.players state) then state
  else if (length (GameState.players state) <? 2)%nat then state
  else
    match getLastPlacePlayer (GameState.players state) with
    | None => state
    | Some lastPlayer =>
        let eligible :=
          getLastPlacePlayer
            (filter (fun p => negb (isImmune p)) (GameState.players state)) in
        let target := orElse eligible lastPlayer in
        GameState.with_players
          (map (fun p => if String.eqb (Player.id p) (Player.id target)
                         then Player.with_bombee mini 0 p
                         else p)
               (GameState.players state))
          state
    end.

Definition decrementBombeeImmunity (state : GameState.t) : GameState.t :=
  GameState.with_players
    (map (fun p =>
            if 0 <? orElse (Player.bombeeImmuneYears p) 0
            then Player.with_bombeeImmuneYears
                   (Some (orElse (Player.bombeeImmuneYears p) 0 - 1)) p
            else p)
         (GameState.players state))
    state.

Definition checkEvolution (current : BombeeType) (elapsed : Z) : BombeeType :=
  match current with
  | mini => if MINI_TO_NORMAL_TURNS <=? elapsed then normal else current
  | normal => if NORMAL_TO_KING_TURNS <=? elapsed then king else current
  | _ => current
  end.

(** Stealing [max (least, floor (money * rate))], capped at the money held. *)
Definition steal (least : Z) (rate : Q) (state : GameState.t) (target : Player.t)
  : GameState.t :=
  let stolen := Z.max least (floorMul (Player.money target) rate) in
  let actualStolen := Z.min stolen (Player.money target) in
  if actualStolen <=? 0 then state
  else
    GameState.with_players
      (map (fun p => if String.eqb (Player.id p) (Player.id target)
                     then Player.credit (- actualStolen) p
                     else p)
           (GameState.players state))
      state.

Definition miniAction (state : GameState.t) (target : Player.t) (d : Draws.t)
  : GameState.t :=
  let rate := (Draws.rateRoll d * (1 # 10) + (5 # 100))%Q in
  steal 100 rate state target.

Definition normalAction (state : GameState.t) (target : Player.t) (d : Draws.t)
  : GameState.t :=
  let ownedProperties :=
    filter (fun p => isId (Property.ownerId p) (Player.id target))
           (GameState.properties state) in
  match ownedProperties with
  | first :: _ =>
      if Qltb (Draws.sellRoll d) (1 # 2) then
        let prop :=
          nth (Draws.pick d mod length ownedProperties) ownedProperties first in
        let sellValue := floorMul (Property.price prop) (7 # 10) in
        GameState.with_properties
          (map (fun p => if String.eqb (Property.id p) (Property.id prop)
                         then Property.with_ownerId None p
                         else p)
               (GameState.properties state))
          (GameState.with_players
             (map (fun p =>
                     if negb (String.eqb (Player.id p) (Player.id target)) then p
                     else Player.with_totalAssets
                            (Player.totalAssets p - (Property.price prop - sellValue))
                            (Player.with_money (Player.money p + sellValue) p))
                  (GameState.players state))
             state)
      else steal 500 (Draws.rateRoll d * (2 # 10) + (2 # 10))%Q state target
  | [] => steal 500 (Draws.rateRoll d * (2 # 10) + (2 # 10))%Q state target
  end.

Definition kingStealBig (state : GameState.t) (target : Player.t) (d : Draws.t)
  : GameState.t :=
  let rate := (Draws.rateRoll d * (2 # 10) + (4 # 10))%Q in
  steal 2000 rate state target.

Definition kingAction (state : GameState.t) (target : Player.t) (d : Draws.t)
  : GameState.t :=
  match nth (Draws.actionPick d mod 3) [sell_all; steal_big; affect_all] steal_big with
  | sell_all =>
      let ownedProperties :=
        firstn 3 (filter (fun p => isId (Property.ownerId p) (Player.id target))
                         (GameState.properties state)) in
      if (length ownedProperties =? 0)%nat then kingStealBig state target d
      else
        let '(totalLoss, newProperties) :=
          fold_left
            (fun (acc : Z * list Property.t) (prop : Property.t) =>
               let '(totalLoss, newProperties) := acc in
               (totalLoss + floorMul (Property.price prop) (3 # 10),
                map (fun p => if String.eqb (Property.id p) (Property.id prop)
                              then Property.with_ownerId None p
                              else p)
                    newProperties))
            ownedProperties (0, GameState.properties state) in
        GameState.with_players
          (map (fun p =>
                  if negb (String.eqb (Player.id p) (Player.id target)) then p
                  else Player.with_totalAssets
                         (Z.max 0 (Player.totalAssets p - totalLoss * 2))
                         (Player.with_money (Z.max 0 (Player.money p - totalLoss)) p))
               (GameState.players state))
          (GameState.with_properties newProperties state)
  | affect_all =>
      GameState.with_players
        (map (fun p =>
                let damage := Z.max 100 (floorMul (Player.money p) (1 # 10)) in
                let actual := Z.min damage (Player.money p) in
                Player.credit (- actual) p)
             (GameState.players state))
        state
  | steal_big => kingStealBig state target d
  end.

Definition executeBombeeEffect (state : GameState.t) (targetId : string)
           (bombeeType : BombeeType) (d : Draws.t) : GameState.t :=
  match findPlayer (GameState.players state) targetId with
  | None => state
  | Some target =>
      match bombeeType with
      | mini => miniAction state target d
      | normal => normalAction state target d
      | king => kingAction state target d
      | none => state
      end
  end.

Definition maybeMoveToLastPlace (state : GameState.t) (currentBombeeId : string)
           (d : Draws.t) : GameState.t :=
  let eligible :=
    filter (fun p => negb (String.eqb (Player.id p) currentBombeeId)
                     && negb (isImmune p))
           (GameState.players state) in
  match getLastPlacePlayer eligible with
  | None => state
  | Some lastPlayer =>
      match findPlayer (GameState.players state) currentBombeeId with
      | None => state
      | Some currentBombeePlayer =>
          if Player.totalAssets currentBombeePlayer <=? Player.totalAssets lastPlayer
          then state
          else if Qltb (Draws.moveRoll d) (75 # 100) then
            GameState.with_players
              (map (fun p =>
                      if String.eqb (Player.id p) currentBombeeId
                      then Player.with_bombee none 0 p
                      else if String.eqb (Player.id p) (Player.id lastPlayer)
                      then Player.with_bombee (Player.bombeeType currentBombeePlayer) 0 p
                      else p)
                   (GameState.players state))
              state
          else state
      end
  end.

(** The new state of [processBombeeAction]. *)
Definition processBombeeAction (state : GameState.t) (d : Draws.t) : GameState.t :=
  match find hasBombee (GameState.players state) with
  | None => state
  | Some bombeePlayer =>
      let newElapsed := Player.bombeeElapsedTurns bombeePlayer + 1 in
      let evolvedType := checkEvolution (Player.bombeeType bombeePlayer) newElapsed in
      let newState :=
        GameState.with_players
          (map (fun p => if String.eqb (Player.id p) (Player.id bombeePlayer)
                         then Player.with_bombee evolvedType newElapsed p
                         else p)
               (GameState.players state))
          state in
      let newState := executeBombeeEffect newState (Player.id bombeePlayer) evolvedType d in
      maybeMoveToLastPlace newState (Player.id bombeePlayer) d
  end.

Definition removeBombee (state : GameState.t) (targetId : string) : GameState.t :=
  GameState.with_players
    (map (fun p => if String.eqb (Player.id p) targetId
                   then Player.with_bombee none 0 p
                   else p)
         (GameState.players state))
    state.

Definition getBombeePlayer (state : GameState.t) : option Player.t :=
  find hasBombee (GameState.players state).

End BombeeManager.

(** ** BoardManager *)

Module BoardManager.
Section WithBoard.

(** The board installed by [loadData]. *)
Variable board : Board.t.

(** [cities.get (id)]: a later city of the same id replaces an earlier one. *)
Definition getCityById (id : string) : option City.t :=
  find (fun c => String.eqb (City.id c) id) (rev (Board.cities board)).

(** The values of the [cities] map, in the order in which the ids were
    first set. *)
Definition getAllCities : list City.t :=
  mapDefined getCityById (uniq [] (map City.id (Board.cities board))).

Definition getAllRoutes : list Route.t := Board.routes board.

(** [cityRoutes.get (cityId) ?? []]: every route is pushed to the list of
    its first city and then to that of its second city, if they exist. *)
Definition getRoutesFromCity (cityId : string) : list Route.t :=
  match getCityById cityId with
  | None => []
  | Some _ =>
      flat_map
        (fun r =>
           (if String.eqb (Route.fromCityId r) cityId then [r] else [])
           ++ (if String.eqb (Route.toCityId r) cityId then [r] else []))
        (Board.routes board)
  end.

Definition getOtherCityId (route : Route.t) (fromCityId : string) : string :=
  if String.eqb (Route.fromCityId route) fromCityId
  then Route.toCityId route
  else Route.fromCityId route.

Definition getAdjacentCities (cityId : string) : list City.t :=
  let routes := getRoutesFromCity cityId in
  let adjacentIds :=
    map (fun r => if String.eqb (Route.fromCityId r) cityId
                  then Route.toCityId r else Route.fromCityId r)
        routes in
  mapDefined getCityById adjacentIds.

(** [rnd] is the index drawn, [Math.floor (Math.random () * candidates.length)]. *)
Definition getRandomDestination (excludeCityId : option string) (rnd : nat)
  : option City.t :=
  let candidates :=
    filter (fun c => negb (isId excludeCityId (City.id c))) getAllCities in
  if (length candidates =? 0)%nat then None
  else nth_error candidates (rnd mod length candidates).

End WithBoard.
End BoardManager.

(** ** CpuManager *)

Inductive CpuDecisionType :=
| decide_buy_property | decide_skip_property
| decide_use_card | decide_skip_card | decide_choose_route.

Module CpuDecision.
Record t := mk {
  type : CpuDecisionType;
  propertyId : option string;
  cardId : option string;
  routeId : option string;
  targetPlayerId : option string
}.
(** [{ type: 'buy_property', propertyId }] and the like. *)
Definition buyProperty (propertyId : string) : t :=
  mk decide_buy_property (Some propertyId) None None None.
Definition skipProperty : t := mk decide_skip_property None None None None.
Definition useCard (cardId : string) : t :=
  mk decide_use_card None (Some cardId) None None.
Definition skipCard : t := mk decide_skip_card None None None None.
End CpuDecision.

Module RouteChoice.
Record t := mk {
  route : Route.t;
  nextCity : City.t
}.
End RouteChoice.

(** The random draws of one decision of the CPU: [roll] is a value of
    [Math.random ()], [pick] the index drawn by [randomPick]. *)
Module CpuDraws.
Record t := mk {
  roll : Q;
  pick : nat
}.
End CpuDraws.

Module CpuManager.
Section WithManagers.

(** The data of the board manager and of the card manager that the CPU
    manager was built with. *)
Variable board : Board.t.
Variable allCards : list Card.t.

(** The loop of the breadth-first search: the queue of cities with their
    depths and the set of visited cities. [fuel] bounds the number of
    rounds; [None] stands for a search cut off by it. *)
Fixpoint searchLoop (fuel : nat) (destCityId : string)
         (queue : list (string * Z)) (visited : list string) : option Z :=
  match fuel with
  | O => None
  | S fuel' =>
      match queue with
      | [] => Some 99
      | (cityId, depth) :: queue' =>
          if existsb (String.eqb cityId) visited
          then searchLoop fuel' destCityId queue' visited
          else
            let visited' := cityId :: visited in
            if String.eqb cityId destCityId then Some depth
            else if 10 <=? depth then searchLoop fuel' destCityId queue' visited'
            else
              let adjacent := BoardManager.getAdjacentCities board cityId in
              let pushed :=
                map (fun city => (City.id city, depth + 1))
                    (filter (fun city =>
                               negb (existsb (String.eqb (City.id city)) visited'))
                            adjacent) in
              searchLoop fuel' destCityId (queue' ++ pushed) visited'
      end
  end.

(** Rounds enough for any search on the board: every round either drops an
    entry of the queue or visits a new city, and a visit pushes at most two
    entries per route. *)
Definition searchRounds : nat :=
  2 + (2 * length (Board.routes board) + 1) * (length (Board.cities board) + 1).

Definition estimateDistanceToDestination (fromCityId destCityId : string) : Z :=
  if String.eqb fromCityId destCityId then 0
  else orElse (searchLoop searchRounds destCityId [(fromCityId, 0)] []) 99.

Definition canMonopolize (state : GameState.t) (playerId cityId : string) : bool :=
  let cityProps :=
    PropertyManager.getPropertiesByCity (GameState.properties state) cityId in
  if (length cityProps =? 0)%nat then false
  else forallb (fun p => isId (Property.ownerId p) playerId
                         || isNull (Property.ownerId p))
               cityProps.

Definition calcCityPropertyValue (state : GameState.t) (playerId cityId : string) : Z :=
  let cityProps :=
    PropertyManager.getPropertiesByCity (GameState.properties state) cityId in
  fold_left (fun sum p => sum + PropertyManager.getCurrentIncome p)
            (filter (fun p => isNull (Property.ownerId p)
                              || isId (Property.ownerId p) playerId)
                    cityProps)
            0.

Definition getStrongestOpponent (state : GameState.t) (excludeId : string)
  : option Player.t :=
  let opponents :=
    filter (fun p => negb (String.eqb (Player.id p) excludeId))
           (GameState.players state) in
  if (length opponents =? 0)%nat then None
  else reduce1 (fun p best => Player.totalAssets best <? Player.totalAssets p) opponents.

Definition getThinkingDelay (difficulty : Difficulty) : Z :=
  match difficulty with
  | easy => 800
  | normal_difficulty => 1200
  | hard => 1800
  end.

(** *** Routes *)

(** [randomPick (choices)]: [undefined] for no choices. *)
Definition chooseRouteEasy (choices : list RouteChoice.t) (d : CpuDraws.t)
  : option RouteChoice.t :=
  nth_error choices (CpuDraws.pick d mod length choices).

(** Reading [scored[0].choice] throws when there are no choices. *)
Definition chooseRouteNormal (state : GameState.t) (_player : Player.t)
           (choices : list RouteChoice.t) (d : CpuDraws.t)
  : Outcome (option RouteChoice.t) :=
  match BoardManager.getCityById board (GameState.destinationCityId state) with
  | None => Returned (nth_error choices (CpuDraws.pick d mod length choices))
  | Some dest =>
      let scored :=
        map (fun choice =>
               (choice,
                estimateDistanceToDestination
                  (City.id (RouteChoice.nextCity choice))
                  (GameState.destinationCityId state)))
            choices in
      match sortBy snd scored with
      | [] => Thrown
      | best :: _ => Returned (Some (fst best))
      end
  end.

Definition chooseRouteHard (state : GameState.t) (player : Player.t)
           (choices : list RouteChoice.t) : Outcome (option RouteChoice.t) :=
  let scored :=
    map (fun choice =>
           let distScore :=
             estimateDistanceToDestination
               (City.id (RouteChoice.nextCity choice))
               (GameState.destinationCityId state) in
           let propertyScore :=
             calcCityPropertyValue state (Player.id player)
               (City.id (RouteChoice.nextCity choice)) in
           (choice, (- inject_Z distScore + inject_Z propertyScore * (1 # 100))%Q))
        choices in
  match sortWith (fun a b => Qle_bool (snd b) (snd a)) scored with
  | [] => Thrown
  | best :: _ => Returned (Some (fst best))
  end.

Definition chooseRoute (state : GameState.t) (player : Player.t)
           (choices : list RouteChoice.t) (d : CpuDraws.t)
  : Outcome (option RouteChoice.t) :=
  match choices with
  | [only] => Returned (Some only)
  | _ =>
      match Player.difficulty player with
      | easy => Returned (chooseRouteEasy choices d)
      | normal_difficulty => chooseRouteNormal state player choices d
      | hard => chooseRouteHard state player choices
      end
  end.

(** *** Purchases *)

Definition decidePurchaseEasy (player : Player.t) (property : Property.t)
           (d : CpuDraws.t) : CpuDecision.t :=
  let canAfford := Property.price property <=? Player.money player in
  let isAffordable :=
    Qle_bool (inject_Z (Property.price property))
             (inject_Z (Player.money player) * (1 # 2)) in
  if canAfford && isAffordable && Qltb (CpuDraws.roll d) (1 # 2)
  then CpuDecision.buyProperty (Property.id property)
  else CpuDecision.skipProperty.

Definition decidePurchaseNormal (state : GameState.t) (player : Player.t)
           (property : Property.t) : CpuDecision.t :=
  let currentPrice := PropertyManager.getCurrentPrice property in
  if Player.money player <? currentPrice then CpuDecision.skipProperty
  else
    let annualIncome := PropertyManager.getCurrentIncome property in
    if annualIncome <=? 0 then CpuDecision.skipProperty
    else
      let roiYears := (inject_Z currentPrice / inject_Z annualIncome)%Q in
      let remainingYears := GameState.totalYears state - GameState.currentYear state in
      if Qle_bool roiYears (inject_Z remainingYears * (8 # 10))
      then CpuDecision.buyProperty (Property.id property)
      else if canMonopolize state (Player.id player) (Property.cityId property)
      then CpuDecision.buyProperty (Property.id property)
      else CpuDecision.skipProperty.

(** [annualIncome / currentPrice >= 0.15]: a division by zero gives
    [Infinity] for a positive income, and [NaN] or [-Infinity] otherwise. *)
Definition yieldAtLeast15 (annualIncome currentPrice : Z) : bool :=
  if currentPrice =? 0 then 0 <? annualIncome
  else Qle_bool (15 # 100) (inject_Z annualIncome / inject_Z currentPrice).

Definition decidePurchaseHard (state : GameState.t) (player : Player.t)
           (property : Property.t) : CpuDecision.t :=
  let currentPrice := PropertyManager.getCurrentPrice property in
  if Player.money player <? currentPrice then CpuDecision.skipProperty
  else if canMonopolize state (Player.id player) (Property.cityId property)
  then CpuDecision.buyProperty (Property.id property)
  else
    let annualIncome := PropertyManager.getCurrentIncome property in
    if yieldAtLeast15 annualIncome currentPrice
    then CpuDecision.buyProperty (Property.id property)
    else
      let remainingYears := GameState.totalYears state - GameState.currentYear state in
      if (0 <? annualIncome)
         && Qle_bool (inject_Z currentPrice / inject_Z annualIncome)
                     (inject_Z remainingYears)
      then CpuDecision.buyProperty (Property.id property)
      else CpuDecision.skipProperty.

Definition decidePurchase (state : GameState.t) (player : Player.t)
           (property : Property.t) (d : CpuDraws.t) : CpuDecision.t :=
  match Player.difficulty player with
  | easy => decidePurchaseEasy player property d
  | normal_difficulty => decidePurchaseNormal state player property
  | hard => decidePurchaseHard state player property
  end.

(** *** Cards *)

Definition decideCardEasy (player : Player.t) (d : CpuDraws.t) : CpuDecision.t :=
  match Player.hand player with
  | first :: _ =>
      if Qltb (CpuDraws.roll d) (3 # 10)
      then CpuDecision.useCard
             (nth (CpuDraws.pick d mod length (Player.hand player))
                  (Player.hand player) first)
      else CpuDecision.skipCard
  | [] => CpuDecision.skipCard
  end.

(** [hand.find (id => getCardById (id)?.type === type)], when truthy. *)
Definition findCardOfType (player : Player.t) (type : CardType) : option string :=
  CardManager.given
    (find (fun id =>
             match CardManager.getCardById allCards id with
             | Some card => if CardType_eq_dec (Card.type card) type then true else false
             | None => false
             end)
          (Player.hand player)).

Definition decideCardNormal (state : GameState.t) (player : Player.t) : CpuDecision.t :=
  let remainingYears := GameState.totalYears state - GameState.currentYear state in
  let bombee :=
    match (if BombeeManager.hasBombee player
           then findCardOfType player bombee_away else None) with
    | Some bombeeCard => CpuDecision.useCard bombeeCard
    | None => CpuDecision.skipCard
    end in
  match (if remainingYears <=? 3
         then findCardOfType player move_to_destination else None) with
  | Some destCard => CpuDecision.useCard destCard
  | None => bombee
  end.

Definition scoreCard (state : GameState.t) (player : Player.t) (cardId : string) : Z :=
  match CardManager.getCardById allCards cardId with
  | None => 0
  | Some card =>
      match Card.type card with
      | move_to_destination =>
          let dist :=
            estimateDistanceToDestination
              (Position.cityId (Player.position player))
              (GameState.destinationCityId state) in
          dist * 10
      | bombee_away => if BombeeManager.hasBombee player then 100 else 0
      | bombee_transfer => if BombeeManager.hasBombee player then 80 else 0
      | get_money => 40
      | steal_property => 60
      | _ => 20
      end
  end.

Definition decideCardHard (state : GameState.t) (player : Player.t) : CpuDecision.t :=
  let handCards := CardManager.getPlayerHand allCards state (Player.id player) in
  let scored := map (fun card => (card, scoreCard state player (Card.id card))) handCards in
  match sortWith (fun a b => snd b <=? snd a) scored with
  | [] => CpuDecision.skipCard
  | best :: _ =>
      if 50 <=? snd best then CpuDecision.useCard (Card.id (fst best))
      else CpuDecision.skipCard
  end.

Definition decideCardUse (state : GameState.t) (player : Player.t) (d : CpuDraws.t)
  : CpuDecision.t :=
  if (length (Player.hand player) =? 0)%nat then CpuDecision.skipCard
  else
    match Player.difficulty player with
    | easy => decideCardEasy player d
    | normal_difficulty => decideCardNormal state player
    | hard => decideCardHard state player
    end.

End WithManagers.
End CpuManager.

(** ** DestinationManager *)

Module DestinationArrivalResult.
Record t := mk {
  bonus : Z;
  newDestinationCityId : string;
  newState : GameState.t
}.
End DestinationArrivalResult.

Module DestinationManager.
Section WithBoard.

(** The board of the [boardManager] given to the constructor. *)
Variable board : Board.t.

(** The average and the product are exact rationals.  The division is
    reached only when some other player has assets, so that its divisor
    is at least 1. *)
Definition calcArrivalBonus (state : GameState.t) (arrivedPlayerId : string) : Z :=
  match findPlayer (GameState.players state) arrivedPlayerId with
  | None => 0
  | Some _ =>
      let othersTotal :=
        fold_left (fun sum p => sum + Player.totalAssets p)
                  (filter (fun p => negb (String.eqb (Player.id p) arrivedPlayerId))
                          (GameState.players state))
                  0 in
      if othersTotal =? 0 then 1000
      else
        let avgOthers :=
          (inject_Z othersTotal
           / inject_Z (Z.of_nat (length (GameState.players state)) - 1))%Q in
        Z.max 1000
              (Qfloor (avgOthers
                       * inject_Z (Z.of_nat (length (GameState.players state)))
                       * (1 # 10))%Q)
  end.

(** [rnd] is the draw of [getRandomDestination]. *)
Definition processArrival (state : GameState.t) (arrivedPlayerId : string)
           (rnd : nat) : DestinationArrivalResult.t :=
  let bonus := calcArrivalBonus state arrivedPlayerId in
  let newPlayers :=
    map (fun p => if negb (String.eqb (Player.id p) arrivedPlayerId) then p
                  else Player.credit bonus p)
        (GameState.players state) in
  let newDest :=
    BoardManager.getRandomDestination board
      (Some (GameState.destinationCityId state)) rnd in
  let newDestId :=
    match newDest with
    | Some c => City.id c
    | None => GameState.destinationCityId state
    end in
  let newState :=
    GameState.mk (GameState.id state) (GameState.currentYear state)
                 (GameState.currentMonth state) (GameState.totalYears state)
                 (GameState.currentPlayerIndex state) (GameState.phase state)
                 newPlayers (GameState.properties state) newDestId
                 (GameState.turnCount state) in
  DestinationArrivalResult.mk bonus newDestId newState.

Definition getDestinationCity (state : GameState.t) : option City.t :=
  BoardManager.getCityById board (GameState.destinationCityId state).

Definition isAtDestination (player : Player.t) (state : GameState.t) : bool :=
  String.eqb (Position.cityId (Player.position player))
             (GameState.destinationCityId state).

End WithBoard.
End DestinationManager.

(** ** GameScene: the bankruptcy of a player who cannot pay *)

(** What [handleBankruptcy] has done when it returns: it has called
    [onResolved] in a game state, or it has emitted the dialog
    [show_bankruptcy], which leaves the sales to the player. *)
Inductive BankruptcyStep :=
| bankruptcy_resolved (gameState : GameState.t)
| bankruptcy_dialog (player : Player.t) (debtAmount : Z)
                    (properties : list Property.t).

Module GameScene.

(** The loop of the CPU branch, [while (currentPlayer.money < requiredAmount)],
    on the game state of the scene.  [fuel] bounds the rounds; [None] is a
    loop that has not ended within them. *)
Fixpoint sellCheapest (fuel : nat) (gameState : GameState.t) (playerId : string)
         (requiredAmount : Z) (currentPlayer : Player.t) : option GameState.t :=
  if negb (Player.money currentPlayer <? requiredAmount) then Some gameState
  else
    let currentOwned :=
      PropertyManager.getOwnedProperties (GameState.properties gameState) playerId in
    match reduce1 (fun p min => Property.price p <? Property.price min) currentOwned with
    | None => Some gameState
    | Some cheapest =>
        match fuel with
        | O => None
        | S fuel' =>
            let gameState' :=
              PropertyManager.sellPropertyForcibly gameState playerId
                                                   (Property.id cheapest) in
            let currentPlayer' :=
              orElse (findPlayer (GameState.players gameState') playerId)
                     currentPlayer in
            sellCheapest fuel' gameState' playerId requiredAmount currentPlayer'
        end
    end.

(** Reading [player.type] throws when no player has the id. *)
Definition handleBankruptcy (fuel : nat) (gameState : GameState.t)
           (playerId : string) (requiredAmount : Z)
  : option (Outcome BankruptcyStep) :=
  match findPlayer (GameState.players gameState) playerId with
  | None => Some Thrown
  | Some player =>
      let ownedProperties :=
        PropertyManager.getOwnedProperties (GameState.properties gameState) playerId in
      match Player.type player with
      | cpu =>
          option_map (fun st => Returned (bankruptcy_resolved st))
                     (sellCheapest fuel gameState playerId requiredAmount player)
      | human =>
          Some (Returned (bankruptcy_dialog player requiredAmount ownedProperties))
      end
  end.

End GameScene.

(** ** Fixtures of the test suites *)

Module Fixtures.

Definition makePlayer (id : string) (money : Z) (hand : list string) : Player.t :=
  Player.mk id ("Player " ++ id) human normal_difficulty money money
            (Position.mk "tokyo" None 0 None) hand none 0 16711680 0
            None None None.

Definition makeProperty (id cityId : string) (price income : Z) : Property.t :=
  Property.mk id cityId ("Property " ++ id) "food" price income
              [price * 2; price * 3] [income * 2; income * 3] 0%nat None.

Definition makeState (players : list Player.t) (properties : list Property.t)
  : GameState.t :=
  GameState.mk "test_game" 1 4 10 0 dice_roll players properties "osaka" 0.

Definition p1 := makePlayer "p1" 10000 [].
Definition p2 := makePlayer "p2" 10000 [].
Definition prop1 := makeProperty "prop1" "tokyo" 1000 200.
Definition prop2 := makeProperty "prop2" "tokyo" 2000 400.
Definition state := makeState [p1; p2] [prop1; prop2].

(** A king Bombee sits on [victim], who owns [prop1]; the king draws the
  forced sale. *)
Definition rich := makePlayer "rich" 50000 [].
Definition victim :=
Player.with_bombee king 12
  (Player.with_totalAssets 11000 (makePlayer "victim" 10000 [])).
Definition kingState :=
makeState [rich; victim] [Property.with_ownerId (Some "victim") prop1].
Definition kingDraws := Draws.mk 0 0 0%nat 0%nat 0.

(** A normal Bombee sits on [debtor], who owns [prop1] upgraded twice; the
  Bombee draws the forced sale. *)
Definition debtor := Player.with_bombee normal 6 (makePlayer "debtor" 10000 []).
Definition upgradedState :=
makeState [rich; debtor]
  [Property.with_upgradeLevel 2 (Property.with_ownerId (Some "debtor") prop1)].
Definition saleDraws := Draws.mk 0 0 0%nat 0%nat 1.

(** The land-fee test: [p1] lands on [prop1], which [p2] owns. *)
Definition rentedProp := Property.with_ownerId (Some "p2") prop1.
Definition rentState := makeState [p1; p2] [rentedProp].

(** The upgraded property of [upgradedState]. *)
Definition upgradedProp :=
  Property.with_upgradeLevel 2 (Property.with_ownerId (Some "debtor") prop1).

(** The attachment tests: a rich and a poor player; a poor but immune
  player with a second-poorest and a rich one. *)
Definition poor := makePlayer "poor" 1000 [].
Definition attachState := makeState [rich; poor] [].
Definition immunePoor := Player.with_bombeeImmuneYears (Some 2) poor.
Definition second := makePlayer "second" 2000 [].
Definition immuneState := makeState [immunePoor; second; rich] [].

(** The sample catalog of the card tests, and a holder of its cards. *)
Definition card_dest :=
Card.mk "card_dest" move_to_destination "go" "to the destination"
        (CardEffect.mk "move_to_destination" None (Some "self")) rare.
Definition card_money :=
Card.mk "card_money" get_money "income" "gain 1000"
        (CardEffect.mk "get_money" (Some 1000) (Some "self")) common.
Definition card_pay :=
Card.mk "card_pay" pay_money "payment" "pay 500"
        (CardEffect.mk "pay_money" (Some 500) (Some "self")) common.
Definition sampleCards := [card_dest; card_money; card_pay].
Definition holder := makePlayer "p1" 5000 ["card_money"; "card_pay"].
Definition cardState := makeState [holder; p2] [].

(** Two players each hold a copy of the same card-steal card. *)
Definition stealCard :=
Card.mk "card_steal_1" card_steal "steal" "steal one card"
        (CardEffect.mk "card_steal" None (Some "random_card")) uncommon.
Definition stealState :=
makeState [makePlayer "p1" 10000 ["card_steal_1"];
           makePlayer "p2" 10000 ["card_steal_1"]] [].
Definition stealOptions := UseCardOptions.mk (Some "p2") None None None.

(** [p1] owns [prop1]; [prop2] is on the market. *)
Definition ownedProp := Property.with_ownerId (Some "p1") prop1.
Definition ownedState := makeState [p1; p2] [ownedProp; prop2].

(** The state after [p1] bought [prop1] in [state]. *)
Definition boughtState :=
  PropertyManager.recalcTotalAssets
    (makeState [Player.with_money 9000 p1; p2] [ownedProp; prop2]).

(** A card that doubles the income until the next settlement. *)
Definition boostCard :=
  Card.mk "card_boost" double_income "boost" "income doubled until the settlement"
          (CardEffect.mk "double_income" (Some 2) (Some "until_settlement")) rare.

(** Cards that move a flat amount between the holder and every opponent. *)
Definition collectCard :=
  Card.mk "card_collect" get_money "collection" "every opponent pays 300"
          (CardEffect.mk "get_money" (Some 300) (Some "all_players_each")) uncommon.
Definition treatCard :=
  Card.mk "card_treat" pay_money "treat" "pay every opponent 300"
          (CardEffect.mk "pay_money" (Some 300) (Some "all_players_each")) uncommon.
Definition eachState :=
  makeState [makePlayer "p1" 1000 ["card_collect"; "card_treat"];
             makePlayer "p2" 200 []; makePlayer "p3" 5000 []] [].

(** A mini Bombee sits on the richer of two players. *)
Definition richCarrier := Player.with_bombee mini 3 rich.
Definition migrateState := makeState [richCarrier; poor] [].

(** A CPU player of normal difficulty in the state of the property tests. *)
Definition cpuPlayer :=
  Player.mk "p1" "Player p1" cpu normal_difficulty 10000 10000
            (Position.mk "tokyo" None 0 None) [] none 0 16711680 0 None None None.
Definition cpuState := makeState [cpuPlayer; p2] [prop1; prop2].
Definition cpuDraws := CpuDraws.mk 0 0%nat.

(** A CPU player of normal difficulty who carries a Bombee and holds a card
    against it. *)
Definition wardCard :=
  Card.mk "card_ward" bombee_away "ward" "sends the Bombee away"
          (CardEffect.mk "bombee_away" None (Some "self")) uncommon.
Definition hauntedCpu :=
  Player.mk "p1" "Player p1" cpu normal_difficulty 10000 10000
            (Position.mk "tokyo" None 0 None) ["card_ward"] mini 2 16711680 0
            None None None.
Definition hauntedState := makeState [hauntedCpu; p2] [].

(** Three cities in a row: Tokyo, Nagoya, Osaka. *)
Definition tokyo := City.mk "tokyo" "Tokyo" "Tokyo" kanto (3569 # 100) (13969 # 100).
Definition nagoya := City.mk "nagoya" "Nagoya" "Aichi" chubu (3518 # 100) (13691 # 100).
Definition osaka := City.mk "osaka" "Osaka" "Osaka" kinki (3469 # 100) (13550 # 100).
Definition lineBoard :=
  Board.mk [tokyo; nagoya; osaka]
           [Route.mk "r1" "tokyo" "nagoya" shinkansen [normal_square; card_square];
            Route.mk "r2" "nagoya" "osaka" shinkansen [normal_square]].

(** At Nagoya the CPU can go on to Osaka, the destination, or back to Tokyo. *)
Definition toTokyo :=
  RouteChoice.mk (Route.mk "r1" "tokyo" "nagoya" shinkansen [normal_square; card_square])
                 tokyo.
Definition toOsaka :=
  RouteChoice.mk (Route.mk "r2" "nagoya" "osaka" shinkansen [normal_square]) osaka.

(** Four players, two of them without assets. *)
Definition arrivalState :=
  makeState [p1; p2; makePlayer "p3" 0 []; makePlayer "p4" 0 []] [].

(** A CPU player short of money who owns [prop2] and [prop1]. *)
Definition brokeCpu :=
  Player.mk "p1" "Player p1" cpu normal_difficulty 100 3100
            (Position.mk "tokyo" None 0 None) [] none 0 16711680 0 None None None.
Definition brokeState :=
  makeState [brokeCpu; p2]
            [Property.with_ownerId (Some "p1") prop2;
             Property.with_ownerId (Some "p1") prop1].

(** Two properties under one id: the first belongs to [p2], the second to
    the CPU player. *)
Definition repeatedIdState :=
  makeState [brokeCpu; p2]
            [Property.with_ownerId (Some "p2") prop1;
             Property.with_ownerId (Some "p1") prop1].

(** [p1] holds the income multiplier 3/2 and owns one of the two properties
    of Tokyo, with an income of 333. *)
Definition halfBoosted := Player.with_incomeMultiplier (Some (3 # 2)) p1.
Definition halfBoostedState :=
  makeState [halfBoosted; p2]
            [Property.with_ownerId (Some "p1") (makeProperty "prop3" "tokyo" 1000 333);
             prop2].

End Fixtures.

(** ** Vocabulary of the specification *)

(** [Math.floor (x / 2)] *)
Definition half (x : Z) : Z := x / 2.

(** The total-assets equation of one player against a property list. *)
Definition assetsBalanced (qs : list Property.t) (p : Player.t) : Prop :=
  Player.totalAssets p = Player.money p + ownedValue qs (Player.id p).

(** The invariant: every player's total assets are the money plus the
    prices of the properties owned. *)
Definition assetsInvariant (s : GameState.t) : Prop :=
  Forall (assetsBalanced (GameState.properties s)) (GameState.players s).

(** The reason codes as the strings they are in the source. *)
Definition purchaseReasonCode (r : PurchaseReason) : string :=
  match r with
  | pr_not_enough_money => "not_enough_money"
  | pr_already_owned => "already_owned"
  end.

(** [l.reduce ((s, x) => s + w x, 0)], as a sum. *)
Definition sumOf {A : Type} (w : A -> Z) (l : list A) : Z :=
  fold_right (fun x s => w x + s) 0 l.

(** The distinct cities of a property list, in order of appearance. *)
Definition cities (qs : list Property.t) : list string :=
  uniq [] (map Property.cityId qs).

(** The income subtotal of a city: the current incomes of all its properties. *)
Definition cityIncome (qs : list Property.t) (cityId : string) : Z :=
  sumOf PropertyManager.getCurrentIncome
        (PropertyManager.getPropertiesByCity qs cityId).

(** A result either carries a new state that satisfies [R], or is a failure. *)
Definition resultSat (R : GameState.t -> Prop) (r : UseCardResult.t) : Prop :=
  match UseCardResult.newState r with
  | Some st' => R st'
  | None => UseCardResult.success r = false
  end.

Definition outcomeSat (R : GameState.t -> Prop) (o : Outcome UseCardResult.t) : Prop :=
  match o with
  | Returned r => resultSat R r
  | Thrown => True
  end.

(** The new state shows every player as before under the view [f]. *)
Definition keepsPlayers {A : Type} (f : Player.t -> A) (st st' : GameState.t) : Prop :=
  map f (GameState.players st') = map f (GameState.players st).

(** The identity and the cards of a player. *)
Definition idHand (p : Player.t) : string * list string :=
  (Player.id p, Player.hand p).

(** The identity and the debuff of a player. *)
Definition idBombee (p : Player.t) : string * BombeeType :=
  (Player.id p, Player.bombeeType p).

(** The amount a pay card asks of its holder: the flat amount, the floored
    percentage of the owned property value or of the total assets, or the
    flat amount once per opponent. *)
Definition requestedPayment (st : GameState.t) (player : Player.t) (card : Card.t) : Z :=
  let value := orElse (CardEffect.value (Card.effect card)) 1000 in
  let targetType := CardEffect.targetType (Card.effect card) in
  if isId targetType "property_value_percent" then
    (ownedValue (GameState.properties st) (Player.id player) * value) / 100
  else if isId targetType "total_assets_percent" then
    (Player.totalAssets player * value) / 100
  else if isId targetType "all_players_each" then
    value * Z.of_nat (length (filter (fun p => negb (String.eqb (Player.id p) (Player.id player)))
                                     (GameState.players st)))
  else value.

(** How a Bombee action treats a property: it leaves it alone, or sells it
    by clearing the owner and nothing else. *)
Definition soldKeepingLevel (q q' : Property.t) : Prop :=
  q' = q \/ q' = Property.with_ownerId None q.

(** How the other sales treat a property: it is left alone, or, if it is
    on the market afterwards, it is there at level 0. *)
Definition marketReset (q q' : Property.t) : Prop :=
  q' = q \/ (Property.ownerId q' = None -> Property.upgradeLevel q' = 0%nat).

(** A property that had an owner and has none afterwards is at level 0. *)
Definition returnedAtLevel0 (q q' : Property.t) : Prop :=
  Property.ownerId q <> None -> Property.ownerId q' = None ->
  Property.upgradeLevel q' = 0%nat.

(** The players that carry a Bombee all have the id [b]. *)
Definition carriersAt (b : string) (ps : list Player.t) : Prop :=
  forall p, In p ps -> BombeeManager.hasBombee p = true -> Player.id p = b.

(** At most one player carries a Bombee. *)
Definition atMostOneBombee (st : GameState.t) : Prop :=
  (length (filter BombeeManager.hasBombee (GameState.players st)) <= 1)%nat.

(** Player ids identify players. *)
Definition distinctIds (st : GameState.t) : Prop :=
  NoDup (map Player.id (GameState.players st)).

(** One operation that can touch the Bombee: the attachment, the per-turn
    action with its migration, the yearly immunity decrement, the direct
    removal, and the use of any card of the catalog. *)
Inductive bombeeStep (allCards : list Card.t) : GameState.t -> GameState.t -> Prop :=
| step_attach (st : GameState.t) :
    bombeeStep allCards st (BombeeManager.attachBombeeToLastPlace st)
| step_action (st : GameState.t) (d : Draws.t) :
    bombeeStep allCards st (BombeeManager.processBombeeAction st d)
| step_immunity (st : GameState.t) :
    bombeeStep allCards st (BombeeManager.decrementBombeeImmunity st)
| step_remove (st : GameState.t) (targetId : string) :
    bombeeStep allCards st (BombeeManager.removeBombee st targetId)
| step_card (st : GameState.t) (playerId cardId : string)
            (options : UseCardOptions.t) (rnd : nat)
            (r : UseCardResult.t) (st' : GameState.t) :
    CardManager.useCard allCards st playerId cardId options rnd = Returned r ->
    UseCardResult.newState r = Some st' ->
    bombeeStep allCards st st'.

(** The states reached from [st0] by such operations. *)
Inductive bombeeReachable (allCards : list Card.t) (st0 : GameState.t)
  : GameState.t -> Prop :=
| reach_start : bombeeReachable allCards st0 st0
| reach_step (st st' : GameState.t) :
    bombeeReachable allCards st0 st ->
    bombeeStep allCards st st' ->
    bombeeReachable allCards st0 st'.

(** What one operation leaves true: the carriers share one id, and the ids
    of the players are as before. *)
Definition carriersKept (st st' : GameState.t) : Prop :=
  (exists b, carriersAt b (GameState.players st'))
  /\ map Player.id (GameState.players st') = map Player.id (GameState.players st).

(** The call returns: it does not throw. *)
Definition returns {A : Type} (o : Outcome A) : Prop :=
  match o with
  | Returned _ => True
  | Thrown => False
  end.

(** The money of all players together. *)
Definition totalMoney (st : GameState.t) : Z :=
  sumOf Player.money (GameState.players st).

(** No hand is above the limit of [MAX_CARD_COUNT] cards. *)
Definition handsWithinCap (st : GameState.t) : Prop :=
  Forall (fun p => (length (Player.hand p) <= CardManager.MAX_CARD_COUNT)%nat)
         (GameState.players st).

(** Nobody is in debt. *)
Definition solvent (st : GameState.t) : Prop :=
  Forall (fun p => 0 <= Player.money p) (GameState.players st).

(** Exactly one player carries a Bombee. *)
Definition exactlyOneBombee (st : GameState.t) : Prop :=
  length (filter BombeeManager.hasBombee (GameState.players st)) = 1%nat.

(** One round of a loop that maps over the players and changes those with
    the id [key b]: [players.map (p => p.id === key b ? upd b p : p)]. *)
Definition touch {B : Type} (key : B -> string) (upd : B -> Player.t -> Player.t)
           (b : B) (p : Player.t) : Player.t :=
  if String.eqb (Player.id p) (key b) then upd b p else p.

(** The income credited to a player at the year end: the floor of the
    total annual income times the player's income multiplier, which is 1
    when none is set. *)
Definition yearEndIncome (qs : list Property.t) (p : Player.t) : Z :=
  Qfloor (inject_Z (IncomeResult.totalIncome
                      (PropertyManager.calcPlayerAnnualIncome qs (Player.id p)))
          * match Player.incomeMultiplier p with Some m => m | None => 1 end)%Q.

(** The rarity weights of the first [k] cards of a catalog together. *)
Definition weightBefore (allCards : list Card.t) (k : nat) : Z :=
  sumOf (fun c => CardManager.RARITY_WEIGHTS (Card.rarity c)) (firstn k allCards).

(** The identity of a player with the tier and the age of the Bombee. *)
Definition bombeeView (p : Player.t) : string * (BombeeType * Z) :=
  (Player.id p, (Player.bombeeType p, Player.bombeeElapsedTurns p)).

(** The immunity left after [n] year ends, from [y] years. *)
Definition yearsLeft (n : nat) (y : Z) : Z :=
  if 0 <? y then Z.max 0 (y - Z.of_nat n) else y.

(** A result that does not blame the caller for the card: neither
    [not_owner] nor [not_found]. *)
Definition cardAccepted (r : UseCardResult.t) : Prop :=
  UseCardResult.reason r <> Some not_owner
  /\ UseCardResult.reason r <> Some not_found.

(** The result of a call that returns satisfies [P]. *)
Definition outcomeHas (P : UseCardResult.t -> Prop) (o : Outcome UseCardResult.t)
  : Prop :=
  match o with
  | Returned r => P r
  | Thrown => True
  end.

(** The ids a search from [fromCityId] can meet: the start and the cities
    of the board. *)
Definition searchUniverse (board : Board.t) (fromCityId : string) : list string :=
  fromCityId :: map City.id (Board.cities board).

(** How many of them are not visited yet. *)
Definition unvisited (board : Board.t) (fromCityId : string) (visited : list string)
  : nat :=
  length (filter (fun u => negb (existsb (fun v => String.eqb v u) visited))
                 (searchUniverse board fromCityId)).

(** The estimated distance from the city a route leads to, and the score
    the hard CPU gives the route. *)
Definition routeDistance (board : Board.t) (st : GameState.t) (c : RouteChoice.t) : Z :=
  CpuManager.estimateDistanceToDestination board
    (City.id (RouteChoice.nextCity c)) (GameState.destinationCityId st).

Definition routeScore (board : Board.t) (st : GameState.t) (player : Player.t)
           (c : RouteChoice.t) : Q :=
  (- inject_Z (routeDistance board st c)
   + inject_Z (CpuManager.calcCityPropertyValue st (Player.id player)
                 (City.id (RouteChoice.nextCity c))) * (1 # 100))%Q.

(** What the forced sale of everything a player owns would pay. *)
Definition liquidationValue (st : GameState.t) (playerId : string) : Z :=
  sumOf (fun p => floorMul (Property.price p) (1 # 2))
        (PropertyManager.getOwnedProperties (GameState.properties st) playerId).

(** Property ids identify properties. *)
Definition distinctProperties (st : GameState.t) : Prop :=
  NoDup (map Property.id (GameState.properties st)).

(** The total assets of the players other than [playerId]. *)
Definition othersAssets (st : GameState.t) (playerId : string) : Z :=
  sumOf Player.totalAssets
        (filter (fun p => negb (String.eqb (Player.id p) playerId))
                (GameState.players st)).

(** The immunity of a player against the Bombee is over: no years are
    recorded, or none is left. *)
Definition immunityOver (p : Player.t) : Prop :=
  match Player.bombeeImmuneYears p with
  | Some y => y <= 0
  | None => True
  end.

(** [p'] is [p] with a Bombee of tier [b] newly attached, its counter at 0;
    nothing else of the player differs. *)
Definition carriesNew (b : BombeeType) (p p' : Player.t) : Prop :=
  Player.bombeeType p' = b
  /\ Player.bombeeElapsedTurns p' = 0
  /\ Player.id p' = Player.id p
  /\ Player.name p' = Player.name p
  /\ Player.type p' = Player.type p
  /\ Player.difficulty p' = Player.difficulty p
  /\ Player.money p' = Player.money p
  /\ Player.totalAssets p' = Player.totalAssets p
  /\ Player.position p' = Player.position p
  /\ Player.hand p' = Player.hand p
  /\ Player.color p' = Player.color p
  /\ Player.pawIndex p' = Player.pawIndex p
  /\ Player.incomeMultiplier p' = Player.incomeMultiplier p
  /\ Player.diceMultiplier p' = Player.diceMultiplier p
  /\ Player.bombeeImmuneYears p' = Player.bombeeImmuneYears p.

(** * Properties *)

(** ** Lists, lookups and sums *)

Lemma findPlayer_map (f : Player.t -> Player.t) (ps : list Player.t) (i : string) :
  (forall p, Player.id (f p) = Player.id p) ->
  findPlayer (map f ps) i = option_map f (findPlayer ps i).
Proof.
  intros Hid. unfold findPlayer.
  induction ps as [|p ps IH]; simpl; [reflexivity|].
  rewrite Hid. destruct (String.eqb (Player.id p) i); [reflexivity | exact IH].
Qed.

Lemma findPlayer_id (ps : list Player.t) (i : string) (p : Player.t) :
  findPlayer ps i = Some p -> Player.id p = i.
Proof.
  unfold findPlayer. intros H. apply find_some in H. destruct H as [_ H].
  now apply String.eqb_eq.
Qed.

Lemma findPlayer_In (ps : list Player.t) (i : string) (p : Player.t) :
  findPlayer ps i = Some p -> In p ps.
Proof.
  unfold findPlayer. intros H. now apply find_some in H.
Qed.

Lemma findProperty_map (f : Property.t -> Property.t) (qs : list Property.t) (i : string) :
  (forall p, Property.id (f p) = Property.id p) ->
  findProperty (map f qs) i = option_map f (findProperty qs i).
Proof.
  intros Hid. unfold findProperty.
  induction qs as [|p qs IH]; simpl; [reflexivity|].
  rewrite Hid. destruct (String.eqb (Property.id p) i); [reflexivity | exact IH].
Qed.

Lemma findProperty_id (qs : list Property.t) (i : string) (p : Property.t) :
  findProperty qs i = Some p -> Property.id p = i.
Proof.
  unfold findProperty. intros H. apply find_some in H. destruct H as [_ H].
  now apply String.eqb_eq.
Qed.

Lemma floorMul_half (x : Z) : floorMul x (1 # 2) = half x.
Proof.
  unfold floorMul, half, Qfloor, Qmult, inject_Z. simpl.
  now rewrite Z.mul_1_r.
Qed.

Lemma recalcTotalAssets_players (s : GameState.t) :
  GameState.players (PropertyManager.recalcTotalAssets s)
  = map (fun p => Player.with_totalAssets
                    (Player.money p + ownedValue (GameState.properties s) (Player.id p)) p)
        (GameState.players s).
Proof. reflexivity. Qed.

Lemma recalcTotalAssets_properties (s : GameState.t) :
  GameState.properties (PropertyManager.recalcTotalAssets s) = GameState.properties s.
Proof. reflexivity. Qed.

(** Recomputation establishes the invariant, whatever the state was. *)
Lemma recalcTotalAssets_invariant (s : GameState.t) :
  assetsInvariant (PropertyManager.recalcTotalAssets s).
Proof.
  unfold assetsInvariant. rewrite recalcTotalAssets_players, recalcTotalAssets_properties.
  apply Forall_forall. intros p Hp. apply in_map_iff in Hp.
  destruct Hp as [q [<- _]]. reflexivity.
Qed.

(** ** Purchase *)

(** C2. With the buyer and the property found: an unowned property that the
    buyer can afford is bought, the buyer's money drops by exactly the price,
    the property is owned by the buyer and the buyer's total assets are the
    recomputed ones; an unowned property that the buyer cannot afford gives
    [not_enough_money], an owned one [already_owned], and neither failure
    carries a new state (the caller keeps the state it passed). *)
Theorem buyProperty_outcomes :
  forall (st : GameState.t) (playerId propertyId : string)
         (player : Player.t) (property : Property.t),
    findPlayer (GameState.players st) playerId = Some player ->
    findProperty (GameState.properties st) propertyId = Some property ->
    (Property.ownerId property = None ->
     Property.price property <= Player.money player ->
     exists st' player' property',
       PropertyManager.buyProperty st playerId propertyId
       = PurchaseResult.mk true None (Some st')
       /\ findPlayer (GameState.players st') playerId = Some player'
       /\ Player.money player' = Player.money player - Property.price property
       /\ Player.totalAssets player'
          = Player.money player' + ownedValue (GameState.properties st') playerId
       /\ findProperty (GameState.properties st') propertyId = Some property'
       /\ Property.ownerId property' = Some playerId)
    /\ (Property.ownerId property = None ->
        Player.money player < Property.price property ->
        PropertyManager.buyProperty st playerId propertyId
        = PurchaseResult.mk false (Some pr_not_enough_money) None)
    /\ (Property.ownerId property <> None ->
        PropertyManager.buyProperty st playerId propertyId
        = PurchaseResult.mk false (Some pr_already_owned) None).
Proof.
  intros st playerId propertyId player property Hpl Hpr.
  pose proof (findPlayer_id _ _ _ Hpl) as Hid.
  pose proof (findProperty_id _ _ _ Hpr) as Hqid.
  unfold PropertyManager.buyProperty. rewrite Hpl, Hpr.
  repeat split.
  - intros Hown Hle. rewrite Hown. simpl.
    unfold PropertyManager.getCurrentPrice.
    destruct (Z.ltb_spec (Player.money player) (Property.price property)) as [Hlt|_];
      [lia|].
    eexists. eexists. eexists. split; [reflexivity|].
    rewrite recalcTotalAssets_players, recalcTotalAssets_properties. simpl.
    rewrite findPlayer_map by reflexivity.
    rewrite findPlayer_map
      by (intros p; destruct (String.eqb (Player.id p) playerId); reflexivity).
    rewrite findProperty_map
      by (intros p; destruct (String.eqb (Property.id p) propertyId); reflexivity).
    rewrite Hpl, Hpr. simpl.
    rewrite Hid, Hqid, !String.eqb_refl. simpl.
    subst playerId. repeat split; reflexivity.
  - intros Hown Hlt. rewrite Hown. simpl.
    unfold PropertyManager.getCurrentPrice.
    destruct (Z.ltb_spec (Player.money player) (Property.price property)); [reflexivity|lia].
  - intros Hown. destruct (Property.ownerId property); [reflexivity | congruence].
Qed.

(** The purchase of the test suite: with 10000 of money, buying the property
    of 1000 leaves 9000 of money and total assets of 10000. *)
Lemma buyProperty_outcomes_witness :
  exists st' player' property',
    PropertyManager.buyProperty Fixtures.state "p1" "prop1"
    = PurchaseResult.mk true None (Some st')
    /\ findPlayer (GameState.players st') "p1" = Some player'
    /\ Player.money player' = 9000
    /\ Player.totalAssets player' = 10000
    /\ findProperty (GameState.properties st') "prop1" = Some property'
    /\ Property.ownerId property' = Some "p1".
Proof.
  destruct (proj1 (buyProperty_outcomes Fixtures.state "p1" "prop1"
                     Fixtures.p1 Fixtures.prop1 eq_refl eq_refl))
    as (st' & player' & property' & Hbuy & Hfind & Hmoney & Hassets & Hprop & Howner).
  - reflexivity.
  - vm_compute. discriminate.
  - exists st', player', property'.
    split; [exact Hbuy|]. split; [exact Hfind|]. split; [exact Hmoney|].
    split; [|split; [exact Hprop | exact Howner]].
    rewrite Hassets, Hmoney. vm_compute in Hbuy. injection Hbuy as <-.
    reflexivity.
Defined.

(** ** Land fee *)

Lemma getLandFee_half (property : Property.t) :
  PropertyManager.getLandFee property
  = half (PropertyManager.getCurrentIncome property).
Proof. unfold PropertyManager.getLandFee. apply floorMul_half. Qed.

(** C5. With the payer and the property found: nothing changes when the
    property has no owner (a null owner, or the empty id that the guard
    treats alike) or is the payer's own; otherwise, with the fee
    [floor (currentIncome * 0.5)], the payer's money drops by exactly
    [min (fee, money)], does not end below zero, and the owner's money
    rises by that same amount. *)
Theorem payLandFee_settlement :
  forall (st : GameState.t) (payerId propertyId : string)
         (payer : Player.t) (property : Property.t),
    findPlayer (GameState.players st) payerId = Some payer ->
    findProperty (GameState.properties st) propertyId = Some property ->
    (truthy (Property.ownerId property) = false
     \/ Property.ownerId property = Some payerId ->
     PropertyManager.payLandFee st payerId propertyId = st)
    /\ (forall ownerId : string,
          Property.ownerId property = Some ownerId ->
          ownerId <> "" -> ownerId <> payerId ->
          let fee := half (PropertyManager.getCurrentIncome property) in
          let paid := Z.min fee (Player.money payer) in
          let st' := PropertyManager.payLandFee st payerId propertyId in
          PropertyManager.getLandFee property = fee
          /\ (exists payer',
                findPlayer (GameState.players st') payerId = Some payer'
                /\ Player.money payer' = Player.money payer - paid
                /\ 0 <= Player.money payer')
          /\ (forall owner : Player.t,
                findPlayer (GameState.players st) ownerId = Some owner ->
                exists owner',
                  findPlayer (GameState.players st') ownerId = Some owner'
                  /\ Player.money owner' = Player.money owner + paid)).
Proof.
  intros st payerId propertyId payer property Hpl Hpr.
  pose proof (findPlayer_id _ _ _ Hpl) as Hid.
  unfold PropertyManager.payLandFee. rewrite Hpl, Hpr. split.
  - intros [Hfalsy | Hown].
    + now rewrite Hfalsy.
    + rewrite Hown. simpl. rewrite String.eqb_refl.
      now rewrite orb_true_r.
  - intros ownerId Hown Hne Hnp. rewrite Hown. simpl.
    apply String.eqb_neq in Hne, Hnp. rewrite Hne, Hnp. simpl.
    rewrite getLandFee_half. split; [reflexivity|].
    set (paid := Z.min (half (PropertyManager.getCurrentIncome property))
                       (Player.money payer)).
    split.
    + rewrite findPlayer_map by reflexivity.
      rewrite findPlayer_map
        by (intros p; destruct (String.eqb (Player.id p) payerId);
            [|destruct (String.eqb ownerId (Player.id p))]; reflexivity).
      rewrite Hpl. simpl. rewrite Hid, String.eqb_refl. simpl.
      eexists. split; [reflexivity|]. simpl. split; [reflexivity|].
      subst paid. lia.
    + intros owner Hfind.
      pose proof (findPlayer_id _ _ _ Hfind) as Hoid.
      rewrite findPlayer_map by reflexivity.
      rewrite findPlayer_map
        by (intros p; destruct (String.eqb (Player.id p) payerId);
            [|destruct (String.eqb ownerId (Player.id p))]; reflexivity).
      rewrite Hfind. simpl. rewrite Hoid, Hnp, String.eqb_refl. simpl.
      eexists. split; reflexivity.
Qed.

(** The land fee of the test suite: [p1] lands on [prop1] owned by [p2]. *)
Lemma payLandFee_settlement_witness :
  PropertyManager.getLandFee Fixtures.rentedProp = 100
  /\ (exists payer',
        findPlayer
          (GameState.players (PropertyManager.payLandFee Fixtures.rentState "p1" "prop1"))
          "p1" = Some payer'
        /\ Player.money payer' = 10000 - 100
        /\ 0 <= Player.money payer')
  /\ (forall owner : Player.t,
        findPlayer (GameState.players Fixtures.rentState) "p2" = Some owner ->
        exists owner',
          findPlayer
            (GameState.players (PropertyManager.payLandFee Fixtures.rentState "p1" "prop1"))
            "p2" = Some owner'
          /\ Player.money owner' = Player.money owner + 100).
Proof.
  apply (proj2 (payLandFee_settlement Fixtures.rentState "p1" "prop1"
                  Fixtures.p1 Fixtures.rentedProp eq_refl eq_refl) "p2" eq_refl).
  - discriminate.
  - discriminate.
Defined.

(** ** Monopoly and annual income *)

Lemma fold_left_sumOf {A : Type} (w : A -> Z) (l : list A) (a : Z) :
  fold_left (fun s x => s + w x) l a = a + sumOf w l.
Proof.
  revert a. induction l as [|x l IH]; intros a; simpl; [lia|].
  rewrite IH. lia.
Qed.

Lemma sumOf_app {A : Type} (w : A -> Z) (l1 l2 : list A) :
  sumOf w (l1 ++ l2) = sumOf w l1 + sumOf w l2.
Proof. induction l1 as [|x l1 IH]; simpl; [reflexivity | rewrite IH; lia]. Qed.

Lemma sumOf_ext_in {A : Type} (w1 w2 : A -> Z) (l : list A) :
  (forall x, In x l -> w1 x = w2 x) -> sumOf w1 l = sumOf w2 l.
Proof.
  induction l as [|x l IH]; intros H; simpl; [reflexivity|].
  rewrite (H x) by (left; reflexivity).
  rewrite IH; [reflexivity|]. intros y Hy. apply H. now right.
Qed.

Lemma sumOf_zero {A : Type} (l : list A) : sumOf (fun _ => 0) l = 0.
Proof. induction l as [|x l IH]; simpl; [reflexivity | exact IH]. Qed.

Lemma sumOf_filter {A : Type} (w : A -> Z) (f : A -> bool) (l : list A) :
  sumOf w (filter f l) = sumOf (fun x => if f x then w x else 0) l.
Proof.
  induction l as [|x l IH]; simpl; [reflexivity|].
  destruct (f x); simpl; rewrite IH; reflexivity.
Qed.

Lemma uniq_not_seen (seen l : list string) (c : string) :
  In c (uniq seen l) -> existsb (String.eqb c) seen = false.
Proof.
  revert seen. induction l as [|x l IH]; intros seen Hin; simpl in Hin; [contradiction|].
  destruct (existsb (String.eqb x) seen) eqn:Hx.
  - now apply IH.
  - destruct Hin as [<- | Hin]; [exact Hx|].
    apply IH in Hin. simpl in Hin. apply orb_false_iff in Hin. tauto.
Qed.

(** Summing over a list is summing city by city. *)
Lemma sumOf_by_city (w : Property.t -> Z) (qs : list Property.t) (seen : list string) :
  sumOf w (filter (fun p => negb (existsb (String.eqb (Property.cityId p)) seen)) qs)
  = sumOf (fun c => sumOf w (PropertyManager.getPropertiesByCity qs c))
          (uniq seen (map Property.cityId qs)).
Proof.
  unfold PropertyManager.getPropertiesByCity.
  revert seen. induction qs as [|q qs IH]; intros seen; simpl; [reflexivity|].
  destruct (existsb (String.eqb (Property.cityId q)) seen) eqn:Hseen; simpl.
  - rewrite IH. apply sumOf_ext_in. intros c Hc.
    apply uniq_not_seen in Hc.
    destruct (String.eqb_spec (Property.cityId q) c) as [E|_];
      [subst c; congruence | reflexivity].
  - rewrite String.eqb_refl. simpl.
    assert (Hrest :
      sumOf (fun c => sumOf w (filter (fun p => (Property.cityId p =? c)%string) (q :: qs)))
            (uniq (Property.cityId q :: seen) (map Property.cityId qs))
      = sumOf (fun c => sumOf w (filter (fun p => (Property.cityId p =? c)%string) qs))
              (uniq (Property.cityId q :: seen) (map Property.cityId qs))).
    { apply sumOf_ext_in. intros c Hc. apply uniq_not_seen in Hc. simpl in Hc.
      apply orb_false_iff in Hc. destruct Hc as [Hc _]. simpl.
      rewrite String.eqb_sym, Hc. reflexivity. }
    simpl in Hrest. rewrite Hrest, <- IH. simpl.
    rewrite !sumOf_filter.
    assert (Hsplit : forall l,
      sumOf (fun x => if negb (existsb (String.eqb (Property.cityId x)) seen)
                      then w x else 0) l
      = sumOf (fun x => if (Property.cityId x =? Property.cityId q)%string
                        then w x else 0) l
        + sumOf (fun x => if negb ((Property.cityId x =? Property.cityId q)%string
                                   || existsb (String.eqb (Property.cityId x)) seen)
                          then w x else 0) l).
    { induction l as [|x l IHl]; simpl; [reflexivity|].
      rewrite IHl.
      destruct (String.eqb_spec (Property.cityId x) (Property.cityId q)) as [E|_]; simpl.
      - rewrite E, Hseen. simpl. lia.
      - destruct (existsb (String.eqb (Property.cityId x)) seen); simpl; lia. }
    rewrite Hsplit. lia.
Qed.

Lemma hasMonopoly_iff (properties : list Property.t) (cityId playerId : string) :
  PropertyManager.hasMonopoly properties cityId playerId = true
  <-> (exists p, In p properties /\ Property.cityId p = cityId)
      /\ (forall p, In p properties -> Property.cityId p = cityId ->
                    Property.ownerId p = Some playerId).
Proof.
  unfold PropertyManager.hasMonopoly. rewrite andb_true_iff, forallb_forall. split.
  - intros [Hlen Hall]. split.
    + destruct (filter (fun p => (Property.cityId p =? cityId)%string) properties)
        as [|p l] eqn:Hf; [discriminate|].
      assert (Hin : In p (filter (fun p => (Property.cityId p =? cityId)%string) properties))
        by (rewrite Hf; now left).
      apply filter_In in Hin. destruct Hin as [Hin Hc].
      exists p. split; [exact Hin | now apply String.eqb_eq].
    + intros p Hin Hc.
      assert (Hp : isId (Property.ownerId p) playerId = true).
      { apply Hall. apply filter_In. split; [exact Hin | now apply String.eqb_eq]. }
      unfold isId in Hp. destruct (Property.ownerId p) as [o|]; [|discriminate].
      apply String.eqb_eq in Hp. now subst.
  - intros [[p [Hin Hc]] Hall]. split.
    + assert (Hp : In p (filter (fun p => (Property.cityId p =? cityId)%string) properties))
        by (apply filter_In; split; [exact Hin | now apply String.eqb_eq]).
      destruct (filter (fun p => (Property.cityId p =? cityId)%string) properties);
        [contradiction | reflexivity].
    + intros q Hq. apply filter_In in Hq. destruct Hq as [Hq Hc'].
      apply String.eqb_eq in Hc'. rewrite (Hall q Hq Hc'). simpl.
      apply String.eqb_refl.
Qed.

Lemma addCity_fold (properties : list Property.t) (playerId : string)
      (g : list (string * list Property.t)) (a b : Z) :
  fold_left (PropertyManager.addCity properties playerId) g (a, b)
  = (a + sumOf (fun e => sumOf PropertyManager.getCurrentIncome (snd e)) g,
     b + sumOf (fun e => if PropertyManager.hasMonopoly properties (fst e) playerId
                         then sumOf PropertyManager.getCurrentIncome (snd e)
                         else 0) g).
Proof.
  revert a b. induction g as [|[c l] g IH]; intros a b; simpl.
  - f_equal; lia.
  - rewrite fold_left_sumOf. fold (PropertyManager.hasMonopoly properties c playerId).
    destruct (PropertyManager.hasMonopoly properties c playerId);
      rewrite IH; f_equal; lia.
Qed.

Lemma mapPush_income (g : list (string * list Property.t)) (p : Property.t) :
  sumOf (fun e => sumOf PropertyManager.getCurrentIncome (snd e))
        (PropertyManager.mapPush g p)
  = sumOf (fun e => sumOf PropertyManager.getCurrentIncome (snd e)) g
    + PropertyManager.getCurrentIncome p.
Proof.
  induction g as [|[c l] g IH]; simpl; [lia|].
  destruct (String.eqb c (Property.cityId p)); simpl.
  - rewrite sumOf_app. simpl. lia.
  - rewrite IH. lia.
Qed.

Lemma mapPush_bonus (mono : string -> bool)
      (g : list (string * list Property.t)) (p : Property.t) :
  sumOf (fun e => if mono (fst e)
                  then sumOf PropertyManager.getCurrentIncome (snd e) else 0)
        (PropertyManager.mapPush g p)
  = sumOf (fun e => if mono (fst e)
                    then sumOf PropertyManager.getCurrentIncome (snd e) else 0) g
    + (if mono (Property.cityId p) then PropertyManager.getCurrentIncome p else 0).
Proof.
  induction g as [|[c l] g IH]; simpl.
  - destruct (mono (Property.cityId p)); lia.
  - destruct (String.eqb_spec c (Property.cityId p)) as [E|_]; simpl.
    + subst c. destruct (mono (Property.cityId p)); [rewrite sumOf_app; simpl|]; lia.
    + rewrite IH. lia.
Qed.

Lemma groupByCity_sums (mono : string -> bool) (owned : list Property.t)
      (g : list (string * list Property.t)) :
  sumOf (fun e => sumOf PropertyManager.getCurrentIncome (snd e))
        (fold_left PropertyManager.mapPush owned g)
  = sumOf (fun e => sumOf PropertyManager.getCurrentIncome (snd e)) g
    + sumOf PropertyManager.getCurrentIncome owned
  /\ sumOf (fun e => if mono (fst e)
                     then sumOf PropertyManager.getCurrentIncome (snd e) else 0)
           (fold_left PropertyManager.mapPush owned g)
     = sumOf (fun e => if mono (fst e)
                       then sumOf PropertyManager.getCurrentIncome (snd e) else 0) g
       + sumOf (fun p => if mono (Property.cityId p)
                         then PropertyManager.getCurrentIncome p else 0) owned.
Proof.
  revert g. induction owned as [|p owned IH]; intros g; simpl; [lia|].
  destruct (IH (PropertyManager.mapPush g p)) as [H1 H2].
  rewrite H1, H2, mapPush_income, mapPush_bonus. lia.
Qed.

(** The bonus counted property by property is the bonus counted city by city. *)
Lemma bonus_by_city (properties : list Property.t) (playerId : string) :
  sumOf (fun p => if PropertyManager.hasMonopoly properties (Property.cityId p) playerId
                  then PropertyManager.getCurrentIncome p else 0)
        (PropertyManager.getOwnedProperties properties playerId)
  = sumOf (fun c => if PropertyManager.hasMonopoly properties c playerId
                    then cityIncome properties c else 0)
          (cities properties).
Proof.
  unfold PropertyManager.getOwnedProperties, cities, cityIncome.
  rewrite sumOf_filter.
  pose proof (sumOf_by_city
    (fun p => if isId (Property.ownerId p) playerId
              then if PropertyManager.hasMonopoly properties (Property.cityId p) playerId
                   then PropertyManager.getCurrentIncome p else 0
              else 0) properties []) as Hpart.
  assert (Hall : forall l : list Property.t,
             filter (fun p => negb (existsb (String.eqb (Property.cityId p)) [])) l = l)
    by (induction l as [|x l IHl]; [reflexivity | cbn; f_equal; exact IHl]).
  rewrite Hall in Hpart. rewrite Hpart.
  apply sumOf_ext_in. intros c _.
  unfold PropertyManager.getPropertiesByCity.
  destruct (PropertyManager.hasMonopoly properties c playerId) eqn:Hmono.
  - apply sumOf_ext_in. intros p Hp. apply filter_In in Hp. destruct Hp as [Hin Hc].
    apply String.eqb_eq in Hc. subst c. rewrite Hmono.
    apply hasMonopoly_iff in Hmono. destruct Hmono as [_ Hown].
    rewrite (Hown p Hin eq_refl). simpl. now rewrite String.eqb_refl.
  - rewrite (sumOf_ext_in _ (fun _ => 0)); [apply sumOf_zero|].
    intros p Hp. apply filter_In in Hp. destruct Hp as [_ Hc].
    apply String.eqb_eq in Hc. subst c. rewrite Hmono.
    destruct (isId (Property.ownerId p) playerId); reflexivity.
Qed.

(** C7. [hasMonopoly] holds exactly when the city has a property and every
    property of the city is owned by the player. [calcPlayerAnnualIncome]
    reports as [propertyIncome] the current incomes of the owned properties,
    as [monopolyBonus] the income subtotal of every monopolized city, and as
    [totalIncome] their sum; two owned properties of one city with incomes
    200 and 400 give 600, 600 and 1200. *)
Theorem monopoly_doubles_income :
  forall (properties : list Property.t) (cityId playerId : string),
    (PropertyManager.hasMonopoly properties cityId playerId = true
     <-> (exists p, In p properties /\ Property.cityId p = cityId)
         /\ (forall p, In p properties -> Property.cityId p = cityId ->
                       Property.ownerId p = Some playerId))
    /\ (let r := PropertyManager.calcPlayerAnnualIncome properties playerId in
        IncomeResult.propertyIncome r
        = sumOf PropertyManager.getCurrentIncome
                (PropertyManager.getOwnedProperties properties playerId)
        /\ IncomeResult.monopolyBonus r
           = sumOf (fun c => if PropertyManager.hasMonopoly properties c playerId
                             then cityIncome properties c else 0)
                   (cities properties)
        /\ IncomeResult.totalIncome r
           = IncomeResult.propertyIncome r + IncomeResult.monopolyBonus r)
    /\ PropertyManager.calcPlayerAnnualIncome
         [Property.with_ownerId (Some "p1") Fixtures.prop1;
          Property.with_ownerId (Some "p1") Fixtures.prop2] "p1"
       = IncomeResult.mk "p1" 600 600 1200.
Proof.
  intros properties cityId playerId. split; [apply hasMonopoly_iff|].
  split; [|reflexivity].
  rewrite <- bonus_by_city.
  unfold PropertyManager.calcPlayerAnnualIncome.
  destruct (PropertyManager.getOwnedProperties properties playerId) as [|p owned];
    [simpl; repeat split; reflexivity|].
  cbv zeta. change (length (p :: owned) =? 0)%nat with false. cbv iota.
  rewrite addCity_fold. simpl IncomeResult.propertyIncome.
  simpl IncomeResult.monopolyBonus. simpl IncomeResult.totalIncome.
  unfold PropertyManager.groupByCity.
  destruct (groupByCity_sums
              (fun c => PropertyManager.hasMonopoly properties c playerId)
              (p :: owned) []) as [H1 H2].
  rewrite H1, H2. simpl. repeat split; lia.
Qed.

(** ** Total assets *)

(** C1. The king's forced sale breaks the total-assets equation: from a
    balanced state, [victim] (money 10000, one property of 1000) ends with
    money 9700 and total assets 10400 while owning nothing. *)
Theorem kingAction_sell_all_unbalances :
  assetsInvariant Fixtures.kingState
  /\ (let st' := BombeeManager.processBombeeAction Fixtures.kingState Fixtures.kingDraws in
      exists p,
        findPlayer (GameState.players st') "victim" = Some p
        /\ Player.money p = 9700
        /\ Player.totalAssets p = 10400
        /\ ownedValue (GameState.properties st') "victim" = 0
        /\ ~ assetsInvariant st').
Proof.
  split.
  - repeat constructor.
  - eexists. split; [vm_compute; reflexivity|].
    repeat split.
    intros H. unfold assetsInvariant in H.
    apply Forall_forall with (x := Player.with_bombee king 13
             (Player.with_totalAssets 10400
                (Player.with_money 9700 Fixtures.victim))) in H.
    + vm_compute in H. discriminate.
    + vm_compute. right. left. reflexivity.
Qed.

(** Buying a card at the shop lowers the money and leaves the total assets:
    [p1] pays 500 and keeps total assets of 10000 with 9500 of money. *)
Lemma buyCard_unbalances :
  assetsInvariant Fixtures.state
  /\ (let r := CardManager.buyCard Fixtures.sampleCards Fixtures.state "p1" "card_money" in
      BuyCardResult.success r = true
      /\ exists p,
           findPlayer (GameState.players (BuyCardResult.newState r)) "p1" = Some p
           /\ Player.money p = 9500
           /\ Player.totalAssets p = 10000
           /\ ownedValue (GameState.properties (BuyCardResult.newState r)) "p1" = 0).
Proof.
  split; [repeat constructor|]. split; [reflexivity|].
  eexists. split; [vm_compute; reflexivity|]. repeat split.
Qed.

(** ** Lookups that fail *)

Lemma useCard_unknown (allCards : list Card.t) (st : GameState.t)
      (playerId cardId : string) (options : UseCardOptions.t) (rnd : nat) :
  findPlayer (GameState.players st) playerId = None
  \/ CardManager.getCardById allCards cardId = None ->
  CardManager.useCard allCards st playerId cardId options rnd
  = Returned (UseCardResult.fail not_found).
Proof.
  intros H. unfold CardManager.useCard.
  destruct H as [-> | H]; [reflexivity|].
  rewrite H. destruct (findPlayer (GameState.players st) playerId); reflexivity.
Qed.

(** ** What the card effects leave alone *)

Lemma map_map_keeps {A : Type} (f : Player.t -> A) (g : Player.t -> Player.t)
      (ps : list Player.t) :
  (forall p, f (g p) = f p) -> map f (map g ps) = map f ps.
Proof.
  intros H. rewrite map_map. apply map_ext. exact H.
Qed.

Lemma updPlayer_keeps {A : Type} (f : Player.t -> A) (i : string)
      (g : Player.t -> Player.t) (ps : list Player.t) :
  (forall p, f (g p) = f p) -> map f (CardManager.updPlayer i g ps) = map f ps.
Proof.
  intros H. unfold CardManager.updPlayer. apply map_map_keeps.
  intros p. destruct (String.eqb (Player.id p) i); [apply H | reflexivity].
Qed.

Lemma fold_left_keeps {A S B : Type} (f : Player.t -> A)
      (F : S * list Player.t -> B -> S * list Player.t) (l : list B) :
  (forall acc b, map f (snd (F acc b)) = map f (snd acc)) ->
  forall acc, map f (snd (fold_left F l acc)) = map f (snd acc).
Proof.
  intros H. induction l as [|b l IH]; intros acc; simpl; [reflexivity|].
  rewrite IH. apply H.
Qed.

Lemma recalcTotalAssetsLocal_players (s : GameState.t) :
  GameState.players (CardManager.recalcTotalAssetsLocal s)
  = map (fun p => Player.with_totalAssets
                    (Player.money p + ownedValue (GameState.properties s) (Player.id p)) p)
        (GameState.players s).
Proof. reflexivity. Qed.

Lemma recalcTotalAssetsLocal_properties (s : GameState.t) :
  GameState.properties (CardManager.recalcTotalAssetsLocal s) = GameState.properties s.
Proof. reflexivity. Qed.

Ltac trivial_sat := first [exact I | reflexivity].

Ltac break_match :=
  match goal with
  | |- context [match ?x with _ => _ end] => destruct x eqn:?
  end.

Section EconomicFrame.

(** A view of a player that does not look at the money, the total assets,
    the position or the multipliers. *)
Variable A : Type.
Variable f : Player.t -> A.
Hypothesis f_money : forall m p, f (Player.with_money m p) = f p.
Hypothesis f_totalAssets : forall a p, f (Player.with_totalAssets a p) = f p.
Hypothesis f_position : forall x p, f (Player.with_position x p) = f p.
Hypothesis f_incomeMultiplier : forall m p, f (Player.with_incomeMultiplier m p) = f p.
Hypothesis f_diceMultiplier : forall m p, f (Player.with_diceMultiplier m p) = f p.

Lemma f_credit (d : Z) (p : Player.t) : f (Player.credit d p) = f p.
Proof. unfold Player.credit. now rewrite f_totalAssets, f_money. Qed.

Lemma recalcTotalAssetsLocal_keeps (s : GameState.t) :
  map f (GameState.players (CardManager.recalcTotalAssetsLocal s))
  = map f (GameState.players s).
Proof.
  rewrite recalcTotalAssetsLocal_players. apply map_map_keeps.
  intros p. apply f_totalAssets.
Qed.

Lemma payEach_keeps (value : Z) (opponents : list Player.t) (totalPaid remaining : Z)
      (newPlayers : list Player.t) :
  map f (snd (CardManager.payEach value opponents totalPaid remaining newPlayers))
  = map f newPlayers.
Proof.
  revert totalPaid remaining newPlayers.
  induction opponents as [|opp opponents IH]; intros totalPaid remaining newPlayers;
    simpl; [reflexivity|].
  destruct (remaining <=? 0); [reflexivity|].
  rewrite IH. apply updPlayer_keeps. intros p. apply f_credit.
Qed.

Ltac keeps_players :=
  unfold outcomeSat, resultSat, keepsPlayers, UseCardResult.ok, UseCardResult.fail;
  simpl;
  rewrite ?(map_map_keeps f) by (intros; apply f_totalAssets);
  first
    [ trivial_sat
    | apply updPlayer_keeps; intros;
      rewrite ?f_credit, ?f_money, ?f_totalAssets, ?f_position,
        ?f_incomeMultiplier, ?f_diceMultiplier;
      reflexivity ].

Lemma useMoveToDest_keeps (st : GameState.t) (playerId : string) (card : Card.t) :
  resultSat (keepsPlayers f st) (CardManager.useMoveToDest st playerId card).
Proof.
  unfold CardManager.useMoveToDest. repeat break_match; keeps_players.
Qed.

Lemma useMoveToCity_keeps (st : GameState.t) (playerId : string) (card : Card.t) :
  resultSat (keepsPlayers f st) (CardManager.useMoveToCity st playerId card).
Proof.
  unfold CardManager.useMoveToCity. keeps_players.
Qed.

Lemma useGetMoney_keeps (st : GameState.t) (playerId : string) (card : Card.t) :
  resultSat (keepsPlayers f st) (CardManager.useGetMoney st playerId card).
Proof.
  unfold CardManager.useGetMoney. cbv zeta.
  destruct (isId _ "property_value_percent"); [keeps_players|].
  destruct (isId _ "all_players_each"); [|keeps_players].
  match goal with
  | |- context [fold_left ?F ?l ?a] =>
      pose proof (fold_left_keeps f F l) as Hfold;
      specialize (Hfold
        ltac:(intros [t ps] opp; simpl; apply updPlayer_keeps;
              intros; apply f_credit) a);
      destruct (fold_left F l a) as [totalReceived newPlayers]
  end.
  simpl in Hfold.
  unfold resultSat, keepsPlayers. simpl. rewrite <- Hfold.
  apply updPlayer_keeps. intros. apply f_credit.
Qed.

Lemma usePayMoney_keeps (st : GameState.t) (playerId : string) (card : Card.t) :
  outcomeSat (keepsPlayers f st) (CardManager.usePayMoney st playerId card).
Proof.
  unfold CardManager.usePayMoney. cbv zeta.
  destruct (findPlayer (GameState.players st) playerId) as [player|]; [|trivial_sat].
  destruct (isId _ "property_value_percent"); [keeps_players|].
  destruct (isId _ "total_assets_percent"); [keeps_players|].
  destruct (isId _ "all_players_each"); [|keeps_players].
  match goal with
  | |- context [CardManager.payEach ?v ?o ?t ?r ?ps] =>
      pose proof (payEach_keeps v o t r ps) as Hpay;
      destruct (CardManager.payEach v o t r ps) as [totalPaid newPlayers]
  end.
  simpl in Hpay. unfold outcomeSat, resultSat, keepsPlayers. simpl. rewrite <- Hpay.
  apply updPlayer_keeps. intros. apply f_credit.
Qed.

Lemma useDoubleIncome_keeps (st : GameState.t) (playerId : string) (card : Card.t) :
  resultSat (keepsPlayers f st) (CardManager.useDoubleIncome st playerId card).
Proof.
  unfold CardManager.useDoubleIncome. cbv zeta.
  destruct (isId _ "one_month"); keeps_players.
Qed.

Lemma useSellProperty_keeps (st : GameState.t) (playerId : string) (card : Card.t)
      (targetPropertyId targetPlayerId currentCityId : option string) :
  outcomeSat (keepsPlayers f st)
    (CardManager.useSellProperty st playerId card
       targetPropertyId targetPlayerId currentCityId).
Proof.
  unfold CardManager.useSellProperty. cbv zeta.
  repeat break_match; keeps_players.
Qed.

Lemma useStealProperty_keeps (st : GameState.t) (playerId : string) (card : Card.t)
      (currentCityId : option string) :
  outcomeSat (keepsPlayers f st)
    (CardManager.useStealProperty st playerId card currentCityId).
Proof.
  unfold CardManager.useStealProperty. cbv zeta.
  repeat break_match; keeps_players.
Qed.

Lemma breakAt_keeps (st : GameState.t) (oppId : string) (target : Property.t) :
  resultSat (keepsPlayers f st) (CardManager.breakAt st oppId target).
Proof. unfold CardManager.breakAt. keeps_players. Qed.

Lemma firstReturn_sat {X Y : Type} (P : Y -> Prop) (body : X -> option Y) (l : list X) :
  (forall x y, body x = Some y -> P y) ->
  forall y, CardManager.firstReturn body l = Some y -> P y.
Proof.
  intros H. induction l as [|x l IH]; intros y; simpl; [discriminate|].
  destruct (body x) as [y'|] eqn:E.
  - intros [= <-]. now apply (H x).
  - apply IH.
Qed.

Lemma useMonopolyBreak_keeps (st : GameState.t) (playerId : string) (card : Card.t) :
  outcomeSat (keepsPlayers f st) (CardManager.useMonopolyBreak st playerId card).
Proof.
  unfold CardManager.useMonopolyBreak. cbv zeta.
  match goal with
  | |- context [CardManager.firstReturn ?body ?l] =>
      destruct (CardManager.firstReturn body l) as [r|] eqn:Hfirst
  end.
  - revert r Hfirst. apply firstReturn_sat. intros cityId r.
    destruct (length _ =? 0)%nat; [discriminate|].
    apply firstReturn_sat. intros oppId r'.
    destruct (forallb _ _); [|discriminate].
    intros [= <-]. destruct (reduce1 _ _); [apply breakAt_keeps | trivial_sat].
  - match goal with
    | |- context [fold_left ?F ?l ?a] => destruct (fold_left F l a) as [b|]
    end; [|trivial_sat].
    destruct (BestTarget.prop b); [apply breakAt_keeps | trivial_sat].
Qed.

Lemma useBuyProperty_keeps (st : GameState.t) (playerId : string) (card : Card.t)
      (currentCityId : option string) :
  resultSat (keepsPlayers f st)
    (CardManager.useBuyProperty st playerId card currentCityId).
Proof.
  unfold CardManager.useBuyProperty. cbv zeta.
  repeat break_match; keeps_players.
Qed.

End EconomicFrame.

(** ** Using a card *)

Lemma idHand_keeps_find (ps ps' : list Player.t) (i : string) (p : Player.t) :
  map idHand ps' = map idHand ps ->
  findPlayer ps i = Some p ->
  exists p', findPlayer ps' i = Some p' /\ Player.hand p' = Player.hand p.
Proof.
  revert ps'. induction ps as [|q ps IH]; intros ps' Hmap Hfind; [discriminate|].
  destruct ps' as [|q' ps']; [discriminate|].
  simpl in Hmap. unfold idHand at 1 3 in Hmap. injection Hmap as Hid Hhand Hrest.
  unfold findPlayer in *. simpl in *. rewrite Hid.
  destruct (String.eqb (Player.id q) i).
  - injection Hfind as <-. exists q'. split; [reflexivity | exact Hhand].
  - now apply IH.
Qed.

Lemma removeFromHand_find (st : GameState.t) (playerId cardId : string) (player : Player.t) :
  findPlayer (GameState.players st) playerId = Some player ->
  findPlayer (GameState.players (CardManager.removeFromHand playerId cardId st)) playerId
  = Some (Player.with_hand
            (filter (fun id => negb (String.eqb id cardId)) (Player.hand player)) player).
Proof.
  intros Hfind. unfold CardManager.removeFromHand, CardManager.updPlayer. simpl.
  rewrite findPlayer_map
    by (intros p; destruct (String.eqb (Player.id p) playerId); reflexivity).
  rewrite Hfind. simpl.
  now rewrite (findPlayer_id _ _ _ Hfind), String.eqb_refl.
Qed.

Lemma removed_not_in (cardId : string) (hand : list string) :
  ~ In cardId (filter (fun id => negb (String.eqb id cardId)) hand).
Proof.
  intros H. apply filter_In in H. destruct H as [_ H].
  now rewrite String.eqb_refl in H.
Qed.

Lemma useBombeeTransfer_hands (st : GameState.t) (fromId toId : string) :
  resultSat (keepsPlayers idHand st) (CardManager.useBombeeTransfer st fromId toId).
Proof.
  unfold CardManager.useBombeeTransfer.
  repeat break_match; unfold resultSat, keepsPlayers; simpl; try trivial_sat;
    apply map_map_keeps; intros p; repeat break_match; reflexivity.
Qed.

Lemma useBombeeTransferLastToSecond_hands (st : GameState.t) :
  resultSat (keepsPlayers idHand st) (CardManager.useBombeeTransferLastToSecond st).
Proof.
  unfold CardManager.useBombeeTransferLastToSecond.
  repeat break_match; unfold resultSat, keepsPlayers; simpl; try trivial_sat;
    apply map_map_keeps; intros p; repeat break_match; reflexivity.
Qed.

Lemma useBombeeAway_hands (st : GameState.t) (playerId : string) (card : Card.t) :
  resultSat (keepsPlayers idHand st) (CardManager.useBombeeAway st playerId card).
Proof.
  unfold CardManager.useBombeeAway.
  repeat break_match; unfold resultSat, keepsPlayers; simpl; try reflexivity;
    apply updPlayer_keeps; reflexivity.
Qed.

Lemma useCardSteal_hand (st : GameState.t) (stealerId targetId : string)
      (targetCardId : option string) (rnd : nat) (stealer : Player.t) :
  findPlayer (GameState.players st) stealerId = Some stealer ->
  resultSat
    (fun st' =>
       exists stolen,
         findPlayer (GameState.players st') stealerId
         = Some (Player.with_hand (Player.hand stealer ++ [stolen]) stealer))
    (CardManager.useCardSteal st stealerId targetId targetCardId rnd).
Proof.
  intros Hfind. unfold CardManager.useCardSteal. rewrite Hfind.
  destruct (findPlayer (GameState.players st) targetId) as [target|]; [|trivial_sat].
  destruct (Player.hand target) as [|first rest] eqn:Hhand; [trivial_sat|].
  destruct (CardManager.MAX_CARD_COUNT <=? length (Player.hand stealer))%nat;
    [trivial_sat|].
  unfold resultSat. simpl UseCardResult.newState. cbv iota.
  eexists. simpl GameState.players.
  rewrite findPlayer_map
    by (intros p; destruct (String.eqb (Player.id p) stealerId);
        [|destruct (String.eqb (Player.id p) targetId)]; reflexivity).
  rewrite Hfind. simpl.
  rewrite (findPlayer_id _ _ _ Hfind), String.eqb_refl. reflexivity.
Qed.

(** Every effect but the card theft leaves all hands as [removeFromHand]
    made them. *)
Lemma useCard_effect_hands (allCards : list Card.t) (st : GameState.t)
      (playerId cardId : string) (options : UseCardOptions.t) (rnd : nat)
      (player : Player.t) (card : Card.t) :
  findPlayer (GameState.players st) playerId = Some player ->
  CardManager.getCardById allCards cardId = Some card ->
  existsb (String.eqb cardId) (Player.hand player) = true ->
  Card.type card <> card_steal ->
  outcomeSat (keepsPlayers idHand (CardManager.removeFromHand playerId cardId st))
             (CardManager.useCard allCards st playerId cardId options rnd).
Proof.
  intros Hpl Hcard Hin Htype. unfold CardManager.useCard.
  rewrite Hpl, Hcard, Hin. simpl negb. cbv iota zeta.
  destruct (Card.type card); try contradiction; simpl outcomeSat.
  - apply useMoveToDest_keeps; reflexivity.
  - unfold resultSat, keepsPlayers. reflexivity.
  - apply useMoveToCity_keeps; reflexivity.
  - apply useBuyProperty_keeps; reflexivity.
  - apply useStealProperty_keeps; reflexivity.
  - apply useSellProperty_keeps; reflexivity.
  - apply useGetMoney_keeps; reflexivity.
  - apply usePayMoney_keeps; reflexivity.
  - apply useBombeeAway_hands.
  - destruct (isId _ "last_to_second"); [apply useBombeeTransferLastToSecond_hands|].
    destruct (CardManager.given _); [apply useBombeeTransfer_hands | reflexivity].
  - apply useMonopolyBreak_keeps; reflexivity.
  - unfold resultSat, keepsPlayers. reflexivity.
  - apply useDoubleIncome_keeps; reflexivity.
Qed.

(** C4, as the claim states it, fails: [p1] plays a card-steal card on [p2],
    who holds a copy of the same card; the call succeeds and the hand of
    [p1] contains the card again. *)
Lemma useCard_steal_same_card_back :
  exists st' player',
    CardManager.useCard [Fixtures.stealCard] Fixtures.stealState "p1" "card_steal_1"
      Fixtures.stealOptions 0%nat
    = Returned (UseCardResult.ok st')
    /\ findPlayer (GameState.players st') "p1" = Some player'
    /\ In "card_steal_1" (Player.hand player').
Proof.
  eexists. eexists. split; [vm_compute; reflexivity|].
  split; [vm_compute; reflexivity|]. simpl. left. reflexivity.
Qed.

(** C4, amended. A card id that is not in the acting player's hand gives
    [not_owner], an unknown card or player [not_found], and neither carries a
    new state. A successful use applies the effect to the state from which
    the card id was removed from the acting player's hand: the resulting hand
    is the old hand without that id, and does not contain it. The card theft
    is the exception: its effect appends the stolen card to that hand, which
    then contains the used id again only when the stolen card has the same
    id. *)
Theorem useCard_hand :
  forall (allCards : list Card.t) (st : GameState.t) (playerId cardId : string)
         (options : UseCardOptions.t) (rnd : nat),
    (findPlayer (GameState.players st) playerId = None
     \/ CardManager.getCardById allCards cardId = None ->
     CardManager.useCard allCards st playerId cardId options rnd
     = Returned (UseCardResult.mk false (Some not_found) None))
    /\ (forall player card,
          findPlayer (GameState.players st) playerId = Some player ->
          CardManager.getCardById allCards cardId = Some card ->
          (~ In cardId (Player.hand player) ->
           CardManager.useCard allCards st playerId cardId options rnd
           = Returned (UseCardResult.mk false (Some not_owner) None))
          /\ (forall r,
                CardManager.useCard allCards st playerId cardId options rnd = Returned r ->
                UseCardResult.success r = true ->
                let removed :=
                  filter (fun id => negb (String.eqb id cardId)) (Player.hand player) in
                exists st' player',
                  UseCardResult.newState r = Some st'
                  /\ findPlayer (GameState.players st') playerId = Some player'
                  /\ (Card.type card <> card_steal ->
                      Player.hand player' = removed
                      /\ ~ In cardId (Player.hand player'))
                  /\ (Card.type card = card_steal ->
                      exists stolen,
                        Player.hand player' = removed ++ [stolen]
                        /\ (stolen <> cardId -> ~ In cardId (Player.hand player'))))).
Proof.
  intros allCards st playerId cardId options rnd. split.
  - apply useCard_unknown.
  - intros player card Hpl Hcard.
    pose proof (removeFromHand_find st playerId cardId player Hpl) as Hrem.
    split.
    + intros Hnot. unfold CardManager.useCard. rewrite Hpl, Hcard.
      destruct (existsb (String.eqb cardId) (Player.hand player)) eqn:Hex; [|reflexivity].
      apply existsb_exists in Hex. destruct Hex as [x [Hx Heq]].
      apply String.eqb_eq in Heq. subst x. contradiction.
    + intros r Huse Hsucc removed.
      destruct (existsb (String.eqb cardId) (Player.hand player)) eqn:Hex.
      2:{ unfold CardManager.useCard in Huse. rewrite Hpl, Hcard, Hex in Huse.
          injection Huse as <-. discriminate. }
      destruct (CardType_eq_dec (Card.type card) card_steal) as [Hsteal | Hother].
      * unfold CardManager.useCard in Huse. rewrite Hpl, Hcard, Hex, Hsteal in Huse.
        simpl in Huse.
        destruct (CardManager.given (UseCardOptions.targetPlayerId options)) as [t|];
          [|injection Huse as <-; discriminate].
        injection Huse as <-.
        pose proof (useCardSteal_hand _ playerId t
                      (UseCardOptions.targetCardId options) rnd _ Hrem) as Hsat.
        unfold resultSat in Hsat.
        destruct (UseCardResult.newState _) as [st'|]; [|congruence].
        destruct Hsat as [stolen Hfind].
        exists st'. eexists. split; [reflexivity|]. split; [exact Hfind|].
        split; [congruence|]. intros _. exists stolen. simpl.
        split; [reflexivity|].
        intros Hne Hin. apply in_app_or in Hin. destruct Hin as [Hin | [Hin | []]].
        -- now apply removed_not_in in Hin.
        -- congruence.
      * pose proof (useCard_effect_hands allCards st playerId cardId options rnd
                      player card Hpl Hcard Hex Hother) as Hsat.
        rewrite Huse in Hsat. unfold outcomeSat, resultSat in Hsat.
        destruct (UseCardResult.newState r) as [st'|]; [|congruence].
        destruct (idHand_keeps_find _ _ playerId _ Hsat Hrem) as [player' [Hfind Hhand]].
        exists st', player'. split; [reflexivity|]. split; [exact Hfind|].
        simpl in Hhand. split.
        -- intros _. split; [exact Hhand|]. rewrite Hhand. apply removed_not_in.
        -- congruence.
Qed.

(** The income card of the test suite leaves the hand without it. *)
Lemma useCard_hand_witness :
  exists st' player',
    UseCardResult.newState (UseCardResult.ok
      (GameState.with_players
         [Player.credit 1000 (Player.with_hand ["card_pay"] Fixtures.holder);
          Fixtures.p2] Fixtures.cardState)) = Some st'
    /\ findPlayer (GameState.players st') "p1" = Some player'
    /\ (Card.type Fixtures.card_money <> card_steal ->
        Player.hand player' = ["card_pay"]
        /\ ~ In "card_money" (Player.hand player'))
    /\ (Card.type Fixtures.card_money = card_steal ->
        exists stolen,
          Player.hand player' = ["card_pay"] ++ [stolen]
          /\ (stolen <> "card_money" -> ~ In "card_money" (Player.hand player'))).
Proof.
  apply (proj2 (proj2 (useCard_hand Fixtures.sampleCards Fixtures.cardState
                         "p1" "card_money" UseCardOptions.empty 0%nat)
                      Fixtures.holder Fixtures.card_money eq_refl eq_refl)).
  - reflexivity.
  - reflexivity.
Defined.

(** ** No card use throws *)

Lemma reduce1_nonempty {X : Type} (better : X -> X -> bool) (l : list X) :
  (length l =? 0)%nat = false -> exists x, reduce1 better l = Some x.
Proof.
  destruct l as [|x l]; [discriminate|]. intros _. simpl. eexists. reflexivity.
Qed.

Lemma find_none_filter {X : Type} (f : X -> bool) (l : list X) :
  find f l = None -> filter f l = [].
Proof.
  induction l as [|x l IH]; simpl; [reflexivity|].
  destruct (f x); [discriminate | exact IH].
Qed.

Lemma ratio_of_none (len : nat) :
  Qltb 0%Q (inject_Z (Z.of_nat 0) / inject_Z (Z.of_nat len))%Q = false.
Proof.
  unfold Qltb, Qle_bool, Qdiv, Qmult. simpl. reflexivity.
Qed.

Lemma usePayMoney_returns (st : GameState.t) (playerId : string) (card : Card.t)
      (player : Player.t) :
  findPlayer (GameState.players st) playerId = Some player ->
  returns (CardManager.usePayMoney st playerId card).
Proof.
  intros Hfind. unfold CardManager.usePayMoney. rewrite Hfind. cbv zeta.
  repeat break_match; exact I.
Qed.

Lemma useSellProperty_returns (st : GameState.t) (playerId : string) (card : Card.t)
      (targetPropertyId targetPlayerId currentCityId : option string) :
  returns (CardManager.useSellProperty st playerId card
             targetPropertyId targetPlayerId currentCityId).
Proof.
  unfold CardManager.useSellProperty. cbv zeta.
  destruct (if isId _ "current_city_all" then _ else None) as [city|].
  - repeat break_match; exact I.
  - destruct (if isId _ "opponent_forced" then _ else None) as [opp|].
    + destruct (length _ =? 0)%nat eqn:Hlen; [exact I|].
      destruct (reduce1_nonempty CardManager.cheaper _ Hlen) as [x ->]. exact I.
    + repeat break_match; exact I.
Qed.

Lemma useStealProperty_returns (st : GameState.t) (playerId : string) (card : Card.t)
      (currentCityId : option string) :
  returns (CardManager.useStealProperty st playerId card currentCityId).
Proof.
  unfold CardManager.useStealProperty. cbv zeta.
  destruct (if isId _ "current_city_all" then _ else None) as [city|].
  - repeat break_match; exact I.
  - destruct (length _ =? 0)%nat eqn:Hlen; [exact I|].
    destruct (reduce1_nonempty
                (fun p best => Player.totalAssets best <? Player.totalAssets p) _ Hlen)
      as [richest ->].
    destruct (length (filter _ (GameState.properties st)) =? 0)%nat eqn:Hlen';
      [exact I|].
    destruct (reduce1_nonempty CardManager.cheaper _ Hlen') as [x ->]. exact I.
Qed.

Lemma useMonopolyBreak_returns (st : GameState.t) (playerId : string) (card : Card.t) :
  returns (CardManager.useMonopolyBreak st playerId card).
Proof.
  unfold CardManager.useMonopolyBreak. cbv zeta.
  match goal with
  | |- context [CardManager.firstReturn ?body ?l] =>
      destruct (CardManager.firstReturn body l) as [r|] eqn:Hfirst
  end.
  - revert r Hfirst. apply firstReturn_sat. intros cityId r.
    destruct (length _ =? 0)%nat eqn:Hlen; [discriminate|].
    apply firstReturn_sat. intros oppId r'.
    destruct (forallb _ _); [|discriminate].
    intros [= <-].
    destruct (reduce1_nonempty CardManager.cheaper _ Hlen) as [x ->]. exact I.
  - match goal with
    | |- context [fold_left ?F ?l ?a] =>
        assert (Hfold : forall l' best,
                   (forall b, best = Some b -> BestTarget.prop b <> None) ->
                   forall b, fold_left F l' best = Some b -> BestTarget.prop b <> None);
        [|specialize (Hfold l a); destruct (fold_left F l a) as [b|]]
    end.
    + induction l' as [|cityId l' IH]; intros best Hbest; simpl; [exact Hbest|].
      apply IH. destruct (length _ <=? 1)%nat; [exact Hbest|].
      match goal with
      | |- context [fold_left ?G ?opps best] =>
          assert (Hinner : forall opps' best',
                     (forall b, best' = Some b -> BestTarget.prop b <> None) ->
                     forall b, fold_left G opps' best' = Some b ->
                               BestTarget.prop b <> None)
      end.
      { induction opps' as [|oppId opps' IHo]; intros best' Hbest'; simpl; [exact Hbest'|].
        apply IHo. cbv zeta.
        destruct (find _ _) as [prop|] eqn:Hfind.
        - destruct (_ && _); [|exact Hbest']. intros b [= <-]. discriminate.
        - rewrite (find_none_filter _ _ Hfind). simpl length.
          rewrite ratio_of_none. simpl. exact Hbest'. }
      now apply Hinner.
    + specialize (Hfold ltac:(discriminate) b eq_refl).
      destruct (BestTarget.prop b); [exact I | congruence].
    + exact I.
Qed.

(** Every use of a card returns a result. *)
Lemma useCard_returns (allCards : list Card.t) (st : GameState.t)
      (playerId cardId : string) (options : UseCardOptions.t) (rnd : nat) :
  returns (CardManager.useCard allCards st playerId cardId options rnd).
Proof.
  unfold CardManager.useCard.
  destruct (findPlayer _ _) as [player|] eqn:Hfind; [|exact I].
  destruct (CardManager.getCardById _ _) as [card|]; [|exact I].
  destruct (negb _); [exact I|]. cbv zeta.
  destruct (Card.type card); try exact I.
  - apply useStealProperty_returns.
  - apply useSellProperty_returns.
  - eapply usePayMoney_returns. apply removeFromHand_find. exact Hfind.
  - repeat break_match; exact I.
  - apply useMonopolyBreak_returns.
  - repeat break_match; exact I.
Qed.

(** ** Unknown identifiers *)

(** C3, as the claim states it, fails: buying with an unknown property id
    reports [not_enough_money]. *)
Lemma buyProperty_unknown_not_reported :
  findProperty (GameState.properties Fixtures.state) "nowhere" = None
  /\ option_map purchaseReasonCode
       (PurchaseResult.reason
          (PropertyManager.buyProperty Fixtures.state "p1" "nowhere"))
     <> Some "not_found".
Proof. split; [reflexivity | vm_compute; discriminate]. Qed.

(** C3, amended. With an unknown acting player or card, [useCard] and
    [buyCard] return [not_found]. With an unknown player or property, the
    property operations have no such code: [buyProperty] fails with
    [not_enough_money], [upgradeProperty] fails without a reason, and
    [payLandFee] and [sellPropertyForcibly] return the state as it is.
    None of them throws: the property operations have nothing that could,
    and [useCard] returns a result on every input. *)
Theorem unknown_id_outcomes :
  forall (allCards : list Card.t) (st : GameState.t)
         (playerId cardId propertyId : string)
         (options : UseCardOptions.t) (rnd : nat),
    (findPlayer (GameState.players st) playerId = None
     \/ CardManager.getCardById allCards cardId = None ->
     CardManager.useCard allCards st playerId cardId options rnd
     = Returned (UseCardResult.fail not_found)
     /\ CardManager.buyCard allCards st playerId cardId
        = BuyCardResult.mk st false (Some "not_found"))
    /\ (findPlayer (GameState.players st) playerId = None
        \/ findProperty (GameState.properties st) propertyId = None ->
        PropertyManager.buyProperty st playerId propertyId
        = PurchaseResult.mk false (Some pr_not_enough_money) None
        /\ PropertyManager.upgradeProperty st playerId propertyId
           = PurchaseResult.mk false None None
        /\ PropertyManager.payLandFee st playerId propertyId = st
        /\ PropertyManager.sellPropertyForcibly st playerId propertyId = st)
    /\ returns (CardManager.useCard allCards st playerId cardId options rnd).
Proof.
  intros allCards st playerId cardId propertyId options rnd.
  split; [|split; [|apply useCard_returns]].
  - intros H. split; [now apply useCard_unknown|].
    unfold CardManager.buyCard.
    destruct H as [-> | H]; [reflexivity|].
    rewrite H. destruct (findPlayer (GameState.players st) playerId); reflexivity.
  - intros H.
    unfold PropertyManager.buyProperty, PropertyManager.upgradeProperty,
      PropertyManager.payLandFee, PropertyManager.sellPropertyForcibly.
    destruct H as [-> | H]; [repeat split; reflexivity|].
    rewrite H. destruct (findPlayer (GameState.players st) playerId);
      repeat split; reflexivity.
Qed.

(** A player and a property that the fixture does not have. *)
Lemma unknown_id_outcomes_witness :
  (CardManager.useCard [] Fixtures.state "nobody" "card_money"
     UseCardOptions.empty 0%nat
   = Returned (UseCardResult.fail not_found)
   /\ CardManager.buyCard [] Fixtures.state "nobody" "card_money"
      = BuyCardResult.mk Fixtures.state false (Some "not_found"))
  /\ (PropertyManager.buyProperty Fixtures.state "nobody" "nowhere"
      = PurchaseResult.mk false (Some pr_not_enough_money) None
      /\ PropertyManager.upgradeProperty Fixtures.state "nobody" "nowhere"
         = PurchaseResult.mk false None None
      /\ PropertyManager.payLandFee Fixtures.state "nobody" "nowhere" = Fixtures.state
      /\ PropertyManager.sellPropertyForcibly Fixtures.state "nobody" "nowhere"
         = Fixtures.state).
Proof.
  pose proof (unknown_id_outcomes [] Fixtures.state "nobody" "card_money" "nowhere"
                UseCardOptions.empty 0%nat) as [Hcard [Hprop _]].
  split.
  - apply Hcard. left. reflexivity.
  - apply Hprop. left. reflexivity.
Defined.

(** ** Pay cards *)

Lemma findPlayer_updPlayer_other (i j : string) (g : Player.t -> Player.t)
      (ps : list Player.t) :
  (forall p, Player.id (g p) = Player.id p) -> i <> j ->
  findPlayer (CardManager.updPlayer j g ps) i = findPlayer ps i.
Proof.
  intros Hid Hne. unfold findPlayer, CardManager.updPlayer.
  induction ps as [|p ps IH]; simpl; [reflexivity|].
  destruct (String.eqb_spec (Player.id p) j) as [Hj|Hj].
  - rewrite Hid, Hj. destruct (String.eqb_spec j i) as [E|_]; [congruence | exact IH].
  - destruct (String.eqb (Player.id p) i); [reflexivity | exact IH].
Qed.

Lemma findPlayer_updPlayer_same (i : string) (g : Player.t -> Player.t)
      (ps : list Player.t) (p : Player.t) :
  (forall p, Player.id (g p) = Player.id p) ->
  findPlayer ps i = Some p ->
  findPlayer (CardManager.updPlayer i g ps) i = Some (g p).
Proof.
  intros Hid Hfind. unfold CardManager.updPlayer.
  rewrite findPlayer_map
    by (intros q; destruct (String.eqb (Player.id q) i); [apply Hid | reflexivity]).
  rewrite Hfind. simpl. now rewrite (findPlayer_id _ _ _ Hfind), String.eqb_refl.
Qed.

Lemma payEach_find (value : Z) (playerId : string) (opponents : list Player.t)
      (totalPaid remaining : Z) (newPlayers : list Player.t) :
  Forall (fun opp => Player.id opp <> playerId) opponents ->
  findPlayer (snd (CardManager.payEach value opponents totalPaid remaining newPlayers))
             playerId
  = findPlayer newPlayers playerId.
Proof.
  intros Hopp. revert totalPaid remaining newPlayers.
  induction Hopp as [|opp opponents Hne _ IH]; intros totalPaid remaining newPlayers;
    simpl; [reflexivity|].
  destruct (remaining <=? 0); [reflexivity|].
  rewrite IH. apply findPlayer_updPlayer_other; [reflexivity | congruence].
Qed.

Lemma payEach_total (value : Z) (opponents : list Player.t)
      (totalPaid remaining : Z) (newPlayers : list Player.t) :
  0 <= remaining ->
  0 <= value \/ 0 < remaining \/ opponents = [] ->
  fst (CardManager.payEach value opponents totalPaid remaining newPlayers)
  = totalPaid + Z.min (value * Z.of_nat (length opponents)) remaining.
Proof.
  revert totalPaid remaining newPlayers.
  induction opponents as [|opp opponents IH]; intros totalPaid remaining newPlayers Hrem Hok.
  - simpl. lia.
  - cbn [CardManager.payEach].
    destruct (Z.leb_spec remaining 0) as [Hle|Hgt].
    + simpl fst. destruct Hok as [Hv | [Hr | Hnil]]; [|lia|discriminate].
      assert (0 <= value * Z.of_nat (length (opp :: opponents))) by nia. lia.
    + cbv zeta. rewrite IH by lia.
      rewrite length_cons, Nat2Z.inj_succ.
      assert (Hn : 0 <= Z.of_nat (length opponents)) by lia.
      set (n := Z.of_nat (length opponents)) in *.
      destruct (Z.le_gt_cases value remaining) as [Hvr|Hvr].
      * rewrite (Z.min_l value remaining) by exact Hvr.
        destruct (Z.le_gt_cases 0 value) as [Hv|Hv].
        -- destruct (Z.le_gt_cases (value * n) (remaining - value)); nia.
        -- assert (value * n <= 0) by nia.
           assert (value * Z.succ n <= value) by nia. lia.
      * rewrite (Z.min_r value remaining) by lia.
        assert (0 <= value * n) by nia.
        assert (remaining <= value * Z.succ n) by nia. lia.
Qed.

Lemma usePayMoney_deducts (st : GameState.t) (playerId : string) (card : Card.t)
      (player : Player.t) :
  findPlayer (GameState.players st) playerId = Some player ->
  0 <= Player.money player ->
  (isId (CardEffect.targetType (Card.effect card)) "all_players_each" = true ->
   0 <= orElse (CardEffect.value (Card.effect card)) 1000
   \/ 0 < Player.money player
   \/ filter (fun p => negb (String.eqb (Player.id p) playerId))
             (GameState.players st) = []) ->
  exists st' player',
    CardManager.usePayMoney st playerId card = Returned (UseCardResult.ok st')
    /\ findPlayer (GameState.players st') playerId = Some player'
    /\ Player.money player'
       = Player.money player
         - Z.min (requestedPayment st player card) (Player.money player)
    /\ 0 <= Player.money player'.
Proof.
  intros Hfind Hmoney Hvalue.
  pose proof (findPlayer_id _ _ _ Hfind) as Hid.
  unfold CardManager.usePayMoney, requestedPayment. rewrite Hfind, Hid. cbv zeta.
  destruct (isId _ "property_value_percent");
    [|destruct (isId _ "total_assets_percent");
      [|destruct (isId _ "all_players_each") eqn:Heach]].
  1, 2, 4:
    eexists; eexists; split; [reflexivity|];
    simpl GameState.players;
    (erewrite findPlayer_updPlayer_same; [|reflexivity|exact Hfind]);
    split; [reflexivity|]; simpl; lia.
  specialize (Hvalue eq_refl).
  set (value := orElse (CardEffect.value (Card.effect card)) 1000) in *.
  set (opponents := filter (fun p => negb (String.eqb (Player.id p) playerId))
                           (GameState.players st)) in *.
  assert (Hopp : Forall (fun opp => Player.id opp <> playerId) opponents).
  { apply Forall_forall. intros opp Hin. apply filter_In in Hin.
    destruct Hin as [_ Hne]. apply negb_true_iff, String.eqb_neq in Hne. exact Hne. }
  pose proof (payEach_total value opponents 0 (Player.money player)
                (GameState.players st) Hmoney Hvalue) as Htotal.
  pose proof (payEach_find value playerId opponents 0 (Player.money player)
                (GameState.players st) Hopp) as Hpay.
  destruct (CardManager.payEach value opponents 0 (Player.money player)
              (GameState.players st)) as [totalPaid newPlayers].
  simpl in Htotal, Hpay. rewrite Hfind in Hpay.
  eexists. eexists. split; [reflexivity|].
  simpl GameState.players.
  erewrite findPlayer_updPlayer_same; [|reflexivity|exact Hpay].
  split; [reflexivity|]. simpl. lia.
Qed.

Lemma opponents_updPlayer (i j : string) (g : Player.t -> Player.t) (ps : list Player.t) :
  (forall p, Player.id (g p) = Player.id p) ->
  map Player.id (filter (fun p => negb (String.eqb (Player.id p) i))
                        (CardManager.updPlayer j g ps))
  = map Player.id (filter (fun p => negb (String.eqb (Player.id p) i)) ps).
Proof.
  intros Hid. unfold CardManager.updPlayer.
  induction ps as [|p ps IH]; simpl; [reflexivity|].
  assert (Hp : Player.id (if String.eqb (Player.id p) j then g p else p) = Player.id p)
    by (destruct (String.eqb (Player.id p) j); [apply Hid | reflexivity]).
  rewrite Hp. destruct (negb (String.eqb (Player.id p) i)); simpl;
    [rewrite Hp|]; now rewrite IH.
Qed.

(** C6. For every variant of the pay card and every holder whose money is
    not negative, the money deducted is the minimum of the requested amount
    and the money held, and the money does not end negative: by the effect
    [usePayMoney] itself, and by [useCard] for a pay card of the catalog that
    the holder has in hand. The amount of a per-opponent card is taken not to
    be negative (or the holder to have money, or no opponent to exist): its
    loop stops as soon as no money remains. The other variants need no such
    condition. *)
Theorem usePayMoney_deducts_min :
  forall (allCards : list Card.t) (st : GameState.t) (playerId cardId : string)
         (options : UseCardOptions.t) (rnd : nat)
         (card : Card.t) (player : Player.t),
    findPlayer (GameState.players st) playerId = Some player ->
    0 <= Player.money player ->
    (isId (CardEffect.targetType (Card.effect card)) "all_players_each" = true ->
     0 <= orElse (CardEffect.value (Card.effect card)) 1000
     \/ 0 < Player.money player
     \/ filter (fun p => negb (String.eqb (Player.id p) playerId))
               (GameState.players st) = []) ->
    (exists st' player',
       CardManager.usePayMoney st playerId card = Returned (UseCardResult.ok st')
       /\ findPlayer (GameState.players st') playerId = Some player'
       /\ Player.money player'
          = Player.money player
            - Z.min (requestedPayment st player card) (Player.money player)
       /\ 0 <= Player.money player')
    /\ (CardManager.getCardById allCards cardId = Some card ->
        Card.type card = pay_money ->
        In cardId (Player.hand player) ->
        exists st' player',
          CardManager.useCard allCards st playerId cardId options rnd
          = Returned (UseCardResult.ok st')
          /\ findPlayer (GameState.players st') playerId = Some player'
          /\ Player.money player'
             = Player.money player
               - Z.min (requestedPayment st player card) (Player.money player)
          /\ 0 <= Player.money player').
Proof.
  intros allCards st playerId cardId options rnd card player Hfind Hmoney Hvalue.
  split; [now apply usePayMoney_deducts|].
  intros Hcard Htype Hin.
  assert (Hex : existsb (String.eqb cardId) (Player.hand player) = true)
    by (apply existsb_exists; exists cardId; split; [exact Hin | apply String.eqb_refl]).
  unfold CardManager.useCard. rewrite Hfind, Hcard, Hex, Htype. simpl negb. cbv iota zeta.
  pose proof (removeFromHand_find st playerId cardId player Hfind) as Hrem.
  set (removed := CardManager.removeFromHand playerId cardId st) in *.
  assert (Hopp : map Player.id
                   (filter (fun p => negb (String.eqb (Player.id p) playerId))
                           (GameState.players removed))
                 = map Player.id
                     (filter (fun p => negb (String.eqb (Player.id p) playerId))
                             (GameState.players st)))
    by (apply opponents_updPlayer; reflexivity).
  destruct (usePayMoney_deducts removed playerId card _ Hrem Hmoney)
    as (st' & player' & Huse & Hfind' & Hm & Hpos).
  { intros Heach. destruct (Hvalue Heach) as [H | [H | H]]; [now left | right; now left|].
    right. right. rewrite H in Hopp.
    destruct (filter _ (GameState.players removed)); [reflexivity | discriminate]. }
  exists st', player'. split; [exact Huse|]. split; [exact Hfind'|].
  split; [|exact Hpos]. rewrite Hm. simpl Player.money.
  apply (f_equal (@length string)) in Hopp. rewrite !length_map in Hopp.
  unfold removed, CardManager.removeFromHand in Hopp. simpl in Hopp.
  unfold requestedPayment. simpl. rewrite (findPlayer_id _ _ _ Hfind).
  rewrite Hopp. reflexivity.
Qed.

(** The pay card of the test suite: 500 asked of a holder of 5000. *)
Lemma usePayMoney_deducts_min_witness :
  exists st' player',
    CardManager.useCard Fixtures.sampleCards Fixtures.cardState "p1" "card_pay"
      UseCardOptions.empty 0%nat
    = Returned (UseCardResult.ok st')
    /\ findPlayer (GameState.players st') "p1" = Some player'
    /\ Player.money player' = 5000 - Z.min 500 5000
    /\ 0 <= Player.money player'.
Proof.
  apply (proj2 (usePayMoney_deducts_min Fixtures.sampleCards Fixtures.cardState
                  "p1" "card_pay" UseCardOptions.empty 0%nat Fixtures.card_pay
                  Fixtures.holder eq_refl ltac:(discriminate) ltac:(discriminate))).
  - reflexivity.
  - reflexivity.
  - right. left. reflexivity.
Defined.

(** ** Forced sales and the upgrade level *)

Lemma Forall2_same {X : Type} (R : X -> X -> Prop) (l : list X) :
  (forall x, R x x) -> Forall2 R l l.
Proof. intros H. induction l; constructor; auto. Qed.

Lemma Forall2_map_r {X : Type} (R : X -> X -> Prop) (g : X -> X) (l l' : list X) :
  (forall x y, R x y -> R x (g y)) -> Forall2 R l l' -> Forall2 R l (map g l').
Proof.
  intros H HF. induction HF; simpl; constructor; auto.
Qed.

Lemma soldKeepingLevel_step (i : string) (q q' : Property.t) :
  soldKeepingLevel q q' ->
  soldKeepingLevel q (if String.eqb (Property.id q') i
                      then Property.with_ownerId None q' else q').
Proof.
  intros H. destruct (String.eqb (Property.id q') i); [|exact H].
  destruct H as [-> | ->]; right; reflexivity.
Qed.

Lemma steal_properties (least : Z) (rate : Q) (st : GameState.t) (target : Player.t) :
  GameState.properties (BombeeManager.steal least rate st target)
  = GameState.properties st.
Proof.
  unfold BombeeManager.steal. cbv zeta. destruct (_ <=? 0); reflexivity.
Qed.

Lemma normalAction_keeps_level (st : GameState.t) (target : Player.t) (d : Draws.t) :
  Forall2 soldKeepingLevel (GameState.properties st)
          (GameState.properties (BombeeManager.normalAction st target d)).
Proof.
  unfold BombeeManager.normalAction. cbv zeta.
  destruct (filter _ (GameState.properties st)) as [|first rest];
    [|destruct (Qltb (Draws.sellRoll d) (1 # 2))];
    rewrite ?steal_properties; try (apply Forall2_same; left; reflexivity).
  simpl GameState.properties. apply Forall2_map_r.
  - intros x y. apply soldKeepingLevel_step.
  - apply Forall2_same. left. reflexivity.
Qed.

Lemma kingAction_keeps_level (st : GameState.t) (target : Player.t) (d : Draws.t) :
  Forall2 soldKeepingLevel (GameState.properties st)
          (GameState.properties (BombeeManager.kingAction st target d)).
Proof.
  unfold BombeeManager.kingAction, BombeeManager.kingStealBig. cbv zeta.
  destruct (nth _ _ _); rewrite ?steal_properties;
    try (apply Forall2_same; left; reflexivity).
  destruct (length _ =? 0)%nat; rewrite ?steal_properties;
    [apply Forall2_same; left; reflexivity|].
  match goal with
  | |- context [fold_left ?F ?l ?a] =>
      assert (Hfold : forall l' acc,
                 Forall2 soldKeepingLevel (GameState.properties st) (snd acc) ->
                 Forall2 soldKeepingLevel (GameState.properties st)
                         (snd (fold_left F l' acc)));
      [|specialize (Hfold l a); destruct (fold_left F l a) as [totalLoss newProperties]]
  end.
  - induction l' as [|prop l' IH]; intros [t qs] Hacc; simpl; [exact Hacc|].
    apply IH. simpl. apply Forall2_map_r; [|exact Hacc].
    intros x y. apply soldKeepingLevel_step.
  - simpl in *. apply Hfold. apply Forall2_same. left. reflexivity.
Qed.

Lemma marketReset_toMarket (i : string) (q q' : Property.t) :
  marketReset q q' ->
  marketReset q (if String.eqb (Property.id q') i then Property.toMarket q' else q').
Proof.
  intros H. destruct (String.eqb (Property.id q') i); [|exact H].
  right. reflexivity.
Qed.

Lemma marketReset_owner (b : bool) (o : string) (q q' : Property.t) :
  marketReset q q' ->
  marketReset q (if b then Property.with_ownerId (Some o) q' else q').
Proof.
  intros H. destruct b; [|exact H]. right. discriminate.
Qed.

Lemma updProperty_toMarket (i : string) (qs qs' : list Property.t) :
  Forall2 marketReset qs qs' ->
  Forall2 marketReset qs (CardManager.updProperty i Property.toMarket qs').
Proof.
  apply Forall2_map_r. intros x y. apply marketReset_toMarket.
Qed.

Lemma updProperty_owner (i o : string) (qs qs' : list Property.t) :
  Forall2 marketReset qs qs' ->
  Forall2 marketReset qs
    (CardManager.updProperty i (Property.with_ownerId (Some o)) qs').
Proof.
  apply Forall2_map_r. intros x y. apply marketReset_owner.
Qed.

Lemma marketReset_same (qs : list Property.t) : Forall2 marketReset qs qs.
Proof. apply Forall2_same. left. reflexivity. Qed.

Ltac market_props :=
  unfold outcomeSat, resultSat, UseCardResult.ok, UseCardResult.fail;
  simpl;
  first
    [ trivial_sat
    | apply marketReset_same
    | apply updProperty_toMarket; apply marketReset_same
    | apply updProperty_owner; apply marketReset_same ].

Lemma useSellProperty_market (st : GameState.t) (playerId : string) (card : Card.t)
      (targetPropertyId targetPlayerId currentCityId : option string) :
  outcomeSat (fun st' => Forall2 marketReset (GameState.properties st)
                                 (GameState.properties st'))
    (CardManager.useSellProperty st playerId card
       targetPropertyId targetPlayerId currentCityId).
Proof.
  unfold CardManager.useSellProperty. cbv zeta.
  destruct (if isId _ "current_city_all" then _ else None) as [city|].
  - destruct (length _ =? 0)%nat; [market_props|].
    match goal with
    | |- context [fold_left ?F ?l ?a] =>
        assert (Hfold : forall l' acc,
                   Forall2 marketReset (GameState.properties st) (snd acc) ->
                   Forall2 marketReset (GameState.properties st)
                           (snd (fold_left F l' acc)));
        [|specialize (Hfold l a); destruct (fold_left F l a) as [totalReceived newProperties]]
    end.
    + induction l' as [|prop l' IH]; intros [t qs] Hacc; simpl; [exact Hacc|].
      apply IH. simpl. now apply updProperty_toMarket.
    + simpl in *. apply Hfold, marketReset_same.
  - repeat break_match; market_props.
Qed.

Lemma useStealProperty_market (st : GameState.t) (playerId : string) (card : Card.t)
      (currentCityId : option string) :
  outcomeSat (fun st' => Forall2 marketReset (GameState.properties st)
                                 (GameState.properties st'))
    (CardManager.useStealProperty st playerId card currentCityId).
Proof.
  unfold CardManager.useStealProperty. cbv zeta.
  destruct (if isId _ "current_city_all" then _ else None) as [city|].
  - destruct (length _ =? 0)%nat; [market_props|].
    unfold outcomeSat, resultSat. simpl.
    apply Forall2_map_r; [|apply marketReset_same].
    intros x y H. destruct (find _ _); [|exact H]. right. discriminate.
  - repeat break_match; market_props.
Qed.

Lemma breakAt_market (st : GameState.t) (oppId : string) (target : Property.t) :
  resultSat (fun st' => Forall2 marketReset (GameState.properties st)
                                (GameState.properties st'))
    (CardManager.breakAt st oppId target).
Proof. unfold CardManager.breakAt. market_props. Qed.

Lemma useMonopolyBreak_market (st : GameState.t) (playerId : string) (card : Card.t) :
  outcomeSat (fun st' => Forall2 marketReset (GameState.properties st)
                                 (GameState.properties st'))
    (CardManager.useMonopolyBreak st playerId card).
Proof.
  unfold CardManager.useMonopolyBreak. cbv zeta.
  match goal with
  | |- context [CardManager.firstReturn ?body ?l] =>
      destruct (CardManager.firstReturn body l) as [r|] eqn:Hfirst
  end.
  - revert r Hfirst. apply firstReturn_sat. intros cityId r.
    destruct (length _ =? 0)%nat; [discriminate|].
    apply firstReturn_sat. intros oppId r'.
    destruct (forallb _ _); [|discriminate].
    intros [= <-]. destruct (reduce1 _ _); [apply breakAt_market | exact I].
  - match goal with
    | |- context [fold_left ?F ?l ?a] => destruct (fold_left F l a) as [b|]
    end; [|reflexivity].
    destruct (BestTarget.prop b); [apply breakAt_market | exact I].
Qed.

Lemma useBuyProperty_market (st : GameState.t) (playerId : string) (card : Card.t)
      (currentCityId : option string) :
  resultSat (fun st' => Forall2 marketReset (GameState.properties st)
                                (GameState.properties st'))
    (CardManager.useBuyProperty st playerId card currentCityId).
Proof.
  unfold CardManager.useBuyProperty. cbv zeta.
  repeat break_match; market_props.
Qed.

(** No card effect leaves a property on the market above level 0, unless
    the card did not touch that property. *)
Lemma useCard_market (allCards : list Card.t) (st : GameState.t)
      (playerId cardId : string) (options : UseCardOptions.t) (rnd : nat) :
  outcomeSat (fun st' => Forall2 marketReset (GameState.properties st)
                                 (GameState.properties st'))
    (CardManager.useCard allCards st playerId cardId options rnd).
Proof.
  unfold CardManager.useCard.
  destruct (findPlayer _ _) as [player|]; [|reflexivity].
  destruct (CardManager.getCardById _ _) as [card|]; [|reflexivity].
  destruct (negb _); [reflexivity|]. cbv zeta.
  change (GameState.properties st)
    with (GameState.properties (CardManager.removeFromHand playerId cardId st)).
  destruct (Card.type card).
  - unfold CardManager.useMoveToDest. repeat break_match; market_props.
  - market_props.
  - unfold CardManager.useMoveToCity. market_props.
  - apply useBuyProperty_market.
  - apply useStealProperty_market.
  - apply useSellProperty_market.
  - unfold CardManager.useGetMoney. cbv zeta. repeat break_match; market_props.
  - unfold CardManager.usePayMoney. cbv zeta. repeat break_match; market_props.
  - unfold CardManager.useBombeeAway. repeat break_match; market_props.
  - unfold CardManager.useBombeeTransferLastToSecond, CardManager.useBombeeTransfer.
    repeat break_match; market_props.
  - apply useMonopolyBreak_market.
  - unfold CardManager.useCardSteal. repeat break_match; market_props.
  - market_props.
  - unfold CardManager.useDoubleIncome. cbv zeta. repeat break_match; market_props.
Qed.

Lemma sellPropertyForcibly_market (st : GameState.t) (playerId propertyId : string) :
  Forall2 marketReset (GameState.properties st)
    (GameState.properties (PropertyManager.sellPropertyForcibly st playerId propertyId)).
Proof.
  unfold PropertyManager.sellPropertyForcibly.
  repeat break_match; simpl; try apply marketReset_same.
  apply Forall2_map_r; [|apply marketReset_same].
  intros x y. apply marketReset_toMarket.
Qed.

Lemma marketReset_returned (qs qs' : list Property.t) :
  Forall2 marketReset qs qs' -> Forall2 returnedAtLevel0 qs qs'.
Proof.
  apply Forall2_impl. intros q q' [-> | H] Howned Hfree; [contradiction | now apply H].
Qed.

Lemma normalAction_sells (st : GameState.t) (target : Player.t) (d : Draws.t)
      (first : Property.t) (rest : list Property.t) :
  filter (fun p => isId (Property.ownerId p) (Player.id target))
         (GameState.properties st) = first :: rest ->
  Qltb (Draws.sellRoll d) (1 # 2) = true ->
  let prop := nth (Draws.pick d mod length (first :: rest)) (first :: rest) first in
  In prop (GameState.properties st)
  /\ Property.ownerId prop = Some (Player.id target)
  /\ In (Property.with_ownerId None prop)
        (GameState.properties (BombeeManager.normalAction st target d)).
Proof.
  intros Howned Hroll prop.
  assert (Hin : In prop (first :: rest)).
  { apply nth_In. apply Nat.mod_upper_bound. discriminate. }
  rewrite <- Howned in Hin. apply filter_In in Hin. destruct Hin as [Hin Hid].
  split; [exact Hin|]. split.
  - unfold isId in Hid. destruct (Property.ownerId prop); [|discriminate].
    apply String.eqb_eq in Hid. now subst.
  - unfold BombeeManager.normalAction. cbv zeta. rewrite Howned, Hroll.
    simpl GameState.properties. fold prop.
    apply in_map_iff. exists prop. split; [|exact Hin].
    now rewrite String.eqb_refl.
Qed.

Lemma sell_fold (F : Z -> Property.t -> Z) (sold qs : list Property.t) (t : Z) :
  snd (fold_left
         (fun (acc : Z * list Property.t) (prop : Property.t) =>
            let '(totalLoss, newProperties) := acc in
            (F totalLoss prop,
             map (fun p => if String.eqb (Property.id p) (Property.id prop)
                           then Property.with_ownerId None p else p)
                 newProperties))
         sold (t, qs))
  = map (fun p => if existsb (fun prop => String.eqb (Property.id p) (Property.id prop)) sold
                  then Property.with_ownerId None p else p) qs.
Proof.
  revert qs t. induction sold as [|prop sold IH]; intros qs t; simpl.
  - symmetry. apply map_id.
  - rewrite IH, map_map. apply map_ext. intros p.
    destruct (String.eqb (Property.id p) (Property.id prop)); simpl; [|reflexivity].
    destruct (existsb _ sold); reflexivity.
Qed.

Lemma In_firstn {X : Type} (n : nat) (l : list X) (x : X) :
  In x (firstn n l) -> In x l.
Proof.
  intros H. rewrite <- (firstn_skipn n l). apply in_or_app. now left.
Qed.

Lemma kingAction_sells (st : GameState.t) (target : Player.t) (d : Draws.t) :
  nth (Draws.actionPick d mod 3) [sell_all; steal_big; affect_all] steal_big = sell_all ->
  forall q,
    In q (firstn 3 (filter (fun p => isId (Property.ownerId p) (Player.id target))
                           (GameState.properties st))) ->
    In q (GameState.properties st)
    /\ Property.ownerId q = Some (Player.id target)
    /\ In (Property.with_ownerId None q)
          (GameState.properties (BombeeManager.kingAction st target d)).
Proof.
  intros Hact q Hq.
  assert (Hin : In q (filter (fun p => isId (Property.ownerId p) (Player.id target))
                             (GameState.properties st)))
    by (eapply In_firstn; exact Hq).
  apply filter_In in Hin. destruct Hin as [Hin Hid].
  split; [exact Hin|]. split.
  - unfold isId in Hid. destruct (Property.ownerId q); [|discriminate].
    apply String.eqb_eq in Hid. now subst.
  - unfold BombeeManager.kingAction. rewrite Hact. cbv zeta.
    destruct (firstn 3 _) as [|s0 sold] eqn:Hsold; [contradiction|].
    change (length (s0 :: sold) =? 0)%nat with false. cbv iota.
    pose proof (sell_fold (fun t prop => t + floorMul (Property.price prop) (3 # 10))
                  (s0 :: sold) (GameState.properties st) 0) as Hfold.
    match goal with
    | |- context [fold_left ?F ?l ?a] =>
        change (fold_left _ (s0 :: sold) (0, GameState.properties st))
          with (fold_left F l a) in Hfold;
        destruct (fold_left F l a) as [totalLoss newProperties]
    end.
    simpl snd in Hfold. simpl GameState.properties. rewrite Hfold.
    apply in_map_iff. exists q. split; [|exact Hin].
    assert (Hex : existsb (fun prop => String.eqb (Property.id q) (Property.id prop))
                          (s0 :: sold) = true).
    { apply existsb_exists. exists q. split; [exact Hq | apply String.eqb_refl]. }
    now rewrite Hex.
Qed.

(** C10. The forced sales of the normal and of the king Bombee clear the
    owner of the property sold and change nothing else of any property: the
    upgrade level stays. The sale does happen when it is drawn, and from the
    fixture it leaves [prop1] unowned at level 2, so an unowned property
    above level 0 is reachable. [sellPropertyForcibly] and every card
    effect, on the contrary, leave a property that they return to the market
    at level 0 (and the use of a card always returns a result). *)
Theorem bombee_sale_keeps_upgradeLevel :
  forall (allCards : list Card.t) (st : GameState.t) (target : Player.t) (d : Draws.t)
         (playerId cardId propertyId : string)
         (options : UseCardOptions.t) (rnd : nat),
    Forall2 soldKeepingLevel (GameState.properties st)
            (GameState.properties (BombeeManager.normalAction st target d))
    /\ Forall2 soldKeepingLevel (GameState.properties st)
               (GameState.properties (BombeeManager.kingAction st target d))
    /\ (forall first rest,
          filter (fun p => isId (Property.ownerId p) (Player.id target))
                 (GameState.properties st) = first :: rest ->
          Qltb (Draws.sellRoll d) (1 # 2) = true ->
          let prop := nth (Draws.pick d mod length (first :: rest)) (first :: rest) first in
          In prop (GameState.properties st)
          /\ Property.ownerId prop = Some (Player.id target)
          /\ In (Property.with_ownerId None prop)
                (GameState.properties (BombeeManager.normalAction st target d)))
    /\ (nth (Draws.actionPick d mod 3) [sell_all; steal_big; affect_all] steal_big
        = sell_all ->
        forall q,
          In q (firstn 3 (filter (fun p => isId (Property.ownerId p) (Player.id target))
                                 (GameState.properties st))) ->
          In q (GameState.properties st)
          /\ Property.ownerId q = Some (Player.id target)
          /\ In (Property.with_ownerId None q)
                (GameState.properties (BombeeManager.kingAction st target d)))
    /\ (exists q',
          In q' (GameState.properties
                   (BombeeManager.processBombeeAction
                      Fixtures.upgradedState Fixtures.saleDraws))
          /\ Property.id q' = "prop1"
          /\ Property.ownerId q' = None
          /\ Property.upgradeLevel q' = 2%nat)
    /\ Forall2 returnedAtLevel0 (GameState.properties st)
         (GameState.properties
            (PropertyManager.sellPropertyForcibly st playerId propertyId))
    /\ returns (CardManager.useCard allCards st playerId cardId options rnd)
    /\ outcomeSat (fun st' => Forall2 returnedAtLevel0 (GameState.properties st)
                                      (GameState.properties st'))
         (CardManager.useCard allCards st playerId cardId options rnd).
Proof.
  intros allCards st target d playerId cardId propertyId options rnd.
  split; [apply normalAction_keeps_level|].
  split; [apply kingAction_keeps_level|].
  split; [apply normalAction_sells|].
  split; [apply kingAction_sells|].
  split.
  { eexists. split; [vm_compute; left; reflexivity|]. repeat split. }
  split; [apply marketReset_returned, sellPropertyForcibly_market|].
  split; [apply useCard_returns|].
  pose proof (useCard_market allCards st playerId cardId options rnd) as H.
  unfold outcomeSat, resultSat in *.
  destruct (CardManager.useCard allCards st playerId cardId options rnd) as [r|];
    [|exact I].
  destruct (UseCardResult.newState r); [now apply marketReset_returned | exact H].
Qed.

(** The forced sale of the upgraded property of the fixture. *)
Lemma bombee_sale_keeps_upgradeLevel_witness :
  In Fixtures.upgradedProp (GameState.properties Fixtures.upgradedState)
  /\ Property.ownerId Fixtures.upgradedProp = Some "debtor"
  /\ In (Property.with_ownerId None Fixtures.upgradedProp)
        (GameState.properties
           (BombeeManager.normalAction Fixtures.upgradedState Fixtures.debtor
              Fixtures.saleDraws)).
Proof.
  apply (proj1 (proj2 (proj2
           (bombee_sale_keeps_upgradeLevel [] Fixtures.upgradedState Fixtures.debtor
              Fixtures.saleDraws "" "" "" UseCardOptions.empty 0%nat)))
           Fixtures.upgradedProp []).
  - reflexivity.
  - reflexivity.
Defined.

(** ** The Bombee sits on at most one player *)

Lemma steal_keeps (least : Z) (rate : Q) (st : GameState.t) (target : Player.t) :
  keepsPlayers idBombee st (BombeeManager.steal least rate st target).
Proof.
  unfold BombeeManager.steal, keepsPlayers. cbv zeta.
  destruct (_ <=? 0); [reflexivity|]. simpl.
  apply map_map_keeps. intros p. destruct (String.eqb _ _); reflexivity.
Qed.

Lemma executeBombeeEffect_keeps (st : GameState.t) (targetId : string)
      (bombeeType : BombeeType) (d : Draws.t) :
  keepsPlayers idBombee st (BombeeManager.executeBombeeEffect st targetId bombeeType d).
Proof.
  unfold BombeeManager.executeBombeeEffect.
  destruct (findPlayer _ _) as [target|]; [|reflexivity].
  destruct bombeeType; try reflexivity.
  - apply steal_keeps.
  - unfold BombeeManager.normalAction. cbv zeta.
    destruct (filter _ _); [apply steal_keeps|].
    destruct (Qltb _ _); [|apply steal_keeps].
    unfold keepsPlayers. simpl. apply map_map_keeps.
    intros p. destruct (negb _); reflexivity.
  - unfold BombeeManager.kingAction, BombeeManager.kingStealBig. cbv zeta.
    destruct (nth _ _ _); try apply steal_keeps.
    + destruct (length _ =? 0)%nat; [apply steal_keeps|].
      match goal with
      | |- context [fold_left ?F ?l ?a] => destruct (fold_left F l a) as [totalLoss newProperties]
      end.
      unfold keepsPlayers. simpl. apply map_map_keeps.
      intros p. destruct (negb _); reflexivity.
    + unfold keepsPlayers. simpl. apply map_map_keeps. reflexivity.
Qed.

Lemma keeps_ids (st st' : GameState.t) :
  keepsPlayers idBombee st st' ->
  map Player.id (GameState.players st') = map Player.id (GameState.players st).
Proof.
  unfold keepsPlayers. intros H. apply (f_equal (map fst)) in H.
  rewrite !map_map in H. exact H.
Qed.

Lemma keeps_carriersAt (b : string) (st st' : GameState.t) :
  keepsPlayers idBombee st st' ->
  carriersAt b (GameState.players st) -> carriersAt b (GameState.players st').
Proof.
  unfold keepsPlayers, carriersAt. intros Hmap Hat p' Hin Hcarry.
  assert (Hview : In (idBombee p') (map idBombee (GameState.players st)))
    by (rewrite <- Hmap; now apply in_map).
  apply in_map_iff in Hview. destruct Hview as [p [Hp Hinp]].
  unfold idBombee in Hp. injection Hp as Hid Hb.
  rewrite <- Hid. apply Hat; [exact Hinp|].
  unfold BombeeManager.hasBombee in *. now rewrite Hb.
Qed.

Lemma carriersAt_count (b : string) (ps : list Player.t) :
  NoDup (map Player.id ps) -> carriersAt b ps ->
  (length (filter BombeeManager.hasBombee ps) <= 1)%nat.
Proof.
  intros Hnd Hat. induction ps as [|p ps IH]; simpl; [lia|].
  inversion Hnd as [|x l Hnotin Hnd']; subst.
  assert (Hat' : carriersAt b ps) by (intros q Hq; apply Hat; now right).
  destruct (BombeeManager.hasBombee p) eqn:Hp; [|now apply IH].
  assert (Hnone : filter BombeeManager.hasBombee ps = []).
  { destruct (filter BombeeManager.hasBombee ps) as [|q qs] eqn:Hf; [reflexivity|].
    assert (Hq : In q (filter BombeeManager.hasBombee ps)) by (rewrite Hf; now left).
    apply filter_In in Hq. destruct Hq as [Hq Hcarry].
    exfalso. apply Hnotin.
    rewrite (Hat p (or_introl eq_refl) Hp), <- (Hat' q Hq Hcarry).
    now apply in_map. }
  rewrite Hnone. simpl. lia.
Qed.

Lemma count_carriersAt (ps : list Player.t) :
  (length (filter BombeeManager.hasBombee ps) <= 1)%nat ->
  exists b, carriersAt b ps.
Proof.
  induction ps as [|p ps IH]; intros Hcount.
  - exists "". intros p [].
  - simpl in Hcount. destruct (BombeeManager.hasBombee p) eqn:Hp.
    + exists (Player.id p). intros q [<- | Hq] Hcarry; [reflexivity|].
      simpl in Hcount.
      assert (Hin : In q (filter BombeeManager.hasBombee ps))
        by (apply filter_In; now split).
      destruct (filter BombeeManager.hasBombee ps); [contradiction | simpl in Hcount; lia].
    + destruct (IH Hcount) as [b Hb]. exists b.
      intros q [<- | Hq] Hcarry; [congruence | now apply Hb].
Qed.

Lemma carriersAt_is (b : string) (ps : list Player.t) (c : Player.t) :
  carriersAt b ps -> In c ps -> BombeeManager.hasBombee c = true ->
  carriersAt (Player.id c) ps.
Proof.
  intros Hat Hin Hcarry p Hp Hpc. now rewrite (Hat p Hp Hpc), (Hat c Hin Hcarry).
Qed.

(** Moving the Bombee from the players with id [a] to those with id [b]. *)
Lemma transfer_carriersAt (a b : string) (t : BombeeType) (ps : list Player.t) :
  carriersAt a ps ->
  carriersAt b
    (map (fun p => if String.eqb (Player.id p) a then Player.with_bombee none 0 p
                   else if String.eqb (Player.id p) b then Player.with_bombee t 0 p
                   else p) ps).
Proof.
  intros Hat p' Hin Hcarry. apply in_map_iff in Hin. destruct Hin as [p [<- Hin]].
  destruct (String.eqb_spec (Player.id p) a) as [Ha|Ha]; [discriminate|].
  destruct (String.eqb_spec (Player.id p) b) as [Hb|Hb]; [exact Hb|].
  exfalso. apply Ha. now apply Hat.
Qed.

(** Changing only the players with id [a], one of whom carries the Bombee. *)
Lemma update_carriersAt (a : string) (h : Player.t -> Player.t) (ps : list Player.t) :
  (forall p, Player.id (h p) = Player.id p) ->
  carriersAt a ps ->
  carriersAt a (map (fun p => if String.eqb (Player.id p) a then h p else p) ps).
Proof.
  intros Hid Hat p' Hin Hcarry. apply in_map_iff in Hin. destruct Hin as [p [<- Hin]].
  destruct (String.eqb_spec (Player.id p) a) as [Ha|Ha].
  - now rewrite Hid.
  - now apply Hat.
Qed.

(** Taking the Bombee away from some players. *)
Lemma clear_carriersAt (b : string) (g : Player.t -> Player.t) (ps : list Player.t) :
  (forall p, Player.id (g p) = Player.id p) ->
  (forall p, BombeeManager.hasBombee (g p) = true -> BombeeManager.hasBombee p = true) ->
  carriersAt b ps -> carriersAt b (map g ps).
Proof.
  intros Hid Hsub Hat p' Hin Hcarry. apply in_map_iff in Hin.
  destruct Hin as [p [<- Hin]]. rewrite Hid. apply Hat; [exact Hin | now apply Hsub].
Qed.

Lemma map_id_keeps (g : Player.t -> Player.t) (ps : list Player.t) :
  (forall p, Player.id (g p) = Player.id p) ->
  map Player.id (map g ps) = map Player.id ps.
Proof. apply map_map_keeps. Qed.

Lemma In_insertBy {X : Type} (key : X -> Z) (x y : X) (l : list X) :
  In x (insertBy key y l) -> x = y \/ In x l.
Proof.
  induction l as [|z l IH]; simpl.
  - intros [<- | []]. now left.
  - destruct (key y <=? key z); simpl.
    + intros [<- | H]; [now left | now right].
    + intros [<- | H]; [right; now left|].
      destruct (IH H) as [-> | Hin]; [now left | right; now right].
Qed.

Lemma In_sortBy {X : Type} (key : X -> Z) (x : X) (l : list X) :
  In x (sortBy key l) -> In x l.
Proof.
  unfold sortBy. induction l as [|y l IH]; simpl; [tauto|].
  intros H. apply In_insertBy in H. destruct H as [-> | H]; [now left | right; auto].
Qed.

Lemma find_hasBombee (ps : list Player.t) (c : Player.t) :
  find BombeeManager.hasBombee ps = Some c ->
  In c ps /\ BombeeManager.hasBombee c = true.
Proof. apply find_some. Qed.

Lemma hasBombee_true (p : Player.t) :
  Player.bombeeType p <> none -> BombeeManager.hasBombee p = true.
Proof.
  unfold BombeeManager.hasBombee. destruct (Player.bombeeType p); congruence.
Qed.

Lemma keeps_carriersKept (st st' : GameState.t) :
  (exists b, carriersAt b (GameState.players st)) ->
  keepsPlayers idBombee st st' -> carriersKept st st'.
Proof.
  intros [b Hb] Hkeep. split.
  - exists b. now apply (keeps_carriersAt b st).
  - now apply keeps_ids.
Qed.

Lemma attachBombeeToLastPlace_carriers (st : GameState.t) :
  (exists b, carriersAt b (GameState.players st)) ->
  carriersKept st (BombeeManager.attachBombeeToLastPlace st).
Proof.
  intros Hinv. unfold BombeeManager.attachBombeeToLastPlace.
  destruct (existsb _ _) eqn:Hex; [split; [exact Hinv | reflexivity]|].
  destruct (_ <? 2)%nat; [split; [exact Hinv | reflexivity]|].
  destruct (BombeeManager.getLastPlacePlayer (GameState.players st)) as [lastPlayer|];
    [|split; [exact Hinv | reflexivity]].
  cbv zeta. set (target := orElse _ lastPlayer). split; simpl.
  - exists (Player.id target). intros p' Hin Hcarry.
    apply in_map_iff in Hin. destruct Hin as [p [<- Hin]].
    destruct (String.eqb_spec (Player.id p) (Player.id target)) as [E|_]; [exact E|].
    exfalso.
    assert (Htrue : existsb BombeeManager.hasBombee (GameState.players st) = true)
      by (apply existsb_exists; exists p; now split).
    congruence.
  - apply map_id_keeps. intros p. destruct (String.eqb _ _); reflexivity.
Qed.

Lemma maybeMoveToLastPlace_carriers (st : GameState.t) (currentBombeeId : string)
      (d : Draws.t) :
  carriersAt currentBombeeId (GameState.players st) ->
  carriersKept st (BombeeManager.maybeMoveToLastPlace st currentBombeeId d).
Proof.
  intros Hat. unfold BombeeManager.maybeMoveToLastPlace. cbv zeta.
  assert (Hsame : carriersKept st st) by (split; [now exists currentBombeeId | reflexivity]).
  destruct (BombeeManager.getLastPlacePlayer _) as [lastPlayer|]; [|exact Hsame].
  destruct (findPlayer _ _) as [currentBombeePlayer|]; [|exact Hsame].
  destruct (_ <=? _); [exact Hsame|].
  destruct (Qltb _ _); [|exact Hsame].
  split; simpl.
  - exists (Player.id lastPlayer). now apply transfer_carriersAt.
  - apply map_id_keeps. intros p. repeat break_match; reflexivity.
Qed.

Lemma processBombeeAction_carriers (st : GameState.t) (d : Draws.t) :
  (exists b, carriersAt b (GameState.players st)) ->
  carriersKept st (BombeeManager.processBombeeAction st d).
Proof.
  intros [b Hb]. unfold BombeeManager.processBombeeAction.
  destruct (find _ _) as [bombeePlayer|] eqn:Hfind;
    [|split; [now exists b | reflexivity]].
  apply find_hasBombee in Hfind. destruct Hfind as [Hin Hcarry]. cbv zeta.
  pose proof (carriersAt_is b _ _ Hb Hin Hcarry) as Hc.
  set (st1 := GameState.with_players _ st).
  assert (H1 : carriersAt (Player.id bombeePlayer) (GameState.players st1)).
  { subst st1. simpl. now apply update_carriersAt. }
  assert (Hid1 : map Player.id (GameState.players st1) = map Player.id (GameState.players st)).
  { subst st1. simpl. apply map_id_keeps. intros p. destruct (String.eqb _ _); reflexivity. }
  set (st2 := BombeeManager.executeBombeeEffect st1 _ _ d).
  pose proof (executeBombeeEffect_keeps st1 (Player.id bombeePlayer)
                (BombeeManager.checkEvolution (Player.bombeeType bombeePlayer)
                   (Player.bombeeElapsedTurns bombeePlayer + 1)) d) as Hkeep.
  fold st2 in Hkeep.
  pose proof (keeps_carriersAt _ _ _ Hkeep H1) as H2.
  pose proof (keeps_ids _ _ Hkeep) as Hid2.
  destruct (maybeMoveToLastPlace_carriers st2 (Player.id bombeePlayer) d H2) as [H3 Hid3].
  split; [exact H3 | congruence].
Qed.

Lemma decrementBombeeImmunity_carriers (st : GameState.t) :
  (exists b, carriersAt b (GameState.players st)) ->
  carriersKept st (BombeeManager.decrementBombeeImmunity st).
Proof.
  intros Hinv. apply keeps_carriersKept; [exact Hinv|].
  unfold keepsPlayers, BombeeManager.decrementBombeeImmunity. simpl.
  apply map_map_keeps. intros p. destruct (0 <? _); reflexivity.
Qed.

Lemma removeBombee_carriers (st : GameState.t) (targetId : string) :
  (exists b, carriersAt b (GameState.players st)) ->
  carriersKept st (BombeeManager.removeBombee st targetId).
Proof.
  intros [b Hb]. unfold BombeeManager.removeBombee. split; simpl.
  - exists b. apply clear_carriersAt; [| |exact Hb];
      intros p; destruct (String.eqb _ _); try reflexivity; try discriminate; auto.
  - apply map_id_keeps. intros p. destruct (String.eqb _ _); reflexivity.
Qed.

Lemma outcomeSat_impl (R R' : GameState.t -> Prop) (o : Outcome UseCardResult.t) :
  (forall st', R st' -> R' st') -> outcomeSat R o -> outcomeSat R' o.
Proof.
  intros H. destruct o as [r|]; [|exact id]. unfold outcomeSat, resultSat.
  destruct (UseCardResult.newState r); [apply H | exact id].
Qed.

Lemma removeFromHand_keeps_bombee (st : GameState.t) (playerId cardId : string) :
  keepsPlayers idBombee st (CardManager.removeFromHand playerId cardId st).
Proof.
  unfold keepsPlayers, CardManager.removeFromHand. simpl.
  apply updPlayer_keeps. reflexivity.
Qed.

Lemma useCardSteal_keeps_bombee (st : GameState.t) (stealerId targetId : string)
      (targetCardId : option string) (rnd : nat) :
  resultSat (keepsPlayers idBombee st)
            (CardManager.useCardSteal st stealerId targetId targetCardId rnd).
Proof.
  unfold CardManager.useCardSteal. cbv zeta.
  repeat break_match; unfold resultSat, keepsPlayers; simpl; try reflexivity;
    apply map_map_keeps; intros p; repeat break_match; reflexivity.
Qed.

Lemma useBombeeAway_carriers (st : GameState.t) (playerId : string) (card : Card.t) :
  (exists b, carriersAt b (GameState.players st)) ->
  resultSat (carriersKept st) (CardManager.useBombeeAway st playerId card).
Proof.
  intros [b Hb].
  assert (Hsame : carriersKept st st) by (split; [now exists b | reflexivity]).
  unfold CardManager.useBombeeAway.
  destruct (findPlayer _ _) as [player|]; [|exact Hsame].
  destruct (Player.bombeeType player); try exact Hsame;
    (unfold resultSat; simpl; split;
     [ exists b; apply clear_carriersAt; [| |exact Hb];
       intros p; destruct (String.eqb _ _); try reflexivity; try discriminate; auto
     | apply map_id_keeps; intros p; destruct (String.eqb _ _); reflexivity ]).
Qed.

Lemma useBombeeTransfer_carriers (st : GameState.t) (fromId toId : string) :
  (exists b, carriersAt b (GameState.players st)) ->
  resultSat (carriersKept st) (CardManager.useBombeeTransfer st fromId toId).
Proof.
  intros [b Hb]. unfold CardManager.useBombeeTransfer.
  destruct (findPlayer (GameState.players st) fromId) as [from|] eqn:Hfrom; [|reflexivity].
  destruct (findPlayer (GameState.players st) toId) as [to|]; [|reflexivity].
  assert (Hcase : Player.bombeeType from = none \/ Player.bombeeType from <> none)
    by (destruct (Player.bombeeType from); auto; right; discriminate).
  destruct Hcase as [Hnone | Hsome]; [rewrite Hnone; reflexivity|].
  assert (Hat : carriersAt fromId (GameState.players st)).
  { rewrite <- (findPlayer_id _ _ _ Hfrom).
    apply (carriersAt_is b); [exact Hb | now apply (findPlayer_In _ fromId) |].
    now apply hasBombee_true. }
  destruct (Player.bombeeType from) eqn:Ht; [congruence| | |];
    (unfold resultSat; simpl; split;
     [ exists toId; now apply transfer_carriersAt
     | apply map_id_keeps; intros p; repeat break_match; reflexivity ]).
Qed.

Lemma useBombeeTransferLastToSecond_carriers (st : GameState.t) :
  (exists b, carriersAt b (GameState.players st)) ->
  resultSat (carriersKept st) (CardManager.useBombeeTransferLastToSecond st).
Proof.
  intros [b Hb]. unfold CardManager.useBombeeTransferLastToSecond.
  destruct (sortBy _ _) as [|last [|second rest]] eqn:Hsort; try reflexivity.
  assert (Hin : In last (GameState.players st)).
  { apply (In_sortBy Player.totalAssets). rewrite Hsort. now left. }
  assert (Hcase : Player.bombeeType last = none \/ Player.bombeeType last <> none)
    by (destruct (Player.bombeeType last); auto; right; discriminate).
  destruct Hcase as [Hnone | Hsome]; [rewrite Hnone; reflexivity|].
  assert (Hat : carriersAt (Player.id last) (GameState.players st)).
  { apply (carriersAt_is b); [exact Hb | exact Hin | now apply hasBombee_true]. }
  destruct (Player.bombeeType last) eqn:Ht; [congruence| | |];
    (unfold resultSat; simpl; split;
     [ exists (Player.id second); now apply transfer_carriersAt
     | apply map_id_keeps; intros p; repeat break_match; reflexivity ]).
Qed.

Lemma carriersKept_after_removal (st : GameState.t) (playerId cardId : string)
      (st' : GameState.t) :
  carriersKept (CardManager.removeFromHand playerId cardId st) st' ->
  carriersKept st st'.
Proof.
  intros [Hat Hid]. split; [exact Hat|].
  rewrite Hid. apply keeps_ids, removeFromHand_keeps_bombee.
Qed.

(** Using any card keeps the carriers at one id and the ids as they are. *)
Lemma useCard_carriers (allCards : list Card.t) (st : GameState.t)
      (playerId cardId : string) (options : UseCardOptions.t) (rnd : nat) :
  (exists b, carriersAt b (GameState.players st)) ->
  outcomeSat (carriersKept st)
             (CardManager.useCard allCards st playerId cardId options rnd).
Proof.
  intros Hinv. unfold CardManager.useCard.
  destruct (findPlayer _ _) as [player|]; [|reflexivity].
  destruct (CardManager.getCardById _ _) as [card|]; [|reflexivity].
  destruct (negb _); [reflexivity|]. cbv zeta.
  set (removed := CardManager.removeFromHand playerId cardId st).
  assert (Hrem : exists b, carriersAt b (GameState.players removed)).
  { destruct Hinv as [b Hb]. exists b.
    apply (keeps_carriersAt b st); [apply removeFromHand_keeps_bombee | exact Hb]. }
  assert (Hkeep : forall o,
             outcomeSat (keepsPlayers idBombee removed) o ->
             outcomeSat (carriersKept st) o).
  { intros o. apply outcomeSat_impl. intros st' H.
    apply (carriersKept_after_removal st playerId cardId).
    now apply keeps_carriersKept. }
  assert (Hkept : forall o,
             outcomeSat (carriersKept removed) o -> outcomeSat (carriersKept st) o).
  { intros o. apply outcomeSat_impl. intros st'.
    apply carriersKept_after_removal. }
  destruct (Card.type card).
  - apply Hkeep. apply useMoveToDest_keeps; reflexivity.
  - apply Hkeep. unfold outcomeSat, resultSat, keepsPlayers. reflexivity.
  - apply Hkeep. apply useMoveToCity_keeps; reflexivity.
  - apply Hkeep. apply useBuyProperty_keeps; reflexivity.
  - apply Hkeep. apply useStealProperty_keeps; reflexivity.
  - apply Hkeep. apply useSellProperty_keeps; reflexivity.
  - apply Hkeep. apply useGetMoney_keeps; reflexivity.
  - apply Hkeep. apply usePayMoney_keeps; reflexivity.
  - apply Hkept. now apply useBombeeAway_carriers.
  - destruct (isId _ "last_to_second").
    + apply Hkept. now apply useBombeeTransferLastToSecond_carriers.
    + destruct (CardManager.given _); [|reflexivity].
      apply Hkept. now apply useBombeeTransfer_carriers.
  - apply Hkeep. apply useMonopolyBreak_keeps; reflexivity.
  - destruct (CardManager.given _); [|reflexivity].
    apply Hkeep. apply useCardSteal_keeps_bombee.
  - apply Hkeep. unfold outcomeSat, resultSat, keepsPlayers. reflexivity.
  - apply Hkeep. apply useDoubleIncome_keeps; reflexivity.
Qed.

Lemma bombeeStep_carriers (allCards : list Card.t) (st st' : GameState.t) :
  bombeeStep allCards st st' ->
  (exists b, carriersAt b (GameState.players st)) ->
  carriersKept st st'.
Proof.
  intros Hstep Hinv. destruct Hstep.
  - now apply attachBombeeToLastPlace_carriers.
  - now apply processBombeeAction_carriers.
  - now apply decrementBombeeImmunity_carriers.
  - now apply removeBombee_carriers.
  - pose proof (useCard_carriers allCards st playerId cardId options rnd Hinv) as Hsat.
    rewrite H in Hsat. unfold outcomeSat, resultSat in Hsat. now rewrite H0 in Hsat.
Qed.

(** C8. From a state whose player ids are distinct and in which at most one
    player carries a Bombee, every state reached by the Bombee operations
    (attachment, per-turn action with migration, immunity decrement, removal)
    and by the use of any card (among them the removal card and both
    transfer cards) has at most one player carrying a Bombee. *)
Theorem at_most_one_bombee :
  forall (allCards : list Card.t) (st0 st : GameState.t),
    distinctIds st0 ->
    atMostOneBombee st0 ->
    bombeeReachable allCards st0 st ->
    atMostOneBombee st.
Proof.
  intros allCards st0 st Hids Hone Hreach.
  assert (Hinv : distinctIds st /\ exists b, carriersAt b (GameState.players st)).
  { induction Hreach as [|st st' _ IH Hstep].
    - split; [exact Hids | now apply count_carriersAt].
    - destruct IH as [Hd Hb].
      destruct (bombeeStep_carriers allCards st st' Hstep Hb) as [Hb' Hid].
      split; [|exact Hb']. unfold distinctIds in *. now rewrite Hid. }
  destruct Hinv as [Hd [b Hb]]. now apply (carriersAt_count b).
Qed.

(** After the attachment and one Bombee turn from the rich-and-poor state. *)
Lemma at_most_one_bombee_witness :
  atMostOneBombee
    (BombeeManager.processBombeeAction
       (BombeeManager.attachBombeeToLastPlace Fixtures.attachState)
       Fixtures.saleDraws).
Proof.
  apply (at_most_one_bombee [] Fixtures.attachState).
  - unfold distinctIds. simpl.
    constructor; [intros [H | []]; discriminate|].
    constructor; [intros []|]. constructor.
  - unfold atMostOneBombee. simpl. lia.
  - eapply reach_step; [eapply reach_step; [apply reach_start|]|].
    + apply step_attach.
    + apply step_action.
Defined.

(** ** Attachment *)

Lemma getLastPlacePlayer_least (l : list Player.t) (m : Player.t) :
  BombeeManager.getLastPlacePlayer l = Some m ->
  In m l /\ forall p, In p l -> Player.totalAssets m <= Player.totalAssets p.
Proof.
  unfold BombeeManager.getLastPlacePlayer, reduce1.
  destruct l as [|x rest]; [discriminate|]. intros [= <-].
  assert (Hgen : forall rest x,
    let m := fold_left (fun m p => if Player.totalAssets p <? Player.totalAssets m
                                   then p else m) rest x in
    In m (x :: rest)
    /\ forall p, In p (x :: rest) -> Player.totalAssets m <= Player.totalAssets p).
  { clear. induction rest as [|y rest IH]; intros x; simpl.
    - split; [now left|]. intros p [<- | []]. lia.
    - specialize (IH (if Player.totalAssets y <? Player.totalAssets x then y else x)).
      simpl in IH. destruct IH as [Hin Hle]. split.
      + destruct Hin as [Hin | Hin]; [|right; now right].
        rewrite <- Hin. destruct (_ <? _); [right; now left | now left].
      + intros p Hp.
        assert (Hm : Player.totalAssets
                  (fold_left (fun m p => if Player.totalAssets p <? Player.totalAssets m
                                         then p else m) rest
                     (if Player.totalAssets y <? Player.totalAssets x then y else x))
                <= Player.totalAssets
                     (if Player.totalAssets y <? Player.totalAssets x then y else x))
          by (apply Hle; now left).
        destruct Hp as [Hp | [Hp | Hp]]; [subst p | subst p | apply Hle; now right];
          destruct (Z.ltb_spec (Player.totalAssets y) (Player.totalAssets x)); lia. }
  apply Hgen.
Qed.

Lemma getLastPlacePlayer_none (l : list Player.t) :
  BombeeManager.getLastPlacePlayer l = None -> l = [].
Proof. destruct l; [reflexivity | discriminate]. Qed.

Lemma isImmune_over (p : Player.t) :
  BombeeManager.isImmune p = false <-> immunityOver p.
Proof.
  unfold BombeeManager.isImmune, immunityOver.
  destruct (Player.bombeeImmuneYears p) as [y|]; [|tauto].
  rewrite Z.ltb_ge. tauto.
Qed.

Lemma no_carrier_fields (ps : list Player.t) :
  existsb BombeeManager.hasBombee ps = false
  <-> forall p, In p ps -> Player.bombeeType p = none.
Proof.
  split.
  - intros Hnone p Hin.
    destruct (Player.bombeeType p) eqn:E; [reflexivity| | |];
      exfalso;
      (assert (H : existsb BombeeManager.hasBombee ps = true)
        by (apply existsb_exists; exists p; split; [exact Hin|];
            unfold BombeeManager.hasBombee; now rewrite E));
      congruence.
  - intros Hall. destruct (existsb BombeeManager.hasBombee ps) eqn:E; [|reflexivity].
    apply existsb_exists in E. destruct E as [p [Hin Hcarry]].
    unfold BombeeManager.hasBombee in Hcarry. now rewrite (Hall p Hin) in Hcarry.
Qed.

(** With no carrier, marking the players of the target's id attaches a new
    mini Bombee to the target and leaves the players of another id as they
    are; with distinct ids the target alone carries a Bombee afterwards. *)
Lemma attach_only_target (ps : list Player.t) (target : Player.t) :
  (forall p, In p ps -> Player.bombeeType p = none) ->
  In target ps ->
  let ps' := map (fun p => if String.eqb (Player.id p) (Player.id target)
                           then Player.with_bombee mini 0 p else p) ps in
  Forall2 (fun p p' => (Player.id p = Player.id target -> carriesNew mini p p')
                       /\ (Player.id p <> Player.id target -> p' = p))
          ps ps'
  /\ (exists target', In target' ps' /\ carriesNew mini target target')
  /\ (NoDup (map Player.id ps) ->
      forall p', In p' ps' -> Player.bombeeType p' <> none ->
                 carriesNew mini target p').
Proof.
  intros Hnone Hin ps'. subst ps'.
  assert (Hnew : forall p, carriesNew mini p (Player.with_bombee mini 0 p))
    by (intros p; unfold carriesNew; simpl; tauto).
  split; [|split].
  - clear Hnone Hin. induction ps as [|x l IH]; simpl; constructor;
      [|exact IH].
    destruct (String.eqb_spec (Player.id x) (Player.id target)) as [E|E].
    + split; [intros _; apply Hnew | intros Hne; now elim Hne].
    + split; [intros Heq; now elim E | reflexivity].
  - exists (Player.with_bombee mini 0 target). split; [|apply Hnew].
    apply in_map_iff. exists target. split; [|exact Hin]. now rewrite String.eqb_refl.
  - intros Hnd p' Hp' Hcarry. apply in_map_iff in Hp'. destruct Hp' as [p [<- Hp]].
    destruct (String.eqb_spec (Player.id p) (Player.id target)) as [E|_].
    + assert (p = target) as ->; [|apply Hnew].
      clear Hnone Hcarry. induction ps as [|x l IH]; [contradiction|].
      simpl in Hnd. inversion Hnd as [|y l' Hnotin Hnd']; subst.
      destruct Hin as [-> | Hin], Hp as [-> | Hp]; try reflexivity.
      * exfalso. apply Hnotin. rewrite <- E. now apply in_map.
      * exfalso. apply Hnotin. rewrite E. now apply in_map.
      * now apply IH.
    + exfalso. apply Hcarry. now apply Hnone.
Qed.

(** C9. With two or more players and no Bombee on any of them, the attachment
    picks a target among the players and attaches a new mini Bombee to it:
    afterwards the target's tier is mini and its counter 0, nothing else of
    the target has changed, the players of another id and the rest of the
    state are as before, and with distinct ids nobody but the target
    carries a Bombee.  The target is a player whose immunity is over (its
    immunity years are absent or not positive) with the lowest total assets
    among the players whose immunity is over; if no player's immunity is
    over, the target has the lowest total assets of all.  With fewer than
    two players, or with a Bombee already on some player, the state is
    returned as it is. *)
Theorem attachBombeeToLastPlace_target :
  forall st : GameState.t,
    let st' := BombeeManager.attachBombeeToLastPlace st in
    ((forall p, In p (GameState.players st) -> Player.bombeeType p = none) ->
     (2 <= length (GameState.players st))%nat ->
     exists target,
       In target (GameState.players st)
       /\ ((exists p, In p (GameState.players st) /\ immunityOver p) ->
           immunityOver target
           /\ forall p, In p (GameState.players st) -> immunityOver p ->
                        Player.totalAssets target <= Player.totalAssets p)
       /\ ((forall p, In p (GameState.players st) -> ~ immunityOver p) ->
           forall p, In p (GameState.players st) ->
                     Player.totalAssets target <= Player.totalAssets p)
       /\ Forall2 (fun p p' =>
                     (Player.id p = Player.id target -> carriesNew mini p p')
                     /\ (Player.id p <> Player.id target -> p' = p))
                  (GameState.players st) (GameState.players st')
       /\ st' = GameState.with_players (GameState.players st') st
       /\ (exists target',
              In target' (GameState.players st') /\ carriesNew mini target target')
       /\ (distinctIds st ->
           forall p', In p' (GameState.players st') ->
                      Player.bombeeType p' <> none ->
                      carriesNew mini target p'))
    /\ ((length (GameState.players st) < 2)%nat
        \/ (exists p, In p (GameState.players st) /\ Player.bombeeType p <> none) ->
        st' = st).
Proof.
  intros st st'. subst st'. split.
  - intros Hfields Hlen.
    pose proof (proj2 (no_carrier_fields _) Hfields) as Hnone.
    unfold BombeeManager.attachBombeeToLastPlace. rewrite Hnone.
    destruct (Nat.ltb_spec (length (GameState.players st)) 2) as [Hlt|_]; [lia|].
    destruct (BombeeManager.getLastPlacePlayer (GameState.players st)) as [lastPlayer|]
      eqn:Hlast.
    2:{ apply getLastPlacePlayer_none in Hlast. rewrite Hlast in Hlen. simpl in Hlen. lia. }
    apply getLastPlacePlayer_least in Hlast. destruct Hlast as [Hlin Hlleast].
    cbv zeta.
    destruct (BombeeManager.getLastPlacePlayer
                (filter (fun p => negb (BombeeManager.isImmune p)) (GameState.players st)))
      as [eligible|] eqn:Hel; simpl orElse.
    + apply getLastPlacePlayer_least in Hel. destruct Hel as [Hein Heleast].
      apply filter_In in Hein. destruct Hein as [Hein Hnot].
      apply negb_true_iff in Hnot.
      destruct (attach_only_target _ eligible Hfields Hein) as (Hall & Hex & Honly).
      exists eligible. split; [exact Hein|].
      split; [|split; [|split; [exact Hall|split; [reflexivity|split;
                                                   [exact Hex | exact Honly]]]]].
      * intros _. split; [now apply isImmune_over|].
        intros p Hp Hover. apply Heleast. apply filter_In. split; [exact Hp|].
        apply isImmune_over in Hover. now rewrite Hover.
      * intros Hnever. elim (Hnever eligible Hein). now apply isImmune_over.
    + apply getLastPlacePlayer_none in Hel.
      destruct (attach_only_target _ lastPlayer Hfields Hlin) as (Hall & Hex & Honly).
      exists lastPlayer. split; [exact Hlin|].
      split; [|split; [|split; [exact Hall|split; [reflexivity|split;
                                                   [exact Hex | exact Honly]]]]].
      * intros [p [Hp Hover]]. exfalso.
        assert (Hin : In p (filter (fun p => negb (BombeeManager.isImmune p))
                                   (GameState.players st))).
        { apply filter_In. split; [exact Hp|].
          apply isImmune_over in Hover. now rewrite Hover. }
        now rewrite Hel in Hin.
      * intros _. exact Hlleast.
  - intros [Hlt | [p [Hp Hcarry]]]; unfold BombeeManager.attachBombeeToLastPlace.
    + destruct (existsb _ _); [reflexivity|].
      destruct (Nat.ltb_spec (length (GameState.players st)) 2); [reflexivity | lia].
    + destruct (existsb BombeeManager.hasBombee (GameState.players st)) eqn:E;
        [reflexivity|].
      elim Hcarry. exact (proj1 (no_carrier_fields _) E p Hp).
Qed.

(** The attachment test with an immune poorest player: the target is the
    second poorest player, who alone carries a mini Bombee afterwards. *)
Lemma attachBombeeToLastPlace_target_witness :
  exists target,
    target = Fixtures.second
    /\ (exists target',
           In target'
              (GameState.players
                 (BombeeManager.attachBombeeToLastPlace Fixtures.immuneState))
           /\ carriesNew mini target target')
    /\ (forall p',
           In p' (GameState.players
                    (BombeeManager.attachBombeeToLastPlace Fixtures.immuneState)) ->
           Player.bombeeType p' <> none ->
           carriesNew mini target p')
    /\ map (fun p => (Player.id p, Player.bombeeType p, Player.bombeeElapsedTurns p))
           (GameState.players
              (BombeeManager.attachBombeeToLastPlace Fixtures.immuneState))
       = [("poor", none, 0); ("second", mini, 0); ("rich", none, 0)].
Proof.
  destruct (proj1 (attachBombeeToLastPlace_target Fixtures.immuneState))
    as (target & Hin & Hsome & _ & _ & _ & Hex & Honly).
  - intros p [<-|[<-|[<-|[]]]]; reflexivity.
  - simpl. lia.
  - exists target. split; [|split; [exact Hex|split; [|reflexivity]]].
    + destruct Hsome as [Hover Hleast].
      { exists Fixtures.second. split; [simpl; tauto | exact I]. }
      destruct Hin as [<-|[<-|[<-|[]]]].
      * simpl in Hover. unfold immunityOver in Hover. simpl in Hover. lia.
      * reflexivity.
      * specialize (Hleast Fixtures.second). simpl in Hleast.
        assert (50000 <= 2000) by (apply Hleast; [tauto | exact I]). lia.
    + apply Honly. unfold distinctIds. simpl.
      repeat constructor; simpl; intuition discriminate.
Defined.

(** * Further properties of the managers *)

(** ** Sums over the players and the properties *)



Lemma sumOf_map {X Y : Type} (w : Y -> Z) (g : X -> Y) (l : list X) :
  sumOf w (map g l) = sumOf (fun x => w (g x)) l.
Proof. induction l as [|x l IH]; simpl; [reflexivity | now rewrite IH]. Qed.

Lemma sumOf_plus {X : Type} (w1 w2 : X -> Z) (l : list X) :
  sumOf (fun x => w1 x + w2 x) l = sumOf w1 l + sumOf w2 l.
Proof. induction l as [|x l IH]; simpl; [reflexivity | rewrite IH; lia]. Qed.

Lemma existsb_id_In (i : string) (ps : list Player.t) :
  existsb (fun p => String.eqb (Player.id p) i) ps = true
  <-> In i (map Player.id ps).
Proof.
  rewrite existsb_exists, in_map_iff. split.
  - intros [p [Hin Heq]]. apply String.eqb_eq in Heq. now exists p.
  - intros [p [Heq Hin]]. exists p. split; [exact Hin | now apply String.eqb_eq].
Qed.

(** A change of [d] at the player [i], summed over players with distinct ids. *)
Lemma sumOf_point (i : string) (d : Z) (ps : list Player.t) :
  NoDup (map Player.id ps) ->
  sumOf (fun p => if String.eqb (Player.id p) i then d else 0) ps
  = if existsb (fun p => String.eqb (Player.id p) i) ps then d else 0.
Proof.
  induction ps as [|p ps IH]; simpl; intros Hnd; [reflexivity|].
  inversion Hnd as [|x l Hnotin Hnd']; subst.
  rewrite (IH Hnd').
  destruct (String.eqb (Player.id p) i) eqn:E; simpl; [|reflexivity].
  apply String.eqb_eq in E. subst i.
  destruct (existsb (fun q => String.eqb (Player.id q) (Player.id p)) ps) eqn:Ex;
    [|lia].
  apply existsb_id_In in Ex. contradiction.
Qed.

Lemma findPlayer_existsb (ps : list Player.t) (i : string) :
  findPlayer ps i <> None ->
  existsb (fun p => String.eqb (Player.id p) i) ps = true.
Proof.
  unfold findPlayer. intros H.
  destruct (find (fun p => String.eqb (Player.id p) i) ps) as [p|] eqn:E;
    [|congruence].
  apply find_some in E. apply existsb_exists. now exists p.
Qed.

(** With distinct ids, the player found under an id is the only one with it. *)
Lemma findPlayer_unique (ps : list Player.t) (i : string) (player p : Player.t) :
  NoDup (map Player.id ps) ->
  findPlayer ps i = Some player -> In p ps -> Player.id p = i -> p = player.
Proof.
  unfold findPlayer.
  induction ps as [|q ps IH]; simpl; intros Hnd Hfind Hin Hid; [contradiction|].
  inversion Hnd as [|x l Hnotin Hnd']; subst.
  destruct (String.eqb (Player.id q) (Player.id p)) eqn:E.
  - injection Hfind as <-. destruct Hin as [->|Hin]; [reflexivity|].
    apply String.eqb_eq in E. exfalso. apply Hnotin. rewrite E.
    now apply in_map.
  - destruct Hin as [->|Hin]; [now rewrite String.eqb_refl in E|].
    now apply IH.
Qed.

(** ** Upgrades *)



(** ** The total-assets equation across the property operations *)

(** X2. Every operation of the property manager keeps the total-assets
    equation: from a state in which every player's total assets are the
    money plus the purchase prices owned, a purchase, an upgrade, a land
    fee, a forced sale and the year-end settlement all lead to such a
    state again. *)
Theorem propertyManager_keeps_assets :
  forall (st : GameState.t) (playerId propertyId : string),
    assetsInvariant st ->
    (forall st',
        PurchaseResult.newState (PropertyManager.buyProperty st playerId propertyId)
        = Some st' -> assetsInvariant st')
    /\ (forall st',
           PurchaseResult.newState
             (PropertyManager.upgradeProperty st playerId propertyId)
           = Some st' -> assetsInvariant st')
    /\ assetsInvariant (PropertyManager.payLandFee st playerId propertyId)
    /\ assetsInvariant (PropertyManager.sellPropertyForcibly st playerId propertyId)
    /\ assetsInvariant (fst (PropertyManager.calcYearEndIncome st)).
Proof.
  intros st playerId propertyId Hinv.
  split; [|split; [|split; [|split]]].
  - unfold PropertyManager.buyProperty. intros st'.
    repeat break_match; simpl; intros H; try discriminate.
    injection H as <-. apply recalcTotalAssets_invariant.
  - unfold PropertyManager.upgradeProperty. intros st'.
    repeat break_match; simpl; intros H; try discriminate.
    injection H as <-. apply recalcTotalAssets_invariant.
  - unfold PropertyManager.payLandFee.
    repeat break_match; try exact Hinv. apply recalcTotalAssets_invariant.
  - unfold PropertyManager.sellPropertyForcibly.
    repeat break_match; try exact Hinv. apply recalcTotalAssets_invariant.
  - unfold PropertyManager.calcYearEndIncome.
    destruct (fold_left _ _ _) as [results newPlayers]. simpl.
    apply recalcTotalAssets_invariant.
Qed.

(** In [boughtState] the player [p1] has 9000 and owns [prop1], bought for
    1000, so the total assets are 10000.  When [p2] pays the land fee of 100
    to [p1], when [p1] is forced to sell [prop1] for 500, and at the year
    end, which pays [p1] the income of 200, the totals follow the money and
    the price owned; so they do when [p2] buys [prop2] and when [p1]
    upgrades [prop1]. *)
Lemma propertyManager_keeps_assets_witness :
  (assetsInvariant (PropertyManager.payLandFee Fixtures.boughtState "p2" "prop1")
   /\ map (fun p => (Player.money p, Player.totalAssets p))
          (GameState.players
             (PropertyManager.payLandFee Fixtures.boughtState "p2" "prop1"))
      = [(9100, 10100); (9900, 9900)])
  /\ (assetsInvariant
        (PropertyManager.sellPropertyForcibly Fixtures.boughtState "p1" "prop1")
      /\ map (fun p => (Player.money p, Player.totalAssets p))
             (GameState.players
                (PropertyManager.sellPropertyForcibly Fixtures.boughtState "p1" "prop1"))
         = [(9500, 9500); (10000, 10000)])
  /\ (assetsInvariant (fst (PropertyManager.calcYearEndIncome Fixtures.boughtState))
      /\ map (fun p => (Player.money p, Player.totalAssets p))
             (GameState.players
                (fst (PropertyManager.calcYearEndIncome Fixtures.boughtState)))
         = [(9200, 10200); (10000, 10000)])
  /\ (exists st',
         PurchaseResult.newState
           (PropertyManager.buyProperty Fixtures.boughtState "p2" "prop2") = Some st'
         /\ assetsInvariant st'
         /\ map (fun p => (Player.money p, Player.totalAssets p)) (GameState.players st')
            = [(9000, 10000); (8000, 10000)])
  /\ (exists st',
         PurchaseResult.newState
           (PropertyManager.upgradeProperty Fixtures.boughtState "p1" "prop1") = Some st'
         /\ assetsInvariant st'
         /\ map (fun p => (Player.money p, Player.totalAssets p)) (GameState.players st')
            = [(7000, 8000); (10000, 10000)]).
Proof.
  assert (Hinv : assetsInvariant Fixtures.boughtState)
    by (unfold assetsInvariant; simpl; repeat constructor).
  destruct (propertyManager_keeps_assets Fixtures.boughtState "p2" "prop1" Hinv)
    as (_ & _ & Hfee & _ & Hyear).
  destruct (propertyManager_keeps_assets Fixtures.boughtState "p1" "prop1" Hinv)
    as (_ & Hupgrade & _ & Hsell & _).
  destruct (propertyManager_keeps_assets Fixtures.boughtState "p2" "prop2" Hinv)
    as (Hbuy & _).
  split; [split; [exact Hfee | reflexivity]|].
  split; [split; [exact Hsell | reflexivity]|].
  split; [split; [exact Hyear | reflexivity]|].
  split.
  - eexists. split; [reflexivity|]. split; [apply Hbuy; reflexivity | reflexivity].
  - eexists. split; [reflexivity|]. split; [apply Hupgrade; reflexivity | reflexivity].
Defined.

(** ** Buying and being forced to sell *)



(** ** The land fee moves money *)

(** X4. A land fee neither creates nor destroys money: when player ids are
    distinct and the owner of the property is one of the players, the money
    of all players together is the same before and after [payLandFee]. *)
Theorem payLandFee_conserves_money :
  forall (st : GameState.t) (payerId propertyId : string),
    distinctIds st ->
    (forall property ownerId,
        findProperty (GameState.properties st) propertyId = Some property ->
        Property.ownerId property = Some ownerId ->
        findPlayer (GameState.players st) ownerId <> None) ->
    totalMoney (PropertyManager.payLandFee st payerId propertyId) = totalMoney st.
Proof.
  intros st payerId propertyId Hnd Hknown.
  unfold PropertyManager.payLandFee.
  destruct (findPlayer (GameState.players st) payerId) as [payer|] eqn:Hpl;
    [|reflexivity].
  destruct (findProperty (GameState.properties st) propertyId) as [property|] eqn:Hpr;
    [|reflexivity].
  destruct (negb (truthy (Property.ownerId property))
            || isId (Property.ownerId property) payerId) eqn:E; [reflexivity|].
  apply orb_false_elim in E. destruct E as [Et Ei].
  destruct (Property.ownerId property) as [o|] eqn:Eo; [|discriminate Et].
  simpl in Ei.
  set (a := Z.min (PropertyManager.getLandFee property) (Player.money payer)).
  unfold totalMoney. rewrite recalcTotalAssets_players. simpl GameState.players.
  rewrite !sumOf_map.
  rewrite (sumOf_ext_in _
             (fun p => Player.money p
                       + ((if String.eqb (Player.id p) payerId then - a else 0)
                          + (if String.eqb (Player.id p) o then a else 0)))).
  - rewrite !sumOf_plus, !sumOf_point by exact Hnd.
    rewrite (findPlayer_existsb _ payerId) by congruence.
    rewrite (findPlayer_existsb _ o) by (apply (Hknown property); [reflexivity|exact Eo]).
    lia.
  - intros p _. simpl.
    destruct (String.eqb (Player.id p) payerId) eqn:E1; simpl.
    + apply String.eqb_eq in E1. rewrite E1, String.eqb_sym, Ei. lia.
    + rewrite (String.eqb_sym o). destruct (String.eqb (Player.id p) o); simpl; lia.
Qed.

(** In the land-fee test 100 moves from [p1] to [p2]: the two players hold
    20000 together before and after. *)
Lemma payLandFee_conserves_money_witness :
  totalMoney (PropertyManager.payLandFee Fixtures.rentState "p1" "prop1")
  = totalMoney Fixtures.rentState.
Proof.
  apply payLandFee_conserves_money.
  - unfold distinctIds. simpl. repeat constructor; simpl; intuition discriminate.
  - intros property ownerId Hfind Hown. vm_compute in Hfind.
    injection Hfind as <-. vm_compute in Hown. injection Hown as <-.
    vm_compute. discriminate.
Defined.

(** ** Monopolies *)

(** X5. A city is monopolised by at most one player: two players cannot both
    hold the monopoly of the same city. *)
Theorem hasMonopoly_exclusive :
  forall (properties : list Property.t) (cityId a b : string),
    PropertyManager.hasMonopoly properties cityId a = true ->
    a <> b ->
    PropertyManager.hasMonopoly properties cityId b = false.
Proof.
  intros properties cityId a b Ha Hab.
  destruct (PropertyManager.hasMonopoly properties cityId b) eqn:Hb; [|reflexivity].
  apply hasMonopoly_iff in Ha. apply hasMonopoly_iff in Hb.
  destruct Ha as [[p [Hin Hcity]] Hall]. destruct Hb as [_ Hall'].
  pose proof (Hall p Hin Hcity) as H1. pose proof (Hall' p Hin Hcity) as H2.
  congruence.
Qed.

(** [p1] owns both properties of Tokyo, so [p2] has no monopoly there. *)
Lemma hasMonopoly_exclusive_witness :
  PropertyManager.hasMonopoly
    [Property.with_ownerId (Some "p1") Fixtures.prop1;
     Property.with_ownerId (Some "p1") Fixtures.prop2] "tokyo" "p2" = false.
Proof.
  apply (hasMonopoly_exclusive _ "tokyo" "p1" "p2").
  - reflexivity.
  - discriminate.
Defined.

(** ** Annual income *)

Lemma calcPlayerAnnualIncome_sums (properties : list Property.t) (playerId : string) :
  let r := PropertyManager.calcPlayerAnnualIncome properties playerId in
  let owned := PropertyManager.getOwnedProperties properties playerId in
  IncomeResult.playerId r = playerId
  /\ IncomeResult.propertyIncome r = sumOf PropertyManager.getCurrentIncome owned
  /\ IncomeResult.monopolyBonus r
     = sumOf (fun p => if PropertyManager.hasMonopoly properties (Property.cityId p) playerId
                       then PropertyManager.getCurrentIncome p else 0) owned
  /\ IncomeResult.totalIncome r
     = IncomeResult.propertyIncome r + IncomeResult.monopolyBonus r.
Proof.
  unfold PropertyManager.calcPlayerAnnualIncome.
  destruct (PropertyManager.getOwnedProperties properties playerId) as [|p owned];
    [simpl; repeat split; reflexivity|].
  cbv zeta. change (length (p :: owned) =? 0)%nat with false. cbv iota.
  rewrite addCity_fold. simpl IncomeResult.propertyIncome.
  simpl IncomeResult.monopolyBonus. simpl IncomeResult.totalIncome.
  simpl IncomeResult.playerId.
  unfold PropertyManager.groupByCity.
  destruct (groupByCity_sums
              (fun c => PropertyManager.hasMonopoly properties c playerId)
              (p :: owned) []) as [H1 H2].
  rewrite H1, H2. simpl. repeat split; lia.
Qed.

Lemma sumOf_nonneg {X : Type} (w : X -> Z) (l : list X) :
  (forall x, In x l -> 0 <= w x) -> 0 <= sumOf w l.
Proof.
  induction l as [|x l IH]; simpl; intros H; [lia|].
  pose proof (H x (or_introl eq_refl)).
  assert (0 <= sumOf w l) by (apply IH; intros y Hy; apply H; now right). lia.
Qed.

Lemma sumOf_le {X : Type} (w1 w2 : X -> Z) (l : list X) :
  (forall x, In x l -> w1 x <= w2 x) -> sumOf w1 l <= sumOf w2 l.
Proof.
  induction l as [|x l IH]; simpl; intros H; [lia|].
  pose proof (H x (or_introl eq_refl)).
  assert (sumOf w1 l <= sumOf w2 l) by (apply IH; intros y Hy; apply H; now right). lia.
Qed.

(** X6. When none of a player's properties has a negative current income,
    the monopoly bonus lies between zero and the property income, so the
    total annual income lies between the property income and twice that;
    the total is twice the property income exactly when the bonus covers
    every property. A player who owns nothing earns nothing. *)
Theorem annual_income_bounds :
  forall (properties : list Property.t) (playerId : string),
    (forall p, In p (PropertyManager.getOwnedProperties properties playerId) ->
               0 <= PropertyManager.getCurrentIncome p) ->
    let r := PropertyManager.calcPlayerAnnualIncome properties playerId in
    0 <= IncomeResult.monopolyBonus r <= IncomeResult.propertyIncome r
    /\ IncomeResult.propertyIncome r <= IncomeResult.totalIncome r
       <= 2 * IncomeResult.propertyIncome r
    /\ ((forall p, In p (PropertyManager.getOwnedProperties properties playerId) ->
                   PropertyManager.hasMonopoly properties (Property.cityId p) playerId
                   = true) ->
        IncomeResult.totalIncome r = 2 * IncomeResult.propertyIncome r)
    /\ (PropertyManager.getOwnedProperties properties playerId = [] ->
        r = IncomeResult.mk playerId 0 0 0).
Proof.
  intros properties playerId Hpos r.
  destruct (calcPlayerAnnualIncome_sums properties playerId) as (_ & Hp & Hb & Ht).
  fold r in Hp, Hb, Ht.
  assert (Hlow : 0 <= IncomeResult.monopolyBonus r).
  { rewrite Hb. apply sumOf_nonneg. intros p Hin.
    destruct (PropertyManager.hasMonopoly _ _ _); [now apply Hpos | lia]. }
  assert (Hhigh : IncomeResult.monopolyBonus r <= IncomeResult.propertyIncome r).
  { rewrite Hb, Hp. apply sumOf_le. intros p Hin.
    pose proof (Hpos p Hin).
    destruct (PropertyManager.hasMonopoly _ _ _); lia. }
  split; [lia|]. split; [lia|]. split.
  - intros Hall. rewrite Ht. enough (IncomeResult.monopolyBonus r
                                     = IncomeResult.propertyIncome r) by lia.
    rewrite Hb, Hp. apply sumOf_ext_in. intros p Hin. now rewrite (Hall p Hin).
  - intros Hnone. subst r. unfold PropertyManager.calcPlayerAnnualIncome.
    now rewrite Hnone.
Qed.

(** [p1] owns one of the two properties of Tokyo: 200 of property income, no
    bonus, 200 in total. *)
Lemma annual_income_bounds_witness :
  0 <= IncomeResult.monopolyBonus
         (PropertyManager.calcPlayerAnnualIncome
            (GameState.properties Fixtures.ownedState) "p1")
    <= IncomeResult.propertyIncome
         (PropertyManager.calcPlayerAnnualIncome
            (GameState.properties Fixtures.ownedState) "p1").
Proof.
  apply (annual_income_bounds (GameState.properties Fixtures.ownedState) "p1").
  intros p Hin. vm_compute in Hin. destruct Hin as [<-|[]]. vm_compute. discriminate.
Defined.

(** ** Loops that update the players one id at a time *)

Section PointUpdates.

Variable B : Type.
Variable key : B -> string.
Variable upd : B -> Player.t -> Player.t.
Hypothesis upd_id : forall b p, Player.id (upd b p) = Player.id p.

Lemma touch_id (b : B) (p : Player.t) : Player.id (touch key upd b p) = Player.id p.
Proof. unfold touch. destruct (String.eqb _ _); [apply upd_id | reflexivity]. Qed.

Lemma fold_touch_id (l : list B) (q : Player.t) :
  Player.id (fold_left (fun q b => touch key upd b q) l q) = Player.id q.
Proof.
  revert q. induction l as [|b l IH]; simpl; intros q; [reflexivity|].
  now rewrite IH, touch_id.
Qed.

Lemma fold_map_touch (l : list B) (ps : list Player.t) :
  fold_left (fun nps b => map (touch key upd b) nps) l ps
  = map (fun p => fold_left (fun q b => touch key upd b q) l p) ps.
Proof.
  revert ps. induction l as [|b l IH]; simpl; intros ps.
  - now rewrite map_id.
  - now rewrite IH, map_map.
Qed.

Lemma fold_touch_other (l : list B) (q : Player.t) :
  ~ In (Player.id q) (map key l) ->
  fold_left (fun q b => touch key upd b q) l q = q.
Proof.
  revert q. induction l as [|b l IH]; simpl; intros q Hnotin; [reflexivity|].
  assert (E : String.eqb (Player.id q) (key b) = false).
  { apply String.eqb_neq. intros E. apply Hnotin. now left. }
  unfold touch at 2. rewrite E. apply IH. intros Hin. apply Hnotin. now right.
Qed.

Lemma fold_touch_once (l : list B) (b : B) (q : Player.t) :
  NoDup (map key l) -> In b l -> Player.id q = key b ->
  fold_left (fun q b => touch key upd b q) l q = upd b q.
Proof.
  revert q. induction l as [|b0 l IH]; simpl; intros q Hnd Hin Hid; [contradiction|].
  inversion Hnd as [|x l' Hnotin Hnd']; subst.
  destruct Hin as [->|Hin].
  - unfold touch at 2. rewrite Hid, String.eqb_refl.
    apply fold_touch_other. now rewrite upd_id, Hid.
  - assert (E : String.eqb (Player.id q) (key b0) = false).
    { apply String.eqb_neq. rewrite Hid. intros E. apply Hnotin. rewrite <- E.
      now apply in_map. }
    unfold touch at 2. rewrite E. now apply IH.
Qed.

End PointUpdates.

(** ** The year-end settlement *)

Lemma calcYearEndIncome_fold (qs : list Property.t) (l : list Player.t)
      (results : list IncomeResult.t) (nps : list Player.t) :
  fold_left
    (fun (acc : list IncomeResult.t * list Player.t) (player : Player.t) =>
       let '(results, newPlayers) := acc in
       let income := PropertyManager.calcPlayerAnnualIncome qs (Player.id player) in
       let multiplier := orElse (Player.incomeMultiplier player) 1%Q in
       let boostedIncome :=
         IncomeResult.mk (IncomeResult.playerId income)
                         (IncomeResult.propertyIncome income)
                         (IncomeResult.monopolyBonus income)
                         (floorMul (IncomeResult.totalIncome income) multiplier) in
       (results ++ [boostedIncome],
        map (fun p =>
               if String.eqb (Player.id p) (Player.id player)
               then Player.with_incomeMultiplier (Some 1%Q)
                      (Player.with_money
                         (Player.money p + IncomeResult.totalIncome boostedIncome) p)
               else p)
            newPlayers))
    l (results, nps)
  = (results
     ++ map (fun player =>
               let income := PropertyManager.calcPlayerAnnualIncome qs (Player.id player) in
               IncomeResult.mk (IncomeResult.playerId income)
                               (IncomeResult.propertyIncome income)
                               (IncomeResult.monopolyBonus income)
                               (yearEndIncome qs player)) l,
     fold_left
       (fun nps player =>
          map (touch Player.id
                 (fun player p =>
                    Player.with_incomeMultiplier (Some 1%Q)
                      (Player.with_money (Player.money p + yearEndIncome qs player) p))
                 player) nps)
       l nps).
Proof.
  revert results nps. induction l as [|player l IH]; intros results nps; simpl.
  - now rewrite app_nil_r.
  - rewrite IH. rewrite <- app_assoc. reflexivity.
Qed.

Lemma calcYearEndIncome_results (st : GameState.t) :
  snd (PropertyManager.calcYearEndIncome st)
  = map (fun player =>
           let income :=
             PropertyManager.calcPlayerAnnualIncome
               (GameState.properties st) (Player.id player) in
           IncomeResult.mk (IncomeResult.playerId income)
                           (IncomeResult.propertyIncome income)
                           (IncomeResult.monopolyBonus income)
                           (yearEndIncome (GameState.properties st) player))
        (GameState.players st).
Proof.
  unfold PropertyManager.calcYearEndIncome. rewrite calcYearEndIncome_fold.
  reflexivity.
Qed.

Lemma calcYearEndIncome_players (st : GameState.t) :
  distinctIds st ->
  GameState.players (fst (PropertyManager.calcYearEndIncome st))
  = map (fun p =>
           Player.with_totalAssets
             (Player.money p + yearEndIncome (GameState.properties st) p
              + ownedValue (GameState.properties st) (Player.id p))
             (Player.with_incomeMultiplier (Some 1%Q)
                (Player.with_money
                   (Player.money p + yearEndIncome (GameState.properties st) p) p)))
        (GameState.players st).
Proof.
  intros Hnd. unfold PropertyManager.calcYearEndIncome.
  rewrite calcYearEndIncome_fold. cbv iota. cbv beta. simpl fst.
  rewrite recalcTotalAssets_players. simpl GameState.players.
  simpl GameState.properties.
  rewrite fold_map_touch, map_map.
  apply map_ext_in. intros p Hin.
  rewrite (fold_touch_once Player.t Player.id
             (fun player p =>
                Player.with_incomeMultiplier (Some 1%Q)
                  (Player.with_money
                     (Player.money p + yearEndIncome (GameState.properties st) player) p))
             (fun _ _ => eq_refl) _ p p Hnd Hin eq_refl).
  reflexivity.
Qed.

Lemma calcYearEndIncome_properties (st : GameState.t) :
  GameState.properties (fst (PropertyManager.calcYearEndIncome st))
  = GameState.properties st.
Proof.
  unfold PropertyManager.calcYearEndIncome.
  destruct (fold_left _ _ _) as [results newPlayers]. reflexivity.
Qed.

Lemma floorMul_int (x k : Z) : floorMul x (inject_Z k) = x * k.
Proof. unfold floorMul. rewrite <- inject_Z_mult. apply Qfloor_Z. Qed.

Lemma floorMul_one (x : Z) : floorMul x 1 = x.
Proof. exact (eq_trans (floorMul_int x 1) (Z.mul_1_r x)). Qed.

Lemma Forall2_map_same {X Y : Type} (R : X -> Y -> Prop) (g : X -> Y) (l : list X) :
  (forall x, In x l -> R x (g x)) -> Forall2 R l (map g l).
Proof.
  induction l as [|x l IH]; intros H; simpl; constructor.
  - apply H. now left.
  - apply IH. intros y Hy. apply H. now right.
Qed.

Lemma Qfloor_near (x : Q) :
  (inject_Z (Qfloor x) - 1 < x)%Q /\ (x < inject_Z (Qfloor x) + 1)%Q.
Proof.
  pose proof (Qfloor_le x) as Hle. pose proof (Qlt_floor x) as Hlt.
  rewrite inject_Z_plus in Hlt. change (inject_Z 1) with 1%Q in Hlt.
  split; lra.
Qed.

(** X7. The year-end settlement reports one income result per player, in the
    order of the players: the id, the property income and the monopoly bonus
    of [calcPlayerAnnualIncome], and a total taken from the annual total and
    the player's income multiplier.  The total is the annual total itself
    when no multiplier is set, the product when the multiplier is a whole
    number, and for every multiplier an integer less than 1 away from the
    product.  The properties are untouched.  When player ids are distinct,
    every player is credited exactly the total reported, the income
    multiplier is back at 1 afterwards, and the total assets are the new
    money plus the purchase prices owned. *)
Theorem calcYearEndIncome_settlement :
  forall st : GameState.t,
    let qs := GameState.properties st in
    let st' := fst (PropertyManager.calcYearEndIncome st) in
    let results := snd (PropertyManager.calcYearEndIncome st) in
    Forall2 (fun player r =>
               let income :=
                 PropertyManager.calcPlayerAnnualIncome qs (Player.id player) in
               let total := IncomeResult.totalIncome income in
               IncomeResult.playerId r = Player.id player
               /\ IncomeResult.propertyIncome r = IncomeResult.propertyIncome income
               /\ IncomeResult.monopolyBonus r = IncomeResult.monopolyBonus income
               /\ (Player.incomeMultiplier player = None ->
                   IncomeResult.totalIncome r = total)
               /\ (forall k, Player.incomeMultiplier player = Some (inject_Z k) ->
                             IncomeResult.totalIncome r = total * k)
               /\ (forall m, Player.incomeMultiplier player = Some m ->
                             (inject_Z (IncomeResult.totalIncome r) - 1
                              < inject_Z total * m)%Q
                             /\ (inject_Z total * m
                                 < inject_Z (IncomeResult.totalIncome r) + 1)%Q))
            (GameState.players st) results
    /\ GameState.properties st' = qs
    /\ (distinctIds st ->
        Forall2 (fun player r =>
                   exists player',
                     findPlayer (GameState.players st') (Player.id player)
                     = Some player'
                     /\ Player.money player'
                        = Player.money player + IncomeResult.totalIncome r
                     /\ Player.incomeMultiplier player' = Some 1%Q
                     /\ Player.totalAssets player'
                        = Player.money player' + ownedValue qs (Player.id player))
                (GameState.players st) results).
Proof.
  intros st qs st' results. subst qs st' results.
  rewrite calcYearEndIncome_results, calcYearEndIncome_properties.
  split; [|split; [reflexivity|]].
  - apply Forall2_map_same. intros player _. cbv zeta. simpl.
    split; [now destruct (calcPlayerAnnualIncome_sums (GameState.properties st)
                            (Player.id player)) as [H _]|].
    split; [reflexivity|]. split; [reflexivity|].
    unfold yearEndIncome.
    set (total := IncomeResult.totalIncome
                    (PropertyManager.calcPlayerAnnualIncome (GameState.properties st)
                       (Player.id player))).
    split; [|split].
    + intros ->. apply (floorMul_one total).
    + intros k ->. apply (floorMul_int total k).
    + intros m ->. apply Qfloor_near.
  - intros Hnd. apply Forall2_map_same. intros player Hin. cbv zeta. simpl.
    rewrite (calcYearEndIncome_players st Hnd).
    rewrite findPlayer_map by reflexivity.
    destruct (findPlayer (GameState.players st) (Player.id player)) as [q|] eqn:Hq.
    + assert (q = player) as ->.
      { symmetry. apply (findPlayer_unique _ _ _ _ Hnd Hq Hin eq_refl). }
      eexists. split; [reflexivity|]. simpl. repeat split; reflexivity.
    + exfalso. unfold findPlayer in Hq.
      apply (find_none _ _ Hq player) in Hin. now rewrite String.eqb_refl in Hin.
Qed.

(** A player with the multiplier 3/2 owns one of the two properties of a
    city, of income 333: the settlement reports and credits 499. *)
Lemma calcYearEndIncome_settlement_witness :
  Forall2 (fun player r =>
             exists player',
               findPlayer
                 (GameState.players
                    (fst (PropertyManager.calcYearEndIncome Fixtures.halfBoostedState)))
                 (Player.id player)
               = Some player'
               /\ Player.money player'
                  = Player.money player + IncomeResult.totalIncome r
               /\ Player.incomeMultiplier player' = Some 1%Q
               /\ Player.totalAssets player'
                  = Player.money player'
                    + ownedValue (GameState.properties Fixtures.halfBoostedState)
                                 (Player.id player))
          (GameState.players Fixtures.halfBoostedState)
          (snd (PropertyManager.calcYearEndIncome Fixtures.halfBoostedState))
  /\ map IncomeResult.totalIncome
         (snd (PropertyManager.calcYearEndIncome Fixtures.halfBoostedState))
     = [499; 0]
  /\ map (fun p => (Player.money p, Player.totalAssets p))
         (GameState.players
            (fst (PropertyManager.calcYearEndIncome Fixtures.halfBoostedState)))
     = [(10499, 11499); (10000, 10000)].
Proof.
  split; [|split; reflexivity].
  apply (proj2 (proj2 (calcYearEndIncome_settlement Fixtures.halfBoostedState))).
  unfold distinctIds. simpl. repeat constructor; simpl; intuition discriminate.
Defined.

Lemma calcYearEndIncome_find (st : GameState.t) (i : string) (p : Player.t) :
  distinctIds st ->
  findPlayer (GameState.players st) i = Some p ->
  findPlayer (GameState.players (fst (PropertyManager.calcYearEndIncome st))) i
  = Some (Player.with_totalAssets
            (Player.money p + yearEndIncome (GameState.properties st) p
             + ownedValue (GameState.properties st) (Player.id p))
            (Player.with_incomeMultiplier (Some 1%Q)
               (Player.with_money
                  (Player.money p + yearEndIncome (GameState.properties st) p) p))).
Proof.
  intros Hnd Hfind. rewrite (calcYearEndIncome_players st Hnd).
  rewrite findPlayer_map by reflexivity. now rewrite Hfind.
Qed.

Lemma calcYearEndIncome_distinct (st : GameState.t) :
  distinctIds st -> distinctIds (fst (PropertyManager.calcYearEndIncome st)).
Proof.
  intros Hnd. unfold distinctIds. rewrite (calcYearEndIncome_players st Hnd).
  rewrite map_map. exact Hnd.
Qed.

(** X8. An income card that lasts until the settlement multiplies exactly
    one settlement.  [useDoubleIncome] sets the holder's income multiplier to
    the value of the card (2 when the card names none) and leaves the money
    as it is; the next [calcYearEndIncome] credits the holder the floor of
    the annual total times that multiplier, which for the whole-numbered
    value of a card is the product itself, and sets the multiplier back to
    1; the settlement after that credits the plain annual total again. *)
Theorem double_income_lasts_one_settlement :
  forall (st : GameState.t) (playerId : string) (card : Card.t) (player : Player.t),
    distinctIds st ->
    findPlayer (GameState.players st) playerId = Some player ->
    isId (CardEffect.targetType (Card.effect card)) "one_month" = false ->
    let multiplier := orElse (CardEffect.value (Card.effect card)) 2 in
    let income :=
      IncomeResult.totalIncome
        (PropertyManager.calcPlayerAnnualIncome (GameState.properties st) playerId) in
    exists st1,
      CardManager.useDoubleIncome st playerId card = UseCardResult.ok st1
      /\ let st2 := fst (PropertyManager.calcYearEndIncome st1) in
         let st3 := fst (PropertyManager.calcYearEndIncome st2) in
         exists p1 p2 p3,
           findPlayer (GameState.players st1) playerId = Some p1
           /\ Player.incomeMultiplier p1 = Some (inject_Z multiplier)
           /\ Player.money p1 = Player.money player
           /\ findPlayer (GameState.players st2) playerId = Some p2
           /\ Player.money p2
              = Player.money player + Qfloor (inject_Z income * inject_Z multiplier)
           /\ Player.money p2 = Player.money player + income * multiplier
           /\ Player.incomeMultiplier p2 = Some 1%Q
           /\ findPlayer (GameState.players st3) playerId = Some p3
           /\ Player.money p3 = Player.money p2 + income.
Proof.
  intros st playerId card player Hnd Hfind Htype multiplier income.
  pose proof (findPlayer_id _ _ _ Hfind) as Hid.
  unfold CardManager.useDoubleIncome. rewrite Htype. fold multiplier.
  eexists. split; [reflexivity|].
  set (st1 := GameState.with_players _ st).
  assert (Hnd1 : distinctIds st1).
  { unfold distinctIds, st1. simpl. unfold CardManager.updPlayer.
    rewrite map_id_keeps; [exact Hnd|].
    intros p. destruct (String.eqb (Player.id p) playerId); reflexivity. }
  assert (Hfind1 : findPlayer (GameState.players st1) playerId
                   = Some (Player.with_incomeMultiplier
                             (Some (inject_Z multiplier)) player)).
  { unfold st1. simpl. now apply findPlayer_updPlayer_same. }
  set (pA := Player.with_incomeMultiplier (Some (inject_Z multiplier)) player) in *.
  pose proof (calcYearEndIncome_find st1 playerId pA Hnd1 Hfind1) as Hfind2.
  set (pB := Player.with_totalAssets _ _) in Hfind2.
  pose proof (calcYearEndIncome_distinct st1 Hnd1) as Hnd2.
  pose proof (calcYearEndIncome_find _ playerId pB Hnd2 Hfind2) as Hfind3.
  set (pC := Player.with_totalAssets _ _) in Hfind3.
  assert (HmB : Player.money pB
                = Player.money player + yearEndIncome (GameState.properties st) pA)
    by reflexivity.
  assert (HmC : Player.money pC
                = Player.money pB
                  + yearEndIncome
                      (GameState.properties (fst (PropertyManager.calcYearEndIncome st1)))
                      pB)
    by reflexivity.
  assert (HyA : yearEndIncome (GameState.properties st) pA
                = Qfloor (inject_Z income * inject_Z multiplier)).
  { unfold yearEndIncome, income. now rewrite <- Hid. }
  assert (HyB : yearEndIncome
                  (GameState.properties (fst (PropertyManager.calcYearEndIncome st1)))
                  pB
                = income).
  { rewrite calcYearEndIncome_properties. unfold income. rewrite <- Hid.
    apply floorMul_one. }
  cbv zeta. exists pA, pB, pC.
  split; [exact Hfind1|]. split; [reflexivity|]. split; [reflexivity|].
  split; [exact Hfind2|].
  split; [now rewrite HmB, HyA|].
  split; [rewrite HmB, HyA; f_equal; apply (floorMul_int income multiplier)|].
  split; [reflexivity|]. split; [exact Hfind3|].
  now rewrite HmC, HyB.
Qed.

(** [p1] owns the property with an income of 200 and plays the doubling
    card: the next settlement credits 400, the one after it 200. *)
Lemma double_income_lasts_one_settlement_witness :
  exists st1,
    CardManager.useDoubleIncome Fixtures.ownedState "p1" Fixtures.boostCard
    = UseCardResult.ok st1
    /\ let st2 := fst (PropertyManager.calcYearEndIncome st1) in
       let st3 := fst (PropertyManager.calcYearEndIncome st2) in
       exists p1 p2 p3,
         findPlayer (GameState.players st1) "p1" = Some p1
         /\ Player.incomeMultiplier p1 = Some (inject_Z 2)
         /\ Player.money p1 = 10000
         /\ findPlayer (GameState.players st2) "p1" = Some p2
         /\ Player.money p2 = 10000 + Qfloor (inject_Z 200 * inject_Z 2)
         /\ Player.money p2 = 10000 + 200 * 2
         /\ Player.incomeMultiplier p2 = Some 1%Q
         /\ findPlayer (GameState.players st3) "p1" = Some p3
         /\ Player.money p3 = Player.money p2 + 200.
Proof.
  apply (double_income_lasts_one_settlement Fixtures.ownedState "p1"
           Fixtures.boostCard Fixtures.p1).
  - unfold distinctIds. simpl. repeat constructor; simpl; intuition discriminate.
  - reflexivity.
  - reflexivity.
Defined.

(** ** The last place *)

(** A [reduce] that keeps the running element unless the next one is
    strictly smaller returns the first of the smallest elements. *)
Lemma reduce1_first_least {X : Type} (key : X -> Z) (l : list X) (m : X) :
  reduce1 (fun p worst => key p <? key worst) l = Some m ->
  exists l1 l2,
    l = l1 ++ m :: l2
    /\ (forall p, In p l1 -> key m < key p)
    /\ (forall p, In p l2 -> key m <= key p).
Proof.
  destruct l as [|x rest]; simpl; [discriminate|].
  intros H. injection H as H. revert m H.
  induction rest as [|y r IH] using rev_ind; intros m H.
  - simpl in H. subst m. exists [], []. repeat split; intros p [].
  - rewrite fold_left_app in H. simpl in H.
    destruct (IH _ eq_refl) as (l1 & l2 & Hl & H1 & H2).
    destruct (Z.ltb_spec (key y)
                (key (fold_left (fun m p => if key p <? key m then p else m) r x)))
      as [Hlt|Hge].
    + subst m. exists (x :: r), []. split; [reflexivity|]. split; [|intros p []].
      intros p Hin. rewrite Hl in Hin. apply in_app_or in Hin.
      destruct Hin as [Hin|[<-|Hin]].
      * specialize (H1 p Hin). lia.
      * lia.
      * specialize (H2 p Hin). lia.
    + subst m. exists l1, (l2 ++ [y]). split; [|split].
      * change (x :: r ++ [y]) with ((x :: r) ++ [y]). rewrite Hl.
        now rewrite <- app_assoc.
      * exact H1.
      * intros p Hin. apply in_app_or in Hin. destruct Hin as [Hin|[<-|[]]].
        -- now apply H2.
        -- lia.
Qed.

(** X9. [getLastPlacePlayerId] throws on an empty list of players and on no
    other. Otherwise it returns the id of the player that
    [BombeeManager.getLastPlacePlayer] returns: a player with the least total
    assets, and among several such the one that comes first in the list. *)
Theorem getLastPlacePlayerId_first_least :
  forall players : list Player.t,
    (players = [] -> PropertyManager.getLastPlacePlayerId players = Thrown)
    /\ (players <> [] ->
        exists worst l1 l2,
          PropertyManager.getLastPlacePlayerId players = Returned (Player.id worst)
          /\ BombeeManager.getLastPlacePlayer players = Some worst
          /\ players = l1 ++ worst :: l2
          /\ (forall p, In p l1 -> Player.totalAssets worst < Player.totalAssets p)
          /\ (forall p, In p l2 -> Player.totalAssets worst <= Player.totalAssets p)).
Proof.
  intros players. split.
  - intros ->. reflexivity.
  - intros Hne. unfold PropertyManager.getLastPlacePlayerId,
      BombeeManager.getLastPlacePlayer.
    destruct (reduce1 (fun p worst => Player.totalAssets p <? Player.totalAssets worst)
                      players) as [worst|] eqn:E.
    + destruct (reduce1_first_least Player.totalAssets players worst E)
        as (l1 & l2 & Hl & H1 & H2).
      exists worst, l1, l2. repeat split; assumption.
    + destruct players; [congruence | discriminate].
Qed.

(** Of a rich and a poor player, the poor one is in the last place. *)
Lemma getLastPlacePlayerId_first_least_witness :
  exists worst l1 l2,
    PropertyManager.getLastPlacePlayerId [Fixtures.rich; Fixtures.poor]
    = Returned (Player.id worst)
    /\ BombeeManager.getLastPlacePlayer [Fixtures.rich; Fixtures.poor] = Some worst
    /\ [Fixtures.rich; Fixtures.poor] = l1 ++ worst :: l2
    /\ (forall p, In p l1 -> Player.totalAssets worst < Player.totalAssets p)
    /\ (forall p, In p l2 -> Player.totalAssets worst <= Player.totalAssets p).
Proof.
  apply (proj2 (getLastPlacePlayerId_first_least [Fixtures.rich; Fixtures.poor])).
  discriminate.
Defined.

(** ** The card shop *)



(** ** The limit on the hand *)

Lemma Forall_upd_found (P : Player.t -> Prop) (i : string) (g : Player.t -> Player.t)
      (ps : list Player.t) (player : Player.t) :
  NoDup (map Player.id ps) ->
  findPlayer ps i = Some player ->
  Forall P ps -> P (g player) ->
  Forall P (map (fun p => if String.eqb (Player.id p) i then g p else p) ps).
Proof.
  intros Hnd Hfind Hall Hg. apply Forall_forall. intros p' Hin.
  apply in_map_iff in Hin. destruct Hin as [p [<- Hin]].
  destruct (String.eqb (Player.id p) i) eqn:E.
  - apply String.eqb_eq in E.
    now rewrite (findPlayer_unique ps i player p Hnd Hfind Hin E).
  - rewrite Forall_forall in Hall. now apply Hall.
Qed.

Lemma upd_none (i : string) (g : Player.t -> Player.t) (ps : list Player.t) :
  findPlayer ps i = None ->
  map (fun p => if String.eqb (Player.id p) i then g p else p) ps = ps.
Proof.
  unfold findPlayer. intros Hnone.
  rewrite <- (map_id ps) at 2. apply map_ext_in. intros p Hin.
  now rewrite (find_none _ _ Hnone p Hin).
Qed.

Lemma cap_keeps (ps ps' : list Player.t) :
  map idHand ps' = map idHand ps ->
  Forall (fun p => (length (Player.hand p) <= CardManager.MAX_CARD_COUNT)%nat) ps ->
  Forall (fun p => (length (Player.hand p) <= CardManager.MAX_CARD_COUNT)%nat) ps'.
Proof.
  intros Hmap Hall.
  assert (H : forall l,
             Forall (fun p => (length (Player.hand p) <= CardManager.MAX_CARD_COUNT)%nat) l
             <-> Forall (fun x => (length (snd x) <= CardManager.MAX_CARD_COUNT)%nat)
                        (map idHand l)).
  { intros l. rewrite Forall_map. reflexivity. }
  apply H. rewrite Hmap. now apply H.
Qed.

Lemma removeFromHand_cap (st : GameState.t) (playerId cardId : string) :
  handsWithinCap st -> handsWithinCap (CardManager.removeFromHand playerId cardId st).
Proof.
  unfold handsWithinCap, CardManager.removeFromHand, CardManager.updPlayer. simpl.
  intros Hall. apply Forall_forall. intros p' Hin.
  apply in_map_iff in Hin. destruct Hin as [p [<- Hin]].
  rewrite Forall_forall in Hall. specialize (Hall p Hin).
  destruct (String.eqb (Player.id p) playerId); [|exact Hall]. simpl.
  pose proof (filter_length_le (fun id => negb (String.eqb id cardId)) (Player.hand p)).
  lia.
Qed.

Lemma removeFromHand_distinct (st : GameState.t) (playerId cardId : string) :
  distinctIds st -> distinctIds (CardManager.removeFromHand playerId cardId st).
Proof.
  unfold distinctIds, CardManager.removeFromHand, CardManager.updPlayer. simpl.
  intros Hnd. rewrite map_id_keeps; [exact Hnd|].
  intros p. destruct (String.eqb (Player.id p) playerId); reflexivity.
Qed.

Lemma useCardSteal_cap (st : GameState.t) (stealerId targetId : string)
      (targetCardId : option string) (rnd : nat) :
  distinctIds st -> handsWithinCap st ->
  resultSat handsWithinCap
    (CardManager.useCardSteal st stealerId targetId targetCardId rnd).
Proof.
  intros Hnd Hcap. unfold CardManager.useCardSteal.
  destruct (findPlayer (GameState.players st) targetId) as [target|]; [|reflexivity].
  destruct (Player.hand target) as [|first rest] eqn:Ehand; [reflexivity|].
  destruct (findPlayer (GameState.players st) stealerId) as [s|] eqn:Es.
  - destruct (Nat.leb_spec CardManager.MAX_CARD_COUNT (length (Player.hand s)));
      [reflexivity|].
    unfold resultSat, handsWithinCap. simpl.
    apply Forall_forall. intros p' Hin. apply in_map_iff in Hin.
    destruct Hin as [p [<- Hin]].
    unfold handsWithinCap in Hcap. rewrite Forall_forall in Hcap.
    specialize (Hcap p Hin).
    destruct (String.eqb (Player.id p) stealerId) eqn:E.
    + apply String.eqb_eq in E.
      rewrite (findPlayer_unique _ _ _ _ Hnd Es Hin E).
      simpl. rewrite length_app. simpl. lia.
    + destruct (String.eqb (Player.id p) targetId); [|exact Hcap]. simpl.
      match goal with
      | |- (length (filter ?f ?l) <= _)%nat => pose proof (filter_length_le f l)
      end.
      lia.
  - unfold resultSat, handsWithinCap. simpl.
    apply Forall_forall. intros p' Hin. apply in_map_iff in Hin.
    destruct Hin as [p [<- Hin]].
    unfold handsWithinCap in Hcap. rewrite Forall_forall in Hcap.
    specialize (Hcap p Hin).
    unfold findPlayer in Es. rewrite (find_none _ _ Es p Hin).
    destruct (String.eqb (Player.id p) targetId); [|exact Hcap]. simpl.
    match goal with
    | |- (length (filter ?f ?l) <= _)%nat => pose proof (filter_length_le f l)
    end.
    lia.
Qed.

(** X11. No operation on the hands takes a hand above the limit of 8 cards:
    when player ids are distinct and every hand holds at most 8 cards, the
    same is true after [gainCard], after [buyCard], after any use of a card
    (the stolen card of a card-steal included) and after [discardCard]. *)
Theorem hand_cap_kept :
  forall (allCards : list Card.t) (st : GameState.t) (playerId cardId : string)
         (options : UseCardOptions.t) (rnd : nat) (roll : Q),
    distinctIds st ->
    handsWithinCap st ->
    handsWithinCap (fst (CardManager.gainCard allCards st playerId roll))
    /\ handsWithinCap
         (BuyCardResult.newState (CardManager.buyCard allCards st playerId cardId))
    /\ outcomeSat handsWithinCap
         (CardManager.useCard allCards st playerId cardId options rnd)
    /\ handsWithinCap (CardManager.discardCard st playerId cardId).
Proof.
  intros allCards st playerId cardId options rnd roll Hnd Hcap.
  split; [|split; [|split]].
  - unfold CardManager.gainCard, CardManager.canDrawCard.
    destruct (findPlayer (GameState.players st) playerId) as [player|] eqn:Hpl;
      [|exact Hcap].
    destruct (Nat.ltb_spec (length (Player.hand player)) CardManager.MAX_CARD_COUNT);
      [|exact Hcap].
    simpl. destruct (CardManager.drawRandomCard allCards roll) as [card|];
      [|exact Hcap].
    unfold handsWithinCap. simpl.
    apply (Forall_upd_found _ playerId
             (fun p => Player.with_hand (Player.hand p ++ [Card.id card]) p)
             _ player Hnd Hpl Hcap).
    simpl. rewrite length_app. simpl. lia.
  - unfold CardManager.buyCard, CardManager.canDrawCard.
    destruct (findPlayer (GameState.players st) playerId) as [player|] eqn:Hpl;
      [|exact Hcap].
    destruct (CardManager.getCardById allCards cardId) as [card|]; [|exact Hcap].
    destruct (Nat.ltb_spec (length (Player.hand player)) CardManager.MAX_CARD_COUNT);
      [|exact Hcap].
    simpl. destruct (Player.money player <? CardManager.getCardShopPrice card);
      [exact Hcap|].
    unfold handsWithinCap. simpl.
    apply (Forall_upd_found _ playerId
             (fun p => Player.with_hand (Player.hand p ++ [Card.id card])
                         (Player.with_money
                            (Player.money p - CardManager.getCardShopPrice card) p))
             _ player Hnd Hpl Hcap).
    simpl. rewrite length_app. simpl. lia.
  - destruct (findPlayer (GameState.players st) playerId) as [player|] eqn:Hpl;
      [|rewrite useCard_unknown by (now left); reflexivity].
    destruct (CardManager.getCardById allCards cardId) as [card|] eqn:Hcard;
      [|rewrite useCard_unknown by (now right); reflexivity].
    destruct (existsb (String.eqb cardId) (Player.hand player)) eqn:Hheld.
    + destruct (CardType_eq_dec (Card.type card) card_steal) as [Hsteal|Hother].
      * unfold CardManager.useCard. rewrite Hpl, Hcard, Hheld, Hsteal. simpl.
        destruct (CardManager.given (UseCardOptions.targetPlayerId options)); [|reflexivity].
        apply useCardSteal_cap.
        -- now apply removeFromHand_distinct.
        -- now apply removeFromHand_cap.
      * apply (outcomeSat_impl
                 (keepsPlayers idHand (CardManager.removeFromHand playerId cardId st))).
        -- intros st' Hkeep. unfold handsWithinCap.
           apply (cap_keeps _ _ Hkeep). now apply removeFromHand_cap.
        -- now apply (useCard_effect_hands allCards st playerId cardId options rnd
                        player card).
    + unfold CardManager.useCard. rewrite Hpl, Hcard, Hheld. reflexivity.
  - unfold handsWithinCap, CardManager.discardCard. simpl.
    apply Forall_forall. intros p' Hin. apply in_map_iff in Hin.
    destruct Hin as [p [<- Hin]].
    unfold handsWithinCap in Hcap. rewrite Forall_forall in Hcap.
    specialize (Hcap p Hin).
    destruct (String.eqb (Player.id p) playerId); [|exact Hcap]. simpl.
    pose proof (filter_length_le (fun id => negb (String.eqb id cardId)) (Player.hand p)).
    lia.
Qed.

(** In the state of the card tests the hands hold two cards and none. *)
Lemma hand_cap_kept_witness :
  handsWithinCap
    (fst (CardManager.gainCard Fixtures.sampleCards Fixtures.cardState "p1" 0))
  /\ handsWithinCap
       (BuyCardResult.newState
          (CardManager.buyCard Fixtures.sampleCards Fixtures.cardState "p1" "card_dest"))
  /\ outcomeSat handsWithinCap
       (CardManager.useCard Fixtures.sampleCards Fixtures.cardState "p1" "card_dest"
          UseCardOptions.empty 0%nat)
  /\ handsWithinCap (CardManager.discardCard Fixtures.cardState "p1" "card_dest").
Proof.
  apply (hand_cap_kept Fixtures.sampleCards Fixtures.cardState "p1" "card_dest"
           UseCardOptions.empty 0%nat 0).
  - unfold distinctIds. simpl. repeat constructor; simpl; intuition discriminate.
  - unfold handsWithinCap, CardManager.MAX_CARD_COUNT. simpl.
    repeat constructor; simpl; lia.
Defined.

(** ** Gaining and discarding cards *)

Lemma with_hand_same (p : Player.t) : Player.with_hand (Player.hand p) p = p.
Proof. now destruct p. Qed.

Lemma with_players_same (st : GameState.t) :
  GameState.with_players (GameState.players st) st = st.
Proof. now destruct st. Qed.

Lemma filter_all {X : Type} (f : X -> bool) (l : list X) :
  (forall x, In x l -> f x = true) -> filter f l = l.
Proof.
  induction l as [|x l IH]; simpl; intros H; [reflexivity|].
  rewrite (H x (or_introl eq_refl)). f_equal. apply IH. intros y Hy. apply H. now right.
Qed.

Lemma weightedLoop_In {T : Type} (items : list T) (weights : list Z) (th : Q) (x : T) :
  weightedLoop items weights th = Some x -> In x items.
Proof.
  revert weights th. induction items as [|a l IH]; intros weights th; simpl;
    [discriminate|].
  destruct weights as [|w ws]; [discriminate|].
  destruct (Qle_bool (th - inject_Z w) 0).
  - intros H. injection H as ->. now left.
  - intros H. right. now apply (IH _ _ H).
Qed.

Lemma weightedRandom_In {T : Type} (items : list T) (weights : list Z) (roll : Q) (x : T) :
  weightedRandom items weights roll = Some x -> In x items.
Proof.
  unfold weightedRandom.
  destruct (weightedLoop items weights _) as [y|] eqn:Hloop.
  - intros H. injection H as ->. now apply (weightedLoop_In _ _ _ _ Hloop).
  - unfold lastItem. apply nth_error_In.
Qed.

Lemma drawRandomCard_In (allCards : list Card.t) (roll : Q) (c : Card.t) :
  CardManager.drawRandomCard allCards roll = Some c -> In c allCards.
Proof.
  unfold CardManager.drawRandomCard.
  destruct (length allCards =? 0)%nat; [discriminate|].
  apply weightedRandom_In.
Qed.

(** X12. A card square followed by a discard: discarding the card that
    [gainCard] just gave leads to the state that discarding it from the
    original state would have led to, since [discardCard] removes every copy
    of the card from the hand. If no player of that id held the card before,
    this is the original state: gaining and discarding is a round trip.
    [gainCard] itself changes nothing and gives no card when the player is
    unknown, the hand is full or the catalog is empty, and otherwise appends
    a card of the catalog to the hand. *)
Theorem gain_then_discard :
  forall (allCards : list Card.t) (st st' : GameState.t) (playerId : string)
         (roll : Q) (card : Card.t),
    CardManager.gainCard allCards st playerId roll = (st', Some card) ->
    CardManager.discardCard st' playerId (Card.id card)
    = CardManager.discardCard st playerId (Card.id card)
    /\ ((forall p, In p (GameState.players st) -> Player.id p = playerId ->
                   ~ In (Card.id card) (Player.hand p)) ->
        CardManager.discardCard st' playerId (Card.id card) = st)
    /\ (exists player,
          findPlayer (GameState.players st) playerId = Some player
          /\ (length (Player.hand player) < 8)%nat
          /\ findPlayer (GameState.players st') playerId
             = Some (Player.with_hand (Player.hand player ++ [Card.id card]) player))
    /\ In card allCards.
Proof.
  intros allCards st st' playerId roll card Hgain.
  unfold CardManager.gainCard, CardManager.canDrawCard in Hgain.
  destruct (findPlayer (GameState.players st) playerId) as [player|] eqn:Hpl;
    [|discriminate].
  destruct (Nat.ltb_spec (length (Player.hand player)) CardManager.MAX_CARD_COUNT)
    as [Hlen|]; [|discriminate].
  simpl in Hgain.
  destruct (CardManager.drawRandomCard allCards roll) as [c|] eqn:Hdraw;
    [|discriminate].
  injection Hgain as <- <-.
  assert (Hsame : CardManager.discardCard
                    (GameState.with_players
                       (map (fun p => if String.eqb (Player.id p) playerId
                                      then Player.with_hand (Player.hand p ++ [Card.id c]) p
                                      else p)
                            (GameState.players st)) st)
                    playerId (Card.id c)
                  = CardManager.discardCard st playerId (Card.id c)).
  { unfold CardManager.discardCard, GameState.with_players. simpl. f_equal.
    rewrite map_map. apply map_ext. intros p.
    destruct (String.eqb (Player.id p) playerId) eqn:E; simpl; rewrite E; [|reflexivity].
    rewrite filter_app. simpl. rewrite String.eqb_refl. simpl.
    rewrite app_nil_r. reflexivity. }
  split; [exact Hsame|]. split; [|split].
  - intros Hfresh. rewrite Hsame. unfold CardManager.discardCard.
    rewrite (map_ext_in _ (fun p => p)); [rewrite map_id; apply with_players_same|].
    intros p Hin.
    destruct (String.eqb (Player.id p) playerId) eqn:E; [|reflexivity].
    apply String.eqb_eq in E.
    rewrite filter_all; [apply with_hand_same|].
    intros x Hx. apply negb_true_iff. apply String.eqb_neq.
    intros ->. now apply (Hfresh p Hin E).
  - exists player. split; [reflexivity|]. split; [exact Hlen|]. simpl.
    apply (findPlayer_updPlayer_same playerId
             (fun p => Player.with_hand (Player.hand p ++ [Card.id c]) p));
      [reflexivity | exact Hpl].
  - now apply (drawRandomCard_In allCards roll).
Qed.

(** The holder gains the first card of the catalog, which is not in the
    hand, and discards it again. *)
Lemma gain_then_discard_witness :
  CardManager.discardCard
    (fst (CardManager.gainCard Fixtures.sampleCards Fixtures.cardState "p1" 0))
    "p1" (Card.id Fixtures.card_dest)
  = Fixtures.cardState.
Proof.
  apply (proj1 (proj2 (gain_then_discard Fixtures.sampleCards Fixtures.cardState
                         _ "p1" 0 Fixtures.card_dest eq_refl))).
  intros p Hin Hid. simpl in Hin. destruct Hin as [<-|[<-|[]]].
  - simpl. intuition discriminate.
  - discriminate Hid.
Defined.

(** ** The cards of a hand *)

(** X13. [getPlayerHand] resolves the ids of a hand against the catalog in
    the order of the hand and drops the ids that the catalog does not know:
    every card returned is a card of the catalog whose id is in the hand,
    never more cards than ids; when every id of the hand is known the ids of
    the result are the hand again. An unknown player has the empty hand. *)
Theorem getPlayerHand_resolves :
  forall (allCards : list Card.t) (st : GameState.t) (playerId : string),
    (findPlayer (GameState.players st) playerId = None ->
     CardManager.getPlayerHand allCards st playerId = [])
    /\ (forall player,
          findPlayer (GameState.players st) playerId = Some player ->
          let cards := CardManager.getPlayerHand allCards st playerId in
          (forall c, In c cards -> In c allCards /\ In (Card.id c) (Player.hand player))
          /\ (length cards <= length (Player.hand player))%nat
          /\ ((forall id, In id (Player.hand player) ->
                          CardManager.getCardById allCards id <> None) ->
              map Card.id cards = Player.hand player)).
Proof.
  intros allCards st playerId. unfold CardManager.getPlayerHand. split.
  - now intros ->.
  - intros player ->. cbv zeta.
    induction (Player.hand player) as [|id hand IH]; simpl.
    + split; [intros c [] | split; [lia | reflexivity]].
    + destruct IH as (IH1 & IH2 & IH3).
      destruct (CardManager.getCardById allCards id) as [card|] eqn:Hcard; simpl.
      * assert (Hid : Card.id card = id).
        { unfold CardManager.getCardById in Hcard. apply find_some in Hcard.
          now apply String.eqb_eq. }
        split; [|split].
        -- intros c [<-|Hin].
           ++ split; [|now left]. unfold CardManager.getCardById in Hcard.
              now apply find_some in Hcard.
           ++ destruct (IH1 c Hin). split; [assumption | now right].
        -- lia.
        -- intros Hknown. rewrite Hid. f_equal. apply IH3.
           intros i Hi. apply Hknown. now right.
      * split; [|split].
        -- intros c Hin. destruct (IH1 c Hin). split; [assumption | now right].
        -- lia.
        -- intros Hknown. exfalso. apply (Hknown id); [now left | exact Hcard].
Qed.

(** The holder's two cards are both in the sample catalog. *)
Lemma getPlayerHand_resolves_witness :
  map Card.id (CardManager.getPlayerHand Fixtures.sampleCards Fixtures.cardState "p1")
  = Player.hand Fixtures.holder.
Proof.
  apply (proj2 (getPlayerHand_resolves Fixtures.sampleCards Fixtures.cardState "p1")
           Fixtures.holder eq_refl).
  intros id Hin. simpl in Hin. destruct Hin as [<-|[<-|[]]]; vm_compute; discriminate.
Defined.

(** ** Drawing a card by rarity *)

Lemma weightedLoop_bucket {T : Type} (w : T -> Z) (items : list T) :
  (forall x, In x items -> 0 < w x) ->
  forall (th : Q) (i : nat) (x : T),
    nth_error items i = Some x ->
    (i = 0%nat \/ inject_Z (sumOf w (firstn i items)) < th)%Q ->
    (th <= inject_Z (sumOf w (firstn (S i) items)))%Q ->
    weightedLoop items (map w items) th = Some x.
Proof.
  induction items as [|a l IH]; intros Hpos th i x Hnth Hlow Hhigh.
  - destruct i; discriminate.
  - simpl. destruct i as [|j].
    + injection Hnth as ->. simpl in Hhigh.
      rewrite Z.add_0_r in Hhigh.
      destruct (Qle_bool (th - inject_Z (w x)) 0) eqn:E; [reflexivity|].
      exfalso. assert (H : (th - inject_Z (w x) <= 0)%Q) by lra.
      apply Qle_bool_iff in H. congruence.
    + simpl in Hnth. destruct Hlow as [Hlow|Hlow]; [discriminate|].
      change (sumOf w (firstn (S j) (a :: l)))
        with (w a + sumOf w (firstn j l)) in Hlow.
      change (sumOf w (firstn (S (S j)) (a :: l)))
        with (w a + sumOf w (firstn (S j) l)) in Hhigh.
      rewrite inject_Z_plus in Hlow, Hhigh.
      assert (Hnonneg : (0 <= inject_Z (sumOf w (firstn j l)))%Q).
      { change 0%Q with (inject_Z 0). rewrite <- Zle_Qle.
        apply sumOf_nonneg. intros y Hy. apply In_firstn in Hy.
        assert (0 < w y) by (apply Hpos; now right). lia. }
      destruct (Qle_bool (th - inject_Z (w a)) 0) eqn:E.
      * exfalso. apply Qle_bool_iff in E. lra.
      * apply (IH (fun y Hy => Hpos y (or_intror Hy))
                  (th - inject_Z (w a))%Q j x Hnth); [right; lra | lra].
Qed.

Lemma fold_left_total (weights : list Z) :
  fold_left (fun sum w => sum + w) weights 0 = sumOf (fun w => w) weights.
Proof. now rewrite (fold_left_sumOf (fun w => w)). Qed.

Lemma RARITY_WEIGHTS_pos (r : CardRarity) : 0 < CardManager.RARITY_WEIGHTS r.
Proof. now destruct r. Qed.

(** X14. [drawRandomCard] draws by rarity weight (60, 30 and 10 for common,
    uncommon and rare): with the weights laid end to end in catalog order,
    the card drawn is the one whose stretch contains the roll scaled by the
    total weight, the upper end of a stretch included. An empty catalog
    gives no card; a catalog with cards always gives one of its cards. *)
Theorem drawRandomCard_bucket :
  forall (allCards : list Card.t) (roll : Q),
    (allCards = [] -> CardManager.drawRandomCard allCards roll = None)
    /\ (allCards <> [] ->
        exists card, CardManager.drawRandomCard allCards roll = Some card
                     /\ In card allCards)
    /\ (forall (i : nat) (card : Card.t),
          nth_error allCards i = Some card ->
          let threshold :=
            (roll * inject_Z (weightBefore allCards (length allCards)))%Q in
          (i = 0%nat \/ inject_Z (weightBefore allCards i) < threshold)%Q ->
          (threshold <= inject_Z (weightBefore allCards (S i)))%Q ->
          CardManager.drawRandomCard allCards roll = Some card).
Proof.
  intros allCards roll. split; [|split].
  - now intros ->.
  - intros Hne. unfold CardManager.drawRandomCard.
    destruct allCards as [|a l]; [congruence|]. simpl length. simpl Nat.eqb. cbv iota.
    destruct (weightedRandom (a :: l) _ roll) as [card|] eqn:E.
    + exists card. split; [reflexivity|]. now apply weightedRandom_In in E.
    + exfalso. unfold weightedRandom in E.
      destruct (weightedLoop (a :: l) _ _); [discriminate|].
      unfold lastItem in E. apply nth_error_None in E. simpl in E. lia.
  - intros i card Hnth threshold Hlow Hhigh.
    unfold CardManager.drawRandomCard.
    destruct allCards as [|a l]; [destruct i; discriminate|].
    simpl length. simpl Nat.eqb. cbv iota.
    unfold weightedRandom. rewrite fold_left_total, sumOf_map.
    assert (Htotal : sumOf (fun c => CardManager.RARITY_WEIGHTS (Card.rarity c)) (a :: l)
                     = weightBefore (a :: l) (length (a :: l))).
    { unfold weightBefore. now rewrite firstn_all. }
    rewrite Htotal. fold threshold.
    rewrite (weightedLoop_bucket
               (fun c => CardManager.RARITY_WEIGHTS (Card.rarity c)) (a :: l)
               (fun x _ => RARITY_WEIGHTS_pos (Card.rarity x))
               threshold i card Hnth Hlow Hhigh).
    reflexivity.
Qed.

(** In the sample catalog (rare, common, common: weights 10, 60, 60) a roll
    of one half falls into the stretch of the second card. *)
Lemma drawRandomCard_bucket_witness :
  CardManager.drawRandomCard Fixtures.sampleCards (1 # 2) = Some Fixtures.card_money.
Proof.
  apply (proj2 (proj2 (drawRandomCard_bucket Fixtures.sampleCards (1 # 2)))
           1%nat Fixtures.card_money eq_refl).
  - right. vm_compute. reflexivity.
  - vm_compute. discriminate.
Defined.

(** ** The shop lineup *)

Lemma nth_split_at {X : Type} (l : list X) (n : nat) (d : X) :
  (n < length l)%nat -> l = firstn n l ++ nth n l d :: skipn (S n) l.
Proof.
  revert n. induction l as [|x l IH]; intros n Hn; simpl in Hn; [lia|].
  destruct n as [|n]; simpl; [reflexivity|].
  f_equal. apply IH. lia.
Qed.

Lemma pickLoop_perm {T : Type} (count : nat) :
  forall (copy : list T) (draws : list nat),
    (count <= length copy)%nat ->
    length (pickLoop count copy draws) = count
    /\ exists rest, Permutation (pickLoop count copy draws ++ rest) copy.
Proof.
  induction count as [|k IH]; intros copy draws Hlen.
  - split; [now destruct copy|]. exists copy. now destruct copy.
  - destruct copy as [|first more]; [simpl in Hlen; lia|].
    cbn [pickLoop].
    set (idx := (hd 0%nat draws mod length (first :: more))%nat).
    assert (Hidx : (idx < length (first :: more))%nat).
    { apply Nat.mod_upper_bound. discriminate. }
    pose proof (nth_split_at (first :: more) idx first Hidx) as Hsplit.
    set (before := firstn idx (first :: more)) in *.
    set (after := skipn (S idx) (first :: more)) in *.
    set (x := nth idx (first :: more) first) in *.
    assert (Hlen' : (k <= length (before ++ after))%nat).
    { apply (f_equal (@length T)) in Hsplit.
      rewrite !length_app in *. cbn [length] in *. lia. }
    destruct (IH _ (List.tl draws) Hlen') as [Hk [rest Hperm]].
    split; [cbn [length]; now rewrite Hk|].
    exists rest. rewrite Hsplit. cbn [app].
    apply Permutation_cons_app. exact Hperm.
Qed.

(** X15. The shop lineup never shows a card more often than the catalog
    holds it: for every sequence of draws the lineup, together with some
    rest, is a rearrangement of the catalog, and it has [count] cards, or
    the whole catalog when that has no more than [count] cards. *)
Theorem getShopLineup_without_repeats :
  forall (allCards : list Card.t) (count : nat) (draws : list nat),
    let lineup := CardManager.getShopLineup allCards count draws in
    length lineup = Nat.min count (length allCards)
    /\ (exists rest, Permutation (lineup ++ rest) allCards)
    /\ ((length allCards <= count)%nat -> lineup = allCards).
Proof.
  intros allCards count draws lineup. subst lineup.
  unfold CardManager.getShopLineup.
  destruct (Nat.leb_spec (length allCards) count) as [Hle|Hgt].
  - split; [lia|]. split; [|reflexivity]. exists []. now rewrite app_nil_r.
  - unfold randomPickN.
    destruct (pickLoop_perm (Nat.min count (length allCards)) allCards draws)
      as [Hlen Hperm]; [lia|].
    split; [exact Hlen|]. split; [exact Hperm | lia].
Qed.

(** A catalog of three cards is shown whole when five are asked for. *)
Lemma getShopLineup_without_repeats_witness :
  CardManager.getShopLineup Fixtures.sampleCards 5 [] = Fixtures.sampleCards.
Proof.
  apply (proj2 (proj2 (getShopLineup_without_repeats Fixtures.sampleCards 5 []))).
  simpl. lia.
Defined.

(** ** The total-assets equation across the cards *)

Lemma recalcTotalAssetsLocal_invariant (s : GameState.t) :
  assetsInvariant (CardManager.recalcTotalAssetsLocal s).
Proof.
  unfold assetsInvariant.
  rewrite recalcTotalAssetsLocal_players, recalcTotalAssetsLocal_properties.
  apply Forall_forall. intros p Hp. apply in_map_iff in Hp.
  destruct Hp as [q [<- _]]. reflexivity.
Qed.

Lemma Forall_map_keep {X : Type} (P : X -> Prop) (g : X -> X) (l : list X) :
  (forall x, P x -> P (g x)) -> Forall P l -> Forall P (map g l).
Proof.
  intros Hg Hall. apply Forall_forall. intros y Hin.
  apply in_map_iff in Hin. destruct Hin as [x [<- Hin]].
  apply Hg. rewrite Forall_forall in Hall. now apply Hall.
Qed.

Lemma credit_balanced (qs : list Property.t) (i : string) (d : Z) (ps : list Player.t) :
  Forall (assetsBalanced qs) ps ->
  Forall (assetsBalanced qs) (CardManager.updPlayer i (Player.credit d) ps).
Proof.
  apply Forall_map_keep. intros p Hp.
  destruct (String.eqb (Player.id p) i); [|exact Hp].
  unfold assetsBalanced, Player.credit in *. simpl. lia.
Qed.

Lemma fold_left_balanced {S B : Type} (qs : list Property.t)
      (F : S * list Player.t -> B -> S * list Player.t) (l : list B) :
  (forall acc b, Forall (assetsBalanced qs) (snd acc) ->
                 Forall (assetsBalanced qs) (snd (F acc b))) ->
  forall acc, Forall (assetsBalanced qs) (snd acc) ->
              Forall (assetsBalanced qs) (snd (fold_left F l acc)).
Proof.
  intros HF. induction l as [|b l IH]; intros acc Hacc; simpl; [exact Hacc|].
  apply IH. now apply HF.
Qed.

Lemma payEach_balanced (qs : list Property.t) (value : Z) (opponents : list Player.t)
      (totalPaid remaining : Z) (newPlayers : list Player.t) :
  Forall (assetsBalanced qs) newPlayers ->
  Forall (assetsBalanced qs)
         (snd (CardManager.payEach value opponents totalPaid remaining newPlayers)).
Proof.
  revert totalPaid remaining newPlayers.
  induction opponents as [|opp opponents IH]; intros totalPaid remaining newPlayers Hall;
    simpl; [exact Hall|].
  destruct (remaining <=? 0); [exact Hall|].
  apply IH. now apply credit_balanced.
Qed.

(** A result whose players are the old ones under a map that keeps the
    equation of each player, over the same properties. *)
Ltac balanced_map Hinv :=
  unfold outcomeSat, resultSat, assetsInvariant, UseCardResult.ok, UseCardResult.fail,
    CardManager.updPlayer;
  simpl;
  first
    [ trivial_sat
    | exact Hinv
    | apply Forall_map_keep;
      [ let p := fresh "p" in
        let Hp := fresh "Hp" in
        intros p Hp; repeat break_match; try exact Hp;
        unfold assetsBalanced, Player.credit in *; simpl; lia
      | exact Hinv ] ].

Lemma useMoveToDest_balanced (st : GameState.t) (playerId : string) (card : Card.t) :
  assetsInvariant st ->
  resultSat assetsInvariant (CardManager.useMoveToDest st playerId card).
Proof.
  intros Hinv. unfold CardManager.useMoveToDest.
  destruct (isId _ _); balanced_map Hinv.
Qed.

Lemma useMoveToCity_balanced (st : GameState.t) (playerId : string) (card : Card.t) :
  assetsInvariant st ->
  resultSat assetsInvariant (CardManager.useMoveToCity st playerId card).
Proof. intros Hinv. unfold CardManager.useMoveToCity. balanced_map Hinv. Qed.

Lemma useGetMoney_balanced (st : GameState.t) (playerId : string) (card : Card.t) :
  assetsInvariant st ->
  resultSat assetsInvariant (CardManager.useGetMoney st playerId card).
Proof.
  intros Hinv. unfold CardManager.useGetMoney. cbv zeta.
  destruct (isId _ "property_value_percent"); [balanced_map Hinv|].
  destruct (isId _ "all_players_each"); [|balanced_map Hinv].
  match goal with
  | |- context [fold_left ?F ?l ?a] =>
      pose proof (fold_left_balanced (GameState.properties st) F l) as Hfold;
      specialize (Hfold
        ltac:(intros [t ps] opp Hacc; simpl; now apply credit_balanced) a Hinv);
      destruct (fold_left F l a) as [totalReceived newPlayers]
  end.
  simpl in Hfold. unfold resultSat, assetsInvariant. simpl.
  now apply credit_balanced.
Qed.

Lemma usePayMoney_balanced (st : GameState.t) (playerId : string) (card : Card.t) :
  assetsInvariant st ->
  outcomeSat assetsInvariant (CardManager.usePayMoney st playerId card).
Proof.
  intros Hinv. unfold CardManager.usePayMoney. cbv zeta.
  destruct (findPlayer (GameState.players st) playerId) as [player|]; [|trivial_sat].
  destruct (isId _ "property_value_percent"); [balanced_map Hinv|].
  destruct (isId _ "total_assets_percent"); [balanced_map Hinv|].
  destruct (isId _ "all_players_each"); [|balanced_map Hinv].
  match goal with
  | |- context [CardManager.payEach ?v ?o ?t ?r ?ps] =>
      pose proof (payEach_balanced (GameState.properties st) v o t r ps Hinv) as Hpay;
      destruct (CardManager.payEach v o t r ps) as [totalPaid newPlayers]
  end.
  simpl in Hpay. unfold outcomeSat, resultSat, assetsInvariant. simpl.
  now apply credit_balanced.
Qed.

Lemma useDoubleIncome_balanced (st : GameState.t) (playerId : string) (card : Card.t) :
  assetsInvariant st ->
  resultSat assetsInvariant (CardManager.useDoubleIncome st playerId card).
Proof.
  intros Hinv. unfold CardManager.useDoubleIncome. cbv zeta.
  destruct (isId _ "one_month"); balanced_map Hinv.
Qed.

Lemma useBombeeAway_balanced (st : GameState.t) (playerId : string) (card : Card.t) :
  assetsInvariant st ->
  resultSat assetsInvariant (CardManager.useBombeeAway st playerId card).
Proof.
  intros Hinv. unfold CardManager.useBombeeAway.
  destruct (findPlayer _ _) as [player|]; [|exact Hinv].
  destruct (Player.bombeeType player); balanced_map Hinv.
Qed.

Lemma useBombeeTransfer_balanced (st : GameState.t) (fromId toId : string) :
  assetsInvariant st ->
  resultSat assetsInvariant (CardManager.useBombeeTransfer st fromId toId).
Proof.
  intros Hinv. unfold CardManager.useBombeeTransfer.
  destruct (findPlayer _ fromId) as [from|]; [|trivial_sat].
  destruct (findPlayer _ toId) as [to|]; [|trivial_sat].
  destruct (Player.bombeeType from); balanced_map Hinv.
Qed.

Lemma useBombeeTransferLastToSecond_balanced (st : GameState.t) :
  assetsInvariant st ->
  resultSat assetsInvariant (CardManager.useBombeeTransferLastToSecond st).
Proof.
  intros Hinv. unfold CardManager.useBombeeTransferLastToSecond.
  destruct (sortBy _ _) as [|last [|second rest]]; [trivial_sat | trivial_sat |].
  destruct (Player.bombeeType last); balanced_map Hinv.
Qed.

Lemma useCardSteal_balanced (st : GameState.t) (stealerId targetId : string)
      (targetCardId : option string) (rnd : nat) :
  assetsInvariant st ->
  resultSat assetsInvariant
    (CardManager.useCardSteal st stealerId targetId targetCardId rnd).
Proof.
  intros Hinv. unfold CardManager.useCardSteal.
  destruct (findPlayer _ targetId) as [target|]; [|trivial_sat].
  destruct (Player.hand target); [trivial_sat|].
  match goal with |- context [if ?c then UseCardResult.fail _ else _] => destruct c end;
    [trivial_sat|].
  balanced_map Hinv.
Qed.

Lemma useSellProperty_balanced (st : GameState.t) (playerId : string) (card : Card.t)
      (targetPropertyId targetPlayerId currentCityId : option string) :
  outcomeSat assetsInvariant
    (CardManager.useSellProperty st playerId card
       targetPropertyId targetPlayerId currentCityId).
Proof.
  unfold CardManager.useSellProperty. cbv zeta.
  repeat break_match; first [trivial_sat | apply recalcTotalAssetsLocal_invariant].
Qed.

Lemma useStealProperty_balanced (st : GameState.t) (playerId : string) (card : Card.t)
      (currentCityId : option string) :
  outcomeSat assetsInvariant
    (CardManager.useStealProperty st playerId card currentCityId).
Proof.
  unfold CardManager.useStealProperty. cbv zeta.
  repeat break_match; first [trivial_sat | apply recalcTotalAssetsLocal_invariant].
Qed.

Lemma breakAt_balanced (st : GameState.t) (oppId : string) (target : Property.t) :
  resultSat assetsInvariant (CardManager.breakAt st oppId target).
Proof. apply recalcTotalAssetsLocal_invariant. Qed.

Lemma useMonopolyBreak_balanced (st : GameState.t) (playerId : string) (card : Card.t) :
  outcomeSat assetsInvariant (CardManager.useMonopolyBreak st playerId card).
Proof.
  unfold CardManager.useMonopolyBreak. cbv zeta.
  match goal with
  | |- context [CardManager.firstReturn ?body ?l] =>
      destruct (CardManager.firstReturn body l) as [r|] eqn:Hfirst
  end.
  - revert r Hfirst. apply firstReturn_sat. intros cityId r.
    destruct (length _ =? 0)%nat; [discriminate|].
    apply firstReturn_sat. intros oppId r'.
    destruct (forallb _ _); [|discriminate].
    intros [= <-]. destruct (reduce1 _ _); [apply breakAt_balanced | trivial_sat].
  - match goal with
    | |- context [fold_left ?F ?l ?a] => destruct (fold_left F l a) as [b|]
    end; [|trivial_sat].
    destruct (BestTarget.prop b); [apply breakAt_balanced | trivial_sat].
Qed.

Lemma useBuyProperty_balanced (st : GameState.t) (playerId : string) (card : Card.t)
      (currentCityId : option string) :
  resultSat assetsInvariant
    (CardManager.useBuyProperty st playerId card currentCityId).
Proof.
  unfold CardManager.useBuyProperty. cbv zeta.
  repeat break_match; first [trivial_sat | apply recalcTotalAssetsLocal_invariant].
Qed.

Lemma removeFromHand_balanced (st : GameState.t) (playerId cardId : string) :
  assetsInvariant st ->
  assetsInvariant (CardManager.removeFromHand playerId cardId st).
Proof.
  intros Hinv. unfold CardManager.removeFromHand. balanced_map Hinv.
Qed.

(** X16. Every card keeps the total-assets equation: from a state in which
    every player's total assets are the money plus the purchase prices
    owned, any use of any card of any catalog that yields a new state
    yields one in which the equation holds again. Gaining and discarding a
    card keep it as well. *)
Theorem useCard_keeps_assets :
  forall (allCards : list Card.t) (st : GameState.t) (playerId cardId : string)
         (options : UseCardOptions.t) (rnd : nat) (roll : Q),
    assetsInvariant st ->
    outcomeSat assetsInvariant
      (CardManager.useCard allCards st playerId cardId options rnd)
    /\ assetsInvariant (fst (CardManager.gainCard allCards st playerId roll))
    /\ assetsInvariant (CardManager.discardCard st playerId cardId).
Proof.
  intros allCards st playerId cardId options rnd roll Hinv.
  split; [|split].
  - unfold CardManager.useCard.
    destruct (findPlayer _ _) as [player|]; [|reflexivity].
    destruct (CardManager.getCardById _ _) as [card|]; [|reflexivity].
    destruct (negb _); [reflexivity|]. cbv zeta.
    pose proof (removeFromHand_balanced st playerId cardId Hinv) as Hrem.
    destruct (Card.type card).
    + now apply useMoveToDest_balanced.
    + exact Hrem.
    + now apply useMoveToCity_balanced.
    + apply useBuyProperty_balanced.
    + apply useStealProperty_balanced.
    + apply useSellProperty_balanced.
    + now apply useGetMoney_balanced.
    + now apply usePayMoney_balanced.
    + now apply useBombeeAway_balanced.
    + destruct (isId _ "last_to_second").
      * now apply useBombeeTransferLastToSecond_balanced.
      * destruct (CardManager.given _); [|reflexivity].
        now apply useBombeeTransfer_balanced.
    + apply useMonopolyBreak_balanced.
    + destruct (CardManager.given _); [|reflexivity].
      now apply useCardSteal_balanced.
    + exact Hrem.
    + now apply useDoubleIncome_balanced.
  - unfold CardManager.gainCard.
    destruct (negb _); [exact Hinv|].
    destruct (CardManager.drawRandomCard allCards roll); [|exact Hinv].
    balanced_map Hinv.
  - unfold CardManager.discardCard. balanced_map Hinv.
Qed.

(** The holder of the card tests plays the income card from a balanced
    state. *)
Lemma useCard_keeps_assets_witness :
  outcomeSat assetsInvariant
    (CardManager.useCard Fixtures.sampleCards Fixtures.cardState "p1" "card_money"
       UseCardOptions.empty 0%nat)
  /\ assetsInvariant
       (fst (CardManager.gainCard Fixtures.sampleCards Fixtures.cardState "p1" 0))
  /\ assetsInvariant (CardManager.discardCard Fixtures.cardState "p1" "card_money").
Proof.
  apply (useCard_keeps_assets Fixtures.sampleCards Fixtures.cardState "p1" "card_money"
           UseCardOptions.empty 0%nat 0).
  unfold assetsInvariant. simpl. repeat constructor.
Defined.

(** ** Cards that move money between the players *)

Lemma sumOf_money_upd (i : string) (d : Z) (ps : list Player.t) :
  NoDup (map Player.id ps) ->
  sumOf Player.money (CardManager.updPlayer i (Player.credit d) ps)
  = sumOf Player.money ps
    + (if existsb (fun p => String.eqb (Player.id p) i) ps then d else 0).
Proof.
  intros Hnd. unfold CardManager.updPlayer. rewrite sumOf_map.
  rewrite <- (sumOf_point i d ps Hnd), <- sumOf_plus.
  apply sumOf_ext_in. intros p _.
  destruct (String.eqb (Player.id p) i); simpl; lia.
Qed.

Lemma updPlayer_ids (i : string) (d : Z) (ps : list Player.t) :
  map Player.id (CardManager.updPlayer i (Player.credit d) ps) = map Player.id ps.
Proof. apply updPlayer_keeps. reflexivity. Qed.

Lemma collect_fold (value : Z) (l : list Player.t) :
  forall (tot : Z) (nps : list Player.t),
    NoDup (map Player.id nps) ->
    (forall opp, In opp l -> In (Player.id opp) (map Player.id nps)) ->
    let r :=
      fold_left
        (fun (acc : Z * list Player.t) (opp : Player.t) =>
           let '(totalReceived, newPlayers) := acc in
           let actual := Z.min value (Player.money opp) in
           (totalReceived + actual,
            CardManager.updPlayer (Player.id opp) (Player.credit (- actual)) newPlayers))
        l (tot, nps) in
    sumOf Player.money (snd r) + fst r = sumOf Player.money nps + tot
    /\ map Player.id (snd r) = map Player.id nps.
Proof.
  induction l as [|opp l IH]; intros tot nps Hnd Hin; simpl; [split; reflexivity|].
  set (a := Z.min value (Player.money opp)).
  destruct (IH (tot + a)
               (CardManager.updPlayer (Player.id opp) (Player.credit (- a)) nps))
    as [Hsum Hids].
  - now rewrite updPlayer_ids.
  - intros o Ho. rewrite updPlayer_ids. apply Hin. now right.
  - split.
    + etransitivity; [exact Hsum|]. rewrite sumOf_money_upd by exact Hnd.
      assert (E : existsb (fun p => String.eqb (Player.id p) (Player.id opp)) nps = true).
      { apply existsb_id_In. apply Hin. now left. }
      rewrite E. lia.
    + etransitivity; [exact Hids | apply updPlayer_ids].
Qed.

Lemma payEach_sum (value : Z) (opponents : list Player.t) :
  forall (totalPaid remaining : Z) (nps : list Player.t),
    NoDup (map Player.id nps) ->
    (forall opp, In opp opponents -> In (Player.id opp) (map Player.id nps)) ->
    let r := CardManager.payEach value opponents totalPaid remaining nps in
    sumOf Player.money (snd r) - fst r = sumOf Player.money nps - totalPaid
    /\ map Player.id (snd r) = map Player.id nps.
Proof.
  induction opponents as [|opp l IH]; intros totalPaid remaining nps Hnd Hin; simpl;
    [split; reflexivity|].
  destruct (remaining <=? 0); [split; reflexivity|].
  set (a := Z.min value remaining).
  destruct (IH (totalPaid + a) (remaining - a)
               (CardManager.updPlayer (Player.id opp) (Player.credit a) nps))
    as [Hsum Hids].
  - now rewrite updPlayer_ids.
  - intros o Ho. rewrite updPlayer_ids. apply Hin. now right.
  - split.
    + etransitivity; [exact Hsum|]. rewrite sumOf_money_upd by exact Hnd.
      assert (E : existsb (fun p => String.eqb (Player.id p) (Player.id opp)) nps = true).
      { apply existsb_id_In. apply Hin. now left. }
      rewrite E. lia.
    + etransitivity; [exact Hids | apply updPlayer_ids].
Qed.

Lemma opponents_known (ps : list Player.t) (playerId : string) (opp : Player.t) :
  In opp (filter (fun p => negb (String.eqb (Player.id p) playerId)) ps) ->
  In (Player.id opp) (map Player.id ps).
Proof. intros H. apply filter_In in H. apply in_map. tauto. Qed.

Lemma useGetMoney_each_conserves (st : GameState.t) (playerId : string) (card : Card.t)
      (player : Player.t) :
  distinctIds st ->
  findPlayer (GameState.players st) playerId = Some player ->
  CardEffect.targetType (Card.effect card) = Some "all_players_each" ->
  resultSat (fun st' => totalMoney st' = totalMoney st)
            (CardManager.useGetMoney st playerId card).
Proof.
  intros Hnd Hfind Htype. unfold CardManager.useGetMoney. cbv zeta.
  rewrite Htype. simpl isId. cbv iota.
  match goal with
  | |- context [fold_left ?F ?l ?a] =>
      pose proof (collect_fold (orElse (CardEffect.value (Card.effect card)) 1000)
                    l 0 (GameState.players st) Hnd
                    (opponents_known (GameState.players st) playerId)) as Hfold;
      cbv zeta in Hfold;
      destruct (fold_left F l a) as [totalReceived newPlayers]
  end.
  simpl in Hfold. destruct Hfold as [Hsum Hids].
  unfold resultSat, totalMoney. simpl.
  rewrite sumOf_money_upd by (rewrite Hids; exact Hnd).
  assert (E : existsb (fun p => String.eqb (Player.id p) playerId) newPlayers = true).
  { apply existsb_id_In. rewrite Hids. apply existsb_id_In.
    apply findPlayer_existsb. congruence. }
  rewrite E. lia.
Qed.

Lemma usePayMoney_each_conserves (st : GameState.t) (playerId : string) (card : Card.t)
      (player : Player.t) :
  distinctIds st ->
  findPlayer (GameState.players st) playerId = Some player ->
  CardEffect.targetType (Card.effect card) = Some "all_players_each" ->
  outcomeSat (fun st' => totalMoney st' = totalMoney st)
             (CardManager.usePayMoney st playerId card).
Proof.
  intros Hnd Hfind Htype. unfold CardManager.usePayMoney. cbv zeta.
  rewrite Hfind, Htype. simpl isId. cbv iota.
  match goal with
  | |- context [CardManager.payEach ?v ?o ?t ?r ?ps] =>
      pose proof (payEach_sum v o t r ps Hnd
                    (opponents_known (GameState.players st) playerId)) as Hpay;
      cbv zeta in Hpay;
      destruct (CardManager.payEach v o t r ps) as [totalPaid newPlayers]
  end.
  simpl in Hpay. destruct Hpay as [Hsum Hids].
  unfold outcomeSat, resultSat, totalMoney. simpl.
  rewrite sumOf_money_upd by (rewrite Hids; exact Hnd).
  assert (E : existsb (fun p => String.eqb (Player.id p) playerId) newPlayers = true).
  { apply existsb_id_In. rewrite Hids. apply existsb_id_In.
    apply findPlayer_existsb. congruence. }
  rewrite E. lia.
Qed.

Lemma removeFromHand_money (st : GameState.t) (playerId cardId : string) :
  totalMoney (CardManager.removeFromHand playerId cardId st) = totalMoney st.
Proof.
  unfold totalMoney, CardManager.removeFromHand, CardManager.updPlayer. simpl.
  rewrite sumOf_map. apply sumOf_ext_in. intros p _.
  now destruct (String.eqb (Player.id p) playerId).
Qed.

(** X17. The cards that collect from, or pay to, every opponent only move
    money: when player ids are distinct, playing a [get_money] or a
    [pay_money] card of the [all_players_each] kind leaves the money of all
    players together unchanged. What the holder collects is what the
    opponents lose, each at most the money held, and what the holder pays is
    what the opponents gain. *)
Theorem each_card_conserves_money :
  forall (allCards : list Card.t) (st : GameState.t) (playerId cardId : string)
         (options : UseCardOptions.t) (rnd : nat)
         (player : Player.t) (card : Card.t),
    distinctIds st ->
    findPlayer (GameState.players st) playerId = Some player ->
    CardManager.getCardById allCards cardId = Some card ->
    In cardId (Player.hand player) ->
    Card.type card = get_money \/ Card.type card = pay_money ->
    CardEffect.targetType (Card.effect card) = Some "all_players_each" ->
    outcomeSat (fun st' => totalMoney st' = totalMoney st)
      (CardManager.useCard allCards st playerId cardId options rnd).
Proof.
  intros allCards st playerId cardId options rnd player card
         Hnd Hfind Hcard Hheld Htype Htarget.
  unfold CardManager.useCard. rewrite Hfind, Hcard.
  assert (Hex : existsb (String.eqb cardId) (Player.hand player) = true).
  { apply existsb_exists. exists cardId. split; [exact Hheld | apply String.eqb_refl]. }
  rewrite Hex. simpl negb. cbv iota. cbv zeta.
  pose proof (removeFromHand_distinct st playerId cardId Hnd) as Hnd'.
  pose proof (removeFromHand_find st playerId cardId player Hfind) as Hfind'.
  rewrite <- (removeFromHand_money st playerId cardId).
  destruct Htype as [-> | ->].
  - now apply (useGetMoney_each_conserves _ playerId card _ Hnd' Hfind').
  - now apply (usePayMoney_each_conserves _ playerId card _ Hnd' Hfind').
Qed.

(** [p1] collects 300 from each of two opponents, one of whom has only 200:
    500 change hands and the three players hold 6200 before and after. *)
Lemma each_card_conserves_money_witness :
  outcomeSat (fun st' => totalMoney st' = totalMoney Fixtures.eachState)
    (CardManager.useCard [Fixtures.collectCard; Fixtures.treatCard]
       Fixtures.eachState "p1" "card_collect" UseCardOptions.empty 0%nat).
Proof.
  apply (each_card_conserves_money [Fixtures.collectCard; Fixtures.treatCard]
           Fixtures.eachState "p1" "card_collect" UseCardOptions.empty 0%nat
           (Fixtures.makePlayer "p1" 1000 ["card_collect"; "card_treat"])
           Fixtures.collectCard).
  - unfold distinctIds. simpl. repeat constructor; simpl; intuition discriminate.
  - reflexivity.
  - reflexivity.
  - simpl. now left.
  - now left.
  - reflexivity.
Defined.

(** ** The Bombee never drives a player into debt *)

Lemma floorMul_nonneg (x : Z) (q : Q) :
  0 <= x -> (0 <= q)%Q -> 0 <= floorMul x q.
Proof.
  intros Hx Hq. unfold floorMul.
  change 0 with (Qfloor 0). apply Qfloor_resp_le.
  apply Qmult_le_0_compat; [|exact Hq].
  change 0%Q with (inject_Z 0). now rewrite <- Zle_Qle.
Qed.

Lemma steal_solvent (least : Z) (rate : Q) (st : GameState.t) (target : Player.t) :
  distinctIds st ->
  findPlayer (GameState.players st) (Player.id target) = Some target ->
  solvent st ->
  solvent (BombeeManager.steal least rate st target).
Proof.
  intros Hnd Hfind Hsol. unfold BombeeManager.steal. cbv zeta.
  destruct (Z.leb_spec
              (Z.min (Z.max least (floorMul (Player.money target) rate))
                     (Player.money target)) 0) as [|Hpos]; [exact Hsol|].
  unfold solvent. simpl.
  apply (Forall_upd_found _ (Player.id target)
           (Player.credit
              (- Z.min (Z.max least (floorMul (Player.money target) rate))
                       (Player.money target)))
           _ target Hnd Hfind Hsol).
  simpl. lia.
Qed.

Lemma executeBombeeEffect_solvent (st : GameState.t) (targetId : string)
      (bombeeType : BombeeType) (d : Draws.t) :
  distinctIds st ->
  solvent st ->
  Forall (fun q => 0 <= Property.price q) (GameState.properties st) ->
  solvent (BombeeManager.executeBombeeEffect st targetId bombeeType d).
Proof.
  intros Hnd Hsol Hprice. unfold BombeeManager.executeBombeeEffect.
  destruct (findPlayer _ _) as [target|] eqn:Hfind; [|exact Hsol].
  pose proof (findPlayer_id _ _ _ Hfind) as Hid. rewrite <- Hid in Hfind.
  destruct bombeeType; try exact Hsol.
  - now apply steal_solvent.
  - unfold BombeeManager.normalAction. cbv zeta.
    destruct (filter _ (GameState.properties st)) as [|first rest] eqn:Howned;
      [now apply steal_solvent|].
    destruct (Qltb _ _); [|now apply steal_solvent].
    unfold solvent. simpl. apply Forall_map_keep; [|exact Hsol].
    intros p Hp. destruct (negb _); [exact Hp|].
    unfold Player.with_totalAssets, Player.with_money. cbn [Player.money].
    assert (Hin : In (nth (Draws.pick d mod length (first :: rest)) (first :: rest) first)
                     (GameState.properties st)).
    { assert (Hsub : forall q, In q (first :: rest) -> In q (GameState.properties st)).
      { intros q Hq. rewrite <- Howned in Hq. apply filter_In in Hq. tauto. }
      apply Hsub. apply nth_In. apply Nat.mod_upper_bound. discriminate. }
    rewrite Forall_forall in Hprice. specialize (Hprice _ Hin).
    match goal with
    | |- 0 <= _ + floorMul ?x ?q =>
        assert (0 <= floorMul x q)
          by (apply floorMul_nonneg; [exact Hprice | discriminate])
    end.
    lia.
  - unfold BombeeManager.kingAction, BombeeManager.kingStealBig. cbv zeta.
    destruct (nth _ _ _); try now apply steal_solvent.
    + destruct (length _ =? 0)%nat; [now apply steal_solvent|].
      match goal with
      | |- context [fold_left ?F ?l ?a] =>
          destruct (fold_left F l a) as [totalLoss newProperties]
      end.
      unfold solvent. simpl. apply Forall_map_keep; [|exact Hsol].
      intros p Hp. destruct (negb _); [exact Hp|]. simpl. lia.
    + unfold solvent. simpl. apply Forall_map_keep; [|exact Hsol].
      intros p Hp. simpl. lia.
Qed.

(** X18. No action of the Bombee drives a player into debt: when player ids
    are distinct, nobody has negative money and no property has a negative
    price, nobody has negative money after [processBombeeAction], whatever
    the tier of the Bombee and whatever is drawn. Thefts are capped at the
    money held, forced sales add money, and the king's levy takes at most
    what each player has. *)
Theorem bombee_never_overdraws :
  forall (st : GameState.t) (d : Draws.t),
    distinctIds st ->
    solvent st ->
    Forall (fun q => 0 <= Property.price q) (GameState.properties st) ->
    solvent (BombeeManager.processBombeeAction st d).
Proof.
  intros st d Hnd Hsol Hprice. unfold BombeeManager.processBombeeAction.
  destruct (find _ _) as [bombeePlayer|]; [|exact Hsol]. cbv zeta.
  set (st1 := GameState.with_players _ st).
  assert (Hnd1 : distinctIds st1).
  { unfold distinctIds, st1. simpl. rewrite map_id_keeps; [exact Hnd|].
    intros p. destruct (String.eqb _ _); reflexivity. }
  assert (Hsol1 : solvent st1).
  { unfold solvent, st1. simpl. apply Forall_map_keep; [|exact Hsol].
    intros p Hp. destruct (String.eqb _ _); exact Hp. }
  pose proof (executeBombeeEffect_solvent st1 (Player.id bombeePlayer)
                (BombeeManager.checkEvolution (Player.bombeeType bombeePlayer)
                   (Player.bombeeElapsedTurns bombeePlayer + 1)) d Hnd1 Hsol1 Hprice)
    as Hsol2.
  set (st2 := BombeeManager.executeBombeeEffect st1 _ _ d) in *.
  unfold BombeeManager.maybeMoveToLastPlace. cbv zeta.
  destruct (BombeeManager.getLastPlacePlayer _) as [lastPlayer|]; [|exact Hsol2].
  destruct (findPlayer _ _) as [currentBombeePlayer|]; [|exact Hsol2].
  destruct (_ <=? _); [exact Hsol2|].
  destruct (Qltb _ _); [|exact Hsol2].
  unfold solvent. simpl. apply Forall_map_keep; [|exact Hsol2].
  intros p Hp. repeat break_match; exact Hp.
Qed.

(** The king of the asset test sells the victim's property: both players
    keep money above zero. *)
Lemma bombee_never_overdraws_witness :
  solvent (BombeeManager.processBombeeAction Fixtures.kingState Fixtures.kingDraws).
Proof.
  apply bombee_never_overdraws.
  - unfold distinctIds. simpl. repeat constructor; simpl; intuition discriminate.
  - unfold solvent. simpl. repeat constructor; discriminate.
  - simpl. repeat constructor; discriminate.
Defined.

(** ** Where the Bombee goes *)

Lemma maybeMove_cases (st : GameState.t) (currentBombeeId : string) (d : Draws.t)
      (cur : Player.t) :
  findPlayer (GameState.players st) currentBombeeId = Some cur ->
  BombeeManager.maybeMoveToLastPlace st currentBombeeId d = st
  \/ exists last,
       In last (GameState.players st)
       /\ Player.id last <> currentBombeeId
       /\ BombeeManager.isImmune last = false
       /\ Player.totalAssets last < Player.totalAssets cur
       /\ (forall p, In p (GameState.players st) ->
                     Player.id p <> currentBombeeId ->
                     BombeeManager.isImmune p = false ->
                     Player.totalAssets last <= Player.totalAssets p)
       /\ Qltb (Draws.moveRoll d) (75 # 100) = true
       /\ GameState.players (BombeeManager.maybeMoveToLastPlace st currentBombeeId d)
          = map (fun p =>
                   if String.eqb (Player.id p) currentBombeeId
                   then Player.with_bombee none 0 p
                   else if String.eqb (Player.id p) (Player.id last)
                   then Player.with_bombee (Player.bombeeType cur) 0 p
                   else p)
                (GameState.players st).
Proof.
  intros Hfind. unfold BombeeManager.maybeMoveToLastPlace. cbv zeta.
  destruct (BombeeManager.getLastPlacePlayer _) as [lastPlayer|] eqn:Hlast;
    [|now left].
  rewrite Hfind.
  destruct (Z.leb_spec (Player.totalAssets cur) (Player.totalAssets lastPlayer));
    [now left|].
  destruct (Qltb (Draws.moveRoll d) (75 # 100)) eqn:Hroll; [|now left].
  right. exists lastPlayer.
  apply getLastPlacePlayer_least in Hlast. destruct Hlast as [Hin Hleast].
  apply filter_In in Hin. destruct Hin as [Hin Hel].
  apply andb_true_iff in Hel. destruct Hel as [Hother Himm].
  apply negb_true_iff in Hother, Himm. apply String.eqb_neq in Hother.
  repeat split; try assumption; try reflexivity.
  intros p Hp Hpid Hpimm. apply Hleast. apply filter_In. split; [exact Hp|].
  apply andb_true_iff. split; apply negb_true_iff; [|exact Hpimm].
  now apply String.eqb_neq.
Qed.

Lemma eligible_none (st : GameState.t) (currentBombeeId : string) (d : Draws.t) :
  (forall p, In p (GameState.players st) -> Player.id p <> currentBombeeId ->
             BombeeManager.isImmune p = true) ->
  BombeeManager.maybeMoveToLastPlace st currentBombeeId d = st.
Proof.
  intros Hall. unfold BombeeManager.maybeMoveToLastPlace. cbv zeta.
  destruct (BombeeManager.getLastPlacePlayer _) as [lastPlayer|] eqn:Hlast;
    [|reflexivity].
  apply getLastPlacePlayer_least in Hlast. destruct Hlast as [Hin _].
  apply filter_In in Hin. destruct Hin as [Hin Hel].
  apply andb_true_iff in Hel. destruct Hel as [Hother Himm].
  apply negb_true_iff in Hother, Himm. apply String.eqb_neq in Hother.
  rewrite (Hall lastPlayer Hin Hother) in Himm. discriminate.
Qed.

(** X19. The Bombee moves on only downwards and only to the unprotected:
    with the carrier found, [maybeMoveToLastPlace] either returns the state
    as it is, or moves the Bombee, tier kept and age reset, to a player other
    than the carrier who is not immune, whose total assets are strictly below
    the carrier's and at most those of every other player that is not
    immune; the latter only on a roll below 0.75. A roll of 0.75 or more
    keeps the Bombee where it is, and so does immunity of everybody else. *)
Theorem maybeMoveToLastPlace_target :
  forall (st : GameState.t) (currentBombeeId : string) (d : Draws.t) (cur : Player.t),
    findPlayer (GameState.players st) currentBombeeId = Some cur ->
    let st' := BombeeManager.maybeMoveToLastPlace st currentBombeeId d in
    (st' = st
     \/ exists last,
          In last (GameState.players st)
          /\ Player.id last <> currentBombeeId
          /\ BombeeManager.isImmune last = false
          /\ Player.totalAssets last < Player.totalAssets cur
          /\ (forall p, In p (GameState.players st) ->
                        Player.id p <> currentBombeeId ->
                        BombeeManager.isImmune p = false ->
                        Player.totalAssets last <= Player.totalAssets p)
          /\ Qltb (Draws.moveRoll d) (75 # 100) = true
          /\ GameState.players st'
             = map (fun p =>
                      if String.eqb (Player.id p) currentBombeeId
                      then Player.with_bombee none 0 p
                      else if String.eqb (Player.id p) (Player.id last)
                      then Player.with_bombee (Player.bombeeType cur) 0 p
                      else p)
                   (GameState.players st))
    /\ (Qltb (Draws.moveRoll d) (75 # 100) = false -> st' = st)
    /\ ((forall p, In p (GameState.players st) -> Player.id p <> currentBombeeId ->
                   BombeeManager.isImmune p = true) ->
        st' = st).
Proof.
  intros st currentBombeeId d cur Hfind st'. subst st'.
  split; [now apply maybeMove_cases|]. split; [|apply eligible_none].
  intros Hroll.
  destruct (maybeMove_cases st currentBombeeId d cur Hfind)
    as [Hsame|(last & _ & _ & _ & _ & _ & Hr & _)]; [exact Hsame|congruence].
Qed.

(** A mini Bombee on the richer of two players moves to the poorer one on a
    roll of 0. *)
Lemma maybeMoveToLastPlace_target_witness :
  BombeeManager.maybeMoveToLastPlace Fixtures.migrateState "rich" Fixtures.kingDraws
  = Fixtures.migrateState
  \/ exists last,
       In last (GameState.players Fixtures.migrateState)
       /\ Player.id last <> "rich"
       /\ BombeeManager.isImmune last = false
       /\ Player.totalAssets last < Player.totalAssets Fixtures.richCarrier
       /\ (forall p, In p (GameState.players Fixtures.migrateState) ->
                     Player.id p <> "rich" ->
                     BombeeManager.isImmune p = false ->
                     Player.totalAssets last <= Player.totalAssets p)
       /\ Qltb (Draws.moveRoll Fixtures.kingDraws) (75 # 100) = true
       /\ GameState.players
            (BombeeManager.maybeMoveToLastPlace Fixtures.migrateState "rich"
               Fixtures.kingDraws)
          = map (fun p =>
                   if String.eqb (Player.id p) "rich"
                   then Player.with_bombee none 0 p
                   else if String.eqb (Player.id p) (Player.id last)
                   then Player.with_bombee (Player.bombeeType Fixtures.richCarrier) 0 p
                   else p)
                (GameState.players Fixtures.migrateState).
Proof.
  apply (proj1 (maybeMoveToLastPlace_target Fixtures.migrateState "rich"
                  Fixtures.kingDraws Fixtures.richCarrier eq_refl)).
Defined.

(** ** The Bombee stays in play *)

Section BombeeFrame.

Variable A : Type.
Variable f : Player.t -> A.
Hypothesis f_money : forall m p, f (Player.with_money m p) = f p.
Hypothesis f_totalAssets : forall a p, f (Player.with_totalAssets a p) = f p.

Lemma steal_frame (least : Z) (rate : Q) (st : GameState.t) (target : Player.t) :
  map f (GameState.players (BombeeManager.steal least rate st target))
  = map f (GameState.players st).
Proof.
  unfold BombeeManager.steal. cbv zeta.
  destruct (_ <=? 0); [reflexivity|]. simpl.
  apply map_map_keeps. intros p. destruct (String.eqb _ _); [|reflexivity].
  unfold Player.credit. now rewrite f_totalAssets, f_money.
Qed.

Lemma executeBombeeEffect_frame (st : GameState.t) (targetId : string)
      (bombeeType : BombeeType) (d : Draws.t) :
  map f (GameState.players (BombeeManager.executeBombeeEffect st targetId bombeeType d))
  = map f (GameState.players st).
Proof.
  unfold BombeeManager.executeBombeeEffect.
  destruct (findPlayer _ _) as [target|]; [|reflexivity].
  destruct bombeeType; try reflexivity.
  - apply steal_frame.
  - unfold BombeeManager.normalAction. cbv zeta.
    destruct (filter _ _); [apply steal_frame|].
    destruct (Qltb _ _); [|apply steal_frame].
    simpl. apply map_map_keeps.
    intros p. destruct (negb _); [reflexivity|].
    now rewrite f_totalAssets, f_money.
  - unfold BombeeManager.kingAction, BombeeManager.kingStealBig. cbv zeta.
    destruct (nth _ _ _); try apply steal_frame.
    + destruct (length _ =? 0)%nat; [apply steal_frame|].
      match goal with
      | |- context [fold_left ?F ?l ?a] =>
          destruct (fold_left F l a) as [totalLoss newProperties]
      end.
      simpl. apply map_map_keeps.
      intros p. destruct (negb _); [reflexivity|].
      now rewrite f_totalAssets, f_money.
    + simpl. apply map_map_keeps. intros p.
      unfold Player.credit. now rewrite f_totalAssets, f_money.
Qed.

End BombeeFrame.

Lemma view_find {A : Type} (g : Player.t -> A) (ps ps' : list Player.t)
      (i : string) (p : Player.t) :
  map (fun p => (Player.id p, g p)) ps' = map (fun p => (Player.id p, g p)) ps ->
  findPlayer ps i = Some p ->
  exists p', findPlayer ps' i = Some p' /\ g p' = g p.
Proof.
  unfold findPlayer. revert ps'.
  induction ps as [|q ps IH]; intros ps' Hmap Hfind; [discriminate|].
  destruct ps' as [|q' ps']; [discriminate|].
  simpl in Hmap. injection Hmap as Hid Hg Hrest. simpl in *.
  rewrite Hid. destruct (String.eqb (Player.id q) i).
  - injection Hfind as <-. now exists q'.
  - now apply IH.
Qed.

Lemma findPlayer_of_In (ps : list Player.t) (p : Player.t) :
  NoDup (map Player.id ps) -> In p ps -> findPlayer ps (Player.id p) = Some p.
Proof.
  intros Hnd Hin.
  destruct (findPlayer ps (Player.id p)) as [q|] eqn:E.
  - now rewrite (findPlayer_unique ps _ q p Hnd E Hin eq_refl).
  - unfold findPlayer in E. apply (find_none _ _ E p) in Hin.
    now rewrite String.eqb_refl in Hin.
Qed.

Lemma single_carrier_found (ps : list Player.t) (c : Player.t) :
  filter BombeeManager.hasBombee ps = [c] ->
  find BombeeManager.hasBombee ps = Some c.
Proof.
  induction ps as [|p ps IH]; simpl; [discriminate|].
  destruct (BombeeManager.hasBombee p); [|exact IH].
  now intros [= -> _].
Qed.

Lemma checkEvolution_carries (t : BombeeType) (elapsed : Z) :
  t <> none -> BombeeManager.checkEvolution t elapsed <> none.
Proof.
  destruct t; simpl; intros H; try congruence.
  - destruct (_ <=? _); discriminate.
  - destruct (_ <=? _); discriminate.
Qed.

Lemma processBombeeAction_carrier (st : GameState.t) (d : Draws.t) (c : Player.t) :
  distinctIds st ->
  In c (GameState.players st) ->
  find BombeeManager.hasBombee (GameState.players st) = Some c ->
  exists c',
    In c' (GameState.players (BombeeManager.processBombeeAction st d))
    /\ Player.bombeeType c'
       = BombeeManager.checkEvolution (Player.bombeeType c)
           (Player.bombeeElapsedTurns c + 1)
    /\ Player.bombeeType c' <> none
    /\ ((Player.id c' = Player.id c
         /\ Player.bombeeElapsedTurns c' = Player.bombeeElapsedTurns c + 1)
        \/ (Player.id c' <> Player.id c
            /\ Player.bombeeElapsedTurns c' = 0
            /\ BombeeManager.isImmune c' = false)).
Proof.
  intros Hnd Hin Hfind.
  assert (Hcarry : Player.bombeeType c <> none).
  { apply find_hasBombee in Hfind. destruct Hfind as [_ H].
    unfold BombeeManager.hasBombee in H. destruct (Player.bombeeType c); congruence. }
  unfold BombeeManager.processBombeeAction. rewrite Hfind. cbv zeta.
  set (e := BombeeManager.checkEvolution (Player.bombeeType c)
              (Player.bombeeElapsedTurns c + 1)).
  assert (He : e <> none) by now apply checkEvolution_carries.
  set (st1 := GameState.with_players _ st).
  assert (Hfind1 : findPlayer (GameState.players st1) (Player.id c)
                   = Some (Player.with_bombee e (Player.bombeeElapsedTurns c + 1) c)).
  { unfold st1. simpl.
    rewrite findPlayer_map by (intros p; destruct (String.eqb _ _); reflexivity).
    rewrite (findPlayer_of_In _ c Hnd Hin). simpl. now rewrite String.eqb_refl. }
  pose proof (executeBombeeEffect_frame _ bombeeView
                ltac:(reflexivity) ltac:(reflexivity) st1 (Player.id c) e d) as Hframe.
  set (st2 := BombeeManager.executeBombeeEffect st1 (Player.id c) e d) in *.
  destruct (view_find (fun p => (Player.bombeeType p, Player.bombeeElapsedTurns p))
              _ _ _ _ Hframe Hfind1) as (cur & Hcur & Hview).
  simpl in Hview. injection Hview as Htype Hturns.
  destruct (maybeMove_cases st2 (Player.id c) d cur Hcur)
    as [Hsame|(last & Hlast & Hother & Himm & _ & _ & _ & Hplayers)].
  - rewrite Hsame. exists cur. split; [now apply findPlayer_In in Hcur|].
    split; [exact Htype|]. split; [now rewrite Htype|]. left.
    split; [now apply findPlayer_id in Hcur | exact Hturns].
  - rewrite Hplayers. exists (Player.with_bombee (Player.bombeeType cur) 0 last).
    split; [|split; [exact Htype|split; [simpl; now rewrite Htype|]]].
    + apply in_map_iff. exists last. split; [|exact Hlast].
      apply String.eqb_neq in Hother. now rewrite Hother, String.eqb_refl.
    + right. split; [exact Hother|]. split; [reflexivity | exact Himm].
Qed.

(** X20. The Bombee stays in play: when player ids are distinct and exactly
    one player carries the Bombee, exactly one player carries it after
    [processBombeeAction]. Its tier is the tier that [checkEvolution] gives
    for the old tier at the old age plus one, never [none]; it sits either on
    the same player, one turn older, or on another player who is not immune,
    at age 0. *)
Theorem bombee_stays_in_play :
  forall (st : GameState.t) (d : Draws.t) (c : Player.t),
    distinctIds st ->
    filter BombeeManager.hasBombee (GameState.players st) = [c] ->
    exists c',
      filter BombeeManager.hasBombee
             (GameState.players (BombeeManager.processBombeeAction st d)) = [c']
      /\ Player.bombeeType c'
         = BombeeManager.checkEvolution (Player.bombeeType c)
             (Player.bombeeElapsedTurns c + 1)
      /\ Player.bombeeType c' <> none
      /\ ((Player.id c' = Player.id c
           /\ Player.bombeeElapsedTurns c' = Player.bombeeElapsedTurns c + 1)
          \/ (Player.id c' <> Player.id c
              /\ Player.bombeeElapsedTurns c' = 0
              /\ BombeeManager.isImmune c' = false)).
Proof.
  intros st d c Hnd Hone.
  pose proof (single_carrier_found _ _ Hone) as Hfind.
  assert (Hin : In c (GameState.players st)).
  { now apply find_hasBombee in Hfind. }
  destruct (processBombeeAction_carrier st d c Hnd Hin Hfind)
    as (c' & Hin' & Htype & Hcarry & Hwhere).
  exists c'. split; [|repeat split; assumption].
  assert (Hcount : (length (filter BombeeManager.hasBombee (GameState.players st)) <= 1)%nat)
    by (rewrite Hone; simpl; lia).
  destruct (processBombeeAction_carriers st d (count_carriersAt _ Hcount))
    as [[b Hb] Hids].
  assert (Hnd' : NoDup (map Player.id
                          (GameState.players (BombeeManager.processBombeeAction st d))))
    by (rewrite Hids; exact Hnd).
  pose proof (carriersAt_count b _ Hnd' Hb) as Hle.
  assert (Hfil : In c' (filter BombeeManager.hasBombee
                          (GameState.players (BombeeManager.processBombeeAction st d)))).
  { apply filter_In. split; [exact Hin' | now apply hasBombee_true]. }
  destruct (filter BombeeManager.hasBombee
              (GameState.players (BombeeManager.processBombeeAction st d)))
    as [|x [|y l]]; simpl in *.
  - contradiction.
  - destruct Hfil as [->|[]]. reflexivity.
  - lia.
Qed.

(** The mini Bombee on the richer of two players moves to the poorer one on
    a roll of 0 and stays a mini Bombee. *)
Lemma bombee_stays_in_play_witness :
  exists c',
    filter BombeeManager.hasBombee
           (GameState.players
              (BombeeManager.processBombeeAction Fixtures.migrateState Fixtures.kingDraws))
    = [c']
    /\ Player.bombeeType c'
       = BombeeManager.checkEvolution (Player.bombeeType Fixtures.richCarrier)
           (Player.bombeeElapsedTurns Fixtures.richCarrier + 1)
    /\ Player.bombeeType c' <> none
    /\ ((Player.id c' = Player.id Fixtures.richCarrier
         /\ Player.bombeeElapsedTurns c'
            = Player.bombeeElapsedTurns Fixtures.richCarrier + 1)
        \/ (Player.id c' <> Player.id Fixtures.richCarrier
            /\ Player.bombeeElapsedTurns c' = 0
            /\ BombeeManager.isImmune c' = false)).
Proof.
  apply (bombee_stays_in_play Fixtures.migrateState Fixtures.kingDraws
           Fixtures.richCarrier).
  - unfold distinctIds. simpl. repeat constructor; simpl; intuition discriminate.
  - reflexivity.
Defined.

(** ** Immunity runs out *)

Lemma Forall2_map_step {X : Type} (R R' : X -> X -> Prop) (g : X -> X) (l l' : list X) :
  (forall x y, R x y -> R' x (g y)) -> Forall2 R l l' -> Forall2 R' l (map g l').
Proof.
  intros H Hall. induction Hall; simpl; constructor; auto.
Qed.

Lemma with_years_same (p : Player.t) (y : Z) :
  Player.bombeeImmuneYears p = Some y ->
  Player.with_bombeeImmuneYears (Some y) p = p.
Proof. destruct p. simpl. now intros ->. Qed.

Lemma with_years_twice (a b : option Z) (p : Player.t) :
  Player.with_bombeeImmuneYears a (Player.with_bombeeImmuneYears b p)
  = Player.with_bombeeImmuneYears a p.
Proof. reflexivity. Qed.

(** X21. Immunity against the Bombee counts down by one per year end and
    stops at zero: after [n] calls of [decrementBombeeImmunity] a player who
    had [y] years of immunity has [max 0 (y - n)] left and is immune exactly
    when [n < y]; a player without immunity (none recorded, or a count that is
    not positive) is left as is. Nothing else about a player changes. *)
Theorem immunity_counts_down :
  forall (n : nat) (st : GameState.t),
    Forall2
      (fun p p' =>
         match Player.bombeeImmuneYears p with
         | Some y =>
             p' = Player.with_bombeeImmuneYears (Some (yearsLeft n y)) p
             /\ BombeeManager.isImmune p' = (Z.of_nat n <? y)
         | None => p' = p /\ BombeeManager.isImmune p' = false
         end)
      (GameState.players st)
      (GameState.players (Nat.iter n BombeeManager.decrementBombeeImmunity st)).
Proof.
  induction n as [|n IH]; intros st.
  - simpl. apply Forall2_same. intros p.
    unfold BombeeManager.isImmune, yearsLeft.
    destruct (Player.bombeeImmuneYears p) as [y|] eqn:E; [|now split].
    split.
    + destruct (Z.ltb_spec 0 y).
      * rewrite Z.sub_0_r, Z.max_r by lia. symmetry. now apply with_years_same.
      * symmetry. now apply with_years_same.
    + reflexivity.
  - change (Nat.iter (S n) BombeeManager.decrementBombeeImmunity st)
      with (BombeeManager.decrementBombeeImmunity
              (Nat.iter n BombeeManager.decrementBombeeImmunity st)).
    unfold BombeeManager.decrementBombeeImmunity at 1. simpl GameState.players.
    eapply Forall2_map_step; [|exact (IH st)].
    intros p p' H. cbv beta in H |- *. clear IH.
    unfold BombeeManager.isImmune, yearsLeft in *.
    rewrite !Nat2Z.inj_succ. unfold Z.succ.
    pose proof (Nat2Z.is_nonneg n) as Hn. set (m := Z.of_nat n) in *. clearbody m.
    destruct (Player.bombeeImmuneYears p) as [y|] eqn:E.
    + destruct H as [-> _].
      cbn [Player.bombeeImmuneYears Player.with_bombeeImmuneYears orElse].
      destruct (Z.ltb 0 y) eqn:Ey; cbv iota.
      * apply Z.ltb_lt in Ey.
        destruct (Z.ltb 0 (Z.max 0 (y - m))) eqn:El; cbv iota;
          cbn [Player.bombeeImmuneYears Player.with_bombeeImmuneYears].
        -- apply Z.ltb_lt in El. split.
           ++ rewrite with_years_twice. f_equal. f_equal. lia.
           ++ destruct (Z.ltb_spec 0 (Z.max 0 (y - m) - 1));
                destruct (Z.ltb_spec (m + 1) y); try reflexivity; lia.
        -- apply Z.ltb_ge in El. split.
           ++ f_equal. f_equal. lia.
           ++ destruct (Z.ltb_spec 0 (Z.max 0 (y - m)));
                destruct (Z.ltb_spec (m + 1) y); try reflexivity; lia.
      * apply Z.ltb_ge in Ey. rewrite (proj2 (Z.ltb_ge 0 y) Ey). cbv iota.
        cbn [Player.bombeeImmuneYears Player.with_bombeeImmuneYears].
        split; [reflexivity|].
        rewrite (proj2 (Z.ltb_ge 0 y) Ey). symmetry. apply Z.ltb_ge. lia.
    + destruct H as [-> _]. rewrite E. cbn [orElse]. split; [reflexivity|].
      change (0 <? 0) with false. cbv iota. now rewrite E.
Qed.

(** * The decisions of the CPU *)

(** ** Purchases *)

Lemma Qle_bool_half (price money : Z) :
  Qle_bool (inject_Z price) (inject_Z money * (1 # 2)) = true ->
  2 * price <= money.
Proof.
  intros H. apply Qle_bool_iff in H. unfold Qle in H. simpl in H. lia.
Qed.

(** X22. The CPU never decides to buy what it cannot pay: whatever the
    difficulty and the draws, a decision to buy names the property offered
    and the player's money covers its price. If the player and the property
    are the ones found in the state under their ids and the property is on
    the market, the purchase then succeeds. Moreover the easy CPU only buys
    at a price of at most half its money, and the normal CPU never buys a
    property whose current income is not positive. *)
Theorem cpu_purchase_is_affordable :
  forall (st : GameState.t) (player : Player.t) (property : Property.t)
         (d : CpuDraws.t),
    CpuDecision.type (CpuManager.decidePurchase st player property d)
    = decide_buy_property ->
    CpuManager.decidePurchase st player property d
    = CpuDecision.buyProperty (Property.id property)
    /\ Property.price property <= Player.money player
    /\ (Player.difficulty player = easy ->
        2 * Property.price property <= Player.money player)
    /\ (Player.difficulty player = normal_difficulty ->
        0 < PropertyManager.getCurrentIncome property)
    /\ (findPlayer (GameState.players st) (Player.id player) = Some player ->
        findProperty (GameState.properties st) (Property.id property) = Some property ->
        Property.ownerId property = None ->
        exists st',
          PropertyManager.buyProperty st (Player.id player) (Property.id property)
          = PurchaseResult.mk true None (Some st')).
Proof.
  intros st player property d Hbuy.
  assert (H : CpuManager.decidePurchase st player property d
              = CpuDecision.buyProperty (Property.id property)
              /\ Property.price property <= Player.money player
              /\ (Player.difficulty player = easy ->
                  2 * Property.price property <= Player.money player)
              /\ (Player.difficulty player = normal_difficulty ->
                  0 < PropertyManager.getCurrentIncome property)).
  { revert Hbuy. unfold CpuManager.decidePurchase.
    destruct (Player.difficulty player).
    - unfold CpuManager.decidePurchaseEasy. cbv zeta.
      destruct (Z.leb_spec (Property.price property) (Player.money player));
        [|discriminate].
      destruct (Qle_bool _ _) eqn:Ehalf; [|discriminate].
      destruct (Qltb _ _); [|discriminate].
      intros _. repeat split; try assumption; try discriminate.
      intros _. now apply Qle_bool_half.
    - unfold CpuManager.decidePurchaseNormal, PropertyManager.getCurrentPrice.
      cbv zeta.
      destruct (Z.ltb_spec (Player.money player) (Property.price property));
        [discriminate|].
      destruct (Z.leb_spec (PropertyManager.getCurrentIncome property) 0);
        [discriminate|].
      destruct (Qle_bool _ _).
      + intros _. repeat split; try lia; discriminate.
      + destruct (CpuManager.canMonopolize _ _ _); [|discriminate].
        intros _. repeat split; try lia; discriminate.
    - unfold CpuManager.decidePurchaseHard, PropertyManager.getCurrentPrice.
      cbv zeta.
      destruct (Z.ltb_spec (Player.money player) (Property.price property));
        [discriminate|].
      destruct (CpuManager.canMonopolize _ _ _);
        [intros _; repeat split; try lia; discriminate|].
      destruct (CpuManager.yieldAtLeast15 _ _);
        [intros _; repeat split; try lia; discriminate|].
      destruct (_ && _); [|discriminate].
      intros _. repeat split; try lia; discriminate. }
  destruct H as (Hdec & Hprice & Heasy & Hnormal).
  repeat split; try assumption.
  intros Hpl Hpr Hown. unfold PropertyManager.buyProperty.
  rewrite Hpl, Hpr, Hown. simpl. unfold PropertyManager.getCurrentPrice.
  destruct (Z.ltb_spec (Player.money player) (Property.price property)); [lia|].
  eexists. reflexivity.
Qed.

(** The normal CPU with 10000 is offered the property of 1000 with an income
    of 200 in the first of ten years, decides to buy, and the purchase
    succeeds. *)
Lemma cpu_purchase_is_affordable_witness :
  exists st',
    PropertyManager.buyProperty Fixtures.cpuState
      (Player.id Fixtures.cpuPlayer) (Property.id Fixtures.prop1)
    = PurchaseResult.mk true None (Some st').
Proof.
  apply (cpu_purchase_is_affordable Fixtures.cpuState Fixtures.cpuPlayer
           Fixtures.prop1 Fixtures.cpuDraws); reflexivity.
Defined.

(** ** Cards *)

Lemma findCardOfType_held (allCards : list Card.t) (player : Player.t)
      (type : CardType) (c : string) :
  CpuManager.findCardOfType allCards player type = Some c ->
  In c (Player.hand player)
  /\ exists card, CardManager.getCardById allCards c = Some card
                  /\ Card.type card = type.
Proof.
  unfold CpuManager.findCardOfType, CardManager.given.
  destruct (find _ (Player.hand player)) as [x|] eqn:E; [|discriminate].
  destruct (String.eqb x ""); [discriminate|]. intros [= <-].
  apply find_some in E. destruct E as [Hin Hcard]. split; [exact Hin|].
  destruct (CardManager.getCardById allCards x) as [card|]; [|discriminate].
  exists card. split; [reflexivity|].
  now destruct (CardType_eq_dec (Card.type card) type).
Qed.

Lemma In_insertWith {X : Type} (before : X -> X -> bool) (x y : X) (l : list X) :
  In x (insertWith before y l) -> x = y \/ In x l.
Proof.
  induction l as [|z l IH]; simpl.
  - intros [<-|[]]. now left.
  - destruct (before y z); simpl.
    + intros [<-|H]; [now left | now right].
    + intros [<-|H]; [right; now left|].
      destruct (IH H); [now left | right; now right].
Qed.

Lemma In_sortWith {X : Type} (before : X -> X -> bool) (x : X) (l : list X) :
  In x (sortWith before l) -> In x l.
Proof.
  induction l as [|y l IH]; simpl; [tauto|].
  intros H. apply In_insertWith in H. destruct H as [->|H]; [now left|].
  right. now apply IH.
Qed.

Lemma getPlayerHand_known (allCards : list Card.t) (st : GameState.t)
      (playerId : string) (player : Player.t) (card : Card.t) :
  findPlayer (GameState.players st) playerId = Some player ->
  In card (CardManager.getPlayerHand allCards st playerId) ->
  In (Card.id card) (Player.hand player)
  /\ CardManager.getCardById allCards (Card.id card) = Some card.
Proof.
  unfold CardManager.getPlayerHand. intros -> Hin.
  induction (Player.hand player) as [|id hand IH]; simpl in Hin; [contradiction|].
  destruct (CardManager.getCardById allCards id) as [c|] eqn:Hc.
  - assert (Hid : Card.id c = id).
    { unfold CardManager.getCardById in Hc. apply find_some in Hc.
      now apply String.eqb_eq. }
    destruct Hin as [<-|Hin].
    + split; [left; now symmetry | now rewrite Hid].
    + destruct (IH Hin). split; [now right | assumption].
  - destruct (IH Hin). split; [now right | assumption].
Qed.

Ltac accepted :=
  unfold outcomeHas, cardAccepted, UseCardResult.ok, UseCardResult.fail;
  simpl;
  first [exact I | split; discriminate].

Lemma breakAt_accepted (st : GameState.t) (oppId : string) (target : Property.t) :
  cardAccepted (CardManager.breakAt st oppId target).
Proof. unfold CardManager.breakAt. accepted. Qed.

Lemma useMonopolyBreak_accepted (st : GameState.t) (playerId : string) (card : Card.t) :
  outcomeHas cardAccepted (CardManager.useMonopolyBreak st playerId card).
Proof.
  unfold CardManager.useMonopolyBreak. cbv zeta.
  match goal with
  | |- context [CardManager.firstReturn ?body ?l] =>
      destruct (CardManager.firstReturn body l) as [r|] eqn:Hfirst
  end.
  - revert r Hfirst. apply firstReturn_sat. intros cityId r.
    destruct (length _ =? 0)%nat; [discriminate|].
    apply firstReturn_sat. intros oppId r'.
    destruct (forallb _ _); [|discriminate].
    intros [= <-]. destruct (reduce1 _ _); [apply breakAt_accepted | exact I].
  - match goal with
    | |- context [fold_left ?F ?l ?a] => destruct (fold_left F l a) as [b|]
    end; [|accepted].
    destruct (BestTarget.prop b); [apply breakAt_accepted | exact I].
Qed.

(** A card that the player holds and the catalog knows is never refused for
    the card's sake. *)
Lemma useCard_accepts (allCards : list Card.t) (st : GameState.t)
      (playerId cardId : string) (options : UseCardOptions.t) (rnd : nat)
      (player : Player.t) (card : Card.t) :
  findPlayer (GameState.players st) playerId = Some player ->
  CardManager.getCardById allCards cardId = Some card ->
  In cardId (Player.hand player) ->
  outcomeHas cardAccepted
    (CardManager.useCard allCards st playerId cardId options rnd).
Proof.
  intros Hfind Hcard Hin.
  assert (Hheld : existsb (String.eqb cardId) (Player.hand player) = true).
  { apply existsb_exists. exists cardId. split; [exact Hin | apply String.eqb_refl]. }
  pose proof (removeFromHand_find st playerId cardId player Hfind) as Hfind'.
  unfold CardManager.useCard. rewrite Hfind, Hcard, Hheld. simpl negb. cbv iota.
  cbv zeta.
  destruct (Card.type card).
  - unfold CardManager.useMoveToDest. repeat break_match; accepted.
  - accepted.
  - unfold CardManager.useMoveToCity. accepted.
  - unfold CardManager.useBuyProperty. rewrite Hfind'. cbv zeta.
    repeat break_match; accepted.
  - unfold CardManager.useStealProperty. cbv zeta. repeat break_match; accepted.
  - unfold CardManager.useSellProperty. cbv zeta. repeat break_match; accepted.
  - unfold CardManager.useGetMoney. cbv zeta. repeat break_match; accepted.
  - unfold CardManager.usePayMoney. cbv zeta. repeat break_match; accepted.
  - unfold CardManager.useBombeeAway. repeat break_match; accepted.
  - unfold CardManager.useBombeeTransferLastToSecond, CardManager.useBombeeTransfer.
    repeat break_match; accepted.
  - apply useMonopolyBreak_accepted.
  - unfold CardManager.useCardSteal. repeat break_match; accepted.
  - accepted.
  - unfold CardManager.useDoubleIncome. cbv zeta. repeat break_match; accepted.
Qed.

(** X23. The CPU only decides to play a card it holds: whatever the
    difficulty and the draws, for a player as found in the state under its
    id, a decision to use a card names a card of the player's hand, so
    [useCard] does not answer [not_owner] to it. The normal and the hard CPU
    name a card of the catalog, so [useCard] does not answer [not_found]
    either: the normal CPU a card to the destination or, when it carries the
    Bombee, a card against it; the hard CPU a card to the destination, a
    card to steal a property or, only when it carries the Bombee, a card to
    remove or to pass it on, and never a card that merely gives money. *)
Theorem cpu_plays_held_cards :
  forall (board : Board.t) (allCards : list Card.t) (st : GameState.t)
         (player : Player.t) (d : CpuDraws.t)
         (options : UseCardOptions.t) (rnd : nat),
    findPlayer (GameState.players st) (Player.id player) = Some player ->
    CpuDecision.type (CpuManager.decideCardUse board allCards st player d)
    = decide_use_card ->
    exists c,
      CpuManager.decideCardUse board allCards st player d = CpuDecision.useCard c
      /\ In c (Player.hand player)
      /\ CardManager.useCard allCards st (Player.id player) c options rnd
         <> Returned (UseCardResult.fail not_owner)
      /\ (Player.difficulty player = normal_difficulty ->
          exists card,
            CardManager.getCardById allCards c = Some card
            /\ (Card.type card = move_to_destination
                \/ (Card.type card = bombee_away
                    /\ BombeeManager.hasBombee player = true)))
      /\ (Player.difficulty player = hard ->
          exists card,
            CardManager.getCardById allCards c = Some card
            /\ (Card.type card = move_to_destination
                \/ Card.type card = steal_property
                \/ ((Card.type card = bombee_away \/ Card.type card = bombee_transfer)
                    /\ BombeeManager.hasBombee player = true)))
      /\ (Player.difficulty player <> easy ->
          CardManager.useCard allCards st (Player.id player) c options rnd
          <> Returned (UseCardResult.fail not_found)).
Proof.
  intros board allCards st player d options rnd Hfind Huse.
  assert (H : exists c,
             CpuManager.decideCardUse board allCards st player d = CpuDecision.useCard c
             /\ In c (Player.hand player)
             /\ (Player.difficulty player = normal_difficulty ->
                 exists card,
                   CardManager.getCardById allCards c = Some card
                   /\ (Card.type card = move_to_destination
                       \/ (Card.type card = bombee_away
                           /\ BombeeManager.hasBombee player = true)))
             /\ (Player.difficulty player = hard ->
                 exists card,
                   CardManager.getCardById allCards c = Some card
                   /\ (Card.type card = move_to_destination
                       \/ Card.type card = steal_property
                       \/ ((Card.type card = bombee_away
                            \/ Card.type card = bombee_transfer)
                           /\ BombeeManager.hasBombee player = true)))).
  { revert Huse. unfold CpuManager.decideCardUse.
    destruct (length (Player.hand player) =? 0)%nat; [discriminate|].
    destruct (Player.difficulty player).
    - unfold CpuManager.decideCardEasy.
      destruct (Player.hand player) as [|first rest] eqn:Ehand; [discriminate|].
      destruct (Qltb _ _); [|discriminate]. intros _.
      eexists. split; [reflexivity|]. split; [|split; discriminate].
      apply nth_In. apply Nat.mod_upper_bound. discriminate.
    - unfold CpuManager.decideCardNormal. cbv zeta.
      destruct (if _ <=? 3 then _ else None) as [destCard|] eqn:Edest.
      + intros _. exists destCard. split; [reflexivity|].
        destruct (_ <=? 3); [|discriminate].
        apply findCardOfType_held in Edest.
        destruct Edest as [Hin [card [Hcard Htype]]].
        split; [exact Hin|]. split; [|discriminate].
        intros _. exists card. split; [exact Hcard | now left].
      + destruct (BombeeManager.hasBombee player) eqn:Ecarry; [|discriminate].
        destruct (CpuManager.findCardOfType allCards player bombee_away)
          as [bombeeCard|] eqn:Eward; [|discriminate].
        intros _. exists bombeeCard. split; [reflexivity|].
        apply findCardOfType_held in Eward.
        destruct Eward as [Hin [card [Hcard Htype]]].
        split; [exact Hin|]. split; [|discriminate].
        intros _. exists card. split; [exact Hcard | right; now split].
    - unfold CpuManager.decideCardHard. cbv zeta.
      destruct (sortWith _ _) as [|best rest] eqn:Esort; [discriminate|].
      destruct (Z.leb_spec 50 (snd best)) as [Hscore|]; [|discriminate].
      intros _. exists (Card.id (fst best)). split; [reflexivity|].
      assert (Hbest : In best (best :: rest)) by now left.
      rewrite <- Esort in Hbest. apply In_sortWith in Hbest.
      apply in_map_iff in Hbest. destruct Hbest as [card [<- Hcard]].
      simpl in *.
      destruct (getPlayerHand_known allCards st _ player card Hfind Hcard)
        as [Hin Hknown].
      split; [exact Hin|]. split; [discriminate|].
      intros _. exists card. split; [exact Hknown|].
      unfold CpuManager.scoreCard in Hscore. rewrite Hknown in Hscore.
      destruct (Card.type card); try lia; try (now left); try (right; now left).
      + destruct (BombeeManager.hasBombee player); [|lia].
        right. right. split; [now left | reflexivity].
      + destruct (BombeeManager.hasBombee player); [|lia].
        right. right. split; [now right | reflexivity]. }
  destruct H as (c & Hdec & Hin & Hnormal & Hhard).
  exists c. split; [exact Hdec|]. split; [exact Hin|].
  split; [|split; [exact Hnormal|split; [exact Hhard|]]].
  - destruct (CardManager.getCardById allCards c) as [card|] eqn:Hcard.
    + pose proof (useCard_accepts allCards st (Player.id player) c options rnd
                    player card Hfind Hcard Hin) as Hacc.
      intros Heq. rewrite Heq in Hacc. destruct Hacc as [Hacc _]. now apply Hacc.
    + rewrite useCard_unknown by (now right). discriminate.
  - intros Hne.
    assert (Hknown : exists card, CardManager.getCardById allCards c = Some card).
    { destruct (Player.difficulty player); [congruence | |].
      - destruct (Hnormal eq_refl) as [card [H _]]. now exists card.
      - destruct (Hhard eq_refl) as [card [H _]]. now exists card. }
    destruct Hknown as [card Hcard].
    pose proof (useCard_accepts allCards st (Player.id player) c options rnd
                  player card Hfind Hcard Hin) as Hacc.
    intros Heq. rewrite Heq in Hacc. destruct Hacc as [_ Hacc]. now apply Hacc.
Qed.

(** The haunted CPU of normal difficulty holds a card against the Bombee
    and decides to play it. *)
Lemma cpu_plays_held_cards_witness :
  exists c,
    CpuManager.decideCardUse (Board.mk [] []) [Fixtures.wardCard]
      Fixtures.hauntedState Fixtures.hauntedCpu Fixtures.cpuDraws
    = CpuDecision.useCard c
    /\ In c (Player.hand Fixtures.hauntedCpu)
    /\ CardManager.useCard [Fixtures.wardCard] Fixtures.hauntedState
         (Player.id Fixtures.hauntedCpu) c UseCardOptions.empty 0%nat
       <> Returned (UseCardResult.fail not_owner)
    /\ (Player.difficulty Fixtures.hauntedCpu = normal_difficulty ->
        exists card,
          CardManager.getCardById [Fixtures.wardCard] c = Some card
          /\ (Card.type card = move_to_destination
              \/ (Card.type card = bombee_away
                  /\ BombeeManager.hasBombee Fixtures.hauntedCpu = true)))
    /\ (Player.difficulty Fixtures.hauntedCpu = hard ->
        exists card,
          CardManager.getCardById [Fixtures.wardCard] c = Some card
          /\ (Card.type card = move_to_destination
              \/ Card.type card = steal_property
              \/ ((Card.type card = bombee_away \/ Card.type card = bombee_transfer)
                  /\ BombeeManager.hasBombee Fixtures.hauntedCpu = true)))
    /\ (Player.difficulty Fixtures.hauntedCpu <> easy ->
        CardManager.useCard [Fixtures.wardCard] Fixtures.hauntedState
          (Player.id Fixtures.hauntedCpu) c UseCardOptions.empty 0%nat
        <> Returned (UseCardResult.fail not_found)).
Proof.
  apply (cpu_plays_held_cards (Board.mk [] []) [Fixtures.wardCard]
           Fixtures.hauntedState Fixtures.hauntedCpu Fixtures.cpuDraws
           UseCardOptions.empty 0%nat); reflexivity.
Defined.

(** ** The distance to the destination *)

Lemma mapDefined_length {X Y : Type} (f : X -> option Y) (l : list X) :
  (length (mapDefined f l) <= length l)%nat.
Proof.
  induction l as [|x l IH]; simpl; [lia|]. destruct (f x); simpl; lia.
Qed.

Lemma mapDefined_In {X Y : Type} (f : X -> option Y) (l : list X) (y : Y) :
  In y (mapDefined f l) -> exists x, In x l /\ f x = Some y.
Proof.
  induction l as [|x l IH]; simpl; [tauto|].
  destruct (f x) as [y'|] eqn:E.
  - intros [<-|H].
    + exists x. split; [now left | exact E].
    + destruct (IH H) as [x' [Hin Hx]]. exists x'. split; [now right | exact Hx].
  - intros H. destruct (IH H) as [x' [Hin Hx]]. exists x'. split; [now right | exact Hx].
Qed.

Lemma getCityById_In (board : Board.t) (id : string) (city : City.t) :
  BoardManager.getCityById board id = Some city ->
  In city (Board.cities board) /\ City.id city = id.
Proof.
  unfold BoardManager.getCityById. intros H. apply find_some in H.
  destruct H as [Hin Heq]. split; [now apply in_rev | now apply String.eqb_eq].
Qed.

Lemma getRoutesFromCity_length (board : Board.t) (cityId : string) :
  (length (BoardManager.getRoutesFromCity board cityId)
   <= 2 * length (Board.routes board))%nat.
Proof.
  unfold BoardManager.getRoutesFromCity.
  destruct (BoardManager.getCityById board cityId); [|simpl; lia].
  induction (Board.routes board) as [|r l IH]; simpl; [lia|].
  rewrite !length_app.
  destruct (String.eqb (Route.fromCityId r) cityId);
    destruct (String.eqb (Route.toCityId r) cityId); simpl; lia.
Qed.

Lemma getAdjacentCities_length (board : Board.t) (cityId : string) :
  (length (BoardManager.getAdjacentCities board cityId)
   <= 2 * length (Board.routes board))%nat.
Proof.
  unfold BoardManager.getAdjacentCities. cbv zeta.
  etransitivity; [apply mapDefined_length|].
  rewrite length_map. apply getRoutesFromCity_length.
Qed.

Lemma getAdjacentCities_known (board : Board.t) (cityId : string) (city : City.t) :
  In city (BoardManager.getAdjacentCities board cityId) ->
  In (City.id city) (map City.id (Board.cities board)).
Proof.
  unfold BoardManager.getAdjacentCities. cbv zeta. intros H.
  apply mapDefined_In in H. destruct H as [id [_ Hcity]].
  apply getCityById_In in Hcity. apply in_map. tauto.
Qed.

Lemma filter_length_lt {X : Type} (f g : X -> bool) (l : list X) (x : X) :
  (forall u, g u = true -> f u = true) ->
  In x l -> f x = true -> g x = false ->
  (length (filter g l) < length (filter f l))%nat.
Proof.
  intros Hsub. induction l as [|u l IH]; simpl; [tauto|].
  assert (Hle : (length (filter g l) <= length (filter f l))%nat).
  { clear IH. induction l as [|w l IHl]; simpl; [lia|].
    destruct (g w) eqn:Eg; [rewrite (Hsub w Eg); simpl; lia|].
    destruct (f w); simpl; lia. }
  intros [->|Hin] Hf Hg.
  - rewrite Hf, Hg. simpl. lia.
  - specialize (IH Hin Hf Hg).
    destruct (g u) eqn:Eg; [rewrite (Hsub u Eg); simpl; lia|].
    destruct (f u); simpl; lia.
Qed.

Lemma unvisited_visit (board : Board.t) (fromCityId cityId : string)
      (visited : list string) :
  In cityId (searchUniverse board fromCityId) ->
  existsb (String.eqb cityId) visited = false ->
  (unvisited board fromCityId (cityId :: visited)
   < unvisited board fromCityId visited)%nat.
Proof.
  intros Hin Hnew. unfold unvisited.
  apply (filter_length_lt _ _ _ cityId).
  - intros u Hu. simpl in Hu. apply negb_true_iff in Hu.
    apply orb_false_elim in Hu. apply negb_true_iff. tauto.
  - exact Hin.
  - apply negb_true_iff.
    destruct (existsb (fun v => String.eqb v cityId) visited) eqn:E; [|reflexivity].
    apply existsb_exists in E. destruct E as [v [Hv Heq]].
    apply String.eqb_eq in Heq. subst v.
    assert (existsb (String.eqb cityId) visited = true)
      by (apply existsb_exists; exists cityId; split;
          [exact Hv | apply String.eqb_refl]).
    congruence.
  - simpl. now rewrite String.eqb_refl.
Qed.

(** Every round of the search lowers the number of queue entries plus
    [2 * routes + 1] times the number of unvisited ids, so rounds beyond
    that number are never needed. *)
Lemma searchLoop_rounds (board : Board.t) (fromCityId destCityId : string) :
  forall (fuel : nat) (queue : list (string * Z)) (visited : list string),
    (forall q, In q queue -> In (fst q) (searchUniverse board fromCityId)) ->
    (length queue
     + (2 * length (Board.routes board) + 1) * unvisited board fromCityId visited
     < fuel)%nat ->
    CpuManager.searchLoop board fuel destCityId queue visited <> None.
Proof.
  induction fuel as [|fuel IH]; intros queue visited Hknown Hfuel; [lia|].
  simpl. destruct queue as [|[cityId depth] queue']; [discriminate|].
  simpl in Hfuel.
  assert (Hknown' : forall q, In q queue' ->
                              In (fst q) (searchUniverse board fromCityId)).
  { intros q Hq. apply Hknown. now right. }
  destruct (existsb (String.eqb cityId) visited) eqn:Eseen.
  - apply IH; [exact Hknown' | lia].
  - pose proof (unvisited_visit board fromCityId cityId visited
                  (Hknown (cityId, depth) (or_introl eq_refl)) Eseen) as Hless.
    destruct (String.eqb cityId destCityId); [discriminate|].
    destruct (10 <=? depth).
    + apply IH; [exact Hknown' | nia].
    + apply IH.
      * intros q Hq. apply in_app_or in Hq. destruct Hq as [Hq|Hq];
          [now apply Hknown'|].
        apply in_map_iff in Hq. destruct Hq as [city [<- Hcity]].
        apply filter_In in Hcity. destruct Hcity as [Hcity _].
        simpl. right. now apply (getAdjacentCities_known board cityId).
      * rewrite length_app, length_map.
        match goal with
        | |- context [length (filter ?f ?l)] => pose proof (filter_length_le f l)
        end.
        pose proof (getAdjacentCities_length board cityId). nia.
Qed.

Lemma searchLoop_range (board : Board.t) (destCityId : string) (least : Z) :
  forall (fuel : nat) (queue : list (string * Z)) (visited : list string) (dist : Z),
    (forall q, In q queue -> least <= snd q <= 10) ->
    CpuManager.searchLoop board fuel destCityId queue visited = Some dist ->
    least <= dist <= 10 \/ dist = 99.
Proof.
  induction fuel as [|fuel IH]; intros queue visited dist Hdepth; simpl; [discriminate|].
  destruct queue as [|[cityId depth] queue']; [intros [= <-]; now right|].
  assert (Hdepth' : forall q, In q queue' -> least <= snd q <= 10).
  { intros q Hq. apply Hdepth. now right. }
  pose proof (Hdepth (cityId, depth) (or_introl eq_refl)) as Hhead. simpl in Hhead.
  destruct (existsb (String.eqb cityId) visited); [now apply IH|].
  destruct (String.eqb cityId destCityId); [intros [= <-]; now left|].
  destruct (Z.leb_spec 10 depth); [now apply IH|].
  apply IH. intros q Hq. apply in_app_or in Hq. destruct Hq as [Hq|Hq];
    [now apply Hdepth'|].
  apply in_map_iff in Hq. destruct Hq as [city [<- _]]. simpl. lia.
Qed.

Lemma searchLoop_unknown (board : Board.t) (destCityId : string) :
  ~ In destCityId (map City.id (Board.cities board)) ->
  forall (fuel : nat) (queue : list (string * Z)) (visited : list string) (dist : Z),
    (forall q, In q queue -> fst q <> destCityId) ->
    CpuManager.searchLoop board fuel destCityId queue visited = Some dist ->
    dist = 99.
Proof.
  intros Hunknown.
  induction fuel as [|fuel IH]; intros queue visited dist Hother; simpl; [discriminate|].
  destruct queue as [|[cityId depth] queue']; [now intros [= <-]|].
  assert (Hother' : forall q, In q queue' -> fst q <> destCityId).
  { intros q Hq. apply Hother. now right. }
  pose proof (Hother (cityId, depth) (or_introl eq_refl)) as Hhead. simpl in Hhead.
  destruct (existsb (String.eqb cityId) visited); [now apply IH|].
  apply String.eqb_neq in Hhead. rewrite Hhead.
  destruct (10 <=? depth); [now apply IH|].
  apply IH. intros q Hq. apply in_app_or in Hq. destruct Hq as [Hq|Hq];
    [now apply Hother'|].
  apply in_map_iff in Hq. destruct Hq as [city [<- Hcity]].
  apply filter_In in Hcity. destruct Hcity as [Hcity _]. simpl.
  intros Heq. apply Hunknown. rewrite <- Heq.
  now apply (getAdjacentCities_known board cityId).
Qed.

(** The entries of depth 1 at the head of the queue are looked at before
    anything deeper. *)
Lemma searchLoop_neighbour (board : Board.t) (destCityId : string) :
  forall (near : list (string * Z)) (fuel : nat) (far : list (string * Z))
         (visited : list string),
    (forall q, In q near -> snd q = 1) ->
    In destCityId (map fst near) ->
    existsb (fun v => String.eqb v destCityId) visited = false ->
    (length near < fuel)%nat ->
    CpuManager.searchLoop board fuel destCityId (near ++ far) visited = Some 1.
Proof.
  induction near as [|[cityId depth] near IH]; intros fuel far visited Hone Hin Hnew Hfuel;
    [contradiction|].
  destruct fuel as [|fuel]; [lia|]. simpl in Hfuel. simpl.
  pose proof (Hone (cityId, depth) (or_introl eq_refl)) as Hdepth. simpl in Hdepth.
  subst depth.
  assert (Hone' : forall q, In q near -> snd q = 1).
  { intros q Hq. apply Hone. now right. }
  destruct (existsb (String.eqb cityId) visited) eqn:Eseen.
  - apply IH; [exact Hone' | | exact Hnew | lia].
    simpl in Hin. destruct Hin as [->|Hin]; [|exact Hin].
    exfalso. apply existsb_exists in Eseen. destruct Eseen as [v [Hv Heq]].
    apply String.eqb_eq in Heq. subst v.
    assert (existsb (fun v => String.eqb v destCityId) visited = true)
      by (apply existsb_exists; exists destCityId; split;
          [exact Hv | apply String.eqb_refl]).
    congruence.
  - destruct (String.eqb cityId destCityId) eqn:Edest; [reflexivity|].
    change (10 <=? 1) with false. cbv iota.
    rewrite <- app_assoc. apply IH; [exact Hone' | | | lia].
    + simpl in Hin. destruct Hin as [->|Hin]; [|exact Hin].
      now rewrite String.eqb_refl in Edest.
    + simpl. now rewrite Edest.
Qed.

(** X24. The estimate of the distance to the destination is the result of a
    breadth-first search that always ends: on every board the rounds
    provided are enough. The estimate is 0 exactly when the two cities are
    the same; otherwise it lies between 1 and 10, or it is 99. It is 99 when
    the destination is not a city of the board, and 1 when the destination
    is another city directly connected to the start. *)
Theorem estimateDistance_search :
  forall (board : Board.t) (fromCityId destCityId : string),
    let dist := CpuManager.estimateDistanceToDestination board fromCityId destCityId in
    CpuManager.searchLoop board (CpuManager.searchRounds board) destCityId
      [(fromCityId, 0)] [] <> None
    /\ (dist = 0 <-> fromCityId = destCityId)
    /\ (0 <= dist <= 10 \/ dist = 99)
    /\ (fromCityId <> destCityId ->
        ~ In destCityId (map City.id (Board.cities board)) ->
        dist = 99)
    /\ (fromCityId <> destCityId ->
        In destCityId
           (map City.id (BoardManager.getAdjacentCities board fromCityId)) ->
        dist = 1).
Proof.
  intros board fromCityId destCityId dist.
  assert (Hrounds : CpuManager.searchLoop board (CpuManager.searchRounds board)
                      destCityId [(fromCityId, 0)] [] <> None).
  { apply (searchLoop_rounds board fromCityId).
    - intros q [<-|[]]. now left.
    - unfold CpuManager.searchRounds, unvisited, searchUniverse. simpl.
      rewrite filter_all by reflexivity. rewrite length_map. nia. }
  split; [exact Hrounds|].
  subst dist. unfold CpuManager.estimateDistanceToDestination.
  destruct (String.eqb fromCityId destCityId) eqn:Esame.
  - apply String.eqb_eq in Esame. repeat split; try tauto; try lia; congruence.
  - assert (Hne : fromCityId <> destCityId) by now apply String.eqb_neq.
    destruct (CpuManager.searchLoop board (CpuManager.searchRounds board) destCityId
                [(fromCityId, 0)] []) as [d|] eqn:Esearch; [|congruence].
    simpl orElse.
    assert (Hstep : CpuManager.searchLoop board
                      (S ((2 * length (Board.routes board) + 1)
                          * (length (Board.cities board) + 1)))
                      destCityId
                      (map (fun city => (City.id city, 0 + 1))
                           (filter (fun city =>
                                      negb (existsb (String.eqb (City.id city))
                                                    [fromCityId]))
                                   (BoardManager.getAdjacentCities board fromCityId)))
                      [fromCityId] = Some d).
    { unfold CpuManager.searchRounds in Esearch. simpl in Esearch.
      rewrite Esame in Esearch. exact Esearch. }
    assert (Hrange : 1 <= d <= 10 \/ d = 99).
    { eapply (searchLoop_range board destCityId 1); [|exact Hstep].
      intros q Hq. apply in_map_iff in Hq. destruct Hq as [city [<- _]].
      simpl. lia. }
    split; [split; [lia | congruence]|]. split; [lia|]. split.
    + intros _ Hunknown.
      eapply (searchLoop_unknown board destCityId Hunknown); [|exact Esearch].
      intros q [<-|[]]. exact Hne.
    + intros _ Hadj.
      rewrite <- (app_nil_r (map _ _)) in Hstep.
      rewrite searchLoop_neighbour in Hstep; [congruence | | | |].
      * intros q Hq. apply in_map_iff in Hq. destruct Hq as [city [<- _]]. reflexivity.
      * rewrite map_map. simpl.
        apply in_map_iff in Hadj. destruct Hadj as [city [Hid Hcity]].
        apply in_map_iff. exists city. split; [exact Hid|].
        apply filter_In. split; [exact Hcity|]. simpl.
        rewrite Hid, orb_false_r. apply negb_true_iff.
        apply String.eqb_neq. congruence.
      * simpl. now rewrite Esame.
      * rewrite length_map.
        match goal with
        | |- context [length (filter ?f ?l)] => pose proof (filter_length_le f l)
        end.
        pose proof (getAdjacentCities_length board fromCityId). nia.
Qed.

(** On the line Tokyo, Nagoya, Osaka, Nagoya is at distance 1 of Tokyo. *)
Lemma estimateDistance_search_witness :
  CpuManager.estimateDistanceToDestination Fixtures.lineBoard "tokyo" "nagoya" = 1.
Proof.
  apply (proj2 (proj2 (proj2 (proj2
           (estimateDistance_search Fixtures.lineBoard "tokyo" "nagoya"))))).
  - discriminate.
  - simpl. now left.
Defined.

(** ** Routes *)

Lemma insertWith_length {X : Type} (before : X -> X -> bool) (x : X) (l : list X) :
  length (insertWith before x l) = S (length l).
Proof.
  induction l as [|y l IH]; simpl; [reflexivity|].
  destruct (before x y); simpl; [reflexivity | now rewrite IH].
Qed.

Lemma sortWith_length {X : Type} (before : X -> X -> bool) (l : list X) :
  length (sortWith before l) = length l.
Proof.
  induction l as [|x l IH]; simpl; [reflexivity|].
  now rewrite insertWith_length, IH.
Qed.

(** A sort by a total and transitive comparator puts first an element that
    comes before every other. *)
Lemma sortWith_head {X : Type} (before : X -> X -> bool) :
  (forall a b, before a b = true \/ before b a = true) ->
  (forall a b c, before a b = true -> before b c = true -> before a c = true) ->
  forall (l : list X) (h : X) (r : list X),
    sortWith before l = h :: r ->
    In h l /\ forall x, In x l -> before h x = true.
Proof.
  intros Htotal Htrans. induction l as [|x l IH]; intros h r; simpl; [discriminate|].
  destruct (sortWith before l) as [|y s] eqn:Es.
  - assert (l = []) as ->.
    { apply length_zero_iff_nil. now rewrite <- (sortWith_length before), Es. }
    simpl. intros [= <- _]. split; [now left|].
    intros z [<-|[]]. now destruct (Htotal x x).
  - destruct (IH y s eq_refl) as [Hy Hmin]. simpl.
    destruct (before x y) eqn:Exy.
    + intros [= <- _]. split; [now left|].
      intros z [<-|Hz]; [now destruct (Htotal x x)|].
      apply (Htrans x y z Exy). now apply Hmin.
    + intros [= <- _]. split; [now right|].
      intros z [<-|Hz]; [|now apply Hmin].
      destruct (Htotal y x) as [H|H]; [exact H | congruence].
Qed.

Lemma sortBy_sortWith {X : Type} (key : X -> Z) (l : list X) :
  sortBy key l = sortWith (fun a b => key a <=? key b) l.
Proof.
  unfold sortBy, sortWith. induction l as [|x l IH]; simpl; [reflexivity|].
  rewrite IH. generalize (fold_right (insertWith (fun a b => key a <=? key b)) [] l).
  intros s. induction s as [|y s IHs]; simpl; [reflexivity|].
  now rewrite IHs.
Qed.

Lemma sortBy_head {X : Type} (key : X -> Z) (l : list X) (h : X) (r : list X) :
  sortBy key l = h :: r ->
  In h l /\ forall x, In x l -> key h <= key x.
Proof.
  rewrite sortBy_sortWith. intros H.
  apply (sortWith_head (fun a b => key a <=? key b)) in H.
  - destruct H as [Hin Hmin]. split; [exact Hin|].
    intros x Hx. apply Z.leb_le. now apply Hmin.
  - intros a b. destruct (Z.leb_spec (key a) (key b)); [now left|].
    right. apply Z.leb_le. lia.
  - intros a b c Hab Hbc. apply Z.leb_le in Hab, Hbc. apply Z.leb_le. lia.
Qed.

Lemma chooseRouteNormal_least (board : Board.t) (st : GameState.t) (player : Player.t)
      (choices : list RouteChoice.t) (d : CpuDraws.t) (dest : City.t) :
  choices <> [] ->
  BoardManager.getCityById board (GameState.destinationCityId st) = Some dest ->
  exists c,
    CpuManager.chooseRouteNormal board st player choices d = Returned (Some c)
    /\ In c choices
    /\ forall c', In c' choices -> routeDistance board st c <= routeDistance board st c'.
Proof.
  intros Hne Hdest. unfold CpuManager.chooseRouteNormal. rewrite Hdest. cbv zeta.
  destruct (sortBy snd _) as [|best rest] eqn:Esort.
  - exfalso. apply Hne. apply (f_equal (@length _)) in Esort.
    rewrite sortBy_sortWith, sortWith_length, length_map in Esort.
    now apply length_zero_iff_nil.
  - apply sortBy_head in Esort. destruct Esort as [Hin Hmin].
    apply in_map_iff in Hin. destruct Hin as [c [<- Hc]].
    exists c. split; [reflexivity|]. split; [exact Hc|].
    intros c' Hc'.
    apply (Hmin (c', routeDistance board st c')).
    apply in_map_iff. now exists c'.
Qed.

Lemma chooseRouteHard_best (board : Board.t) (st : GameState.t) (player : Player.t)
      (choices : list RouteChoice.t) :
  choices <> [] ->
  exists c,
    CpuManager.chooseRouteHard board st player choices = Returned (Some c)
    /\ In c choices
    /\ forall c', In c' choices ->
                  (routeScore board st player c' <= routeScore board st player c)%Q.
Proof.
  intros Hne. unfold CpuManager.chooseRouteHard. cbv zeta.
  destruct (sortWith _ _) as [|best rest] eqn:Esort.
  - exfalso. apply Hne. apply (f_equal (@length _)) in Esort.
    rewrite sortWith_length, length_map in Esort.
    now apply length_zero_iff_nil.
  - apply sortWith_head in Esort.
    + destruct Esort as [Hin Hmax].
      apply in_map_iff in Hin. destruct Hin as [c [<- Hc]].
      exists c. split; [reflexivity|]. split; [exact Hc|].
      intros c' Hc'. apply Qle_bool_iff.
      apply (Hmax (c', routeScore board st player c')).
      apply in_map_iff. now exists c'.
    + intros a b. destruct (Qlt_le_dec (snd a) (snd b)) as [H|H].
      * right. apply Qle_bool_iff. now apply Qlt_le_weak.
      * left. now apply Qle_bool_iff.
    + intros a b c Hab Hbc. apply Qle_bool_iff in Hab, Hbc. apply Qle_bool_iff.
      now apply (Qle_trans _ (snd b)).
Qed.

Lemma chooseRouteEasy_member (choices : list RouteChoice.t) (d : CpuDraws.t) :
  choices <> [] ->
  exists c, CpuManager.chooseRouteEasy choices d = Some c /\ In c choices.
Proof.
  intros Hne. unfold CpuManager.chooseRouteEasy.
  destruct (nth_error choices (CpuDraws.pick d mod length choices)) as [c|] eqn:E.
  - exists c. split; [reflexivity|]. now apply nth_error_In in E.
  - exfalso. apply nth_error_None in E.
    assert (length choices <> 0%nat) by (destruct choices; [congruence | discriminate]).
    pose proof (Nat.mod_upper_bound (CpuDraws.pick d) (length choices)). lia.
Qed.

(** X25. At a junction the CPU takes one of the routes offered: for a
    non-empty list of choices [chooseRoute] returns one of them, whatever the
    difficulty and the draws, and a single choice is taken as it is. When
    the destination is a city of the board, the normal CPU takes a route
    whose next city has the least estimated distance to the destination; the
    hard CPU takes a route with the highest score, the score being the
    negated distance plus a hundredth of the income to be had in the next
    city. With no choices at all the easy CPU returns nothing, and the
    others throw. *)
Theorem chooseRoute_among_choices :
  forall (board : Board.t) (st : GameState.t) (player : Player.t)
         (choices : list RouteChoice.t) (d : CpuDraws.t),
    (choices <> [] ->
     exists c,
       CpuManager.chooseRoute board st player choices d = Returned (Some c)
       /\ In c choices
       /\ (Player.difficulty player = normal_difficulty ->
           BoardManager.getCityById board (GameState.destinationCityId st) <> None ->
           forall c', In c' choices ->
                      routeDistance board st c <= routeDistance board st c')
       /\ (Player.difficulty player = hard ->
           forall c', In c' choices ->
                      (routeScore board st player c'
                       <= routeScore board st player c)%Q))
    /\ (forall only, choices = [only] ->
                     CpuManager.chooseRoute board st player choices d
                     = Returned (Some only))
    /\ (choices = [] ->
        CpuManager.chooseRoute board st player choices d
        = match Player.difficulty player with
          | easy => Returned None
          | normal_difficulty =>
              match BoardManager.getCityById board (GameState.destinationCityId st) with
              | Some _ => Thrown
              | None => Returned None
              end
          | hard => Thrown
          end).
Proof.
  intros board st player choices d. split; [|split].
  - intros Hne. unfold CpuManager.chooseRoute.
    destruct choices as [|only [|second more]]; [congruence| |].
    + exists only. split; [reflexivity|]. split; [now left|]. split.
      * intros _ _ c' [<-|[]]. lia.
      * intros _ c' [<-|[]]. apply Qle_refl.
    + destruct (Player.difficulty player) eqn:Ediff.
      * destruct (chooseRouteEasy_member (only :: second :: more) d Hne)
          as [c [Hc Hin]].
        exists c. rewrite Hc. split; [reflexivity|]. split; [exact Hin|].
        split; discriminate.
      * destruct (BoardManager.getCityById board (GameState.destinationCityId st))
          as [dest|] eqn:Edest.
        -- destruct (chooseRouteNormal_least board st player
                       (only :: second :: more) d dest Hne Edest)
             as [c [Hc [Hin Hleast]]].
           exists c. split; [exact Hc|]. split; [exact Hin|].
           split; [intros _ _; exact Hleast | discriminate].
        -- destruct (chooseRouteEasy_member (only :: second :: more) d Hne)
             as [c [Hc Hin]].
           exists c. unfold CpuManager.chooseRouteNormal. rewrite Edest.
           unfold CpuManager.chooseRouteEasy in Hc. rewrite Hc.
           split; [reflexivity|]. split; [exact Hin|].
           split; [congruence | discriminate].
      * destruct (chooseRouteHard_best board st player (only :: second :: more) Hne)
          as [c [Hc [Hin Hbest]]].
        exists c. split; [exact Hc|]. split; [exact Hin|].
        split; [discriminate | intros _; exact Hbest].
  - intros only ->. reflexivity.
  - intros ->. unfold CpuManager.chooseRoute.
    assert (Hnone : forall n, nth_error (@nil RouteChoice.t) n = None)
      by (intros n; now destruct n).
    destruct (Player.difficulty player); try reflexivity.
    + unfold CpuManager.chooseRouteEasy. now rewrite Hnone.
    + unfold CpuManager.chooseRouteNormal.
      destruct (BoardManager.getCityById board (GameState.destinationCityId st));
        [reflexivity | now rewrite Hnone].
Qed.

(** At Nagoya, with Osaka as the destination, the normal CPU goes on to
    Osaka rather than back to Tokyo. *)
Lemma chooseRoute_among_choices_witness :
  exists c,
    CpuManager.chooseRoute Fixtures.lineBoard Fixtures.cpuState Fixtures.cpuPlayer
      [Fixtures.toTokyo; Fixtures.toOsaka] Fixtures.cpuDraws
    = Returned (Some c)
    /\ In c [Fixtures.toTokyo; Fixtures.toOsaka]
    /\ (Player.difficulty Fixtures.cpuPlayer = normal_difficulty ->
        BoardManager.getCityById Fixtures.lineBoard
          (GameState.destinationCityId Fixtures.cpuState) <> None ->
        forall c', In c' [Fixtures.toTokyo; Fixtures.toOsaka] ->
                   routeDistance Fixtures.lineBoard Fixtures.cpuState c
                   <= routeDistance Fixtures.lineBoard Fixtures.cpuState c')
    /\ (Player.difficulty Fixtures.cpuPlayer = hard ->
        forall c', In c' [Fixtures.toTokyo; Fixtures.toOsaka] ->
                   (routeScore Fixtures.lineBoard Fixtures.cpuState Fixtures.cpuPlayer c'
                    <= routeScore Fixtures.lineBoard Fixtures.cpuState
                         Fixtures.cpuPlayer c)%Q).
Proof.
  apply (proj1 (chooseRoute_among_choices Fixtures.lineBoard Fixtures.cpuState
                  Fixtures.cpuPlayer [Fixtures.toTokyo; Fixtures.toOsaka]
                  Fixtures.cpuDraws)).
  discriminate.
Defined.

(** * The board *)

Lemma mapDefined_intro {X Y : Type} (f : X -> option Y) (l : list X) (x : X) (y : Y) :
  In x l -> f x = Some y -> In y (mapDefined f l).
Proof.
  induction l as [|z l IH]; simpl; [tauto|].
  intros [->|Hin] Hf.
  - rewrite Hf. now left.
  - destruct (f z); [right|]; now apply IH.
Qed.

Lemma getRoutesFromCity_In (board : Board.t) (cityId : string) (r : Route.t) :
  In r (BoardManager.getRoutesFromCity board cityId)
  <-> BoardManager.getCityById board cityId <> None
      /\ In r (Board.routes board)
      /\ (Route.fromCityId r = cityId \/ Route.toCityId r = cityId).
Proof.
  unfold BoardManager.getRoutesFromCity.
  destruct (BoardManager.getCityById board cityId) as [city|]; [|simpl; tauto].
  rewrite in_flat_map. split.
  - intros [x [Hx Hin]]. apply in_app_or in Hin.
    split; [discriminate|]. destruct Hin as [Hin|Hin].
    + destruct (String.eqb (Route.fromCityId x) cityId) eqn:E1; [|contradiction].
      destruct Hin as [<-|[]]. split; [exact Hx|]. left. now apply String.eqb_eq.
    + destruct (String.eqb (Route.toCityId x) cityId) eqn:E2; [|contradiction].
      destruct Hin as [<-|[]]. split; [exact Hx|]. right. now apply String.eqb_eq.
  - intros [_ [Hr [Hfrom|Hto]]]; exists r; (split; [exact Hr|]); apply in_or_app.
    + left. apply String.eqb_eq in Hfrom. rewrite Hfrom. now left.
    + right. apply String.eqb_eq in Hto. rewrite Hto. now left.
Qed.

Lemma adjacent_iff (board : Board.t) (a b : string) :
  In b (map City.id (BoardManager.getAdjacentCities board a))
  <-> BoardManager.getCityById board a <> None
      /\ BoardManager.getCityById board b <> None
      /\ exists r, In r (Board.routes board)
                   /\ ((Route.fromCityId r = a /\ Route.toCityId r = b)
                       \/ (Route.toCityId r = a /\ Route.fromCityId r = b)).
Proof.
  unfold BoardManager.getAdjacentCities. cbv zeta. split.
  - intros H. apply in_map_iff in H. destruct H as [city [Hid Hcity]].
    apply mapDefined_In in Hcity. destruct Hcity as [x [Hx Hget]].
    pose proof (getCityById_In _ _ _ Hget) as [_ Hcid].
    assert (x = b) by congruence. subst x.
    apply in_map_iff in Hx. destruct Hx as [r [Hother Hr]].
    apply getRoutesFromCity_In in Hr. destruct Hr as [Ha [Hr Hends]].
    split; [exact Ha|]. split; [congruence|]. exists r. split; [exact Hr|].
    destruct (String.eqb (Route.fromCityId r) a) eqn:E.
    + apply String.eqb_eq in E. left. split; congruence.
    + apply String.eqb_neq in E. right. destruct Hends; [contradiction|].
      split; congruence.
  - intros [Ha [Hb [r [Hr Hends]]]].
    destruct (BoardManager.getCityById board b) as [city|] eqn:Hget; [|congruence].
    pose proof (getCityById_In _ _ _ Hget) as [_ Hcid].
    apply in_map_iff. exists city. split; [exact Hcid|].
    apply (mapDefined_intro _ _ b); [|exact Hget].
    apply in_map_iff. exists r. split.
    + destruct Hends as [[Hfrom Hto]|[Hto Hfrom]].
      * apply String.eqb_eq in Hfrom. now rewrite Hfrom.
      * destruct (String.eqb (Route.fromCityId r) a) eqn:E; [|exact Hfrom].
        apply String.eqb_eq in E. congruence.
    + apply getRoutesFromCity_In. split; [exact Ha|]. split; [exact Hr|].
      destruct Hends as [[Hfrom _]|[Hto _]]; [now left | now right].
Qed.

(** X26. On every board the neighbourhood of the cities is symmetric and
    stays on the board: [b] is among the adjacent cities of [a] exactly when
    both are cities of the board and a route joins them, in either
    direction, so [a] is then among the adjacent cities of [b]. The random
    destination is a city of the board other than the excluded one, and
    there is none only when the board has no such city. *)
Theorem board_neighbours :
  forall (board : Board.t) (a b : string) (exclude : option string) (rnd : nat),
    (In b (map City.id (BoardManager.getAdjacentCities board a))
     <-> BoardManager.getCityById board a <> None
         /\ BoardManager.getCityById board b <> None
         /\ exists r, In r (Board.routes board)
                      /\ ((Route.fromCityId r = a /\ Route.toCityId r = b)
                          \/ (Route.toCityId r = a /\ Route.fromCityId r = b)))
    /\ (In b (map City.id (BoardManager.getAdjacentCities board a))
        <-> In a (map City.id (BoardManager.getAdjacentCities board b)))
    /\ (forall city,
          BoardManager.getRandomDestination board exclude rnd = Some city ->
          In city (Board.cities board) /\ exclude <> Some (City.id city))
    /\ (BoardManager.getRandomDestination board exclude rnd = None
        <-> forall city, In city (BoardManager.getAllCities board) ->
                         exclude = Some (City.id city)).
Proof.
  intros board a b exclude rnd.
  split; [apply adjacent_iff|]. split; [|split].
  - rewrite !adjacent_iff. split.
    + intros [Ha [Hb [r [Hr Hends]]]]. split; [exact Hb|]. split; [exact Ha|].
      exists r. split; [exact Hr | tauto].
    + intros [Hb [Ha [r [Hr Hends]]]]. split; [exact Ha|]. split; [exact Hb|].
      exists r. split; [exact Hr | tauto].
  - intros city. unfold BoardManager.getRandomDestination. cbv zeta.
    destruct (length _ =? 0)%nat; [discriminate|].
    intros H. apply nth_error_In in H. apply filter_In in H.
    destruct H as [Hall Hnot]. split.
    + unfold BoardManager.getAllCities in Hall. apply mapDefined_In in Hall.
      destruct Hall as [x [_ Hget]]. now apply getCityById_In in Hget.
    + intros ->. simpl in Hnot. now rewrite String.eqb_refl in Hnot.
  - unfold BoardManager.getRandomDestination. cbv zeta.
    set (candidates := filter _ (BoardManager.getAllCities board)).
    split.
    + intros Hnone city Hcity.
      assert (Hempty : candidates = []).
      { destruct candidates as [|c cs] eqn:E; [reflexivity|]. exfalso.
        simpl in Hnone. apply nth_error_None in Hnone.
        pose proof (Nat.mod_upper_bound rnd (length (c :: cs))). simpl in *. lia. }
      destruct exclude as [x|].
      * f_equal. destruct (String.eqb x (City.id city)) eqn:E;
          [now apply String.eqb_eq|].
        exfalso. assert (Hin : In city candidates).
        { apply filter_In. split; [exact Hcity|]. simpl. now rewrite E. }
        now rewrite Hempty in Hin.
      * exfalso. assert (Hin : In city candidates).
        { apply filter_In. split; [exact Hcity | reflexivity]. }
        now rewrite Hempty in Hin.
    + intros Hall.
      assert (Hempty : candidates = []).
      { destruct candidates as [|c cs] eqn:E; [reflexivity|]. exfalso.
        assert (Hin : In c candidates) by (rewrite E; now left).
        apply filter_In in Hin. destruct Hin as [Hc Hnot].
        rewrite (Hall c Hc) in Hnot. simpl in Hnot.
        now rewrite String.eqb_refl in Hnot. }
      now rewrite Hempty.
Qed.

(** On the line Tokyo, Nagoya, Osaka, Nagoya is next to Tokyo, so Tokyo is
    next to Nagoya. *)
Lemma board_neighbours_witness :
  In "tokyo" (map City.id (BoardManager.getAdjacentCities Fixtures.lineBoard "nagoya")).
Proof.
  apply (proj1 (proj1 (proj2 (board_neighbours Fixtures.lineBoard "tokyo" "nagoya"
                                None 0%nat)))).
  simpl. now left.
Defined.

(** * The destination *)

Lemma Qfloor_share (t n m : Z) :
  0 < m ->
  Qfloor (inject_Z t / inject_Z m * inject_Z n * (1 # 10))%Q = t * n / (10 * m).
Proof.
  intros Hm. rewrite Zdiv_Qdiv. apply Qfloor_comp.
  rewrite !inject_Z_mult.
  assert (Hq : ~ (inject_Z m == 0)%Q).
  { unfold Qeq. simpl. lia. }
  change (inject_Z 10) with (10 # 1)%Q. field. exact Hq.
Qed.

Lemma others_fewer (ps : list Player.t) (i : string) (player : Player.t) :
  findPlayer ps i = Some player ->
  (length (filter (fun p => negb (String.eqb (Player.id p) i)) ps) < length ps)%nat.
Proof.
  intros Hfind.
  rewrite <- (filter_all (fun _ => true) ps (fun _ _ => eq_refl)) at 2.
  apply (filter_length_lt _ _ ps player); [reflexivity| | reflexivity|].
  - now apply findPlayer_In in Hfind.
  - apply findPlayer_id in Hfind. rewrite Hfind, String.eqb_refl. reflexivity.
Qed.

(** X27. The arrival bonus is 0 for an id that no player has.  For a player
    of the state it is at least 1000: exactly 1000 when the total assets of
    the other players sum to 0, and otherwise the larger of 1000 and the
    floor of T * n / (10 * (n - 1)), for the others' total T and the number n
    of players, of whom there are then at least two, so that the average is
    never taken over no player. *)
Theorem arrival_bonus :
  forall (st : GameState.t) (playerId : string),
    let n := Z.of_nat (length (GameState.players st)) in
    let bonus := DestinationManager.calcArrivalBonus st playerId in
    (findPlayer (GameState.players st) playerId = None -> bonus = 0)
    /\ (findPlayer (GameState.players st) playerId <> None ->
        1000 <= bonus
        /\ (othersAssets st playerId = 0 -> bonus = 1000)
        /\ (othersAssets st playerId <> 0 ->
            2 <= n
            /\ bonus = Z.max 1000 (othersAssets st playerId * n / (10 * (n - 1))))).
Proof.
  intros st playerId n bonus. subst bonus.
  unfold DestinationManager.calcArrivalBonus, othersAssets.
  destruct (findPlayer (GameState.players st) playerId) as [player|] eqn:Hfind;
    [|split; [reflexivity | congruence]].
  split; [discriminate|]. intros _. cbv zeta.
  rewrite fold_left_sumOf, Z.add_0_l.
  set (others := filter _ (GameState.players st)).
  destruct (sumOf Player.totalAssets others =? 0) eqn:Ezero.
  - apply Z.eqb_eq in Ezero. split; [lia|]. split; [reflexivity | congruence].
  - apply Z.eqb_neq in Ezero.
    assert (Hn : 2 <= n).
    { pose proof (others_fewer _ _ _ Hfind) as Hlt. fold others in Hlt.
      destruct others as [|o os]; [now elim Ezero|]. simpl in Hlt. subst n. lia. }
    fold n. rewrite Qfloor_share by lia.
    split; [lia|]. split; [congruence|]. intros _. split; [exact Hn | reflexivity].
Qed.

(** Of four players, the others of [p1] hold 10000 in all: the bonus is the
    floor of 40000 / 30. *)
Lemma arrival_bonus_witness :
  1000 <= DestinationManager.calcArrivalBonus Fixtures.arrivalState "p1"
  /\ (othersAssets Fixtures.arrivalState "p1" = 0 ->
      DestinationManager.calcArrivalBonus Fixtures.arrivalState "p1" = 1000)
  /\ (othersAssets Fixtures.arrivalState "p1" <> 0 ->
      2 <= 4
      /\ DestinationManager.calcArrivalBonus Fixtures.arrivalState "p1"
         = Z.max 1000 (othersAssets Fixtures.arrivalState "p1" * 4 / (10 * (4 - 1)))).
Proof.
  apply (proj2 (arrival_bonus Fixtures.arrivalState "p1")).
  discriminate.
Defined.

Lemma uniq_In (seen l : list string) (x : string) :
  In x l -> existsb (String.eqb x) seen = false -> In x (uniq seen l).
Proof.
  revert seen. induction l as [|y l IH]; intros seen Hin Hseen; [contradiction|].
  simpl. destruct (String.eqb x y) eqn:Exy.
  - apply String.eqb_eq in Exy. subst y. rewrite Hseen. now left.
  - destruct Hin as [->|Hin]; [now rewrite String.eqb_refl in Exy|].
    destruct (existsb (String.eqb y) seen); [now apply IH|].
    right. apply IH; [exact Hin|]. simpl. now rewrite Exy.
Qed.

Lemma getAllCities_covers (board : Board.t) (c : City.t) :
  In c (Board.cities board) ->
  exists c', In c' (BoardManager.getAllCities board) /\ City.id c' = City.id c.
Proof.
  intros Hin.
  destruct (BoardManager.getCityById board (City.id c)) as [c'|] eqn:Hget.
  - exists c'. split; [|now apply getCityById_In in Hget].
    unfold BoardManager.getAllCities.
    apply (mapDefined_intro _ _ (City.id c)); [|exact Hget].
    apply uniq_In; [|reflexivity]. now apply in_map.
  - unfold BoardManager.getCityById in Hget.
    apply in_rev in Hin. apply (find_none _ _ Hget c) in Hin.
    now rewrite String.eqb_refl in Hin.
Qed.

Lemma getRandomDestination_some (board : Board.t) (exclude : string) (rnd : nat)
      (c : City.t) :
  In c (Board.cities board) -> City.id c <> exclude ->
  exists city,
    BoardManager.getRandomDestination board (Some exclude) rnd = Some city
    /\ In city (Board.cities board) /\ City.id city <> exclude.
Proof.
  intros Hin Hne. unfold BoardManager.getRandomDestination. cbv zeta.
  set (candidates := filter _ (BoardManager.getAllCities board)).
  assert (Hsome : candidates <> []).
  { destruct (getAllCities_covers board c Hin) as [c' [Hc' Hid]].
    assert (H : In c' candidates).
    { apply filter_In. split; [exact Hc'|]. simpl. rewrite Hid.
      apply negb_true_iff, String.eqb_neq. congruence. }
    intros E. now rewrite E in H. }
  destruct (length candidates =? 0)%nat eqn:Elen.
  - apply Nat.eqb_eq in Elen. destruct candidates; [congruence | discriminate].
  - apply Nat.eqb_neq in Elen.
    destruct (nth_error candidates (rnd mod length candidates)) as [city|] eqn:Enth.
    + exists city. split; [reflexivity|].
      apply nth_error_In, filter_In in Enth. destruct Enth as [Hall Hnot].
      split.
      * unfold BoardManager.getAllCities in Hall. apply mapDefined_In in Hall.
        destruct Hall as [x [_ Hget]]. now apply getCityById_In in Hget.
      * simpl in Hnot. apply negb_true_iff, String.eqb_neq in Hnot. congruence.
    + apply nth_error_None in Enth.
      pose proof (Nat.mod_upper_bound rnd (length candidates) Elen). lia.
Qed.

Lemma getRandomDestination_none (board : Board.t) (exclude : string) (rnd : nat) :
  (forall c, In c (Board.cities board) -> City.id c = exclude) ->
  BoardManager.getRandomDestination board (Some exclude) rnd = None.
Proof.
  intros Hall. unfold BoardManager.getRandomDestination. cbv zeta.
  set (candidates := filter _ (BoardManager.getAllCities board)).
  assert (Hempty : candidates = []).
  { destruct candidates as [|c cs] eqn:E; [reflexivity|]. exfalso.
    assert (Hin : In c candidates) by (rewrite E; now left).
    apply filter_In in Hin. destruct Hin as [Hc Hnot].
    unfold BoardManager.getAllCities in Hc. apply mapDefined_In in Hc.
    destruct Hc as [x [_ Hget]]. apply getCityById_In in Hget.
    rewrite (Hall c (proj1 Hget)) in Hnot. simpl in Hnot.
    now rewrite String.eqb_refl in Hnot. }
  now rewrite Hempty.
Qed.

Lemma credit_arrived_money (i : string) (d : Z) (ps : list Player.t) :
  NoDup (map Player.id ps) ->
  sumOf Player.money
        (map (fun p => if negb (String.eqb (Player.id p) i) then p
                       else Player.credit d p) ps)
  = sumOf Player.money ps
    + (if existsb (fun p => String.eqb (Player.id p) i) ps then d else 0).
Proof.
  intros Hnd. rewrite sumOf_map, <- (sumOf_point i d ps Hnd), <- sumOf_plus.
  apply sumOf_ext_in. intros p _.
  destruct (String.eqb (Player.id p) i); simpl; lia.
Qed.

(** X28. An arrival credits the bonus of [calcArrivalBonus] to the money and
    to the total assets of the player alike, so a state whose total-assets
    equation holds keeps it; with distinct player ids all the money in play
    grows by exactly the bonus; the properties and every other player are
    kept.  The destination moves to a city of the board other than the old
    destination whenever the board has one, and stays where it is when every
    city of the board is the old destination. *)
Theorem processArrival_settles :
  forall (board : Board.t) (st : GameState.t) (playerId : string) (rnd : nat),
    let r := DestinationManager.processArrival board st playerId rnd in
    let st' := DestinationArrivalResult.newState r in
    DestinationArrivalResult.bonus r = DestinationManager.calcArrivalBonus st playerId
    /\ GameState.properties st' = GameState.properties st
    /\ GameState.destinationCityId st' = DestinationArrivalResult.newDestinationCityId r
    /\ (forall p, In p (GameState.players st) -> Player.id p <> playerId ->
                  In p (GameState.players st'))
    /\ (assetsInvariant st -> assetsInvariant st')
    /\ (distinctIds st ->
        totalMoney st' = totalMoney st + DestinationArrivalResult.bonus r)
    /\ (forall c, In c (Board.cities board) ->
                  City.id c <> GameState.destinationCityId st ->
                  DestinationArrivalResult.newDestinationCityId r
                  <> GameState.destinationCityId st
                  /\ In (DestinationArrivalResult.newDestinationCityId r)
                        (map City.id (Board.cities board)))
    /\ ((forall c, In c (Board.cities board) ->
                   City.id c = GameState.destinationCityId st) ->
        DestinationArrivalResult.newDestinationCityId r
        = GameState.destinationCityId st).
Proof.
  intros board st playerId rnd r st'. subst st' r.
  unfold DestinationManager.processArrival. cbv zeta. simpl.
  set (bonus := DestinationManager.calcArrivalBonus st playerId).
  split; [reflexivity|]. split; [reflexivity|]. split; [reflexivity|].
  split; [|split; [|split; [|split]]].
  - intros p Hin Hne. apply in_map_iff. exists p. split; [|exact Hin].
    apply String.eqb_neq in Hne. now rewrite Hne.
  - unfold assetsInvariant. simpl. intros Hinv. apply Forall_map.
    apply (Forall_impl _ (P := assetsBalanced (GameState.properties st)));
      [|exact Hinv].
    intros p Hp. destruct (String.eqb (Player.id p) playerId); simpl; [|exact Hp].
    unfold assetsBalanced in *. simpl. lia.
  - unfold distinctIds, totalMoney. simpl. intros Hnd.
    rewrite (credit_arrived_money playerId bonus _ Hnd). f_equal.
    destruct (existsb _ _) eqn:Ex; [reflexivity|].
    unfold bonus, DestinationManager.calcArrivalBonus.
    destruct (findPlayer (GameState.players st) playerId) eqn:Hfind;
      [|reflexivity].
    rewrite findPlayer_existsb in Ex; [discriminate | congruence].
  - intros c Hin Hne.
    destruct (getRandomDestination_some board _ rnd c Hin Hne)
      as [city [-> [Hcity Hother]]].
    split; [exact Hother | now apply in_map].
  - intros Hall. now rewrite (getRandomDestination_none board _ rnd Hall).
Qed.

(** On the line of three cities with Osaka as the destination, the arrival
    of [p1] moves the destination to another city of the line. *)
Lemma processArrival_settles_witness :
  DestinationArrivalResult.newDestinationCityId
    (DestinationManager.processArrival Fixtures.lineBoard Fixtures.state "p1" 0)
  <> "osaka"
  /\ In (DestinationArrivalResult.newDestinationCityId
           (DestinationManager.processArrival Fixtures.lineBoard Fixtures.state "p1" 0))
        ["tokyo"; "nagoya"; "osaka"].
Proof.
  apply (proj1 (proj2 (proj2 (proj2 (proj2 (proj2 (proj2
           (processArrival_settles Fixtures.lineBoard Fixtures.state "p1" 0)))))))
         Fixtures.tokyo).
  - simpl. now left.
  - discriminate.
Defined.

(** * The bankruptcy of a CPU player *)

Lemma findProperty_of_In (qs : list Property.t) (q : Property.t) :
  NoDup (map Property.id qs) -> In q qs -> findProperty qs (Property.id q) = Some q.
Proof.
  induction qs as [|x qs IH]; intros Hnd Hin; [contradiction|].
  simpl in Hnd. inversion Hnd as [|? ? Hx Hnd']; subst.
  unfold findProperty. simpl. destruct Hin as [->|Hin].
  - now rewrite String.eqb_refl.
  - destruct (String.eqb (Property.id x) (Property.id q)) eqn:E.
    + apply String.eqb_eq in E. exfalso. apply Hx. rewrite E. now apply in_map.
    + now apply IH.
Qed.

Lemma property_id_inj (qs : list Property.t) (q1 q2 : Property.t) :
  NoDup (map Property.id qs) -> In q1 qs -> In q2 qs ->
  Property.id q1 = Property.id q2 -> q1 = q2.
Proof.
  intros Hnd H1 H2 E.
  pose proof (findProperty_of_In qs q1 Hnd H1) as F1.
  pose proof (findProperty_of_In qs q2 Hnd H2) as F2.
  rewrite E in F1. congruence.
Qed.

Lemma owned_after_sale (qs : list Property.t) (playerId propertyId : string) :
  PropertyManager.getOwnedProperties
    (map (fun p => if String.eqb (Property.id p) propertyId
                   then Property.toMarket p else p) qs)
    playerId
  = filter (fun p => negb (String.eqb (Property.id p) propertyId))
           (PropertyManager.getOwnedProperties qs playerId).
Proof.
  unfold PropertyManager.getOwnedProperties.
  induction qs as [|x qs IH]; [reflexivity|]. simpl.
  destruct (String.eqb (Property.id x) propertyId) eqn:E; simpl.
  - destruct (isId (Property.ownerId x) playerId); simpl; rewrite ?E; simpl; exact IH.
  - destruct (isId (Property.ownerId x) playerId); simpl; rewrite ?E; simpl;
      now rewrite IH.
Qed.

Lemma sumOf_without (w : Property.t -> Z) (f : Property.t -> bool)
      (qs : list Property.t) (q : Property.t) :
  NoDup (map Property.id qs) -> In q qs -> f q = true ->
  sumOf w (filter f qs)
  = sumOf w (filter (fun p => negb (String.eqb (Property.id p) (Property.id q)))
                    (filter f qs))
    + w q.
Proof.
  induction qs as [|x qs IH]; intros Hnd Hin Hf; [contradiction|].
  simpl in Hnd. inversion Hnd as [|? ? Hx Hnd']; subst.
  destruct Hin as [->|Hin].
  - simpl. rewrite Hf. simpl. rewrite String.eqb_refl. simpl.
    rewrite (filter_all (fun p => negb (String.eqb (Property.id p) (Property.id q)))
               (filter f qs)); [lia|].
    intros p Hp. apply filter_In in Hp. destruct Hp as [Hp _].
    apply negb_true_iff, String.eqb_neq. intros E. apply Hx. rewrite <- E.
    now apply in_map.
  - assert (Hne : String.eqb (Property.id x) (Property.id q) = false).
    { apply String.eqb_neq. intros E. apply Hx. rewrite E. now apply in_map. }
    simpl. destruct (f x); simpl; rewrite ?Hne; simpl; rewrite (IH Hnd' Hin Hf); lia.
Qed.

Lemma sellCheapest_eq (fuel : nat) (st : GameState.t) (playerId : string)
      (requiredAmount : Z) (cur : Player.t) :
  GameScene.sellCheapest fuel st playerId requiredAmount cur
  = if negb (Player.money cur <? requiredAmount) then Some st
    else
      match reduce1 (fun p min => Property.price p <? Property.price min)
                    (PropertyManager.getOwnedProperties (GameState.properties st)
                                                        playerId) with
      | None => Some st
      | Some cheapest =>
          match fuel with
          | O => None
          | S fuel' =>
              GameScene.sellCheapest fuel'
                (PropertyManager.sellPropertyForcibly st playerId (Property.id cheapest))
                playerId requiredAmount
                (orElse (findPlayer
                           (GameState.players
                              (PropertyManager.sellPropertyForcibly st playerId
                                 (Property.id cheapest)))
                           playerId)
                        cur)
          end
      end.
Proof. destruct fuel; reflexivity. Qed.

(** One forced sale of a property the player owns. *)
Lemma sellPropertyForcibly_sells (st : GameState.t) (playerId : string)
      (q : Property.t) (cur : Player.t) :
  distinctProperties st ->
  findPlayer (GameState.players st) playerId = Some cur ->
  In q (PropertyManager.getOwnedProperties (GameState.properties st) playerId) ->
  let st1 := PropertyManager.sellPropertyForcibly st playerId (Property.id q) in
  (exists cur1,
      findPlayer (GameState.players st1) playerId = Some cur1
      /\ Player.money cur1 = Player.money cur + floorMul (Property.price q) (1 # 2))
  /\ PropertyManager.getOwnedProperties (GameState.properties st1) playerId
     = filter (fun p => negb (String.eqb (Property.id p) (Property.id q)))
              (PropertyManager.getOwnedProperties (GameState.properties st) playerId)
  /\ distinctProperties st1
  /\ assetsInvariant st1
  /\ (forall i, i <> playerId ->
                option_map Player.money (findPlayer (GameState.players st1) i)
                = option_map Player.money (findPlayer (GameState.players st) i)).
Proof.
  intros Hnd Hfind Hq st1.
  apply filter_In in Hq. destruct Hq as [Hin Hown].
  pose proof (findPlayer_id _ _ _ Hfind) as Hid.
  assert (E : st1 = PropertyManager.recalcTotalAssets
                      (GameState.with_properties
                         (map (fun p => if String.eqb (Property.id p) (Property.id q)
                                        then Property.toMarket p else p)
                              (GameState.properties st))
                         (GameState.with_players
                            (map (fun p => if String.eqb (Player.id p) playerId
                                           then Player.with_money
                                                  (Player.money p
                                                   + floorMul (Property.price q) (1 # 2)) p
                                           else p)
                                 (GameState.players st))
                            st))).
  { subst st1. unfold PropertyManager.sellPropertyForcibly.
    rewrite Hfind, (findProperty_of_In _ q Hnd Hin), Hown. reflexivity. }
  rewrite E. clear E st1.
  split; [|split; [|split; [|split]]].
  - rewrite recalcTotalAssets_players. simpl.
    rewrite findPlayer_map by reflexivity.
    rewrite findPlayer_map
      by (intros p; destruct (String.eqb (Player.id p) playerId); reflexivity).
    rewrite Hfind. simpl. rewrite Hid, String.eqb_refl.
    eexists. split; [reflexivity|]. reflexivity.
  - rewrite recalcTotalAssets_properties. simpl. apply owned_after_sale.
  - unfold distinctProperties. rewrite recalcTotalAssets_properties. simpl.
    rewrite map_map.
    rewrite (map_ext _ Property.id); [exact Hnd|].
    intros p. destruct (String.eqb _ _); reflexivity.
  - apply recalcTotalAssets_invariant.
  - intros i Hne. rewrite recalcTotalAssets_players. simpl.
    rewrite findPlayer_map by reflexivity.
    rewrite findPlayer_map
      by (intros p; destruct (String.eqb (Player.id p) playerId); reflexivity).
    destruct (findPlayer (GameState.players st) i) as [p|] eqn:Hp; [|reflexivity].
    simpl. apply findPlayer_id in Hp. rewrite Hp.
    apply String.eqb_neq in Hne. now rewrite Hne.
Qed.

(** The loop ends within as many rounds as the player owns properties. *)
Lemma sellCheapest_ends (playerId : string) (requiredAmount : Z) :
  forall (n : nat) (st : GameState.t) (cur : Player.t),
    distinctProperties st ->
    findPlayer (GameState.players st) playerId = Some cur ->
    (length (PropertyManager.getOwnedProperties (GameState.properties st) playerId)
     <= n)%nat ->
    exists st' cur',
      (forall fuel,
          (length (PropertyManager.getOwnedProperties (GameState.properties st)
                                                      playerId) <= fuel)%nat ->
          GameScene.sellCheapest fuel st playerId requiredAmount cur = Some st')
      /\ findPlayer (GameState.players st') playerId = Some cur'
      /\ (requiredAmount <= Player.money cur'
          \/ PropertyManager.getOwnedProperties (GameState.properties st') playerId = [])
      /\ (requiredAmount <= Player.money cur -> st' = st)
      /\ Player.money cur' + liquidationValue st' playerId
         = Player.money cur + liquidationValue st playerId
      /\ incl (PropertyManager.getOwnedProperties (GameState.properties st') playerId)
              (PropertyManager.getOwnedProperties (GameState.properties st) playerId)
      /\ (forall q q',
             In q (PropertyManager.getOwnedProperties (GameState.properties st) playerId) ->
             ~ In q (PropertyManager.getOwnedProperties (GameState.properties st')
                                                        playerId) ->
             In q' (PropertyManager.getOwnedProperties (GameState.properties st')
                                                       playerId) ->
             Property.price q <= Property.price q')
      /\ (assetsInvariant st -> assetsInvariant st')
      /\ (forall i, i <> playerId ->
                    option_map Player.money (findPlayer (GameState.players st') i)
                    = option_map Player.money (findPlayer (GameState.players st) i)).
Proof.
  induction n as [|n IH]; intros st cur Hnd Hfind Hlen.
  - exists st, cur.
    assert (Hnone : PropertyManager.getOwnedProperties (GameState.properties st) playerId
                    = []).
    { destruct (PropertyManager.getOwnedProperties _ _); [reflexivity|]. simpl in Hlen. lia. }
    split.
    { intros fuel _. rewrite sellCheapest_eq, Hnone. simpl.
      now destruct (negb _). }
    split; [exact Hfind|]. split; [now right|]. split; [reflexivity|].
    split; [reflexivity|]. split; [apply incl_refl|].
    split; [intros q q' _ _ Hq'; rewrite Hnone in Hq'; contradiction|].
    split; [exact id | reflexivity].
  - set (owned := PropertyManager.getOwnedProperties (GameState.properties st) playerId)
      in *.
    destruct (Player.money cur <? requiredAmount) eqn:Eshort.
    2:{ apply Z.ltb_ge in Eshort. exists st, cur.
        split; [intros fuel _; rewrite sellCheapest_eq;
                apply Z.ltb_ge in Eshort; now rewrite Eshort|].
        split; [exact Hfind|]. split; [now left|]. split; [reflexivity|].
        split; [reflexivity|]. split; [apply incl_refl|].
        split; [intros q q' Hq Hnot; contradiction|].
        split; [exact id | reflexivity]. }
    destruct (reduce1 (fun p min => Property.price p <? Property.price min) owned)
      as [cheapest|] eqn:Ered.
    2:{ exists st, cur.
        assert (Hnone : owned = []).
        { destruct owned; [reflexivity | discriminate]. }
        split; [intros fuel _; rewrite sellCheapest_eq; fold owned;
                now rewrite Eshort, Ered|].
        split; [exact Hfind|]. split; [now right|]. split; [reflexivity|].
        split; [reflexivity|]. split; [apply incl_refl|].
        split; [intros q q' _ _ Hq'; fold owned in Hq'; rewrite Hnone in Hq';
                contradiction|].
        split; [exact id | reflexivity]. }
    destruct (reduce1_first_least Property.price owned cheapest Ered)
      as (l1 & l2 & Hsplit & Hbefore & Hafter).
    assert (Hcheap : In cheapest owned).
    { rewrite Hsplit. apply in_or_app. right. now left. }
    assert (Hleast : forall p, In p owned -> Property.price cheapest <= Property.price p).
    { intros p Hp. rewrite Hsplit in Hp. apply in_app_or in Hp.
      destruct Hp as [Hp|[<-|Hp]]; [apply Hbefore in Hp; lia | lia | now apply Hafter]. }
    destruct (sellPropertyForcibly_sells st playerId cheapest cur Hnd Hfind Hcheap)
      as ((cur1 & Hfind1 & Hmoney1) & Howned1 & Hnd1 & Hinv1 & Hother1).
    set (st1 := PropertyManager.sellPropertyForcibly st playerId (Property.id cheapest))
      in *.
    fold owned in Howned1.
    assert (Hlen1 : (length (PropertyManager.getOwnedProperties
                               (GameState.properties st1) playerId)
                     < length owned)%nat).
    { rewrite Howned1.
      rewrite <- (filter_all (fun _ => true) owned (fun _ _ => eq_refl)) at 2.
      apply (filter_length_lt _ _ owned cheapest); [reflexivity | exact Hcheap
                                                    | reflexivity|].
      now rewrite String.eqb_refl. }
    destruct (IH st1 cur1 Hnd1 Hfind1 ltac:(lia))
      as (st' & cur' & Hrun & Hfind' & Hdone & _ & Hvalue & Hincl & Horder & Hinv' & Hother).
    assert (Hsub : incl (PropertyManager.getOwnedProperties
                           (GameState.properties st1) playerId) owned).
    { rewrite Howned1. intros p Hp. now apply filter_In in Hp. }
    exists st', cur'.
    split.
    { intros fuel Hfuel. rewrite sellCheapest_eq. fold owned.
      rewrite Eshort, Ered. simpl.
      destruct fuel as [|fuel]; [destruct owned; [contradiction | simpl in Hfuel; lia]|].
      fold st1. rewrite Hfind1. simpl. apply Hrun. lia. }
    split; [exact Hfind'|]. split; [exact Hdone|].
    split; [intros Hge; apply Z.ltb_lt in Eshort; lia|].
    split.
    { rewrite Hvalue, Hmoney1. unfold liquidationValue. fold owned.
      rewrite Howned1. unfold owned, PropertyManager.getOwnedProperties.
      rewrite (sumOf_without (fun p => floorMul (Property.price p) (1 # 2)) _
                 (GameState.properties st) cheapest Hnd);
        [lia | |].
      - apply filter_In in Hcheap. tauto.
      - apply filter_In in Hcheap. tauto. }
    split; [intros p Hp; apply Hsub, Hincl, Hp|].
    split.
    { intros q q' Hq Hnot Hq'.
      destruct (String.eqb (Property.id q) (Property.id cheapest)) eqn:Eq.
      - apply String.eqb_eq in Eq.
        assert (q = cheapest).
        { apply (property_id_inj (GameState.properties st)); [exact Hnd | | | exact Eq].
          - apply filter_In in Hq. tauto.
          - apply filter_In in Hcheap. tauto. }
        subst q. apply Hleast, Hsub, Hincl, Hq'.
      - apply (Horder q q'); [|exact Hnot | exact Hq'].
        rewrite Howned1. apply filter_In. split; [exact Hq|]. now rewrite Eq. }
    split.
    { intros _. now apply Hinv'. }
    intros i Hne. rewrite (Hother i Hne). now apply Hother1.
Qed.

(** X29. The liquidation of a CPU player ends.  When property ids are
    distinct, [handleBankruptcy] for a CPU player of the state resolves
    within as many rounds as the player owns properties, in a state where
    the player has the required amount or owns nothing any more.  Nothing is
    sold when the money already suffices; what is sold is paid at the floored
    half of its price, so the money plus the liquidation value of what is
    still owned is unchanged; the properties sold are the cheapest ones, none
    dearer than one that is kept; the total-assets equation is kept and no
    other player's money changes. *)
Theorem cpu_liquidation :
  forall (st : GameState.t) (playerId : string) (requiredAmount : Z)
         (player : Player.t),
    distinctProperties st ->
    findPlayer (GameState.players st) playerId = Some player ->
    Player.type player = cpu ->
    let owned := PropertyManager.getOwnedProperties (GameState.properties st) playerId in
    exists st' player',
      let owned' :=
        PropertyManager.getOwnedProperties (GameState.properties st') playerId in
      (forall fuel,
          (length owned <= fuel)%nat ->
          GameScene.handleBankruptcy fuel st playerId requiredAmount
          = Some (Returned (bankruptcy_resolved st')))
      /\ findPlayer (GameState.players st') playerId = Some player'
      /\ (requiredAmount <= Player.money player' \/ owned' = [])
      /\ (requiredAmount <= Player.money player -> st' = st)
      /\ Player.money player' + liquidationValue st' playerId
         = Player.money player + liquidationValue st playerId
      /\ incl owned' owned
      /\ (forall q q', In q owned -> ~ In q owned' -> In q' owned' ->
                       Property.price q <= Property.price q')
      /\ (assetsInvariant st -> assetsInvariant st')
      /\ (forall i, i <> playerId ->
                    option_map Player.money (findPlayer (GameState.players st') i)
                    = option_map Player.money (findPlayer (GameState.players st) i)).
Proof.
  intros st playerId requiredAmount player Hnd Hfind Hcpu owned.
  destruct (sellCheapest_ends playerId requiredAmount (length owned) st player
              Hnd Hfind (Nat.le_refl _))
    as (st' & player' & Hrun & Hrest).
  exists st', player'. cbv zeta. split; [|exact Hrest].
  intros fuel Hfuel. unfold GameScene.handleBankruptcy.
  rewrite Hfind, Hcpu. cbv zeta. now rewrite (Hrun fuel Hfuel).
Qed.

(** The CPU player of [brokeState] has 100 and must pay 500: the cheaper
    of its two properties is sold. *)
Lemma cpu_liquidation_witness :
  exists st' player',
    (forall fuel,
        (2 <= fuel)%nat ->
        GameScene.handleBankruptcy fuel Fixtures.brokeState "p1" 500
        = Some (Returned (bankruptcy_resolved st')))
    /\ findPlayer (GameState.players st') "p1" = Some player'
    /\ (500 <= Player.money player'
        \/ PropertyManager.getOwnedProperties (GameState.properties st') "p1" = [])
    /\ (500 <= 100 -> st' = Fixtures.brokeState)
    /\ Player.money player' + liquidationValue st' "p1"
       = 100 + liquidationValue Fixtures.brokeState "p1"
    /\ incl (PropertyManager.getOwnedProperties (GameState.properties st') "p1")
            (GameState.properties Fixtures.brokeState)
    /\ (forall q q',
           In q (GameState.properties Fixtures.brokeState) ->
           ~ In q (PropertyManager.getOwnedProperties (GameState.properties st') "p1") ->
           In q' (PropertyManager.getOwnedProperties (GameState.properties st') "p1") ->
           Property.price q <= Property.price q')
    /\ (assetsInvariant Fixtures.brokeState -> assetsInvariant st')
    /\ (forall i, i <> "p1" ->
                  option_map Player.money (findPlayer (GameState.players st') i)
                  = option_map Player.money
                      (findPlayer (GameState.players Fixtures.brokeState) i)).
Proof.
  apply (cpu_liquidation Fixtures.brokeState "p1" 500 Fixtures.brokeCpu).
  - unfold distinctProperties. simpl.
    repeat constructor; simpl; intuition discriminate.
  - reflexivity.
  - reflexivity.
Defined.

(** Distinct ids are needed: when the id of the cheapest property owned is
    also the id of an earlier property of another owner, no sale takes place
    and the loop does not end. *)
Lemma sellCheapest_repeated_id (fuel : nat) :
  GameScene.sellCheapest fuel Fixtures.repeatedIdState "p1" 500 Fixtures.brokeCpu
  = None.
Proof.
  induction fuel as [|fuel IH]; [reflexivity|].
  rewrite sellCheapest_eq. exact IH.
Qed.

(** * The prospects of a monopoly *)

Lemma canMonopolize_iff (st : GameState.t) (playerId cityId : string) :
  CpuManager.canMonopolize st playerId cityId = true
  <-> (exists p, In p (GameState.properties st) /\ Property.cityId p = cityId)
      /\ (forall p, In p (GameState.properties st) -> Property.cityId p = cityId ->
                    Property.ownerId p = Some playerId \/ Property.ownerId p = None).
Proof.
  unfold CpuManager.canMonopolize, PropertyManager.getPropertiesByCity. cbv zeta.
  set (cityProps := filter _ (GameState.properties st)).
  assert (Hmem : forall p, In p cityProps
                           <-> In p (GameState.properties st) /\ Property.cityId p = cityId).
  { intros p. unfold cityProps. rewrite filter_In. now rewrite String.eqb_eq. }
  assert (Howner : forall p, isId (Property.ownerId p) playerId
                             || isNull (Property.ownerId p) = true
                             <-> Property.ownerId p = Some playerId
                                 \/ Property.ownerId p = None).
  { intros p. destruct (Property.ownerId p) as [o|]; simpl.
    - rewrite orb_false_r, String.eqb_eq. split.
      + intros ->. now left.
      + intros [H|H]; congruence.
    - split; [now right | reflexivity]. }
  destruct (length cityProps =? 0)%nat eqn:Elen.
  - apply Nat.eqb_eq in Elen. split; [discriminate|].
    intros [[p Hp] _]. apply Hmem in Hp.
    destruct cityProps; [contradiction | discriminate].
  - rewrite forallb_forall. split.
    + intros Hall. split.
      * destruct cityProps as [|p l] eqn:E; [discriminate|].
        exists p. apply Hmem. now left.
      * intros p Hin Hcity. apply Howner, Hall, Hmem. now split.
    + intros [_ Hall] p Hp. apply Hmem in Hp. apply Howner. now apply Hall.
Qed.

(** X30. What the CPU takes for a city it can still monopolise.  A player
    who holds the monopoly of a city can monopolise it, and a player who can
    monopolise a city in which no property is left unowned holds the
    monopoly.  The hard CPU buys every property it can pay in such a city.
    When a player buys a property, every city the player could monopolise
    before can still be monopolised by that player, and no other player can
    monopolise the city of the property any more. *)
Theorem monopoly_prospects :
  forall (st st' : GameState.t) (player : Player.t) (property : Property.t)
         (cityId other : string) (d : CpuDraws.t),
    (PropertyManager.hasMonopoly (GameState.properties st) cityId (Player.id player) = true ->
     CpuManager.canMonopolize st (Player.id player) cityId = true)
    /\ (CpuManager.canMonopolize st (Player.id player) cityId = true ->
        (forall p, In p (GameState.properties st) -> Property.cityId p = cityId ->
                   Property.ownerId p <> None) ->
        PropertyManager.hasMonopoly (GameState.properties st) cityId (Player.id player)
        = true)
    /\ (Player.difficulty player = hard ->
        CpuManager.canMonopolize st (Player.id player) (Property.cityId property) = true ->
        Property.price property <= Player.money player ->
        CpuManager.decidePurchase st player property d
        = CpuDecision.buyProperty (Property.id property))
    /\ (findProperty (GameState.properties st) (Property.id property) = Some property ->
        PropertyManager.buyProperty st (Player.id player) (Property.id property)
        = PurchaseResult.mk true None (Some st') ->
        (CpuManager.canMonopolize st (Player.id player) cityId = true ->
         CpuManager.canMonopolize st' (Player.id player) cityId = true)
        /\ (other <> Player.id player ->
            CpuManager.canMonopolize st' other (Property.cityId property) = false)).
Proof.
  intros st st' player property cityId other d.
  split; [|split; [|split]].
  - rewrite hasMonopoly_iff, canMonopolize_iff. intros [Hsome Hall].
    split; [exact Hsome|]. intros p Hin Hcity. left. now apply Hall.
  - rewrite hasMonopoly_iff, canMonopolize_iff. intros [Hsome Hall] Hsold.
    split; [exact Hsome|]. intros p Hin Hcity.
    destruct (Hall p Hin Hcity) as [H|H]; [exact H|].
    now elim (Hsold p Hin Hcity).
  - intros Hhard Hcan Hprice. unfold CpuManager.decidePurchase. rewrite Hhard.
    unfold CpuManager.decidePurchaseHard, PropertyManager.getCurrentPrice. cbv zeta.
    destruct (Z.ltb_spec (Player.money player) (Property.price property)); [lia|].
    now rewrite Hcan.
  - intros Hprop Hbuy.
    assert (Hprops : GameState.properties st'
                     = map (fun p => if String.eqb (Property.id p) (Property.id property)
                                     then Property.with_ownerId (Some (Player.id player)) p
                                     else p)
                           (GameState.properties st)).
    { unfold PropertyManager.buyProperty in Hbuy. rewrite Hprop in Hbuy.
      destruct (findPlayer _ _); [|discriminate].
      destruct (negb _); [discriminate|]. cbv zeta in Hbuy.
      destruct (_ <? _); [discriminate|].
      injection Hbuy as <-. now rewrite recalcTotalAssets_properties. }
    split.
    + rewrite !canMonopolize_iff, Hprops. intros [[p [Hin Hcity]] Hall]. split.
      * exists (if String.eqb (Property.id p) (Property.id property)
                then Property.with_ownerId (Some (Player.id player)) p else p).
        split; [apply in_map_iff; exists p; now split|].
        now destruct (String.eqb _ _).
      * intros q Hq Hqcity. apply in_map_iff in Hq. destruct Hq as [q0 [<- Hq0]].
        destruct (String.eqb (Property.id q0) (Property.id property));
          [now left|]. now apply Hall.
    + intros Hother.
      destruct (CpuManager.canMonopolize st' other (Property.cityId property)) eqn:Ecan;
        [|reflexivity].
      exfalso. apply canMonopolize_iff in Ecan. destruct Ecan as [_ Hall].
      unfold findProperty in Hprop. apply find_some in Hprop.
      destruct Hprop as [Hin _].
      destruct (Hall (Property.with_ownerId (Some (Player.id player)) property))
        as [H|H]; [| reflexivity | simpl in H; congruence | discriminate].
      rewrite Hprops. apply in_map_iff. exists property. split; [|exact Hin].
      now rewrite String.eqb_refl.
Qed.

(** In the state of the property tests nobody owns anything in Tokyo: after
    [p1] has bought [prop1], [p1] can still monopolise Tokyo and [p2] cannot
    any more. *)
Lemma monopoly_prospects_witness :
  (CpuManager.canMonopolize Fixtures.state "p1" "tokyo" = true ->
   CpuManager.canMonopolize Fixtures.boughtState "p1" "tokyo" = true)
  /\ ("p2" <> "p1" ->
      CpuManager.canMonopolize Fixtures.boughtState "p2" "tokyo" = false).
Proof.
  apply (proj2 (proj2 (proj2
           (monopoly_prospects Fixtures.state Fixtures.boughtState Fixtures.p1
              Fixtures.prop1 "tokyo" "p2" Fixtures.cpuDraws)))).
  - reflexivity.
  - reflexivity.
Defined.
